(* ===== verification/_CoqProject ===== *)
-Q . S2P
Prelude.v
Constants.v
State.v
Codec.v
Header.v
Unmarshal.v
Handle.v
Marshal.v
OpenSSL.v
Crypto.v
Nv.v
NvRefine.v
Device.v
DeviceInv.v
DeviceSteps.v
DeviceLive.v
Memory.v
MemoryView.v
Access.v
PhysMap.v
PhysTree.v
PhysMapSpec.v
PhysIO.v
PhysIOSpec.v
Loader.v
LoaderSpec.v
Uart.v
UartInv.v
Bus.v
FwUart.v
FwUartSpec.v
FwTpm.v
FwTpmSpec.v
Transact.v
EndToEnd.v
Menu.v
Board.v
BoardIO.v
Startup.v
Migration.v
Platform.v
