(* ===== verification/Prelude.v ===== *)
(** * A TPM 2.0 device for QEMU, its board and its firmware

    The program emulates a small TPM 2.0 as a QEMU device ([src/qemu/hw/tpm],
    [src/qemu/include/tpm]), puts it with a UART ([src/qemu/hw/char]) on a
    Cortex-M board ([src/qemu/hw/arm]), and runs a bare-metal firmware on it
    ([src/firmware]) that sends commands chosen from a menu on the serial
    console.  A command goes word by word through the data register into the
    command buffer, is started by the command register, has its header validated
    and its parameters unmarshalled, runs its handler (random numbers, primary
    keys, NV storage encrypted under the primary key), and its marshalled reply
    is read word by word.

    ** The files and the code they model

    - [Prelude]: C integers ([u8] ... [u64], [s32]), memory objects as lists of
      bytes with bounded [load] and [store], pointers as offsets, big-endian
      codes, the result types, record updates, tactics and hints.
    - [Constants], [State]: the constants and the structures of
      [include/tpm/tpm2_*.h]; [TPM2State] is the device state.
    - [Header]: [command_chain/cc_header.h] and [hw/tpm/tpm_cc.c].
      [Unmarshal]: [cc_unmarshal.h].  [Marshal]: [cc_marshal.h].  [Handle]:
      [cc_handle.h], which no file of the program includes.  [Codec] is the interface
      between the parsers and their clients: the classes say that a parser reads
      nothing outside of the body and what it accepts.
    - [OpenSSL]: the library as a class of operations, with the laws that its
      documentation promises; [Toy] is an instance that satisfies them.
      [Crypto]: [hw/tpm/tpm_crypto.c].
    - [Nv]: [hw/tpm/tpm_nv.c].  [NvRefine]: the storage refines a map from
      indices to cells.
    - [Device]: [hw/tpm/tpm_hw.c], registers, dispatcher, handlers, reset and
      realization.  [DeviceInv], [DeviceSteps]: its invariant and what each
      command replies.  [DeviceLive]: endless sequences of accesses.
    - [Memory]: the part of [system/memory.c] that builds regions and renders
      their tree into a flat view; [MemoryView] relates the view to the tree.
      [Access]: how the same file checks, splits and swaps accesses.
      [PhysMap]: the radix tree of [system/physmem.c] that finds the region of an
      address; [PhysTree], [PhysMapSpec]: it finds what the view shows.  [PhysIO]:
      transfers of any length over that tree; [PhysIOSpec]: memory is an array.
    - [Loader]: the images of [hw/core/loader.c], the ELF loader of
      [include/hw/elf_ops.h.inc] and [armv7m_load_kernel]; [LoaderSpec]: images end
      up in memory.
    - [Uart]: [hw/char/nxps32k3x8evb_uart.c].  [UartInv]: its invariant, and its
      receive FIFO as a queue.
    - [Bus]: firmware as functions on the state of a machine with a memory bus.
      [FwUart]: [firmware/uart.c].  [FwTpm]: [firmware/main.c].  [FwUartSpec],
      [FwTpmSpec]: what they do on a machine that satisfies the interfaces
      [Console] and [TpmPort].
    - [Transact]: commands by code and parameters.  [EndToEnd], [Menu]:
      transactions between firmware and device, and the menu.
    - [Board]: [hw/arm/nxps32k3x8evb_mcu.c], [nxps32k3x8evb.c] and the container
      of [armv7m.c]: the tree of regions, the address map the CPU sees, the
      machine and its accesses.  [BoardIO]: transfers there.  [Startup]:
      [firmware/startup.s], [linker.ld], the ELF file of the firmware and the reset
      of the CPU.  [Migration]: saving and restoring the devices.
      [Platform]: the machine satisfies [TpmPort]; the firmware from power on.

    ** Conventions

    A C function is a Rocq function that takes the state (or the array) it
    changes and returns it.  Undefined behaviour, an access outside of an array
    in particular, is a value of its own: [UB] in [res] and [wres], [None] in
    [option], [Fault] in [fw].  A response code is a value of [Z] in the result,
    as in the code; [TPM_RC_VALUE] is 0, the code of success, since
    [tpm2_alg_structs.h] defines it so over the value of [tpm2_rc.h], and the
    functions that return it are read accordingly.  Integers keep their width: the
    conversions are written out where the C arithmetic can wrap.

    What the program takes from elsewhere is a parameter: the class [OpenSSL]
    with [OpenSSLLaws], and [Layout], what the compiler decides: the bytes that a C
    structure has in memory where the code hashes it, and the bytes that lie on the
    stack behind the object of type [TPM2B_NAME] of the two callers of
    [tpm2_CreatePrimary].  That object has two bytes, and the 34 of a name are
    written behind it; without 34 bytes there the model stops as for every other
    overrun.  [NameRoom] says that there are as many; only the theorems on the whole
    machine, which goes through the self test of the realization, assume it.
    Whether the memory of the NV bank can be allocated is an argument of
    [tpm2_realize].  The random bytes of OpenSSL are a function of the number of
    calls so far.

    ** What is proved

    - The device: an invariant of all states reachable by register accesses
      and resets ([device_invariant]); every command is answered by a reply that the client
      can decode, or belongs to an exactly described set of commands for which
      the code leaves an array ([execute_replies]); the handlers and the
      realization on every branch; a client that keeps on reading gets the device out of a reply.
    - The storage: definition and write refine operations on a finite map, where a
      write past the end of an index is reported as a success and ignored; reading
      back what was written; isolation of the indices.
    - Parsers and marshallers: the accepted inputs exactly, with the commands whose
      authorization area the code means to refuse and accepts; round trips, and the
      order of the errors.
    - Cryptography: the KDFa loop computes the specified stream, AES-CFB is
      inverted by decryption.
    - The UART: its invariant, under resets too, which leave the interrupt lines
      as they were; its FIFO as a bounded queue, the overrun in
      loopback mode, and that a saved UART is restored.
    - The firmware: formatted printing stays in its buffer and prints numbers
      and dumps that read back; sending and receiving a command is a faithful
      transaction; the menu never faults; after power on the text written to an
      NV index comes back.
    - The memory core: the flat view shows at every address what the tree of
      regions resolves it to; the radix tree, with its subpages, its compression
      and its cache, finds the same, and its assertions hold as long as the view
      has at most 204 ranges (five sections for each, of at most 1024); an access
      split into pieces gives the bytes in their order, and one that is narrower than
      the handler reaches the bytes behind it; a sequence of transfers to
      memory does what it would do to one array of bytes.
    - The board: its address map, which part of the flash is backed, what the CPU
      does to the device registers with each size of access, that its memories
      keep what loaders and debuggers write there, and that an ELF file of the
      firmware, of one segment or two, is in memory, and its code started, after
      every reset; the variables are cleared only if there are data in front.

    ** Loops and fuel

    The loops of the device are structural, over the bytes or the blocks they
    process; the KDFa loop has as fuel the number of bytes to produce, of which
    each round yields at least one.  The firmware loops over words take the
    number of bytes as fuel, which the theorems show to be enough.  The
    busy-wait loops poll at most [fuel] times; one poll is enough, since the
    device has answered when the register write returns, so the theorems ask for
    [0 < fuel] only.  The endless loop of [main] is run for a given number of
    rounds.  The binary search and the loop over the pieces of an access have the
    length of the view and the size of the access as fuel, a transfer its length,
    since every piece has a byte at least; the walk and the
    compression of the radix tree have its number of levels.

    ** Not modelled

    The rest of the QEMU core (object model, event loop, CPU, memory transactions
    and listeners, other devices) and the logging and trace calls; the interrupt
    wiring of the board, since the firmware polls; the machine code of the
    firmware, whose functions and variables are Rocq functions and values here; the test
    suites of the firmware, whose assertions are about single inputs and mocks of their
    own; functions that are commented out. *)
From stdpp Require Import base list numbers option.
From Stdlib Require Import Lia ZArith.

Declare Scope tpm_scope.
Delimit Scope tpm_scope with tpm.
Open Scope Z_scope.
Open Scope tpm_scope.

(** ** Machine integers

    A [uintN_t] is a [Z]; the conversions below are the C conversions to the
    unsigned type of that width. *)
Definition u8 (z : Z) : Z := z mod 2 ^ 8.
Definition u16 (z : Z) : Z := z mod 2 ^ 16.
Definition u32 (z : Z) : Z := z mod 2 ^ 32.
Definition u64 (z : Z) : Z := z mod 2 ^ 64.
(** An [int], with wrap-around. *)
Definition s32 (z : Z) : Z := (z + 2 ^ 31) mod 2 ^ 32 - 2 ^ 31.

Definition is_u8 (z : Z) : Prop := 0 ≤ z < 256.
Definition is_u16 (z : Z) : Prop := 0 ≤ z < 65536.
Definition is_u32 (z : Z) : Prop := 0 ≤ z < 4294967296.
Definition is_u64 (z : Z) : Prop := 0 ≤ z < 18446744073709551616.

(** A list of octets. *)
Definition bytes (l : list Z) : Prop := Forall is_u8 l.

#[export] Instance is_u8_dec z : Decision (is_u8 z).
Proof. unfold is_u8. apply _. Defined.
#[export] Instance bytes_dec l : Decision (bytes l).
Proof. unfold bytes. apply _. Defined.

Definition zlen {A} (l : list A) : Z := Z.of_nat (length l).

(** ** Outcomes of C functions that return a [TPM_RC]

    [Ok] carries the values of the output parameters, [Err] the response code
    of an early return, and [UB] is an access outside of an object. *)
Inductive res (A : Type) : Type :=
| Ok (a : A)
| Err (rc : Z)
| UB.
Arguments Ok {A} a.
Arguments Err {A} rc.
Arguments UB {A}.

#[export] Instance res_ret : MRet res := fun A a => Ok a.
#[export] Instance res_bind : MBind res := fun A B f c =>
  match c with Ok a => f a | Err rc => Err rc | UB => UB end.

Definition of_opt {A} (o : option A) : res A :=
  match o with Some a => Ok a | None => UB end.

(** A call whose failure ends the caller: [let? x := call else r in rest]. *)
Notation "'let?' x := e 'else' r 'in' k" :=
  (match e with Some x => k | None => r end)
  (at level 10, x pattern, e at level 200, r at level 200, k at level 200,
   format "'let?'  x  :=  e  'else'  r  'in' '//' k") : tpm_scope.

(** [if (c) return rc;] *)
Definition fail_if (c : bool) (rc : Z) : res unit :=
  if c then Err rc else Ok tt.

(** ** Memory objects and pointers

    A C array is the list of its elements.  A pointer into it is its index,
    or [NULL].  A [load] or [store] that leaves the array is [None]. *)
Definition ptr := option Z.
Definition NULL : ptr := None.
Definition padd (p : ptr) (n : Z) : ptr := (fun q => q + n) <$> p.
Notation "p +p n" := (padd p n) (at level 50, left associativity) : tpm_scope.

Definition load (m : list Z) (p n : Z) : option (list Z) :=
  if (0 <=? p) && (0 <=? n) && (p + n <=? zlen m)
  then Some (take (Z.to_nat n) (drop (Z.to_nat p) m)) else None.

Definition store (m : list Z) (p : Z) (bs : list Z) : option (list Z) :=
  if (0 <=? p) && (p + zlen bs <=? zlen m)
  then Some (take (Z.to_nat p) m ++ bs ++ drop (Z.to_nat p + length bs) m)
  else None.

(** ** Big-endian integers

    [byte_at v k] is both [(v >> k) & 0xFF] and [(UINT8)(v >> k)]. *)
Definition byte_at (v k : Z) : Z := Z.land (Z.shiftr v k) 255.

Definition be16 (b0 b1 : Z) : Z := Z.lor (Z.shiftl b0 8) b1.
Definition be32 (b0 b1 b2 b3 : Z) : Z :=
  Z.lor (Z.lor (Z.lor (Z.shiftl b0 24) (Z.shiftl b1 16)) (Z.shiftl b2 8)) b3.

Definition to_be16 (v : Z) : list Z := [byte_at v 8; byte_at v 0].
Definition to_be32 (v : Z) : list Z :=
  [byte_at v 24; byte_at v 16; byte_at v 8; byte_at v 0].

Definition be64 (b0 b1 b2 b3 b4 b5 b6 b7 : Z) : Z :=
  Z.lor (Z.lor (Z.lor (Z.lor (Z.lor (Z.lor (Z.lor (Z.shiftl b0 56) (Z.shiftl b1 48))
    (Z.shiftl b2 40)) (Z.shiftl b3 32)) (Z.shiftl b4 24)) (Z.shiftl b5 16))
    (Z.shiftl b6 8)) b7.
Definition to_be64 (v : Z) : list Z :=
  [byte_at v 56; byte_at v 48; byte_at v 40; byte_at v 32;
   byte_at v 24; byte_at v 16; byte_at v 8; byte_at v 0].

Definition ld8 (m : list Z) (p : Z) : res Z :=
  match load m p 1 with Some [b] => Ok b | _ => UB end.
Definition ld16 (m : list Z) (p : Z) : res Z :=
  match load m p 2 with Some [b0; b1] => Ok (be16 b0 b1) | _ => UB end.
Definition ld32 (m : list Z) (p : Z) : res Z :=
  match load m p 4 with
  | Some [b0; b1; b2; b3] => Ok (be32 b0 b1 b2 b3)
  | _ => UB
  end.

Definition ld64 (m : list Z) (p : Z) : res Z :=
  match load m p 8 with
  | Some [b0; b1; b2; b3; b4; b5; b6; b7] => Ok (be64 b0 b1 b2 b3 b4 b5 b6 b7)
  | _ => UB
  end.

(** ** Outcomes of the functions that marshal into a buffer

    The buffer is part of the outcome on the error paths too: a marshalling
    function that fails half-way leaves what it wrote. *)
Inductive wres : Type :=
| Wrote (n : Z) (m : list Z)
| WFail (rc : Z) (m : list Z)
| WUB.

(** [if (rc != TPM_RC_SUCCESS) return rc; offset += consumed;] *)
Definition wthen (offset : Z) (r : wres) (k : Z -> list Z -> wres) : wres :=
  match r with
  | Wrote n m => k (u32 (offset + n)) m
  | WFail rc m => WFail rc m
  | WUB => WUB
  end.

(** Stores [bs] at [p] and reports its length as the number of bytes written. *)
Definition wput (m : list Z) (p : Z) (bs : list Z) : wres :=
  match store m p bs with Some m' => Wrote (zlen bs) m' | None => WUB end.

(** ** Record update, [r <| field := v |>] *)
Class Setter {R T : Type} (proj : R -> T) := set_field : T -> R -> R.
#[global] Hint Mode Setter - - ! : typeclass_instances.
#[global] Arguments set_field {R T} proj {Setter} _ _ : simpl never.
Notation "r <| f := v |>" := (set_field f v r)
  (at level 1, f at next level, left associativity,
   format "r  <| f  :=  v |>") : tpm_scope.

(** [setter eta proj] builds the update function of [proj] from the
    eta-expansion [eta] of its record. *)
Ltac setter eta proj :=
  match goal with
  | |- @Setter ?R ?T _ =>
      let v := fresh "v" in let r := fresh "r" in
      refine (fun (v : T) (r : R) => _);
      let e := eval unfold eta in (eta r) in
      let p := eval pattern (proj r) in e in
      match p with ?f _ => let b := eval cbv beta in (f v) in exact b end
  end.

(** Reads fields through updates.  The equation is checked for variables and
    then instantiated, so the depth of the updates does not matter. *)
Lemma field_inst {R T U} (f g : T -> R -> U) (v : T) (r : R) :
  (forall v r, f v r = g v r) -> f v r = g v r.
Proof. done. Qed.
Ltac field_eq R T p q i v r :=
  let f := constr:(fun (v0 : T) (r0 : R) => p (@set_field R T q i v0 r0)) in
  let g := lazymatch p with
           | q => constr:(fun (v0 : T) (r0 : R) => v0)
           | _ => constr:(fun (v0 : T) (r0 : R) => p r0)
           end in
  let a := eval cbv beta in (f v r) in
  let b := eval cbv beta in (g v r) in
  constr:(field_inst f g v r (fun _ _ => eq_refl) : a = b).
Ltac fields :=
  repeat match goal with
  | |- context [?p (@set_field ?R ?T ?q ?i ?v ?r)] =>
      is_const p; let e := field_eq R T p q i v r in rewrite e
  end.
Ltac fields_in H :=
  repeat match type of H with
  | context [?p (@set_field ?R ?T ?q ?i ?v ?r)] =>
      is_const p; let e := field_eq R T p q i v r in rewrite e in H
  end.

(** ** Automation *)
Create HintDb tpm discriminated.
Create Rewrite HintDb zlen.

(** Splits the conjunctions of hypotheses and case-analyses the guards. *)
Ltac guards :=
  repeat match goal with
  | H : context [if ?b then _ else _] |- _ => destruct b eqn:?
  | |- context [if ?b then _ else _] => destruct b eqn:?
  end.

Ltac simp_res :=
  repeat (first
    [ progress (unfold mbind, mret, res_bind, res_ret, of_opt, fail_if in *)
    | progress simplify_eq/=
    | match goal with
      | H : (match ?x with Ok _ => _ | Err _ => _ | UB => _ end) = _ |- _ =>
          destruct x eqn:?
      | H : (match ?x with Some _ => _ | None => _ end) = _ |- _ =>
          destruct x eqn:?
      end ]).

Lemma zlen_nil {A} : zlen (@nil A) = 0.
Proof. done. Qed.
Lemma zlen_cons {A} (x : A) l : zlen (x :: l) = 1 + zlen l.
Proof. unfold zlen. simpl. lia. Qed.
Lemma zlen_app {A} (l k : list A) : zlen (l ++ k) = zlen l + zlen k.
Proof. unfold zlen. rewrite length_app. lia. Qed.
Lemma zlen_nonneg {A} (l : list A) : 0 <= zlen l.
Proof. unfold zlen. lia. Qed.
Lemma zlen_take {A} n (l : list A) :
  0 <= n -> zlen (take (Z.to_nat n) l) = Z.min n (zlen l).
Proof. unfold zlen. rewrite length_take. lia. Qed.
Lemma zlen_drop {A} n (l : list A) :
  zlen (drop (Z.to_nat n) l) = Z.max 0 (zlen l - Z.max 0 n).
Proof. unfold zlen. rewrite length_drop. lia. Qed.
Lemma zlen_replicate {A} n (x : A) : 0 <= n -> zlen (replicate (Z.to_nat n) x) = n.
Proof. unfold zlen. rewrite length_replicate. lia. Qed.
#[export] Hint Rewrite @zlen_nil @zlen_cons @zlen_app : zlen.

Lemma u8_id z : is_u8 z -> u8 z = z.
Proof. intros H. apply Z.mod_small. exact H. Qed.
Lemma u16_id z : is_u16 z -> u16 z = z.
Proof. intros H. apply Z.mod_small. exact H. Qed.
Lemma u32_id z : is_u32 z -> u32 z = z.
Proof. intros H. apply Z.mod_small. exact H. Qed.
Lemma u64_small z : 0 <= z < 2 ^ 64 -> u64 z = z.
Proof. apply Z.mod_small. Qed.
Lemma s32_small z : - 2 ^ 31 <= z < 2 ^ 31 -> s32 z = z.
Proof. intros Hz. unfold s32. rewrite Z.mod_small by lia. lia. Qed.
Lemma u32_range z : is_u32 (u32 z).
Proof. apply Z.mod_pos_bound. lia. Qed.
Lemma u16_range z : is_u16 (u16 z).
Proof. apply Z.mod_pos_bound. lia. Qed.

(** ** Loads and stores *)
Lemma load_Some m p n l :
  load m p n = Some l <->
  0 <= p /\ 0 <= n /\ p + n <= zlen m /\
  l = take (Z.to_nat n) (drop (Z.to_nat p) m).
Proof.
  unfold load. case_match.
  - split; [intros [= <-]; repeat split; lia | intros (_ & _ & _ & ->); done].
  - split; [done | lia].
Qed.

Lemma load_in m p n :
  0 <= p -> 0 <= n -> p + n <= zlen m ->
  load m p n = Some (take (Z.to_nat n) (drop (Z.to_nat p) m)).
Proof. intros. by apply load_Some. Qed.

Lemma load_zlen m p n l : load m p n = Some l -> zlen l = n.
Proof.
  intros (Hp & Hn & Hl & ->)%load_Some.
  rewrite zlen_take by lia. rewrite zlen_drop. lia.
Qed.

Lemma load_length m p n l : load m p n = Some l -> length l = Z.to_nat n.
Proof. intros H%load_zlen. unfold zlen in H. lia. Qed.

Lemma load_bytes m p n l : bytes m -> load m p n = Some l -> bytes l.
Proof.
  intros Hm (_ & _ & _ & ->)%load_Some.
  by apply Forall_take, Forall_drop.
Qed.

Lemma load_oob m p n : zlen m < p + n -> load m p n = None.
Proof. intros. unfold load. case_match; [lia | done]. Qed.

(** A load splits at any point inside of it. *)
Lemma load_add m p a b :
  0 <= a -> 0 <= b ->
  load m p (a + b) =
  match load m p a, load m (p + a) b with
  | Some x, Some y => Some (x ++ y)
  | _, _ => None
  end.
Proof.
  intros Ha Hb. unfold load.
  destruct ((0 <=? p) && (0 <=? a + b) && (p + (a + b) <=? zlen m)) eqn:E.
  - replace ((0 <=? p) && (0 <=? a) && (p + a <=? zlen m)) with true by lia.
    replace ((0 <=? p + a) && (0 <=? b) && (p + a + b <=? zlen m)) with true by lia.
    f_equal. rewrite Z2Nat.inj_add by lia.
    replace (Z.to_nat (p + a)) with (Z.to_nat p + Z.to_nat a)%nat by lia.
    rewrite <- drop_drop. by rewrite take_take_drop.
  - destruct ((0 <=? p) && (0 <=? a) && (p + a <=? zlen m)) eqn:E1; [|done].
    replace ((0 <=? p + a) && (0 <=? b) && (p + a + b <=? zlen m)) with false by lia.
    done.
Qed.

Lemma store_Some m p bs m' :
  store m p bs = Some m' <->
  0 <= p /\ p + zlen bs <= zlen m /\
  m' = take (Z.to_nat p) m ++ bs ++ drop (Z.to_nat p + length bs) m.
Proof.
  unfold store. case_match.
  - split; [intros [= <-]; repeat split; lia | intros (_ & _ & ->); done].
  - split; [done | lia].
Qed.

Lemma store_in m p bs :
  0 <= p -> p + zlen bs <= zlen m -> is_Some (store m p bs).
Proof. intros. eexists. by apply store_Some. Qed.

Lemma store_oob m p bs : zlen m < p + zlen bs -> store m p bs = None.
Proof. intros. unfold store. case_match; [lia | done]. Qed.

Lemma store_zlen m p bs m' : store m p bs = Some m' -> zlen m' = zlen m.
Proof.
  intros (Hp & Hl & ->)%store_Some. unfold zlen in *.
  rewrite !length_app, length_take, length_drop. lia.
Qed.

Lemma store_bytes m p bs m' :
  bytes m -> bytes bs -> store m p bs = Some m' -> bytes m'.
Proof.
  intros Hm Hb (_ & _ & ->)%store_Some. unfold bytes in *.
  apply Forall_app; split; [by apply Forall_take |].
  apply Forall_app; split; [done | by apply Forall_drop].
Qed.

(** Element-wise view of a store, from which the frame facts follow. *)
Lemma store_lookup m p bs m' (i : nat) :
  store m p bs = Some m' ->
  m' !! i =
  if bool_decide (p <= Z.of_nat i < p + zlen bs)
  then bs !! (i - Z.to_nat p)%nat else m !! i.
Proof.
  intros (Hp & Hl & ->)%store_Some. unfold zlen in *.
  case_bool_decide.
  - rewrite lookup_app_r by (rewrite length_take; lia).
    rewrite length_take, Nat.min_l by lia.
    rewrite lookup_app_l by lia. done.
  - destruct (decide (i < Z.to_nat p)%nat).
    + rewrite lookup_app_l by (rewrite length_take; lia).
      by rewrite lookup_take_lt by lia.
    + rewrite lookup_app_r by (rewrite length_take; lia).
      rewrite length_take, Nat.min_l by lia.
      rewrite lookup_app_r by lia. rewrite lookup_drop.
      f_equal. lia.
Qed.

Lemma load_lookup m p n l (i : nat) :
  load m p n = Some l -> (i < length l)%nat ->
  l !! i = m !! (Z.to_nat p + i)%nat.
Proof.
  intros H Hi. pose proof (load_length _ _ _ _ H) as Hl.
  apply load_Some in H as (Hp & Hn & Hb & ->).
  rewrite lookup_take_lt by lia. by rewrite lookup_drop.
Qed.

Lemma load_store_same m p bs m' :
  store m p bs = Some m' -> load m' p (zlen bs) = Some bs.
Proof.
  intros H. pose proof (store_zlen _ _ _ _ H) as Hl.
  apply store_Some in H as (Hp & Hb & ->).
  apply load_Some. rewrite Hl. repeat split; try lia; try apply zlen_nonneg.
  rewrite drop_app_length' by (rewrite length_take; unfold zlen in *; lia).
  unfold zlen. by rewrite Nat2Z.id, take_app_length.
Qed.

Lemma load_store_disjoint m p bs m' q n :
  store m p bs = Some m' -> q + n <= p \/ p + zlen bs <= q ->
  load m' q n = load m q n.
Proof.
  intros H Hd. pose proof (store_zlen _ _ _ _ H) as Hl.
  unfold load. rewrite Hl. case_match; [|done]. f_equal.
  apply list_eq. intros i.
  destruct (decide (i < Z.to_nat n)%nat).
  - rewrite !lookup_take_lt, !lookup_drop by lia.
    rewrite (store_lookup _ _ _ _ _ H). case_bool_decide; [lia | done].
  - by rewrite !lookup_take_ge by lia.
Qed.

(** Reading back a prefix of what was stored. *)
Lemma load_store_prefix m p bs m' n :
  store m p bs = Some m' -> 0 <= n <= zlen bs ->
  load m' p n = Some (take (Z.to_nat n) bs).
Proof.
  intros H Hn. pose proof (load_store_same _ _ _ _ H) as Hs.
  replace (zlen bs) with (n + (zlen bs - n)) in Hs by lia.
  rewrite load_add in Hs by lia.
  destruct (load m' p n) as [x|] eqn:E1; [|done].
  destruct (load m' (p + n) _) as [y|] eqn:E2; [|done].
  injection Hs as <-. f_equal.
  by rewrite take_app_length' by (apply load_length in E1; lia).
Qed.

(** Storing what is there. *)
Lemma store_same m p bs : load m p (zlen bs) = Some bs -> store m p bs = Some m.
Proof.
  intros L. pose proof L as (Hp & _ & Hl & _)%load_Some.
  destruct (store_in m p bs Hp Hl) as [m' E]. rewrite E. f_equal.
  apply list_eq. intros i. rewrite (store_lookup _ _ _ _ _ E).
  case_bool_decide; [|done]. unfold zlen in *.
  rewrite (load_lookup _ _ _ _ _ L) by lia. f_equal. lia.
Qed.

(** A load inside a loaded part. *)
Lemma load_inside m p n l o k :
  load m p n = Some l -> 0 <= o -> 0 <= k -> o + k <= n ->
  load l o k = load m (p + o) k.
Proof.
  intros L Ho Hk Hn. pose proof (load_zlen _ _ _ _ L) as Hl.
  apply load_Some in L as (Hp & Hn0 & Hm & ->).
  rewrite !load_in by lia. f_equal. rewrite skipn_firstn_comm, drop_drop.
  rewrite take_take. f_equal; [lia|]. f_equal. lia.
Qed.

Lemma load_inside_prefix m n l o k :
  load m 0 n = Some l -> 0 <= o -> 0 <= k -> o + k <= n -> load m o k = load l o k.
Proof. intros L Ho Hk Hn. by rewrite (load_inside _ _ _ _ _ _ L). Qed.

(** A store inside a loaded part. *)
Lemma store_inside m p n l o bs m' :
  load m p n = Some l -> store m (p + o) bs = Some m' -> 0 <= o -> o + zlen bs <= n ->
  store l o bs = load m' p n.
Proof.
  intros L Hst Ho Hn. pose proof (load_zlen _ _ _ _ L) as Hl.
  pose proof (store_zlen _ _ _ _ Hst) as Hm'.
  assert (Hb : 0 <= p /\ 0 <= n /\ p + n <= zlen m) by (apply load_Some in L; naive_solver).
  destruct (store_in l o bs) as [l' E]; [lia..|]. rewrite E, load_in by lia. f_equal.
  apply list_eq. intros i. rewrite (store_lookup _ _ _ _ _ E).
  destruct (decide (i < Z.to_nat n)%nat) as [Hi|Hi].
  - rewrite lookup_take_lt, lookup_drop, (store_lookup _ _ _ _ _ Hst) by lia.
    rewrite <- (load_lookup _ _ _ _ _ L) by (unfold zlen in Hl; lia).
    do 2 case_bool_decide; try lia; [f_equal; lia|done].
  - rewrite lookup_take_ge by lia. case_bool_decide; [lia|].
    apply lookup_ge_None. unfold zlen in Hl. lia.
Qed.

Lemma store_nil m p : 0 <= p <= zlen m -> store m p [] = Some m.
Proof.
  intros Hp. apply store_Some. change (zlen (@nil Z)) with 0. repeat split; try lia.
  simpl. by rewrite Nat.add_0_r, take_drop.
Qed.

(** Two stores next to each other are one store. *)
Lemma store_app m p a b m1 m2 :
  store m p a = Some m1 -> store m1 (p + zlen a) b = Some m2 ->
  store m p (a ++ b) = Some m2.
Proof.
  intros H1 H2. pose proof (store_zlen _ _ _ _ H1) as L1.
  pose proof (store_zlen _ _ _ _ H2) as L2.
  assert (Hb : p + zlen a + zlen b <= zlen m) by (apply store_Some in H2; lia).
  assert (Hp : 0 <= p) by (apply store_Some in H1; lia).
  destruct (store_in m p (a ++ b)) as [m3 H3]; [done|rewrite zlen_app; lia|].
  rewrite H3. f_equal. apply list_eq. intros i.
  rewrite (store_lookup _ _ _ _ _ H3), (store_lookup _ _ _ _ _ H2),
    (store_lookup _ _ _ _ _ H1), zlen_app.
  pose proof (zlen_nonneg a). pose proof (zlen_nonneg b).
  repeat case_bool_decide; try lia; try done; unfold zlen in *.
  - rewrite lookup_app_r by lia. f_equal. lia.
  - by rewrite lookup_app_l by lia.
Qed.

Lemma load_prefix m n : 0 <= n <= zlen m -> load m 0 n = Some (take (Z.to_nat n) m).
Proof. intros. rewrite load_in by lia. by rewrite drop_0. Qed.

Lemma load_app_prefix (a b : list Z) : load (a ++ b) 0 (zlen a) = Some a.
Proof.
  rewrite load_prefix by (rewrite zlen_app; pose proof (zlen_nonneg a); pose proof (zlen_nonneg b); lia).
  f_equal. unfold zlen. by rewrite Nat2Z.id, take_app_length.
Qed.
Lemma load_all m : load m 0 (zlen m) = Some m.
Proof.
  rewrite load_prefix by (pose proof (zlen_nonneg m); lia). f_equal.
  apply take_ge. unfold zlen. lia.
Qed.
Lemma load_empty m p : 0 <= p <= zlen m -> load m p 0 = Some [].
Proof. intros. by rewrite load_in by lia. Qed.

(** A load and a store of the middle part. *)
Lemma load_mid (a b c : list Z) : load (a ++ b ++ c) (zlen a) (zlen b) = Some b.
Proof.
  apply load_Some. rewrite !zlen_app.
  pose proof (zlen_nonneg a). pose proof (zlen_nonneg b). pose proof (zlen_nonneg c).
  repeat split; try lia. unfold zlen. rewrite !Nat2Z.id.
  by rewrite drop_app_length, take_app_length.
Qed.

Lemma store_mid (a b b' c : list Z) :
  zlen b' = zlen b -> store (a ++ b ++ c) (zlen a) b' = Some (a ++ b' ++ c).
Proof.
  intros Hb. apply store_Some. rewrite !zlen_app.
  pose proof (zlen_nonneg a). pose proof (zlen_nonneg c).
  repeat split; try lia. unfold zlen in *. rewrite !Nat2Z.id.
  rewrite take_app_length. do 2 f_equal. rewrite app_assoc.
  by rewrite drop_app_length' by (rewrite length_app; lia).
Qed.

Lemma store_prefix_app m bs m' :
  store m 0 bs = Some m' -> m' = bs ++ drop (length bs) m.
Proof. intros (_ & _ & ->)%store_Some. done. Qed.

(** ** Big-endian integers *)
Lemma lor_shift_add a b k :
  0 <= k -> 0 <= b < 2 ^ k -> Z.lor (Z.shiftl a k) b = a * 2 ^ k + b.
Proof.
  intros Hk Hb. rewrite <- Z.shiftl_mul_pow2 by lia.
  symmetry. apply Z.add_nocarry_lor.
  apply Z.bits_inj'. intros i Hi. rewrite Z.land_spec, Z.bits_0.
  destruct (Z.ltb_spec i k).
  { by rewrite Z.shiftl_spec_low by lia. }
  rewrite andb_comm.
  destruct (Z.eq_dec b 0) as [->|]; [by rewrite Z.bits_0|].
  rewrite (Z.bits_above_log2 b i); [done | lia |].
  apply Z.log2_lt_pow2; [lia|].
  apply Z.lt_le_trans with (2 ^ k); [lia | apply Z.pow_le_mono_r; lia].
Qed.

(** A masked bit. *)
Lemma land_bit x k : 0 <= k -> negb (Z.land x (Z.shiftl 1 k) =? 0) = Z.testbit x k.
Proof.
  intros Hk. rewrite Z.shiftl_1_l. destruct (Z.testbit x k) eqn:E.
  - apply negb_true_iff, Z.eqb_neq. intros H.
    assert (Ht : Z.testbit (Z.land x (2 ^ k)) k = true)
      by (by rewrite Z.land_spec, E, Z.pow2_bits_true).
    by rewrite H, Z.bits_0 in Ht.
  - apply negb_false_iff, Z.eqb_eq. apply Z.bits_inj'. intros i Hi. rewrite Z.bits_0, Z.land_spec.
    destruct (Z.eq_dec i k) as [->|]; [by rewrite E|].
    rewrite Z.pow2_bits_false by lia. apply andb_false_r.
Qed.

Lemma byte_at_div v k : 0 <= k -> byte_at v k = (v / 2 ^ k) mod 256.
Proof.
  intros. unfold byte_at. rewrite Z.shiftr_div_pow2 by lia.
  change 255 with (Z.ones 8). by rewrite Z.land_ones by lia.
Qed.

Lemma byte_at_u8 v k : 0 <= k -> is_u8 (byte_at v k).
Proof. intros. rewrite byte_at_div by lia. apply Z.mod_pos_bound. lia. Qed.

Lemma be16_sum b0 b1 : is_u8 b1 -> be16 b0 b1 = b0 * 256 + b1.
Proof. intros. unfold be16. by rewrite lor_shift_add. Qed.

Lemma be32_sum b0 b1 b2 b3 :
  is_u8 b1 -> is_u8 b2 -> is_u8 b3 ->
  be32 b0 b1 b2 b3 = b0 * 16777216 + b1 * 65536 + b2 * 256 + b3.
Proof.
  unfold be32, is_u8. intros H1 H2 H3.
  rewrite <- !Z.lor_assoc.
  rewrite (lor_shift_add b2 b3 8) by lia.
  rewrite (lor_shift_add b1 _ 16) by lia.
  rewrite (lor_shift_add b0 _ 24) by lia. lia.
Qed.

Lemma be16_range b0 b1 : is_u8 b0 -> is_u8 b1 -> is_u16 (be16 b0 b1).
Proof. intros ? H. rewrite be16_sum by done. unfold is_u8, is_u16 in *. lia. Qed.

Lemma be32_range b0 b1 b2 b3 :
  is_u8 b0 -> is_u8 b1 -> is_u8 b2 -> is_u8 b3 -> is_u32 (be32 b0 b1 b2 b3).
Proof. intros. rewrite be32_sum by done. unfold is_u8, is_u32 in *. lia. Qed.

(** Encoding then decoding, and decoding then encoding. *)
Lemma be16_to_be16 v : is_u16 v -> be16 (byte_at v 8) (byte_at v 0) = v.
Proof.
  unfold is_u16. intros. rewrite be16_sum by (by apply byte_at_u8).
  rewrite !byte_at_div by lia. change (2 ^ 8) with 256. change (2 ^ 0) with 1.
  Z.to_euclidean_division_equations; lia.
Qed.

Lemma be32_to_be32 v :
  is_u32 v ->
  be32 (byte_at v 24) (byte_at v 16) (byte_at v 8) (byte_at v 0) = v.
Proof.
  unfold is_u32. intros. rewrite be32_sum by (by apply byte_at_u8).
  rewrite !byte_at_div by lia.
  change (2 ^ 24) with 16777216. change (2 ^ 16) with 65536.
  change (2 ^ 8) with 256. change (2 ^ 0) with 1.
  Z.to_euclidean_division_equations; lia.
Qed.

Lemma to_be16_be16 b0 b1 :
  is_u8 b0 -> is_u8 b1 -> to_be16 (be16 b0 b1) = [b0; b1].
Proof.
  unfold is_u8. intros. unfold to_be16. rewrite be16_sum by done.
  rewrite !byte_at_div by lia. change (2 ^ 8) with 256. change (2 ^ 0) with 1.
  repeat f_equal; Z.to_euclidean_division_equations; lia.
Qed.

Lemma to_be32_be32 b0 b1 b2 b3 :
  is_u8 b0 -> is_u8 b1 -> is_u8 b2 -> is_u8 b3 ->
  to_be32 (be32 b0 b1 b2 b3) = [b0; b1; b2; b3].
Proof.
  unfold is_u8. intros. unfold to_be32. rewrite be32_sum by done.
  rewrite !byte_at_div by lia.
  change (2 ^ 24) with 16777216. change (2 ^ 16) with 65536.
  change (2 ^ 8) with 256. change (2 ^ 0) with 1.
  repeat f_equal; Z.to_euclidean_division_equations; lia.
Qed.

Lemma to_be16_bytes v : bytes (to_be16 v).
Proof. repeat constructor; by apply byte_at_u8. Qed.
Lemma to_be32_bytes v : bytes (to_be32 v).
Proof. repeat constructor; by apply byte_at_u8. Qed.
(** Only the low 32 bits are encoded. *)
Lemma to_be32_u32 v : to_be32 (u32 v) = to_be32 v.
Proof.
  unfold to_be32, byte_at, u32.
  assert (H : forall k, 0 <= k <= 24 ->
    Z.land (Z.shiftr (v mod 2 ^ 32) k) 255 = Z.land (Z.shiftr v k) 255).
  { intros k Hk. change 255 with (Z.ones 8). apply Z.bits_inj'. intros i Hi.
    rewrite !Z.land_spec. destruct (Z.ltb_spec i 8) as [Hlt|Hge].
    - rewrite !Z.shiftr_spec by lia. by rewrite Z.mod_pow2_bits_low by lia.
    - rewrite Z.ones_spec_high by lia. by rewrite !andb_false_r. }
  by rewrite !H by lia.
Qed.
#[export] Hint Resolve byte_at_u8 to_be16_bytes to_be32_bytes : tpm.

Lemma ld8_ok m p :
  bytes m -> 0 <= p -> p + 1 <= zlen m -> exists v, ld8 m p = Ok v /\ is_u8 v.
Proof.
  intros Hm Hp Hl. unfold ld8.
  destruct (load m p 1) as [l|] eqn:E; [|rewrite load_in in E; [done|lia..]].
  pose proof (load_bytes _ _ _ _ Hm E) as Hb. apply load_length in E.
  destruct l as [|b []]; try discriminate E. inversion Hb. eauto.
Qed.

Lemma ld16_be m p v : is_u16 v -> load m p 2 = Some (to_be16 v) -> ld16 m p = Ok v.
Proof. intros Hv H. unfold ld16. rewrite H. simpl. by rewrite be16_to_be16. Qed.

Lemma ld32_be m p v : is_u32 v -> load m p 4 = Some (to_be32 v) -> ld32 m p = Ok v.
Proof. intros Hv H. unfold ld32. rewrite H. simpl. by rewrite be32_to_be32. Qed.

(** A sequence is stored at [p] exactly when its two parts are, one after the
    other. *)
Lemma load_app m p n a b :
  n = zlen a + zlen b ->
  load m p n = Some (a ++ b) <->
  load m p (zlen a) = Some a /\ load m (p + zlen a) (zlen b) = Some b.
Proof.
  intros ->. rewrite load_add by apply zlen_nonneg.
  destruct (load m p (zlen a)) as [x|] eqn:E1; [|naive_solver].
  destruct (load m (p + zlen a) (zlen b)) as [y|] eqn:E2; [|naive_solver].
  apply load_zlen in E1. unfold zlen in E1.
  split; [|naive_solver].
  intros [= [-> ->]%app_inj_1]; [done | lia].
Qed.

Lemma load_full m n l : load m 0 n = Some l -> n = zlen m -> l = m.
Proof.
  intros (_ & _ & _ & ->)%load_Some ->. rewrite drop_0.
  apply take_ge. unfold zlen. lia.
Qed.

Lemma load_ld16 m p :
  bytes m -> 0 <= p -> p + 2 <= zlen m ->
  exists v, ld16 m p = Ok v /\ is_u16 v /\ load m p 2 = Some (to_be16 v).
Proof.
  intros Hm Hp Hl. unfold ld16.
  destruct (load m p 2) as [l|] eqn:E; [|rewrite load_in in E; [done|lia..]].
  pose proof (load_bytes _ _ _ _ Hm E) as Hb. apply load_length in E.
  destruct l as [|b0 [|b1 []]]; try discriminate E.
  inversion Hb as [|?? H0 Hb1]. inversion Hb1. subst.
  exists (be16 b0 b1). rewrite to_be16_be16 by done. eauto using be16_range.
Qed.

Lemma load_ld32 m p :
  bytes m -> 0 <= p -> p + 4 <= zlen m ->
  exists v, ld32 m p = Ok v /\ is_u32 v /\ load m p 4 = Some (to_be32 v).
Proof.
  intros Hm Hp Hl. unfold ld32.
  destruct (load m p 4) as [l|] eqn:E; [|rewrite load_in in E; [done|lia..]].
  pose proof (load_bytes _ _ _ _ Hm E) as Hb. apply load_length in E.
  destruct l as [|b0 [|b1 [|b2 [|b3 []]]]]; try discriminate E.
  unfold bytes in Hb. rewrite !Forall_cons_iff in Hb.
  destruct Hb as (?&?&?&?&_).
  exists (be32 b0 b1 b2 b3). rewrite to_be32_be32 by done. eauto using be32_range.
Qed.

(** A 64-bit integer is two of 32 bits. *)
Lemma be64_halves b0 b1 b2 b3 b4 b5 b6 b7 :
  be64 b0 b1 b2 b3 b4 b5 b6 b7 = Z.lor (Z.shiftl (be32 b0 b1 b2 b3) 32) (be32 b4 b5 b6 b7).
Proof.
  unfold be64, be32. rewrite !Z.shiftl_lor, !Z.shiftl_shiftl by lia. rewrite !Z.lor_assoc. reflexivity.
Qed.

Lemma byte_at_halves hi lo k :
  is_u32 lo -> 0 <= k -> byte_at (Z.lor (Z.shiftl hi 32) lo) (32 + k) = byte_at hi k.
Proof.
  intros Hlo Hk. unfold is_u32 in Hlo.
  rewrite lor_shift_add, !byte_at_div by lia. f_equal.
  rewrite Z.pow_add_r, <- Z.div_div, Z.div_add_l, (Z.div_small lo) by lia. by rewrite Z.add_0_r.
Qed.

Lemma byte_at_low hi lo k : is_u32 lo -> 0 <= k <= 24 -> byte_at (Z.lor (Z.shiftl hi 32) lo) k = byte_at lo k.
Proof.
  intros Hlo Hk. unfold is_u32 in Hlo. rewrite lor_shift_add, !byte_at_div by lia.
  replace (hi * 2 ^ 32 + lo) with (lo + hi * 2 ^ (24 - k) * 256 * 2 ^ k).
  - rewrite Z.div_add by lia. by rewrite Z.mod_add by lia.
  - change 256 with (2 ^ 8). rewrite <- !Z.mul_assoc, <- !Z.pow_add_r by lia.
    replace (24 - k + (8 + k)) with 32 by lia. lia.
Qed.

Lemma to_be64_be64 b0 b1 b2 b3 b4 b5 b6 b7 :
  is_u8 b0 -> is_u8 b1 -> is_u8 b2 -> is_u8 b3 -> is_u8 b4 -> is_u8 b5 -> is_u8 b6 -> is_u8 b7 ->
  to_be64 (be64 b0 b1 b2 b3 b4 b5 b6 b7) = [b0; b1; b2; b3; b4; b5; b6; b7].
Proof.
  intros H0 H1 H2 H3 H4 H5 H6 H7. rewrite be64_halves.
  pose proof (be32_range b4 b5 b6 b7 H4 H5 H6 H7) as Hlo.
  transitivity (to_be32 (be32 b0 b1 b2 b3) ++ to_be32 (be32 b4 b5 b6 b7));
    [|by rewrite !to_be32_be32 by done].
  set (hi := be32 b0 b1 b2 b3). set (lo := be32 b4 b5 b6 b7) in *. unfold to_be64, to_be32. simpl app.
  change 56 with (32 + 24). change 48 with (32 + 16). change 40 with (32 + 8). change (byte_at _ 32) with (byte_at (Z.lor (Z.shiftl hi 32) lo) (32 + 0)).
  rewrite !(byte_at_halves hi lo) by (done || lia).
  rewrite (byte_at_low hi lo 24), (byte_at_low hi lo 16), (byte_at_low hi lo 8), (byte_at_low hi lo 0) by (done || lia).
  done.
Qed.

Lemma be64_range b0 b1 b2 b3 b4 b5 b6 b7 :
  is_u8 b0 -> is_u8 b1 -> is_u8 b2 -> is_u8 b3 -> is_u8 b4 -> is_u8 b5 -> is_u8 b6 -> is_u8 b7 ->
  is_u64 (be64 b0 b1 b2 b3 b4 b5 b6 b7).
Proof.
  intros H0 H1 H2 H3 H4 H5 H6 H7. rewrite be64_halves.
  pose proof (be32_range b0 b1 b2 b3 H0 H1 H2 H3). pose proof (be32_range b4 b5 b6 b7 H4 H5 H6 H7).
  unfold is_u32, is_u64 in *. rewrite lor_shift_add by lia. lia.
Qed.

Lemma load_ld64 m p :
  bytes m -> 0 <= p -> p + 8 <= zlen m ->
  exists v, ld64 m p = Ok v /\ is_u64 v /\ load m p 8 = Some (to_be64 v).
Proof.
  intros Hm Hp Hl. unfold ld64.
  destruct (load m p 8) as [l|] eqn:E; [|rewrite load_in in E; [done|lia..]].
  pose proof (load_bytes _ _ _ _ Hm E) as Hb. apply load_length in E.
  destruct l as [|b0 [|b1 [|b2 [|b3 [|b4 [|b5 [|b6 [|b7 []]]]]]]]]; try discriminate E.
  unfold bytes in Hb. rewrite !Forall_cons_iff in Hb. destruct Hb as (?&?&?&?&?&?&?&?&_).
  exists (be64 b0 b1 b2 b3 b4 b5 b6 b7). rewrite to_be64_be64 by done. eauto 10 using be64_range.
Qed.

Lemma ld16_ok m p :
  bytes m -> 0 <= p -> p + 2 <= zlen m -> exists v, ld16 m p = Ok v /\ is_u16 v.
Proof. intros Hm Hp Hl. destruct (load_ld16 m p Hm Hp Hl) as (v&?&?&?). eauto. Qed.

Lemma ld32_ok m p :
  bytes m -> 0 <= p -> p + 4 <= zlen m -> exists v, ld32 m p = Ok v /\ is_u32 v.
Proof. intros Hm Hp Hl. destruct (load_ld32 m p Hm Hp Hl) as (v&?&?&?). eauto. Qed.

(** ** Octet lists *)
Lemma bytes_nil : bytes [].
Proof. constructor. Qed.
Lemma bytes_cons b l : is_u8 b -> bytes l -> bytes (b :: l).
Proof. by constructor. Qed.
Lemma bytes_app a b : bytes a -> bytes b -> bytes (a ++ b).
Proof. apply Forall_app_2. Qed.
Lemma bytes_take n l : bytes l -> bytes (take n l).
Proof. apply Forall_take. Qed.
Lemma bytes_drop n l : bytes l -> bytes (drop n l).
Proof. apply Forall_drop. Qed.
Lemma bytes_replicate n b : is_u8 b -> bytes (replicate n b).
Proof. apply Forall_replicate. Qed.
Lemma is_u8_0 : is_u8 0.
Proof. done. Qed.
#[export] Hint Resolve bytes_nil bytes_cons bytes_app bytes_take bytes_drop
  bytes_replicate is_u8_0 : tpm.
#[export] Hint Extern 2 (_ <= _) => lia : tpm.

Lemma be64_to_be64 v :
  is_u64 v ->
  be64 (byte_at v 56) (byte_at v 48) (byte_at v 40) (byte_at v 32)
       (byte_at v 24) (byte_at v 16) (byte_at v 8) (byte_at v 0) = v.
Proof.
  intros Hv. apply Z.bits_inj'. intros i Hi. unfold be64, byte_at.
  rewrite !Z.lor_spec.
  assert (Hlow : forall k, 0 <= k -> Z.testbit (Z.shiftl (Z.land (Z.shiftr v k) 255) k) i =
    (k <=? i) && (i <? k + 8) && Z.testbit v i).
  { intros k Hk. rewrite Z.shiftl_spec, Z.land_spec by lia.
    change 255 with (Z.ones 8).
    destruct (Z.leb_spec k i).
    - rewrite Z.shiftr_spec by lia. replace (i - k + k) with i by lia.
      rewrite Z.testbit_ones by lia.
      replace (0 <=? i - k) with true by lia. simpl.
      replace (i - k <? 8) with (i <? k + 8) by lia. by rewrite andb_comm.
    - by rewrite Z.testbit_neg_r by lia. }
  rewrite !Hlow by lia.
  rewrite <- (Z.shiftl_0_r (Z.land (Z.shiftr v 0) 255)), Hlow by lia.
  destruct (Z.testbit v i) eqn:E; [|by rewrite !andb_false_r].
  assert (i < 64).
  { apply Z.nle_gt. intros H. rewrite Z.bits_above_log2 in E; [done| |].
    - unfold is_u64 in Hv. lia.
    - unfold is_u64 in Hv. destruct (Z.eq_dec v 0) as [->|]; [simpl; lia|].
      apply Z.log2_lt_pow2; [lia|].
      apply Z.lt_le_trans with (2 ^ 64); [lia | apply Z.pow_le_mono_r; lia]. }
  lia.
Qed.
