(* ===== verification/Constants.v ===== *)
(** * Constants of the TPM device

    The constants of [tpm2_rc.h], [tpm2_alg_structs.h], [tpm2_cc.h], [tpm2_handles.h],
    [tpm2_algorithms.h], [tpm2_nv.h], [tpm2_structures.h], [tpm2_device.h] and
    [command_chain/cc_header.h] under [src/qemu/include/tpm], with the names
    the code uses.  [TPM_HT_x << HR_SHIFT] is the value it has where the code
    uses it, in comparisons with the unsigned [TPM_HANDLE]. *)
From stdpp Require Import base list numbers gmap.
From S2P Require Import Prelude.
Open Scope Z_scope.

(** ** Response codes, [tpm2_rc.h] *)
Definition RC_VER1 : Z := 0x100.
Definition RC_FMT1 : Z := 0x080.
Definition RC_WARN : Z := 0x900.

Definition TPM_RC_SUCCESS : Z := 0x000.
Definition TPM_RC_BAD_TAG : Z := 0x01E.
Definition TPM_RC_INITIALIZE : Z := RC_VER1 + 0x000.
Definition TPM_RC_FAILURE : Z := RC_VER1 + 0x001.
Definition TPM_RC_UPGRADE : Z := RC_VER1 + 0x02D.
Definition TPM_RC_COMMAND_SIZE : Z := RC_VER1 + 0x042.
Definition TPM_RC_COMMAND_CODE : Z := RC_VER1 + 0x043.
Definition TPM_RC_NV_RANGE : Z := RC_VER1 + 0x046.
Definition TPM_RC_NV_LOCKED : Z := RC_VER1 + 0x048.
Definition TPM_RC_NV_UNINITIALIZED : Z := RC_VER1 + 0x04A.
Definition TPM_RC_NV_SPACE : Z := RC_VER1 + 0x04B.
Definition TPM_RC_NV_DEFINED : Z := RC_VER1 + 0x04C.
Definition TPM_RC_ASYMMETRIC : Z := RC_FMT1 + 0x001.
Definition TPM_RC_ATTRIBUTES : Z := RC_FMT1 + 0x002.
(** The enumeration has [RC_FMT1 + 0x004]; the macro of [tpm2_alg_structs.h], which
    every file of the device includes behind it, replaces that: the code stands
    for success. *)
Definition TPM_RC_VALUE : Z := 0x000.
Definition TPM_RC_HIERARCHY : Z := RC_FMT1 + 0x005.
Definition TPM_RC_HANDLE : Z := RC_FMT1 + 0x00B.
Definition TPM_RC_AUTH_FAIL : Z := RC_FMT1 + 0x00E.
Definition TPM_RC_SIZE : Z := RC_FMT1 + 0x015.
Definition TPM_RC_INSUFFICIENT : Z := RC_FMT1 + 0x01A.
Definition TPM_RC_MEMORY : Z := RC_WARN + 0x004.

(** ** Command codes, [tpm2_cc.h] *)
Definition TPM_CC_FIRST : Z := 0x11F.
Definition TPM_CC_NV_UndefineSpaceSpecial : Z := 0x11F.
Definition TPM_CC_EvictControl : Z := 0x120.
Definition TPM_CC_HierarchyControl : Z := 0x121.
Definition TPM_CC_NV_UndefineSpace : Z := 0x122.
Definition TPM_CC_ChangeEPS : Z := 0x124.
Definition TPM_CC_ChangePPS : Z := 0x125.
Definition TPM_CC_Clear : Z := 0x126.
Definition TPM_CC_ClearControl : Z := 0x127.
Definition TPM_CC_ClockSet : Z := 0x128.
Definition TPM_CC_HierarchyChangeAuth : Z := 0x129.
Definition TPM_CC_NV_DefineSpace : Z := 0x12A.
Definition TPM_CC_PCR_Allocate : Z := 0x12B.
Definition TPM_CC_PCR_SetAuthPolicy : Z := 0x12C.
Definition TPM_CC_PP_Commands : Z := 0x12D.
Definition TPM_CC_SetPrimaryPolicy : Z := 0x12E.
Definition TPM_CC_FieldUpgradeStart : Z := 0x12F.
Definition TPM_CC_ClockRateAdjust : Z := 0x130.
Definition TPM_CC_CreatePrimary : Z := 0x131.
Definition TPM_CC_NV_GlobalWriteLock : Z := 0x132.
Definition TPM_CC_GetCommandAuditDigest : Z := 0x133.
Definition TPM_CC_NV_Increment : Z := 0x134.
Definition TPM_CC_NV_SetBits : Z := 0x135.
Definition TPM_CC_NV_Extend : Z := 0x136.
Definition TPM_CC_NV_Write : Z := 0x137.
Definition TPM_CC_NV_WriteLock : Z := 0x138.
Definition TPM_CC_DictionaryAttackLockReset : Z := 0x139.
Definition TPM_CC_DictionaryAttackParameters : Z := 0x13A.
Definition TPM_CC_NV_ChangeAuth : Z := 0x13B.
Definition TPM_CC_PCR_Event : Z := 0x13C.
Definition TPM_CC_PCR_Reset : Z := 0x13D.
Definition TPM_CC_SequenceComplete : Z := 0x13E.
Definition TPM_CC_SetAlgorithmSet : Z := 0x13F.
Definition TPM_CC_SetCommandCodeAuditStatus : Z := 0x140.
Definition TPM_CC_FieldUpgradeData : Z := 0x141.
Definition TPM_CC_IncrementalSelfTest : Z := 0x142.
Definition TPM_CC_SelfTest : Z := 0x143.
Definition TPM_CC_Startup : Z := 0x144.
Definition TPM_CC_Shutdown : Z := 0x145.
Definition TPM_CC_StirRandom : Z := 0x146.
Definition TPM_CC_ActivateCredential : Z := 0x147.
Definition TPM_CC_Certify : Z := 0x148.
Definition TPM_CC_PolicyNV : Z := 0x149.
Definition TPM_CC_CertifyCreation : Z := 0x14A.
Definition TPM_CC_Duplicate : Z := 0x14B.
Definition TPM_CC_GetTime : Z := 0x14C.
Definition TPM_CC_GetSessionAuditDigest : Z := 0x14D.
Definition TPM_CC_NV_Read : Z := 0x14E.
Definition TPM_CC_NV_ReadLock : Z := 0x14F.
Definition TPM_CC_ObjectChangeAuth : Z := 0x150.
Definition TPM_CC_PolicySecret : Z := 0x151.
Definition TPM_CC_Rewrap : Z := 0x152.
Definition TPM_CC_Create : Z := 0x153.
Definition TPM_CC_ECDH_ZGen : Z := 0x154.
Definition TPM_CC_HMAC : Z := 0x155.
Definition TPM_CC_MAC : Z := 0x155.
Definition TPM_CC_Import : Z := 0x156.
Definition TPM_CC_Load : Z := 0x157.
Definition TPM_CC_Quote : Z := 0x158.
Definition TPM_CC_RSA_Decrypt : Z := 0x159.
Definition TPM_CC_HMAC_Start : Z := 0x15B.
Definition TPM_CC_MAC_Start : Z := 0x15B.
Definition TPM_CC_SequenceUpdate : Z := 0x15C.
Definition TPM_CC_Sign : Z := 0x15D.
Definition TPM_CC_Unseal : Z := 0x15E.
Definition TPM_CC_PolicySigned : Z := 0x160.
Definition TPM_CC_ContextLoad : Z := 0x161.
Definition TPM_CC_ContextSave : Z := 0x162.
Definition TPM_CC_ECDH_KeyGen : Z := 0x163.
Definition TPM_CC_EncryptDecrypt : Z := 0x164.
Definition TPM_CC_LoadExternal : Z := 0x167.
Definition TPM_CC_MakeCredential : Z := 0x168.
Definition TPM_CC_NV_ReadPublic : Z := 0x169.
Definition TPM_CC_PolicyAuthorize : Z := 0x16A.
Definition TPM_CC_PolicyAuthValue : Z := 0x16B.
Definition TPM_CC_PolicyCommandCode : Z := 0x16C.
Definition TPM_CC_PolicyCounterTimer : Z := 0x16D.
Definition TPM_CC_PolicyCpHash : Z := 0x16E.
Definition TPM_CC_PolicyLocality : Z := 0x16F.
Definition TPM_CC_PolicyNameHash : Z := 0x170.
Definition TPM_CC_PolicyOR : Z := 0x171.
Definition TPM_CC_PolicyTicket : Z := 0x172.
Definition TPM_CC_ReadPublic : Z := 0x173.
Definition TPM_CC_RSA_Encrypt : Z := 0x174.
Definition TPM_CC_StartAuthSession : Z := 0x176.
Definition TPM_CC_VerifySignature : Z := 0x177.
Definition TPM_CC_ECC_Parameters : Z := 0x178.
Definition TPM_CC_FirmwareRead : Z := 0x179.
Definition TPM_CC_GetCapability : Z := 0x17A.
Definition TPM_CC_GetRandom : Z := 0x17B.
Definition TPM_CC_GetTestResult : Z := 0x17C.
Definition TPM_CC_Hash : Z := 0x17D.
Definition TPM_CC_PCR_Read : Z := 0x17E.
Definition TPM_CC_PolicyPCR : Z := 0x17F.
Definition TPM_CC_PolicyRestart : Z := 0x180.
Definition TPM_CC_ReadClock : Z := 0x181.
Definition TPM_CC_PCR_Extend : Z := 0x182.
Definition TPM_CC_PCR_SetAuthValue : Z := 0x183.
Definition TPM_CC_NV_Certify : Z := 0x184.
Definition TPM_CC_EventSequenceComplete : Z := 0x185.
Definition TPM_CC_HashSequenceStart : Z := 0x186.
Definition TPM_CC_PolicyPhysicalPresence : Z := 0x187.
Definition TPM_CC_PolicyDuplicationSelect : Z := 0x188.
Definition TPM_CC_PolicyGetDigest : Z := 0x189.
Definition TPM_CC_TestParms : Z := 0x18A.
Definition TPM_CC_Commit : Z := 0x18B.
Definition TPM_CC_PolicyPassword : Z := 0x18C.
Definition TPM_CC_ZGen_2Phase : Z := 0x18D.
Definition TPM_CC_EC_Ephemeral : Z := 0x18E.
Definition TPM_CC_PolicyNvWritten : Z := 0x18F.
Definition TPM_CC_PolicyTemplate : Z := 0x190.
Definition TPM_CC_CreateLoaded : Z := 0x191.
Definition TPM_CC_PolicyAuthorizeNV : Z := 0x192.
Definition TPM_CC_EncryptDecrypt2 : Z := 0x193.
Definition TPM_CC_AC_GetCapability : Z := 0x194.
Definition TPM_CC_AC_Send : Z := 0x195.
Definition TPM_CC_Policy_AC_SendSelect : Z := 0x196.
Definition TPM_CC_CertifyX509 : Z := 0x197.
Definition TPM_CC_ACT_SetTimeout : Z := 0x198.
Definition TPM_CC_ECC_Encrypt : Z := 0x199.
Definition TPM_CC_ECC_Decrypt : Z := 0x19A.
Definition TPM_CC_PolicyCapability : Z := 0x19B.
Definition TPM_CC_PolicyParameters : Z := 0x19C.
Definition TPM_CC_NV_DefineSpace2 : Z := 0x19D.
Definition TPM_CC_NV_ReadPublic2 : Z := 0x19E.
Definition TPM_CC_SetCapability : Z := 0x19F.
Definition TPM_CC_LAST : Z := 0x19F.
Definition CC_VEND : Z := 0x20000000.
Definition TPM_CC_Vendor_TCG_Test : Z := CC_VEND + 0x0000.

(** The commands of the [TPM_CC] enumeration. *)
Definition TPM_CC_commands : list Z :=
  [TPM_CC_NV_UndefineSpaceSpecial; TPM_CC_EvictControl; TPM_CC_HierarchyControl;
   TPM_CC_NV_UndefineSpace; TPM_CC_ChangeEPS; TPM_CC_ChangePPS;
   TPM_CC_Clear; TPM_CC_ClearControl; TPM_CC_ClockSet;
   TPM_CC_HierarchyChangeAuth; TPM_CC_NV_DefineSpace; TPM_CC_PCR_Allocate;
   TPM_CC_PCR_SetAuthPolicy; TPM_CC_PP_Commands; TPM_CC_SetPrimaryPolicy;
   TPM_CC_FieldUpgradeStart; TPM_CC_ClockRateAdjust; TPM_CC_CreatePrimary;
   TPM_CC_NV_GlobalWriteLock; TPM_CC_GetCommandAuditDigest; TPM_CC_NV_Increment;
   TPM_CC_NV_SetBits; TPM_CC_NV_Extend; TPM_CC_NV_Write;
   TPM_CC_NV_WriteLock; TPM_CC_DictionaryAttackLockReset; TPM_CC_DictionaryAttackParameters;
   TPM_CC_NV_ChangeAuth; TPM_CC_PCR_Event; TPM_CC_PCR_Reset;
   TPM_CC_SequenceComplete; TPM_CC_SetAlgorithmSet; TPM_CC_SetCommandCodeAuditStatus;
   TPM_CC_FieldUpgradeData; TPM_CC_IncrementalSelfTest; TPM_CC_SelfTest;
   TPM_CC_Startup; TPM_CC_Shutdown; TPM_CC_StirRandom;
   TPM_CC_ActivateCredential; TPM_CC_Certify; TPM_CC_PolicyNV;
   TPM_CC_CertifyCreation; TPM_CC_Duplicate; TPM_CC_GetTime;
   TPM_CC_GetSessionAuditDigest; TPM_CC_NV_Read; TPM_CC_NV_ReadLock;
   TPM_CC_ObjectChangeAuth; TPM_CC_PolicySecret; TPM_CC_Rewrap;
   TPM_CC_Create; TPM_CC_ECDH_ZGen; TPM_CC_HMAC;
   TPM_CC_MAC; TPM_CC_Import; TPM_CC_Load;
   TPM_CC_Quote; TPM_CC_RSA_Decrypt; TPM_CC_HMAC_Start;
   TPM_CC_MAC_Start; TPM_CC_SequenceUpdate; TPM_CC_Sign;
   TPM_CC_Unseal; TPM_CC_PolicySigned; TPM_CC_ContextLoad;
   TPM_CC_ContextSave; TPM_CC_ECDH_KeyGen; TPM_CC_EncryptDecrypt;
   TPM_CC_LoadExternal; TPM_CC_MakeCredential; TPM_CC_NV_ReadPublic;
   TPM_CC_PolicyAuthorize; TPM_CC_PolicyAuthValue; TPM_CC_PolicyCommandCode;
   TPM_CC_PolicyCounterTimer; TPM_CC_PolicyCpHash; TPM_CC_PolicyLocality;
   TPM_CC_PolicyNameHash; TPM_CC_PolicyOR; TPM_CC_PolicyTicket;
   TPM_CC_ReadPublic; TPM_CC_RSA_Encrypt; TPM_CC_StartAuthSession;
   TPM_CC_VerifySignature; TPM_CC_ECC_Parameters; TPM_CC_FirmwareRead;
   TPM_CC_GetCapability; TPM_CC_GetRandom; TPM_CC_GetTestResult;
   TPM_CC_Hash; TPM_CC_PCR_Read; TPM_CC_PolicyPCR;
   TPM_CC_PolicyRestart; TPM_CC_ReadClock; TPM_CC_PCR_Extend;
   TPM_CC_PCR_SetAuthValue; TPM_CC_NV_Certify; TPM_CC_EventSequenceComplete;
   TPM_CC_HashSequenceStart; TPM_CC_PolicyPhysicalPresence; TPM_CC_PolicyDuplicationSelect;
   TPM_CC_PolicyGetDigest; TPM_CC_TestParms; TPM_CC_Commit;
   TPM_CC_PolicyPassword; TPM_CC_ZGen_2Phase; TPM_CC_EC_Ephemeral;
   TPM_CC_PolicyNvWritten; TPM_CC_PolicyTemplate; TPM_CC_CreateLoaded;
   TPM_CC_PolicyAuthorizeNV; TPM_CC_EncryptDecrypt2; TPM_CC_AC_GetCapability;
   TPM_CC_AC_Send; TPM_CC_Policy_AC_SendSelect; TPM_CC_CertifyX509;
   TPM_CC_ACT_SetTimeout; TPM_CC_ECC_Encrypt; TPM_CC_ECC_Decrypt;
   TPM_CC_PolicyCapability; TPM_CC_PolicyParameters; TPM_CC_NV_DefineSpace2;
   TPM_CC_NV_ReadPublic2; TPM_CC_SetCapability; TPM_CC_Vendor_TCG_Test].

(** ** Handles, [tpm2_handles.h] *)
Definition TPM_HT_NV_INDEX : Z := 0x01.
Definition TPM_HT_HMAC_SESSION : Z := 0x02.
Definition TPM_HT_POLICY_SESSION : Z := 0x03.
Definition TPM_HT_EXTERNAL_NV : Z := 0x11.
Definition TPM_HT_PERMANENT_NV : Z := 0x12.
Definition TPM_HT_TRANSIENT : Z := 0x80.
Definition TPM_HT_PERSISTENT : Z := 0x81.
Definition TPM_HT_AC : Z := 0x90.
Definition TPM_RH_FIRST : Z := 0x40000000.
Definition TPM_RH_OWNER : Z := 0x40000001.
Definition TPM_RH_NULL : Z := 0x40000007.
Definition TPM_RS_PW : Z := 0x40000009.
Definition TPM_RH_LOCKOUT : Z := 0x4000000A.
Definition TPM_RH_ENDORSEMENT : Z := 0x4000000B.
Definition TPM_RH_PLATFORM : Z := 0x4000000C.
Definition TPM_RH_PLATFORM_NV : Z := 0x4000000D.
Definition TPM_RH_AUTH_00 : Z := 0x40000010.
Definition TPM_RH_AUTH_FF : Z := 0x4000010F.
Definition TPM_RH_ACT_0 : Z := 0x40000110.
Definition TPM_RH_ACT_F : Z := 0x4000011F.
Definition TPM_RH_FW_OWNER : Z := 0x40000140.
Definition TPM_RH_FW_ENDORSEMENT : Z := 0x40000141.
Definition TPM_RH_FW_PLATFORM : Z := 0x40000142.
Definition TPM_RH_FW_NULL : Z := 0x40000143.
Definition TPM_RH_SVN_OWNER_BASE : Z := 0x40010000.
Definition TPM_RH_SVN_ENDORSEMENT_BASE : Z := 0x40020000.
Definition TPM_RH_SVN_PLATFORM_BASE : Z := 0x40030000.
Definition TPM_RH_SVN_NULL_BASE : Z := 0x40040000.
Definition TPM_RH_LAST : Z := 0x4004FFFF.
Definition MAX_ACTIVE_SESSIONS : Z := 64.
Definition MAX_LOADED_OBJECTS : Z := 32.
Definition HR_SHIFT : Z := 24.
Definition HR_HMAC_SESSION : Z := Z.shiftl TPM_HT_HMAC_SESSION HR_SHIFT.
Definition HR_POLICY_SESSION : Z := Z.shiftl TPM_HT_POLICY_SESSION HR_SHIFT.
Definition HR_TRANSIENT : Z := Z.shiftl TPM_HT_TRANSIENT HR_SHIFT.
Definition HR_PERSISTENT : Z := Z.shiftl TPM_HT_PERSISTENT HR_SHIFT.
Definition HR_NV_INDEX : Z := Z.shiftl TPM_HT_NV_INDEX HR_SHIFT.
Definition HR_EXTERNAL_NV : Z := Z.shiftl TPM_HT_EXTERNAL_NV HR_SHIFT.
Definition HR_PERMANENT_NV : Z := Z.shiftl TPM_HT_PERMANENT_NV HR_SHIFT.
Definition HR_AC : Z := Z.shiftl TPM_HT_AC HR_SHIFT.
Definition HMAC_SESSION_FIRST : Z := HR_HMAC_SESSION + 0.
Definition HMAC_SESSION_LAST : Z := HMAC_SESSION_FIRST + MAX_ACTIVE_SESSIONS - 1.
Definition POLICY_SESSION_FIRST : Z := HR_POLICY_SESSION + 0.
Definition POLICY_SESSION_LAST : Z := POLICY_SESSION_FIRST + MAX_ACTIVE_SESSIONS - 1.
Definition TRANSIENT_FIRST : Z := HR_TRANSIENT + 0.
Definition TRANSIENT_LAST : Z := TRANSIENT_FIRST + MAX_LOADED_OBJECTS - 1.
Definition PERSISTENT_FIRST : Z := HR_PERSISTENT + 0.
Definition PERSISTENT_LAST : Z := PERSISTENT_FIRST + 0x00FFFFFF.
Definition NV_INDEX_FIRST : Z := HR_NV_INDEX + 0.
Definition NV_INDEX_LAST : Z := NV_INDEX_FIRST + 0x00FFFFFF.
Definition EXTERNAL_NV_FIRST : Z := HR_EXTERNAL_NV + 0.
Definition EXTERNAL_NV_LAST : Z := EXTERNAL_NV_FIRST + 0x00FFFFFF.
Definition PERMANENT_NV_FIRST : Z := HR_PERMANENT_NV + 0.
Definition PERMANENT_NV_LAST : Z := PERMANENT_NV_FIRST + 0x00FFFFFF.
Definition PERMANENT_FIRST : Z := TPM_RH_FIRST.
Definition PERMANENT_LAST : Z := TPM_RH_LAST.
Definition SVN_OWNER_FIRST : Z := TPM_RH_SVN_OWNER_BASE + 0x0000.
Definition SVN_OWNER_LAST : Z := TPM_RH_SVN_OWNER_BASE + 0xFFFF.
Definition SVN_ENDORSEMENT_FIRST : Z := TPM_RH_SVN_ENDORSEMENT_BASE + 0x0000.
Definition SVN_ENDORSEMENT_LAST : Z := TPM_RH_SVN_ENDORSEMENT_BASE + 0xFFFF.
Definition SVN_PLATFORM_FIRST : Z := TPM_RH_SVN_PLATFORM_BASE + 0x0000.
Definition SVN_PLATFORM_LAST : Z := TPM_RH_SVN_PLATFORM_BASE + 0xFFFF.
Definition SVN_NULL_FIRST : Z := TPM_RH_SVN_NULL_BASE + 0x0000.
Definition SVN_NULL_LAST : Z := TPM_RH_SVN_NULL_BASE + 0xFFFF.
Definition AC_FIRST : Z := HR_AC + 0.
Definition AC_LAST : Z := HR_AC + 0x0000FFFF.

(** ** Structure tags and header sizes, [command_chain/cc_header.h] *)
Definition TPM_CMD_HEADER_SIZE : Z := 10.
Definition TPM_MIN_COMMAND_SIZE : Z := 10.
Definition TPM_MAX_COMMAND_SIZE : Z := 4096.
Definition TPM_RSP_HEADER_SIZE : Z := 10.
Definition TPM_MIN_RESPONSE_SIZE : Z := 10.
Definition TPM_MAX_RESPONSE_SIZE : Z := 4096.
Definition TPM_ST_NO_SESSIONS : Z := 0x8001.
Definition TPM_ST_SESSIONS : Z := 0x8002.
Definition TPM_ST_CREATION : Z := 0x8021.

(** ** Algorithms, [tpm2_algorithms.h] *)
Definition TPM_ALG_SHA256 : Z := 0x000B.
Definition TPM_ALG_ECC : Z := 0x0023.
Definition TPM_ECC_NIST_P256 : Z := 0x0003.

(** ** NV index types and sizes, [tpm2_nv.h], [tpm_nv.c], [tpm2_structures.h] *)
Definition TPM_NT_ORDINARY : Z := 0x0.
Definition TPM_NT_COUNTER : Z := 0x1.
Definition TPM_NT_BITS : Z := 0x2.
Definition TPM_NT_EXTEND : Z := 0x4.
Definition TPM_NT_PIN_FAIL : Z := 0x8.
Definition TPM_NT_PIN_PASS : Z := 0x9.
Definition TPM2_MAX_NV_INDEXES : Z := 16.
Definition TPM2_NVSTORAGE_SIZE : Z := 6962.
Definition MAX_NV_BUFFER_SIZE : Z := 1024.
Definition MAX_SYM_DATA : Z := 128.

(** ** MMIO registers, [tpm2_device.h] *)
Definition TPM2_CTRL_REG : Z := 0x00.
Definition TPM2_STATUS_REG : Z := 0x04.
Definition TPM2_CMD_REG : Z := 0x0C.
Definition TPM2_DATA_REG : Z := 0x10.
