(* ===== verification/State.v ===== *)
(** * The state of the TPM device

    The structures of [tpm2_nv.h], [tpm2_nv_entry.h], [tpm2_structures.h],
    [tpm2_keyobj.h], [tpm2_interfaces.h] and [tpm2_device.h] that the device
    keeps its state in.  Record fields carry a prefix naming their structure
    ([a_] for [TPMA_NV], [np_] for [TPMS_NV_PUBLIC], [e_] for [NVEntry]) where
    the same field name occurs in several structures.

    The pointers [data] and [iv_ptr] of an [NVEntry] point into the NV bank and
    are kept as offsets into it, so that entries share the bank's memory as
    they do in the code. *)
From stdpp Require Import base list numbers gmap.
From S2P Require Import Prelude Constants.

(** ** NV public area *)

(** [TPMA_NV], a C bit-field structure.  The fields add up to 33 bits. *)
Record TPMA_NV := mk_TPMA_NV {
  a_ppWrite : bool;
  a_ownerWrite : bool;
  a_authWrite : bool;
  a_policyWrite : bool;
  a_reserved1 : Z;
  a_nvType : Z;
  a_policyDelete : bool;
  a_writeLocked : bool;
  a_writeAll : bool;
  a_writeDefine : bool;
  a_writeStClear : bool;
  a_globalLock : bool;
  a_ppRead : bool;
  a_ownerRead : bool;
  a_authRead : bool;
  a_policyRead : bool;
  a_reserved2 : Z;
  a_noDA : bool;
  a_orderly : bool;
  a_clearStClear : bool;
  a_readLocked : bool;
  a_written : bool;
  a_platformCreate : bool;
  a_readStClear : bool
}.

(** The structure whose first 32-bit unit holds [w0] and second unit [w1]:
    bit-fields are allocated from the least significant bit of each unit, as
    the x86-64 ABI does. *)
Definition TPMA_NV_of_words (w0 w1 : Z) : TPMA_NV :=
  let bit := Z.testbit w0 in
  {| a_ppWrite := bit 0; a_ownerWrite := bit 1; a_authWrite := bit 2;
     a_policyWrite := bit 3;
     a_reserved1 := Z.land (Z.shiftr w0 4) 7;
     a_nvType := Z.land (Z.shiftr w0 7) 15;
     a_policyDelete := bit 11; a_writeLocked := bit 12; a_writeAll := bit 13;
     a_writeDefine := bit 14; a_writeStClear := bit 15; a_globalLock := bit 16;
     a_ppRead := bit 17; a_ownerRead := bit 18; a_authRead := bit 19;
     a_policyRead := bit 20;
     a_reserved2 := Z.land (Z.shiftr w0 21) 31;
     a_noDA := bit 26; a_orderly := bit 27; a_clearStClear := bit 28;
     a_readLocked := bit 29; a_written := bit 30; a_platformCreate := bit 31;
     a_readStClear := Z.testbit w1 0 |}.

(** All bits clear, [{ 0 }]. *)
Definition TPMA_NV_zero : TPMA_NV := TPMA_NV_of_words 0 0.

Record TPMS_NV_PUBLIC := mk_TPMS_NV_PUBLIC {
  np_nvIndex : Z;
  np_nameAlg : Z;
  np_attributes : TPMA_NV;
  np_authPolicy : list Z;
  np_authPolicySize : Z;
  np_dataSize : Z
}.

(** One NV entry.  [e_data] and [e_iv_ptr] are offsets into the NV bank. *)
Record NVEntry := mk_NVEntry {
  e_pub : TPMS_NV_PUBLIC;
  e_authValue : list Z;
  e_authValueLen : Z;
  e_name : list Z;
  e_nameLen : Z;
  e_data : Z;
  e_dataLen : Z;
  e_iv_ptr : Z;
  e_written : bool;
  e_readLocked : bool;
  e_writeLocked : bool;
  e_integrityLen : Z
}.

(** A sized buffer, [TPM2B_x]: the size field and the whole array. *)
Record TPM2B := mk_TPM2B { b_size : Z; b_buffer : list Z }.

Definition TPM2B_zero (n : nat) : TPM2B := {| b_size := 0; b_buffer := replicate n 0 |}.

(** [TPMI_RH_PROVISION] of [tpm2_interfaces.h]. *)
Record TPMI_RH_PROVISION := mk_TPMI_RH_PROVISION {
  ph_owner : Z;
  ph_platform : Z;
  ph_responsefailcode : Z
}.

(** ** Keys *)

(** [TPM2B_SENSITIVE_CREATE]: the fields the code reads. *)
Record TPM2B_SENSITIVE_CREATE := mk_SENSITIVE_CREATE {
  sc_userAuth : TPM2B;
  sc_data : TPM2B
}.

(** [TPMT_PUBLIC]; of the parameter union, the ECC curve, the only member the
    code accesses (the others stay zero); of [unique], the ECC point. *)
Record TPMT_PUBLIC := mk_TPMT_PUBLIC {
  pa_type : Z;
  pa_nameAlg : Z;
  pa_objectAttributes : Z;
  pa_curveID : Z;
  pa_unique_x : TPM2B;
  pa_unique_y : TPM2B
}.

(** [TPM2B_SENSITIVE]; of the composite union, the ECC parameter. *)
Record TPM2B_SENSITIVE := mk_SENSITIVE {
  ss_sensitiveType : Z;
  ss_authValue : TPM2B;
  ss_seedValue : TPM2B;
  ss_ecc : TPM2B
}.

Definition TPMT_PUBLIC_zero : TPMT_PUBLIC :=
  {| pa_type := 0; pa_nameAlg := 0; pa_objectAttributes := 0; pa_curveID := 0;
     pa_unique_x := TPM2B_zero 64; pa_unique_y := TPM2B_zero 64 |}.
Definition TPM2B_SENSITIVE_zero : TPM2B_SENSITIVE :=
  {| ss_sensitiveType := 0; ss_authValue := TPM2B_zero 64;
     ss_seedValue := TPM2B_zero 64; ss_ecc := TPM2B_zero 64 |}.

(** ** Device *)

(** [enum tpm_state] *)
Inductive tpm_state :=
| TPM_STATE_IDLE
| TPM_STATE_READY
| TPM_STATE_RECEIVING
| TPM_STATE_PROCESSING
| TPM_STATE_SENDING.

(** The integer the status register returns. *)
Definition tpm_state_val (st : tpm_state) : Z :=
  match st with
  | TPM_STATE_IDLE => 0
  | TPM_STATE_READY => 1
  | TPM_STATE_RECEIVING => 2
  | TPM_STATE_PROCESSING => 3
  | TPM_STATE_SENDING => 4
  end.

(** [enum tpm_operational_mode] *)
Inductive tpm_operational_mode :=
| TPM_MODE_NORMAL
| TPM_MODE_FAILURE
| TPM_MODE_FIELD
| TPM_MODE_NOINIT.

#[export] Instance tpm_state_eq_dec : EqDecision tpm_state.
Proof. solve_decision. Defined.
#[export] Instance tpm_operational_mode_eq_dec : EqDecision tpm_operational_mode.
Proof. solve_decision. Defined.

(** [struct TPM2State].  [nv_bank] is the RAM behind [nv_bank_ptr], [None]
    while that pointer is NULL; [nv_map] is [None] while no table is
    allocated; [rsa_key] is [None] while it is NULL, else the generated key.
    [rand_calls] counts the draws made from the random source so far: it is the
    part of the generator's state, which is outside of the device, that the
    device's behaviour depends on.  The QOM parent object, the memory regions
    and the interrupt line hold no data of the device. *)
Record TPM2State := mk_TPM2State {
  nv_bank : option (list Z);
  nv_bank_size : Z;
  nv_alloc_offset : Z;
  nv_map : option (gmap Z NVEntry);
  nv_count : Z;
  nv_dirty : bool;
  ctrl : Z;
  status : Z;
  key_generated : Z;
  rsa_key : option Z;
  random_data : list Z;
  command_buffer : list Z;
  response_buffer : list Z;
  cmd_size : Z;
  resp_size : Z;
  resp_idx : Z;
  state : tpm_state;
  tpm_mode : tpm_operational_mode;
  pps : list Z;
  sps : list Z;
  eps : list Z;
  phProof : list Z;
  shProof : list Z;
  ehProof : list Z;
  primary_sensitive : TPM2B_SENSITIVE;
  primary_public : TPMT_PUBLIC;
  primary_name_size : Z;
  next_transient_handle : Z;
  initialized : bool;
  rand_calls : nat
}.

(** ** Field updates *)
Definition eta_attr (r : TPMA_NV) : TPMA_NV :=
  mk_TPMA_NV (a_ppWrite r) (a_ownerWrite r) (a_authWrite r) (a_policyWrite r)
    (a_reserved1 r) (a_nvType r) (a_policyDelete r) (a_writeLocked r)
    (a_writeAll r) (a_writeDefine r) (a_writeStClear r) (a_globalLock r)
    (a_ppRead r) (a_ownerRead r) (a_authRead r) (a_policyRead r)
    (a_reserved2 r) (a_noDA r) (a_orderly r) (a_clearStClear r)
    (a_readLocked r) (a_written r) (a_platformCreate r) (a_readStClear r).
#[export] Instance set_a_written : Setter a_written := ltac:(setter eta_attr a_written).

Definition eta_pub (r : TPMS_NV_PUBLIC) : TPMS_NV_PUBLIC :=
  mk_TPMS_NV_PUBLIC (np_nvIndex r) (np_nameAlg r) (np_attributes r) (np_authPolicy r)
    (np_authPolicySize r) (np_dataSize r).
#[export] Instance set_np_attributes : Setter np_attributes := ltac:(setter eta_pub np_attributes).

Definition eta_entry (r : NVEntry) : NVEntry :=
  mk_NVEntry (e_pub r) (e_authValue r) (e_authValueLen r) (e_name r)
    (e_nameLen r) (e_data r) (e_dataLen r) (e_iv_ptr r)
    (e_written r) (e_readLocked r) (e_writeLocked r) (e_integrityLen r).
#[export] Instance set_e_pub : Setter e_pub := ltac:(setter eta_entry e_pub).
#[export] Instance set_e_written : Setter e_written := ltac:(setter eta_entry e_written).
#[export] Instance set_e_data : Setter e_data := ltac:(setter eta_entry e_data).

Definition eta_sens (r : TPM2B_SENSITIVE) : TPM2B_SENSITIVE :=
  mk_SENSITIVE (ss_sensitiveType r) (ss_authValue r) (ss_seedValue r) (ss_ecc r).
#[export] Instance set_ss_sensitiveType : Setter ss_sensitiveType := ltac:(setter eta_sens ss_sensitiveType).
#[export] Instance set_ss_authValue : Setter ss_authValue := ltac:(setter eta_sens ss_authValue).
#[export] Instance set_ss_seedValue : Setter ss_seedValue := ltac:(setter eta_sens ss_seedValue).
#[export] Instance set_ss_ecc : Setter ss_ecc := ltac:(setter eta_sens ss_ecc).

Definition eta (r : TPM2State) : TPM2State :=
  mk_TPM2State (nv_bank r) (nv_bank_size r) (nv_alloc_offset r) (nv_map r)
    (nv_count r) (nv_dirty r) (ctrl r) (status r)
    (key_generated r) (rsa_key r) (random_data r) (command_buffer r)
    (response_buffer r) (cmd_size r) (resp_size r) (resp_idx r)
    (state r) (tpm_mode r) (pps r) (sps r)
    (eps r) (phProof r) (shProof r) (ehProof r)
    (primary_sensitive r) (primary_public r) (primary_name_size r) (next_transient_handle r)
    (initialized r) (rand_calls r).
#[export] Instance set_nv_bank : Setter nv_bank := ltac:(setter eta nv_bank).
#[export] Instance set_nv_bank_size : Setter nv_bank_size := ltac:(setter eta nv_bank_size).
#[export] Instance set_nv_alloc_offset : Setter nv_alloc_offset := ltac:(setter eta nv_alloc_offset).
#[export] Instance set_nv_map : Setter nv_map := ltac:(setter eta nv_map).
#[export] Instance set_nv_count : Setter nv_count := ltac:(setter eta nv_count).
#[export] Instance set_nv_dirty : Setter nv_dirty := ltac:(setter eta nv_dirty).
#[export] Instance set_ctrl : Setter ctrl := ltac:(setter eta ctrl).
#[export] Instance set_status : Setter status := ltac:(setter eta status).
#[export] Instance set_key_generated : Setter key_generated := ltac:(setter eta key_generated).
#[export] Instance set_rsa_key : Setter rsa_key := ltac:(setter eta rsa_key).
#[export] Instance set_random_data : Setter random_data := ltac:(setter eta random_data).
#[export] Instance set_command_buffer : Setter command_buffer := ltac:(setter eta command_buffer).
#[export] Instance set_response_buffer : Setter response_buffer := ltac:(setter eta response_buffer).
#[export] Instance set_cmd_size : Setter cmd_size := ltac:(setter eta cmd_size).
#[export] Instance set_resp_size : Setter resp_size := ltac:(setter eta resp_size).
#[export] Instance set_resp_idx : Setter resp_idx := ltac:(setter eta resp_idx).
#[export] Instance set_state : Setter state := ltac:(setter eta state).
#[export] Instance set_tpm_mode : Setter tpm_mode := ltac:(setter eta tpm_mode).
#[export] Instance set_pps : Setter pps := ltac:(setter eta pps).
#[export] Instance set_sps : Setter sps := ltac:(setter eta sps).
#[export] Instance set_eps : Setter eps := ltac:(setter eta eps).
#[export] Instance set_phProof : Setter phProof := ltac:(setter eta phProof).
#[export] Instance set_shProof : Setter shProof := ltac:(setter eta shProof).
#[export] Instance set_ehProof : Setter ehProof := ltac:(setter eta ehProof).
#[export] Instance set_primary_sensitive : Setter primary_sensitive := ltac:(setter eta primary_sensitive).
#[export] Instance set_primary_public : Setter primary_public := ltac:(setter eta primary_public).
#[export] Instance set_primary_name_size : Setter primary_name_size := ltac:(setter eta primary_name_size).
#[export] Instance set_next_transient_handle : Setter next_transient_handle := ltac:(setter eta next_transient_handle).
#[export] Instance set_initialized : Setter initialized := ltac:(setter eta initialized).
#[export] Instance set_rand_calls : Setter rand_calls := ltac:(setter eta rand_calls).


(** A fresh device object: QOM allocates the instance zeroed. *)
Definition TPM2State_zero : TPM2State :=
  {| nv_bank := None; nv_bank_size := 0; nv_alloc_offset := 0; nv_map := None;
     nv_count := 0; nv_dirty := false; ctrl := 0; status := 0; key_generated := 0;
     rsa_key := None; random_data := replicate 32 0;
     command_buffer := replicate 1024 0; response_buffer := replicate 1024 0;
     cmd_size := 0; resp_size := 0; resp_idx := 0; state := TPM_STATE_IDLE;
     tpm_mode := TPM_MODE_NORMAL; pps := replicate 32 0; sps := replicate 32 0;
     eps := replicate 32 0; phProof := replicate 32 0; shProof := replicate 32 0;
     ehProof := replicate 32 0; primary_sensitive := TPM2B_SENSITIVE_zero;
     primary_public := TPMT_PUBLIC_zero; primary_name_size := 0;
     next_transient_handle := 0; initialized := false; rand_calls := 0%nat |}.
