(* ===== verification/Codec.v ===== *)
(** * Codecs: what an unmarshalling function promises to its callers

    An unmarshalling function [f] parses the wire format [enc] of the values
    that satisfy [ok] when it accepts exactly the encodings, reads nothing
    outside of the [bufferSize] bytes it was given, and reports the number of
    bytes the encoding takes.  The command parsers are proved against this
    interface, whose instances are in [Unmarshal]. *)
From stdpp Require Import base list numbers.
From S2P Require Import Prelude Constants.

Class Codec {A : Type} (f : list Z -> ptr -> Z -> res (A * Z))
    (enc : A -> list Z) (ok : A -> Prop) : Prop := {
  codec_sound m p n :
    bytes m -> 0 <= p -> 0 <= n -> p + n <= zlen m -> n < 2 ^ 32 ->
    match f m (Some p) n with
    | Ok (a, c) => ok a /\ c = zlen (enc a) /\ c <= n /\ load m p c = Some (enc a)
    | Err rc => rc <> TPM_RC_SUCCESS
    | UB => False
    end;
  codec_complete m p n a :
    ok a -> 0 <= p -> zlen (enc a) <= n -> n < 2 ^ 32 ->
    load m p (zlen (enc a)) = Some (enc a) ->
    f m (Some p) n = Ok (a, zlen (enc a))
}.

(** What the callers of a command parser rely on: it ends with well-formed values or
    an error code, and accepts every encoding.  It may accept more. *)
Class Parser {A : Type} (f : list Z -> ptr -> Z -> res (A * Z))
    (enc : A -> list Z) (ok : A -> Prop) : Prop := {
  parser_sound m p n :
    bytes m -> 0 <= p -> 0 <= n -> p + n <= zlen m -> n < 2 ^ 32 ->
    match f m (Some p) n with
    | Ok (a, c) => ok a
    | Err rc => rc <> TPM_RC_SUCCESS
    | UB => False
    end;
  parser_complete m p n a :
    ok a -> 0 <= p -> zlen (enc a) <= n -> n < 2 ^ 32 ->
    load m p (zlen (enc a)) = Some (enc a) ->
    f m (Some p) n = Ok (a, zlen (enc a))
}.

#[export] Instance codec_parser {A} f (enc : A -> list Z) ok `{!Codec f enc ok} : Parser f enc ok.
Proof.
  split; [|apply codec_complete].
  intros m p n Hm Hp Hn Hl Hmax. pose proof (codec_sound m p n Hm Hp Hn Hl Hmax) as H.
  destruct (f m (Some p) n) as [[a c]|rc|]; [apply H|done..].
Qed.

Section Steps.
Context {A : Type} {f : list Z -> ptr -> Z -> res (A * Z)} {enc : A -> list Z}
  {ok : A -> Prop} `{!Codec f enc ok}.
Variables (m : list Z) (p n : Z).

(** One step of a parser that keeps its position in [o]. *)
Lemma codec_step o :
  bytes m -> 0 <= p -> 0 <= o <= n -> p + n <= zlen m -> n < 2 ^ 32 ->
  match f m (Some p +p o) (u32 (n - o)) with
  | Ok (a, c) =>
      ok a /\ c = zlen (enc a) /\ u32 (o + c) = o + zlen (enc a) /\
      0 <= o + zlen (enc a) <= n /\
      load m (p + o) (zlen (enc a)) = Some (enc a)
  | Err rc => rc <> TPM_RC_SUCCESS
  | UB => False
  end.
Proof using All.
  intros Hm Hp Ho Hl Hn. rewrite u32_id by (unfold is_u32; lia). simpl.
  pose proof (codec_sound m (p + o) (n - o) Hm) as H.
  destruct (f m (Some (p + o)) (n - o)) as [[a c]|rc|]; [|apply H; lia..].
  destruct H as (Hok & -> & Hc & Hload); [lia..|].
  pose proof (zlen_nonneg (enc a)).
  split_and!; try done; try lia. apply u32_id. unfold is_u32. lia.
Qed.

Lemma codec_step_complete o a :
  ok a -> 0 <= p -> 0 <= o -> o + zlen (enc a) <= n -> n < 2 ^ 32 ->
  load m (p + o) (zlen (enc a)) = Some (enc a) ->
  f m (Some p +p o) (u32 (n - o)) = Ok (a, zlen (enc a)).
Proof using All.
  intros Hok Hp Ho Hl Hn Hload. pose proof (zlen_nonneg (enc a)).
  rewrite u32_id by (unfold is_u32; lia). simpl.
  apply codec_complete; try done; lia.
Qed.

(** An accepted input is an encoding, and every encoding is accepted. *)
Lemma codec_exact :
  bytes m -> 0 <= p -> 0 <= n -> p + n <= zlen m -> n < 2 ^ 32 ->
  f m (Some p) n <> UB /\
  forall a c, f m (Some p) n = Ok (a, c) <->
    ok a /\ c = zlen (enc a) /\ c <= n /\ load m p c = Some (enc a).
Proof using All.
  intros Hm Hp Hn Hl Hmax. pose proof (codec_sound m p n Hm Hp Hn Hl Hmax) as H.
  split; [by intros E; rewrite E in H|]. intros a c. split.
  - intros E. by rewrite E in H.
  - intros (Hok & -> & Hc & L). by apply codec_complete.
Qed.

(** What is accepted is the encoding of what is returned, so two runs on the
    same bytes agree. *)
Lemma codec_unique a b :
  ok a -> ok b -> bytes m -> 0 <= p -> 0 <= n -> p + n <= zlen m -> n < 2 ^ 32 ->
  zlen (enc a) <= n -> zlen (enc b) <= n ->
  load m p (zlen (enc a)) = Some (enc a) ->
  load m p (zlen (enc b)) = Some (enc b) -> a = b.
Proof using All.
  intros Ha Hb Hm Hp Hn Hl Hmax Hla Hlb La Lb.
  apply (codec_complete m p n) in La; [|done..].
  apply (codec_complete m p n) in Lb; [|done..]. congruence.
Qed.
End Steps.

(** [Codec] does not depend on how its three components are written. *)
#[export] Instance Codec_proper A :
  Proper (eq ==> pointwise_relation A eq ==> pointwise_relation A iff ==> impl)
    (@Codec A).
Proof.
  intros f _ <- enc enc' Henc ok ok' Hok [Hs Hc]. split.
  - intros m p n Hm Hp Hn Hl Hmax. specialize (Hs m p n Hm Hp Hn Hl Hmax).
    destruct (f m (Some p) n) as [[a c]|rc|]; [|done..].
    rewrite <- !Henc. by rewrite <- Hok.
  - intros m p n a Ha Hp Hl Hmax L. rewrite <- Henc in *.
    apply Hc; try done. by apply Hok.
Qed.
