(* ===== verification/Header.v ===== *)
(** * Command and response headers

    [src/qemu/include/tpm/command_chain/cc_header.h] (header unmarshalling and
    marshalling) and [src/qemu/hw/tpm/tpm_cc.c] (the header validation the
    device runs on every command, and the operating-mode check). *)
From stdpp Require Import base list numbers gmap.
From S2P Require Import Prelude Constants State.

Record TPM_CMD_HEADER := mk_CMD_HEADER { ch_tag : Z; ch_size : Z; ch_code : Z }.
Record TPM_RSP_HEADER := mk_RSP_HEADER { rh_tag : Z; rh_size : Z; rh_code : Z }.

(** ** [cc_header.h] *)
Definition UnmarshalCommandTag (tag : Z) : Z :=
  if negb (tag =? TPM_ST_NO_SESSIONS) && negb (tag =? TPM_ST_SESSIONS)
  then TPM_RC_BAD_TAG else TPM_RC_SUCCESS.

Definition UnmarshalResponseTag (tag : Z) : Z :=
  if negb (tag =? TPM_ST_NO_SESSIONS) && negb (tag =? TPM_ST_SESSIONS)
  then TPM_RC_BAD_TAG else TPM_RC_SUCCESS.

Definition UnmarshalCommandSize (commandSize : Z) : Z :=
  if (commandSize <? TPM_MIN_COMMAND_SIZE) || (TPM_MAX_COMMAND_SIZE <? commandSize)
  then TPM_RC_COMMAND_SIZE else TPM_RC_SUCCESS.

Definition UnmarshalResponseSize (responseSize : Z) : Z :=
  if (responseSize <? TPM_MIN_RESPONSE_SIZE) || (TPM_MAX_RESPONSE_SIZE <? responseSize)
  then TPM_RC_SIZE else TPM_RC_SUCCESS.

Definition UnmarshalCommandCode (commandCode : Z) : Z :=
  if ((TPM_CC_FIRST <=? commandCode) && (commandCode <=? TPM_CC_LAST)) ||
     ((CC_VEND <=? commandCode) && (commandCode <=? 0x2FFFFFFF))
  then TPM_RC_SUCCESS else TPM_RC_COMMAND_CODE.

(** [rc = f(...); if (rc != TPM_RC_SUCCESS) return rc;] *)
Definition check_rc (rc : Z) : res unit :=
  fail_if (negb (rc =? TPM_RC_SUCCESS)) rc.

Definition UnmarshalCommandHeader (m : list Z) (buffer bufferSize : Z)
  : res (TPM_CMD_HEADER * Z) :=
  fail_if (bufferSize <? TPM_CMD_HEADER_SIZE) TPM_RC_INSUFFICIENT ;;
  tag ← ld16 m buffer;
  check_rc (UnmarshalCommandTag tag) ;;
  size ← ld32 m (buffer + 2);
  check_rc (UnmarshalCommandSize size) ;;
  fail_if (bufferSize <? size) TPM_RC_COMMAND_SIZE ;;
  code ← ld32 m (buffer + 6);
  check_rc (UnmarshalCommandCode code) ;;
  Ok ({| ch_tag := tag; ch_size := size; ch_code := code |}, 10).

Definition UnmarshalResponseHeader (m : list Z) (buffer bufferSize : Z)
  : res (TPM_RSP_HEADER * Z) :=
  fail_if (bufferSize <? TPM_RSP_HEADER_SIZE) TPM_RC_INSUFFICIENT ;;
  tag ← ld16 m buffer;
  check_rc (UnmarshalResponseTag tag) ;;
  size ← ld32 m (buffer + 2);
  check_rc (UnmarshalResponseSize size) ;;
  fail_if (bufferSize <? size) TPM_RC_SIZE ;;
  code ← ld32 m (buffer + 6);
  Ok ({| rh_tag := tag; rh_size := size; rh_code := code |}, 10).

Definition MarshalCommandHeader (m : list Z) (buffer bufferSize : Z)
    (header : TPM_CMD_HEADER) : wres :=
  if bufferSize <? TPM_CMD_HEADER_SIZE then WFail TPM_RC_INSUFFICIENT m
  else if negb (UnmarshalCommandTag (ch_tag header) =? TPM_RC_SUCCESS)
  then WFail TPM_RC_BAD_TAG m
  else if negb (UnmarshalCommandSize (ch_size header) =? TPM_RC_SUCCESS)
  then WFail TPM_RC_COMMAND_SIZE m
  else if negb (UnmarshalCommandCode (ch_code header) =? TPM_RC_SUCCESS)
  then WFail TPM_RC_COMMAND_CODE m
  else wput m buffer
         (to_be16 (ch_tag header) ++ to_be32 (ch_size header) ++
          to_be32 (ch_code header)).

Definition HasSessions (tag : Z) : bool := tag =? TPM_ST_SESSIONS.
Definition GetResponseTag (commandTag : Z) : Z := commandTag.

(** ** [tpm_cc.c] *)
Definition is_valid_cc_command (commandCode : Z) : bool :=
  ((TPM_CC_FIRST <=? commandCode) && (commandCode <=? TPM_CC_LAST)) ||
  ((CC_VEND <=? commandCode) && (commandCode <=? 0x2FFFFFFF)).

(** Returns -1, here [Err (-1)], on failure. *)
Definition tpm_unpack_header (m : list Z) (buffer : ptr) (bufferSize : Z)
  : res TPM_CMD_HEADER :=
  match buffer with
  | None => Err (-1)
  | Some p =>
      fail_if (bufferSize <? 10) (-1) ;;
      tag ← ld16 m p;
      size ← ld32 m (p + 2);
      code ← ld32 m (p + 6);
      Ok {| ch_tag := tag; ch_size := size; ch_code := code |}
  end.

Definition TPM2_ValidateCommandHeader (m : list Z) (cmdBuf : ptr) (bufSize : Z)
  : res TPM_CMD_HEADER :=
  fail_if (bool_decide (cmdBuf = NULL) || (bufSize <? 10)) TPM_RC_COMMAND_SIZE ;;
  match tpm_unpack_header m cmdBuf bufSize with
  | Err _ => Err TPM_RC_COMMAND_SIZE
  | UB => UB
  | Ok hdr =>
      fail_if (negb (ch_tag hdr =? TPM_ST_NO_SESSIONS) &&
               negb (ch_tag hdr =? TPM_ST_SESSIONS)) TPM_RC_BAD_TAG ;;
      fail_if ((ch_size hdr <? 10) || negb (ch_size hdr =? bufSize))
        TPM_RC_COMMAND_SIZE ;;
      fail_if (negb (is_valid_cc_command (ch_code hdr))) TPM_RC_COMMAND_CODE ;;
      Ok hdr
  end.

Definition TPM2_ValidateMode (cmdHeader : TPM_CMD_HEADER) (mode : tpm_operational_mode)
  : Z :=
  match mode with
  | TPM_MODE_FAILURE =>
      if negb (((ch_code cmdHeader =? TPM_CC_GetTestResult) ||
                (ch_code cmdHeader =? TPM_CC_GetCapability)) &&
               (ch_tag cmdHeader =? TPM_ST_NO_SESSIONS))
      then TPM_RC_FAILURE else TPM_RC_SUCCESS
  | TPM_MODE_FIELD =>
      if negb (ch_code cmdHeader =? TPM_CC_FieldUpgradeData)
      then TPM_RC_UPGRADE else TPM_RC_SUCCESS
  | TPM_MODE_NOINIT =>
      if negb (ch_code cmdHeader =? TPM_CC_Startup)
      then TPM_RC_INITIALIZE else TPM_RC_SUCCESS
  | TPM_MODE_NORMAL => TPM_RC_SUCCESS
  end.

(** ** What a well-formed command header is *)

(** The ten octets of a header, big-endian. *)
Definition encode_header (h : TPM_CMD_HEADER) : list Z :=
  to_be16 (ch_tag h) ++ to_be32 (ch_size h) ++ to_be32 (ch_code h).

Definition header_in_range (h : TPM_CMD_HEADER) : Prop :=
  is_u16 (ch_tag h) /\ is_u32 (ch_size h) /\ is_u32 (ch_code h).

(** A header that announces a command of [n] octets in total. *)
Definition well_formed_header (h : TPM_CMD_HEADER) (n : Z) : Prop :=
  (ch_tag h = TPM_ST_NO_SESSIONS \/ ch_tag h = TPM_ST_SESSIONS) /\
  ch_size h = n /\ 10 <= n /\
  (TPM_CC_FIRST <= ch_code h <= TPM_CC_LAST \/
   CC_VEND <= ch_code h <= 0x2FFFFFFF).

(** What each operating mode lets through, and its answer to the rest. *)
Definition mode_allows (mode : tpm_operational_mode) (h : TPM_CMD_HEADER) : Prop :=
  match mode with
  | TPM_MODE_NORMAL => True
  | TPM_MODE_FAILURE =>
      (ch_code h = TPM_CC_GetTestResult \/ ch_code h = TPM_CC_GetCapability) /\
      ch_tag h = TPM_ST_NO_SESSIONS
  | TPM_MODE_FIELD => ch_code h = TPM_CC_FieldUpgradeData
  | TPM_MODE_NOINIT => ch_code h = TPM_CC_Startup
  end.

Definition mode_rejection (mode : tpm_operational_mode) : Z :=
  match mode with
  | TPM_MODE_NORMAL => TPM_RC_SUCCESS
  | TPM_MODE_FAILURE => TPM_RC_FAILURE
  | TPM_MODE_FIELD => TPM_RC_UPGRADE
  | TPM_MODE_NOINIT => TPM_RC_INITIALIZE
  end.

(** ** Lemmas *)
Lemma load_header m p h :
  load m p 10 = Some (encode_header h) <->
  load m p 2 = Some (to_be16 (ch_tag h)) /\
  load m (p + 2) 4 = Some (to_be32 (ch_size h)) /\
  load m (p + 6) 4 = Some (to_be32 (ch_code h)).
Proof.
  unfold encode_header. rewrite load_app by done.
  change (zlen (to_be16 _)) with 2.
  change (zlen (to_be32 (ch_size h) ++ to_be32 (ch_code h))) with 8.
  rewrite load_app by done.
  change (zlen (to_be32 _)) with 4.
  by replace (p + 2 + 4) with (p + 6) by lia.
Qed.

(** Any ten octets are the encoding of the header they decode to. *)
Lemma header_decode m p :
  bytes m -> 0 <= p -> p + 10 <= zlen m ->
  exists h, header_in_range h /\ load m p 10 = Some (encode_header h) /\
    ld16 m p = Ok (ch_tag h) /\ ld32 m (p + 2) = Ok (ch_size h) /\
    ld32 m (p + 6) = Ok (ch_code h).
Proof.
  intros Hm Hp Hl.
  destruct (load_ld16 m p) as (tag & H1 & R1 & L1); [done|lia|lia|].
  destruct (load_ld32 m (p + 2)) as (size & H2 & R2 & L2); [done|lia|lia|].
  destruct (load_ld32 m (p + 6)) as (code & H3 & R3 & L3); [done|lia|lia|].
  exists {| ch_tag := tag; ch_size := size; ch_code := code |}.
  split; [done|]. split; [by apply load_header | done].
Qed.

Lemma header_encoded m p h :
  header_in_range h -> load m p 10 = Some (encode_header h) ->
  ld16 m p = Ok (ch_tag h) /\ ld32 m (p + 2) = Ok (ch_size h) /\
  ld32 m (p + 6) = Ok (ch_code h).
Proof.
  intros (R1 & R2 & R3) (L1 & L2 & L3)%load_header.
  split_and!; [by apply ld16_be | by apply ld32_be..].
Qed.

Lemma encode_header_inj h h' :
  header_in_range h -> header_in_range h' ->
  encode_header h = encode_header h' -> h = h'.
Proof.
  intros R R' E.
  destruct (header_encoded (encode_header h) 0 h) as (A & B & C); [done..|].
  destruct (header_encoded (encode_header h) 0 h') as (A' & B' & C'); [done| |].
  { by rewrite E. }
  destruct h, h'; simpl in *; congruence.
Qed.

Lemma encode_header_bytes h : bytes (encode_header h).
Proof. unfold encode_header. auto with tpm. Qed.
#[export] Hint Resolve encode_header_bytes : tpm.

Lemma is_valid_cc_command_spec c :
  is_valid_cc_command c = true <->
  TPM_CC_FIRST <= c <= TPM_CC_LAST \/ CC_VEND <= c <= 0x2FFFFFFF.
Proof. unfold is_valid_cc_command. lia. Qed.

Lemma UnmarshalCommandCode_valid c :
  UnmarshalCommandCode c = TPM_RC_SUCCESS <-> is_valid_cc_command c = true.
Proof.
  unfold UnmarshalCommandCode, is_valid_cc_command. case_match; done.
Qed.

(** The validation on a buffer that holds the header [h], every branch. *)
Lemma validate_encoded m p n h :
  header_in_range h -> load m p 10 = Some (encode_header h) ->
  TPM2_ValidateCommandHeader m (Some p) n =
  if n <? 10 then Err TPM_RC_COMMAND_SIZE
  else if negb (ch_tag h =? TPM_ST_NO_SESSIONS) && negb (ch_tag h =? TPM_ST_SESSIONS)
  then Err TPM_RC_BAD_TAG
  else if negb (ch_size h =? n) then Err TPM_RC_COMMAND_SIZE
  else if negb (is_valid_cc_command (ch_code h)) then Err TPM_RC_COMMAND_CODE
  else Ok h.
Proof.
  intros R L. destruct (header_encoded _ _ _ R L) as (A & B & C).
  unfold TPM2_ValidateCommandHeader, tpm_unpack_header, fail_if, mbind, res_bind.
  rewrite bool_decide_eq_false_2 by done. simpl.
  destruct (n <? 10) eqn:E; [done|]. rewrite A, B, C. simpl.
  destruct (_ && _); [done|].
  destruct (ch_size h =? n) eqn:E2; simpl; [|by rewrite orb_true_r].
  replace (ch_size h <? 10) with false by lia. simpl.
  destruct (is_valid_cc_command _); by destruct h.
Qed.

(** ** Properties *)

(** On a buffer of octets that holds [n] bytes at [p], the header
    validation run by the device accepts exactly the well-formed headers of a
    command of [n] bytes, and yields the header that the first ten bytes
    encode. *)
Lemma TPM2_ValidateCommandHeader_correct m p n h
    (Hm : bytes m) (Hp : 0 <= p) (Hn : p + Z.max n 10 <= zlen m) :
  TPM2_ValidateCommandHeader m (Some p) n = Ok h <->
  header_in_range h /\ load m p 10 = Some (encode_header h) /\
  well_formed_header h n.
Proof.
  destruct (header_decode m p) as (h' & R & L & _); [done|lia|lia|].
  rewrite (validate_encoded m p n h') by done. unfold well_formed_header.
  rewrite <- is_valid_cc_command_spec. split.
  - intros H. repeat case_match; simplify_eq. split_and!; try done; try lia.
    by apply negb_false_iff.
  - intros (R' & L' & Ht & Hs & H10 & Hc).
    assert (h' = h) as -> by (apply encode_header_inj; congruence).
    rewrite Hc. by repeat (case_match; try lia).
Qed.

Lemma TPM2_ValidateCommandHeader_correct_witness :
  let m := [0x80; 0x01; 0; 0; 0; 12; 0; 0; 0x01; 0x7B; 0; 32] in
  let h := {| ch_tag := TPM_ST_NO_SESSIONS; ch_size := 12; ch_code := TPM_CC_GetRandom |} in
  TPM2_ValidateCommandHeader m (Some 0) 12 = Ok h /\
  load m 0 10 = Some (encode_header h).
Proof.
  split; [reflexivity|].
  apply (TPM2_ValidateCommandHeader_correct
           [0x80; 0x01; 0; 0; 0; 12; 0; 0; 0x01; 0x7B; 0; 32] 0 12);
    [by apply (bool_decide_unpack _) | done | done | reflexivity].
Defined.

(** C23: the validation that the device runs never reads outside of the command
    buffer; it yields the header that the first ten bytes encode if that is well
    formed for a command of [n] bytes, and each rejected header gets its own
    response code: too short a command and a size
    field that differs from the received length give [TPM_RC_COMMAND_SIZE], a
    tag other than the two command tags [TPM_RC_BAD_TAG], a code outside of the
    command ranges [TPM_RC_COMMAND_CODE], in this order of precedence. *)
Theorem TPM2_ValidateCommandHeader_errors m p n
    (Hm : bytes m) (Hp : 0 <= p) (Hn : p + Z.max n 10 <= zlen m) :
  exists h, load m p 10 = Some (encode_header h) /\
  match TPM2_ValidateCommandHeader m (Some p) n with
  | UB => False
  | Ok h' => h' = h /\ header_in_range h /\ well_formed_header h n
  | Err rc =>
      rc = TPM_RC_COMMAND_SIZE /\ n < 10 \/
      rc = TPM_RC_BAD_TAG /\ 10 <= n /\
        ch_tag h <> TPM_ST_NO_SESSIONS /\ ch_tag h <> TPM_ST_SESSIONS \/
      rc = TPM_RC_COMMAND_SIZE /\ 10 <= n /\ ch_size h <> n /\
        (ch_tag h = TPM_ST_NO_SESSIONS \/ ch_tag h = TPM_ST_SESSIONS) \/
      rc = TPM_RC_COMMAND_CODE /\ 10 <= n /\ ch_size h = n /\
        is_valid_cc_command (ch_code h) = false
  end.
Proof.
  destruct (header_decode m p) as (h & R & L & _); [done|lia|lia|]. exists h. split; [done|].
  pose proof (fun h' => proj1 (TPM2_ValidateCommandHeader_correct m p n h' Hm Hp Hn)) as Hok.
  pose proof (validate_encoded m p n h R L) as Hv.
  destruct (TPM2_ValidateCommandHeader m (Some p) n) as [h'|rc|].
  - destruct (Hok h' eq_refl) as (R' & L' & W). assert (h' = h) as -> by (apply encode_header_inj; congruence). done.
  - clear Hok. destruct (is_valid_cc_command (ch_code h)); simpl in *;
      repeat (case_match; simplify_eq; try lia); naive_solver lia.
  - repeat case_match; done.
Qed.

Lemma TPM2_ValidateCommandHeader_errors_witness :
  let m := [0xDE; 0xAD; 0; 0; 0; 10; 0; 0; 0x01; 0x7C] in
  TPM2_ValidateCommandHeader m (Some 0) 10 = Err TPM_RC_BAD_TAG /\
  exists h, load m 0 10 = Some (encode_header h).
Proof.
  split; [reflexivity|].
  destruct (TPM2_ValidateCommandHeader_errors
              [0xDE; 0xAD; 0; 0; 0; 10; 0; 0; 0x01; 0x7C] 0 10)
    as (h & Hh & _); [by apply (bool_decide_unpack _) | done | done |].
  by exists h.
Defined.

(** The unused header parser of [cc_header.h] and the one the device runs
    agree: on a command of at most 4096 bytes that exactly fills its buffer,
    one accepts a header when the other does, and both yield the same. *)
Theorem UnmarshalCommandHeader_equiv m p n h
    (Hm : bytes m) (Hp : 0 <= p) (Hn : p + Z.max n 10 <= zlen m)
    (Hmax : n <= TPM_MAX_COMMAND_SIZE) :
  TPM2_ValidateCommandHeader m (Some p) n = Ok h <->
  UnmarshalCommandHeader m p n = Ok (h, 10) /\ ch_size h = n.
Proof.
  destruct (header_decode m p) as (h' & R & L & A & B & C); [done|lia|lia|].
  rewrite (validate_encoded m p n h') by done.
  unfold UnmarshalCommandHeader, check_rc, fail_if, mbind, res_bind.
  rewrite A, B, C. unfold UnmarshalCommandTag, UnmarshalCommandSize,
    TPM_CMD_HEADER_SIZE, TPM_MIN_COMMAND_SIZE in *.
  destruct (n <? 10) eqn:E1; [naive_solver|]. destruct (_ && _); [naive_solver|].
  simpl. destruct (ch_size h' =? n) eqn:E2; simpl.
  - replace (ch_size h' <? 10) with false by lia.
    replace (TPM_MAX_COMMAND_SIZE <? ch_size h') with false by lia.
    replace (n <? ch_size h') with false by lia. simpl.
    pose proof (UnmarshalCommandCode_valid (ch_code h')).
    unfold UnmarshalCommandCode in *.
    destruct (is_valid_cc_command (ch_code h')), (_ || _); simpl in *;
      try naive_solver; destruct h'; naive_solver lia.
  - split; [done|]. intros [H Hs].
    repeat (case_match; simplify_eq/=; try lia).
Qed.

Lemma UnmarshalCommandHeader_equiv_witness :
  let m := [0x80; 0x02; 0; 0; 0; 10; 0; 0; 0x01; 0x44] in
  UnmarshalCommandHeader m 0 10 =
  Ok ({| ch_tag := TPM_ST_SESSIONS; ch_size := 10; ch_code := TPM_CC_Startup |}, 10).
Proof.
  apply (UnmarshalCommandHeader_equiv
           [0x80; 0x02; 0; 0; 0; 10; 0; 0; 0x01; 0x44] 0 10);
    [by apply (bool_decide_unpack _) | done | done | done | reflexivity].
Defined.

(** A command header written by [MarshalCommandHeader] is read back by
    [UnmarshalCommandHeader] from any buffer that holds the whole command, and
    the rest of the buffer is unchanged. *)
Theorem CommandHeader_roundtrip m p sz n h
    (Hh : header_in_range h) (Hwf : well_formed_header h (ch_size h))
    (Hmax : ch_size h <= TPM_MAX_COMMAND_SIZE)
    (Hp : 0 <= p) (Hsz : 10 <= sz) (Hfit : p + 10 <= zlen m) (Hn : ch_size h <= n) :
  exists m', MarshalCommandHeader m p sz h = Wrote 10 m' /\
    UnmarshalCommandHeader m' p n = Ok (h, 10) /\
    zlen m' = zlen m /\
    forall q k, q + k <= p \/ p + 10 <= q -> load m' q k = load m q k.
Proof.
  destruct Hwf as (Ht & _ & H10 & Hc%is_valid_cc_command_spec).
  unfold MarshalCommandHeader, wput. fold (encode_header h).
  destruct (store_in m p (encode_header h)) as [m' E]; [done|done|].
  assert (Etag : UnmarshalCommandTag (ch_tag h) = TPM_RC_SUCCESS).
  { unfold UnmarshalCommandTag. by destruct Ht as [-> | ->]. }
  assert (Esz : UnmarshalCommandSize (ch_size h) = TPM_RC_SUCCESS).
  { unfold UnmarshalCommandSize, TPM_MIN_COMMAND_SIZE. by case_match; [lia|]. }
  apply UnmarshalCommandCode_valid in Hc.
  unfold TPM_CMD_HEADER_SIZE. rewrite E, Etag, Esz, Hc.
  replace (sz <? 10) with false by lia. exists m'. split; [done|].
  destruct (header_encoded m' p h Hh) as (A & B & C).
  { by apply load_store_same in E. }
  split_and!.
  - unfold UnmarshalCommandHeader, check_rc, fail_if, mbind, res_bind,
      TPM_CMD_HEADER_SIZE.
    rewrite A, B, C, Etag, Esz, Hc. simpl.
    replace (n <? 10) with false by lia.
    replace (n <? ch_size h) with false by lia. by destruct h.
  - by apply store_zlen in E.
  - intros q k Hd. by apply (load_store_disjoint _ _ _ _ _ _ E).
Qed.

Lemma CommandHeader_roundtrip_witness :
  exists m', MarshalCommandHeader (replicate 12 7) 1 11
    {| ch_tag := TPM_ST_NO_SESSIONS; ch_size := 12; ch_code := TPM_CC_GetRandom |}
    = Wrote 10 m'.
Proof.
  destruct (CommandHeader_roundtrip (replicate 12 7) 1 11 12
    {| ch_tag := TPM_ST_NO_SESSIONS; ch_size := 12; ch_code := TPM_CC_GetRandom |})
    as (m' & H & _); try done.
  { unfold well_formed_header. simpl. split_and!; try done; by left. }
  by exists m'.
Defined.

(** The mode check.  Failure mode lets only [GetTestResult] and
    [GetCapability] without sessions through, field-upgrade mode only
    [FieldUpgradeData], an uninitialised TPM only [Startup]; each mode has its
    own response code for the rest. *)
Theorem TPM2_ValidateMode_spec h mode :
  (TPM2_ValidateMode h mode = TPM_RC_SUCCESS <-> mode_allows mode h) /\
  (TPM2_ValidateMode h mode = TPM_RC_SUCCESS \/
   TPM2_ValidateMode h mode = mode_rejection mode).
Proof.
  destruct mode; simpl; split; try (by auto); case_match;
    first [by auto | split; [done | intros; lia] | split; [intros _; lia | done]].
Qed.

Lemma TPM_CC_commands_valid :
  Forall (fun c => is_valid_cc_command c = true) TPM_CC_commands.
Proof. apply (bool_decide_unpack _). vm_compute. done. Qed.
