(* ===== verification/Unmarshal.v ===== *)
(** * Unmarshalling of command parameters

    [src/qemu/include/tpm/command_chain/cc_unmarshal.h].  A function takes the
    memory object its [buffer] points into, the pointer, and [bufferSize], and
    returns its output parameters and the number of bytes read, or the response
    code of an early return.  Output pointers are the addresses of locals at
    every call site, so the NULL tests on them never fire and only the test on
    [buffer] is kept.  The array an output buffer is copied to is represented
    by the bytes copied into it. *)
From stdpp Require Import base list numbers.
From S2P Require Import Prelude Constants State Codec.

(** ** Basic types *)
Definition Unmarshal_UINT8 (m : list Z) (buffer : ptr) (bufferSize : Z)
  : res (Z * Z) :=
  match buffer with
  | None => Err TPM_RC_FAILURE
  | Some p =>
      fail_if (bufferSize <? 1) TPM_RC_INSUFFICIENT ;;
      v ← ld8 m p;
      Ok (v, 1)
  end.

Definition Unmarshal_UINT16 (m : list Z) (buffer : ptr) (bufferSize : Z)
  : res (Z * Z) :=
  match buffer with
  | None => Err TPM_RC_FAILURE
  | Some p =>
      fail_if (bufferSize <? 2) TPM_RC_INSUFFICIENT ;;
      v ← ld16 m p;
      Ok (v, 2)
  end.

Definition Unmarshal_UINT32 (m : list Z) (buffer : ptr) (bufferSize : Z)
  : res (Z * Z) :=
  match buffer with
  | None => Err TPM_RC_FAILURE
  | Some p =>
      fail_if (bufferSize <? 4) TPM_RC_INSUFFICIENT ;;
      v ← ld32 m p;
      Ok (v, 4)
  end.

Definition Unmarshal_UINT64 (m : list Z) (buffer : ptr) (bufferSize : Z)
  : res (Z * Z) :=
  match buffer with
  | None => Err TPM_RC_FAILURE
  | Some p =>
      fail_if (bufferSize <? 8) TPM_RC_INSUFFICIENT ;;
      v ← ld64 m p;
      Ok (v, 8)
  end.

(** Yields the size field and the data, with the number of bytes read. *)
Definition Unmarshal_TPM2B (m : list Z) (buffer : ptr) (bufferSize maxSize : Z)
  : res (Z * list Z * Z) :=
  match buffer with
  | None => Err TPM_RC_FAILURE
  | Some p =>
      let offset := 0 in
      '(dataSize, consumed) ←
        Unmarshal_UINT16 m (Some p +p offset) (u32 (bufferSize - offset));
      let offset := u32 (offset + consumed) in
      fail_if (maxSize <? dataSize) TPM_RC_SIZE ;;
      fail_if (u32 (bufferSize - offset) <? dataSize) TPM_RC_INSUFFICIENT ;;
      data ← of_opt (load m (p + offset) dataSize);
      let offset := u32 (offset + dataSize) in
      Ok (dataSize, data, offset)
  end.

(** ** Commands *)
Definition Unmarshal_GetRandom (m : list Z) (buffer : ptr) (bufferSize : Z)
  : res (Z * Z) :=
  Unmarshal_UINT16 m buffer bufferSize.

Record CreatePrimary_Params := mk_CreatePrimary_Params {
  cp_primaryHandle : Z;
  cp_inSensitiveSize : Z;
  cp_userAuthSize : Z;
  cp_userAuth : list Z;
  cp_dataSize : Z;
  cp_data : list Z;
  cp_inPublicSize : Z
}.

(** When [inSensitiveSize] is 0 the sizes and buffers of [userAuth] and [data]
    keep the value the caller's local had: zero, since QEMU is built with
    [-ftrivial-auto-var-init=zero] ([src/qemu/meson.build]). *)
Definition Unmarshal_CreatePrimary (m : list Z) (buffer : ptr) (bufferSize : Z)
  : res (CreatePrimary_Params * Z) :=
  match buffer with
  | None => Err TPM_RC_FAILURE
  | Some _ =>
      let offset := 0 in
      '(primaryHandle, consumed) ←
        Unmarshal_UINT32 m (buffer +p offset) (u32 (bufferSize - offset));
      let offset := u32 (offset + consumed) in
      '(inSensitiveSize, consumed) ←
        Unmarshal_UINT16 m (buffer +p offset) (u32 (bufferSize - offset));
      let offset := u32 (offset + consumed) in
      '(userAuthSize, userAuth, dataSize, data, offset) ←
        (if 0 <? inSensitiveSize then
           '(userAuthSize, userAuth, consumed) ←
             Unmarshal_TPM2B m (buffer +p offset) (u32 (bufferSize - offset)) 64;
           let offset := u32 (offset + consumed) in
           '(dataSize, data, consumed) ←
             Unmarshal_TPM2B m (buffer +p offset) (u32 (bufferSize - offset)) 256;
           let offset := u32 (offset + consumed) in
           Ok (userAuthSize, userAuth, dataSize, data, offset)
         else Ok (0, [], 0, [], offset));
      '(inPublicSize, consumed) ←
        Unmarshal_UINT16 m (buffer +p offset) (u32 (bufferSize - offset));
      let offset := u32 (offset + consumed) in
      fail_if (u32 (bufferSize - offset) <? inPublicSize) TPM_RC_INSUFFICIENT ;;
      let offset := u32 (offset + inPublicSize) in
      Ok ({| cp_primaryHandle := primaryHandle;
             cp_inSensitiveSize := inSensitiveSize;
             cp_userAuthSize := userAuthSize; cp_userAuth := userAuth;
             cp_dataSize := dataSize; cp_data := data;
             cp_inPublicSize := inPublicSize |}, offset)
  end.

Record NV_DefineSpace_Params := mk_NV_DefineSpace_Params {
  dp_authHandle : Z;
  dp_authSize : Z;
  dp_auth : list Z;
  dp_publicSize : Z;
  dp_nvIndex : Z;
  dp_nameAlg : Z;
  dp_attributes : Z;
  dp_authPolicySize : Z;
  dp_authPolicy : list Z;
  dp_dataSize : Z
}.

Definition Unmarshal_NV_DefineSpace (m : list Z) (buffer : ptr) (bufferSize : Z)
  : res (NV_DefineSpace_Params * Z) :=
  match buffer with
  | None => Err TPM_RC_FAILURE
  | Some _ =>
      let offset := 0 in
      '(authHandle, consumed) ←
        Unmarshal_UINT32 m (buffer +p offset) (u32 (bufferSize - offset));
      let offset := u32 (offset + consumed) in
      '(authSize, auth, consumed) ←
        Unmarshal_TPM2B m (buffer +p offset) (u32 (bufferSize - offset)) 64;
      let offset := u32 (offset + consumed) in
      '(publicSize, consumed) ←
        Unmarshal_UINT16 m (buffer +p offset) (u32 (bufferSize - offset));
      let offset := u32 (offset + consumed) in
      '(nvIndex, consumed) ←
        Unmarshal_UINT32 m (buffer +p offset) (u32 (bufferSize - offset));
      let offset := u32 (offset + consumed) in
      '(nameAlg, consumed) ←
        Unmarshal_UINT16 m (buffer +p offset) (u32 (bufferSize - offset));
      let offset := u32 (offset + consumed) in
      '(attributes, consumed) ←
        Unmarshal_UINT32 m (buffer +p offset) (u32 (bufferSize - offset));
      let offset := u32 (offset + consumed) in
      '(authPolicySize, authPolicy, consumed) ←
        Unmarshal_TPM2B m (buffer +p offset) (u32 (bufferSize - offset)) 64;
      let offset := u32 (offset + consumed) in
      '(dataSize, consumed) ←
        Unmarshal_UINT16 m (buffer +p offset) (u32 (bufferSize - offset));
      let offset := u32 (offset + consumed) in
      Ok ({| dp_authHandle := authHandle; dp_authSize := authSize; dp_auth := auth;
             dp_publicSize := publicSize; dp_nvIndex := nvIndex;
             dp_nameAlg := nameAlg; dp_attributes := attributes;
             dp_authPolicySize := authPolicySize; dp_authPolicy := authPolicy;
             dp_dataSize := dataSize |}, offset)
  end.

Record NV_Write_Params := mk_NV_Write_Params {
  wp_authHandle : Z;
  wp_nvIndex : Z;
  wp_data : TPM2B;
  wp_offset : Z
}.

Record NV_Read_Params := mk_NV_Read_Params {
  rp_authHandle : Z;
  rp_nvIndex : Z;
  rp_sizeToRead : Z;
  rp_offset : Z
}.

Definition Unmarshal_TPM2B_MAX_NV_BUFFER (m : list Z) (buffer : ptr) (bufferSize : Z)
  : res (TPM2B * Z) :=
  match buffer with
  | None => Err TPM_RC_FAILURE
  | Some p =>
      let offset := 0 in
      '(size, consumed) ←
        Unmarshal_UINT16 m (buffer +p offset) (u32 (bufferSize - offset));
      let offset := u32 (offset + consumed) in
      fail_if (MAX_NV_BUFFER_SIZE <? size) TPM_RC_SIZE ;;
      fail_if (u32 (bufferSize - offset) <? size) TPM_RC_INSUFFICIENT ;;
      data ← of_opt (load m (p + offset) size);
      let offset := u32 (offset + size) in
      Ok ({| b_size := size; b_buffer := data |}, offset)
  end.

(** [return rc] where the outputs are [v]: the caller goes on with them when [rc] is
    the code of success. *)
Definition return_rc {A} (rc : Z) (v : A) : res A :=
  if rc =? TPM_RC_SUCCESS then Ok v else Err rc.

(** An authorization area that is not empty ends the parsing with [TPM_RC_VALUE].
    What has not been set yet keeps the value of the caller's locals, which is zero
    (as for [Unmarshal_CreatePrimary]), and so does [*bytesRead]. *)
Definition Unmarshal_NV_Write (m : list Z) (buffer : ptr) (bufferSize : Z)
  : res (NV_Write_Params * Z) :=
  match buffer with
  | None => Err TPM_RC_FAILURE
  | Some _ =>
      let offset := 0 in
      '(authHandle, consumed) ←
        Unmarshal_UINT32 m (buffer +p offset) (u32 (bufferSize - offset));
      let offset := u32 (offset + consumed) in
      '(nvIndex, consumed) ←
        Unmarshal_UINT32 m (buffer +p offset) (u32 (bufferSize - offset));
      let offset := u32 (offset + consumed) in
      '(authSize, consumed) ←
        Unmarshal_UINT16 m (buffer +p offset) (u32 (bufferSize - offset));
      let offset := u32 (offset + consumed) in
      if negb (authSize =? 0) then
        return_rc TPM_RC_VALUE
          ({| wp_authHandle := authHandle; wp_nvIndex := nvIndex;
              wp_data := {| b_size := 0; b_buffer := [] |}; wp_offset := 0 |}, 0)
      else
      '(data, consumed) ←
        Unmarshal_TPM2B_MAX_NV_BUFFER m (buffer +p offset) (u32 (bufferSize - offset));
      let offset := u32 (offset + consumed) in
      '(woffset, consumed) ←
        Unmarshal_UINT16 m (buffer +p offset) (u32 (bufferSize - offset));
      let offset := u32 (offset + consumed) in
      Ok ({| wp_authHandle := authHandle; wp_nvIndex := nvIndex; wp_data := data;
             wp_offset := woffset |}, offset)
  end.

Definition Unmarshal_NV_Read (m : list Z) (buffer : ptr) (bufferSize : Z)
  : res (NV_Read_Params * Z) :=
  match buffer with
  | None => Err TPM_RC_FAILURE
  | Some _ =>
      let offset := 0 in
      '(authHandle, consumed) ←
        Unmarshal_UINT32 m (buffer +p offset) (u32 (bufferSize - offset));
      let offset := u32 (offset + consumed) in
      '(nvIndex, consumed) ←
        Unmarshal_UINT32 m (buffer +p offset) (u32 (bufferSize - offset));
      let offset := u32 (offset + consumed) in
      '(authSize, consumed) ←
        Unmarshal_UINT16 m (buffer +p offset) (u32 (bufferSize - offset));
      let offset := u32 (offset + consumed) in
      if negb (authSize =? 0) then
        return_rc TPM_RC_VALUE
          ({| rp_authHandle := authHandle; rp_nvIndex := nvIndex;
              rp_sizeToRead := 0; rp_offset := 0 |}, 0)
      else
      '(sizeToRead, consumed) ←
        Unmarshal_UINT16 m (buffer +p offset) (u32 (bufferSize - offset));
      let offset := u32 (offset + consumed) in
      '(roffset, consumed) ←
        Unmarshal_UINT16 m (buffer +p offset) (u32 (bufferSize - offset));
      let offset := u32 (offset + consumed) in
      Ok ({| rp_authHandle := authHandle; rp_nvIndex := nvIndex;
             rp_sizeToRead := sizeToRead; rp_offset := roffset |}, offset)
  end.

(** ** Wire formats *)
Definition enc_TPM2B (d : Z * list Z) : list Z := to_be16 (fst d) ++ snd d.
Definition ok_TPM2B (max : Z) (d : Z * list Z) : Prop :=
  fst d = zlen (snd d) /\ is_u16 (fst d) /\ bytes (snd d) /\ zlen (snd d) <= max.

Definition enc_NV_BUFFER (b : TPM2B) : list Z := to_be16 (b_size b) ++ b_buffer b.
Definition ok_NV_BUFFER (b : TPM2B) : Prop :=
  b_size b = zlen (b_buffer b) /\ is_u16 (b_size b) /\ bytes (b_buffer b) /\
  zlen (b_buffer b) <= MAX_NV_BUFFER_SIZE.

Definition enc_NV_Read (r : NV_Read_Params) : list Z :=
  to_be32 (rp_authHandle r) ++ to_be32 (rp_nvIndex r) ++ to_be16 0 ++
  to_be16 (rp_sizeToRead r) ++ to_be16 (rp_offset r).
Definition ok_NV_Read (r : NV_Read_Params) : Prop :=
  is_u32 (rp_authHandle r) /\ is_u32 (rp_nvIndex r) /\
  is_u16 (rp_sizeToRead r) /\ is_u16 (rp_offset r).

Definition enc_NV_Write (w : NV_Write_Params) : list Z :=
  to_be32 (wp_authHandle w) ++ to_be32 (wp_nvIndex w) ++ to_be16 0 ++
  enc_NV_BUFFER (wp_data w) ++ to_be16 (wp_offset w).
Definition ok_NV_Write (w : NV_Write_Params) : Prop :=
  is_u32 (wp_authHandle w) /\ is_u32 (wp_nvIndex w) /\
  ok_NV_BUFFER (wp_data w) /\ is_u16 (wp_offset w).

Definition enc_NV_DefineSpace (d : NV_DefineSpace_Params) : list Z :=
  to_be32 (dp_authHandle d) ++ enc_TPM2B (dp_authSize d, dp_auth d) ++
  to_be16 (dp_publicSize d) ++ to_be32 (dp_nvIndex d) ++ to_be16 (dp_nameAlg d) ++
  to_be32 (dp_attributes d) ++ enc_TPM2B (dp_authPolicySize d, dp_authPolicy d) ++
  to_be16 (dp_dataSize d).
Definition ok_NV_DefineSpace (d : NV_DefineSpace_Params) : Prop :=
  is_u32 (dp_authHandle d) /\ ok_TPM2B 64 (dp_authSize d, dp_auth d) /\
  is_u16 (dp_publicSize d) /\ is_u32 (dp_nvIndex d) /\ is_u16 (dp_nameAlg d) /\
  is_u32 (dp_attributes d) /\ ok_TPM2B 64 (dp_authPolicySize d, dp_authPolicy d) /\
  is_u16 (dp_dataSize d).

(** The part of the TPM2_CreatePrimary parameters that is parsed: the bytes of
    the public area are only counted. *)
Definition enc_CreatePrimary (c : CreatePrimary_Params) : list Z :=
  to_be32 (cp_primaryHandle c) ++ to_be16 (cp_inSensitiveSize c) ++
  (if 0 <? cp_inSensitiveSize c
   then enc_TPM2B (cp_userAuthSize c, cp_userAuth c) ++
        enc_TPM2B (cp_dataSize c, cp_data c)
   else []) ++
  to_be16 (cp_inPublicSize c).
Definition ok_CreatePrimary (c : CreatePrimary_Params) : Prop :=
  is_u32 (cp_primaryHandle c) /\ is_u16 (cp_inSensitiveSize c) /\
  is_u16 (cp_inPublicSize c) /\
  ok_TPM2B 64 (cp_userAuthSize c, cp_userAuth c) /\
  ok_TPM2B 256 (cp_dataSize c, cp_data c) /\
  (cp_inSensitiveSize c = 0 -> cp_userAuth c = [] /\ cp_data c = []).

(** ** Codecs of the basic types *)
#[export] Instance Unmarshal_UINT16_codec : Codec Unmarshal_UINT16 to_be16 is_u16.
Proof.
  split; unfold Unmarshal_UINT16, fail_if, mbind, res_bind.
  - intros m p n Hm Hp Hn Hl _. destruct (_ <? _) eqn:E; [done|].
    destruct (load_ld16 m p) as (v & -> & Hv & Hload); [done|lia|lia|].
    split_and!; try done. change (zlen _) with 2. lia.
  - intros m p n v Hv Hp Hn _ Hload. change (zlen _) with 2 in *.
    destruct (_ <? _) eqn:E; [lia|]. by rewrite (ld16_be m p v).
Qed.

#[export] Instance Unmarshal_UINT32_codec : Codec Unmarshal_UINT32 to_be32 is_u32.
Proof.
  split; unfold Unmarshal_UINT32, fail_if, mbind, res_bind.
  - intros m p n Hm Hp Hn Hl _. destruct (_ <? _) eqn:E; [done|].
    destruct (load_ld32 m p) as (v & -> & Hv & Hload); [done|lia|lia|].
    split_and!; try done. change (zlen _) with 4. lia.
  - intros m p n v Hv Hp Hn _ Hload. change (zlen _) with 4 in *.
    destruct (_ <? _) eqn:E; [lia|]. by rewrite (ld32_be m p v).
Qed.

#[export] Instance Unmarshal_UINT8_codec : Codec Unmarshal_UINT8 (fun v => [v]) is_u8.
Proof.
  split; unfold Unmarshal_UINT8, ld8, fail_if, mbind, res_bind.
  - intros m p n Hm Hp Hn Hl _. destruct (_ <? _) eqn:E; [done|].
    destruct (load m p 1) as [l|] eqn:El; [|rewrite load_in in El; [done|lia..]].
    pose proof (load_bytes _ _ _ _ Hm El) as Hb. pose proof (load_length _ _ _ _ El) as Hz.
    destruct l as [|v []]; try discriminate Hz. inversion Hb. split_and!; try done. change (zlen _) with 1. lia.
  - intros m p n v Hv Hp Hn _ Hload. change (zlen _) with 1 in *.
    destruct (_ <? _) eqn:E; [lia|]. by rewrite Hload.
Qed.

#[export] Instance Unmarshal_UINT64_codec : Codec Unmarshal_UINT64 to_be64 is_u64.
Proof.
  split; unfold Unmarshal_UINT64, fail_if, mbind, res_bind.
  - intros m p n Hm Hp Hn Hl _. destruct (_ <? _) eqn:E; [done|].
    destruct (load_ld64 m p) as (v & -> & Hv & Hload); [done|lia|lia|].
    split_and!; try done. change (zlen _) with 8. lia.
  - intros m p n v Hv Hp Hn _ Hload. change (zlen _) with 8 in *.
    destruct (_ <? _) eqn:E; [lia|]. unfold ld64. rewrite Hload. unfold to_be64. by rewrite be64_to_be64.
Qed.

#[export] Instance Unmarshal_TPM2B_codec max :
  Codec (fun m p n =>
           '(dataSize, data, c) ← Unmarshal_TPM2B m p n max; Ok ((dataSize, data), c))
    enc_TPM2B (ok_TPM2B max).
Proof.
  split; unfold Unmarshal_TPM2B, fail_if, mbind, res_bind, of_opt.
  - intros m p n Hm Hp Hn Hl Hmax.
    pose proof (codec_step (f := Unmarshal_UINT16) m p n 0 Hm Hp) as H.
    destruct (Unmarshal_UINT16 _ _ _) as [[size c]|rc|]; [|apply H; lia..].
    destruct H as (Hs & -> & -> & H2 & Hload); [lia..|].
    change (zlen (to_be16 size)) with 2 in *. change (0 + 2) with 2 in *.
    destruct (max <? size) eqn:E1; [done|].
    rewrite u32_id by (unfold is_u32; lia).
    destruct (n - 2 <? size) eqn:E2; [done|].
    unfold is_u16 in Hs.
    rewrite load_in, u32_id by (unfold is_u32; lia).
    unfold ok_TPM2B, enc_TPM2B. simpl fst; simpl snd.
    rewrite zlen_app, zlen_take, zlen_drop by lia.
    change (zlen (to_be16 size)) with 2.
    split_and!; try (unfold is_u16; lia); auto with tpm.
    apply load_app; rewrite ?zlen_take, ?zlen_drop by lia.
    { change (zlen (to_be16 size)) with 2. lia. }
    change (zlen (to_be16 size)) with 2.
    replace (p + 0) with p in Hload by lia. split; [done|].
    rewrite load_in by lia. f_equal. f_equal. lia.
  - intros m p n [size data] (Hs & Hu & Hb & Hle) Hp Hn Hmax Hload.
    unfold enc_TPM2B in *. cbn [fst snd] in *. rewrite zlen_app in *.
    apply load_app in Hload as [L1 L2]; [|done].
    change (zlen (to_be16 size)) with 2 in *. pose proof (zlen_nonneg data).
    rewrite (codec_step_complete (f := Unmarshal_UINT16) m p n 0 size)
      by (rewrite ?Z.add_0_r; try change (zlen _) with 2; done || lia).
    change (zlen (to_be16 size)) with 2. change (u32 (0 + 2)) with 2.
    replace (max <? size) with false by lia.
    rewrite (u32_id (n - _)) by (unfold is_u32; lia).
    replace (n - 2 <? size) with false by lia.
    rewrite Hs, L2, u32_id by (unfold is_u32; lia). done.
Qed.

Lemma Unmarshal_TPM2B_step max m p n o :
  bytes m -> 0 <= p -> 0 <= o <= n -> p + n <= zlen m -> n < 2 ^ 32 ->
  match Unmarshal_TPM2B m (Some p +p o) (u32 (n - o)) max with
  | Ok (size, data, c) =>
      ok_TPM2B max (size, data) /\ c = zlen (enc_TPM2B (size, data)) /\
      u32 (o + c) = o + zlen (enc_TPM2B (size, data)) /\
      0 <= o + zlen (enc_TPM2B (size, data)) <= n /\
      load m (p + o) (zlen (enc_TPM2B (size, data))) = Some (enc_TPM2B (size, data))
  | Err rc => rc <> TPM_RC_SUCCESS
  | UB => False
  end.
Proof.
  intros Hm Hp Ho Hl Hn.
  pose proof (codec_step (Codec0 := Unmarshal_TPM2B_codec max) m p n o Hm Hp Ho Hl Hn) as H.
  cbv beta in H.
  destruct (Unmarshal_TPM2B _ _ _ _) as [[[size data] c]|rc|]; exact H.
Qed.

Lemma Unmarshal_TPM2B_complete max m p n o size data :
  ok_TPM2B max (size, data) -> 0 <= p -> 0 <= o ->
  o + zlen (enc_TPM2B (size, data)) <= n -> n < 2 ^ 32 ->
  load m (p + o) (zlen (enc_TPM2B (size, data))) = Some (enc_TPM2B (size, data)) ->
  Unmarshal_TPM2B m (Some p +p o) (u32 (n - o)) max =
  Ok (size, data, zlen (enc_TPM2B (size, data))).
Proof.
  intros Hok Hp Ho Hl Hn Hload.
  pose proof (codec_step_complete (Codec0 := Unmarshal_TPM2B_codec max)
                m p n o (size, data) Hok Hp Ho Hl Hn Hload) as H.
  unfold mbind, res_bind in H. cbv beta in H.
  destruct (Unmarshal_TPM2B _ _ _ _) as [[[size' data'] c]|rc|]; by simplify_eq.
Qed.

(** The NV buffer is a [TPM2B] of at most [MAX_NV_BUFFER_SIZE] bytes. *)
Lemma Unmarshal_NV_BUFFER_TPM2B m p n :
  Unmarshal_TPM2B_MAX_NV_BUFFER m (Some p) n =
  ('(size, data, c) ← Unmarshal_TPM2B m (Some p) n MAX_NV_BUFFER_SIZE;
   Ok ({| b_size := size; b_buffer := data |}, c)).
Proof.
  unfold Unmarshal_TPM2B_MAX_NV_BUFFER, Unmarshal_TPM2B, mbind, res_bind.
  destruct (Unmarshal_UINT16 _ _ _) as [[]| |]; [|done..].
  destruct (fail_if _ _); [|done..]. destruct (fail_if _ _); [|done..].
  by destruct (of_opt _).
Qed.

#[export] Instance Unmarshal_NV_BUFFER_codec :
  Codec Unmarshal_TPM2B_MAX_NV_BUFFER enc_NV_BUFFER ok_NV_BUFFER.
Proof.
  destruct (Unmarshal_TPM2B_codec MAX_NV_BUFFER_SIZE) as [Hs Hc]. split.
  - intros m p n Hm Hp Hn Hl Hmax. specialize (Hs m p n Hm Hp Hn Hl Hmax). cbv beta in Hs.
    rewrite Unmarshal_NV_BUFFER_TPM2B.
    by destruct (Unmarshal_TPM2B _ _ _ _) as [[[]]| |].
  - intros m p n [size data] Hok Hp Hn Hmax Hload.
    specialize (Hc m p n (size, data) Hok Hp Hn Hmax Hload).
    rewrite Unmarshal_NV_BUFFER_TPM2B. unfold mbind, res_bind in *.
    by destruct (Unmarshal_TPM2B _ _ _ _) as [[[]]| |]; simplify_eq.
Qed.

(** ** Codecs of the NV commands *)

Ltac simpl_fields :=
  cbn [fst snd b_size b_buffer rp_authHandle rp_nvIndex rp_sizeToRead rp_offset
       wp_authHandle wp_nvIndex wp_data wp_offset dp_authHandle dp_authSize dp_auth
       dp_publicSize dp_nvIndex dp_nameAlg dp_attributes dp_authPolicySize
       dp_authPolicy dp_dataSize cp_primaryHandle cp_inSensitiveSize cp_userAuthSize
       cp_userAuth cp_dataSize cp_data cp_inPublicSize] in *.

(** The lengths of the integer fields, in the whole goal. *)
Ltac field_lengths :=
  repeat match goal with
  | |- context [zlen (to_be16 ?v)] => change (zlen (to_be16 v)) with 2
  | |- context [zlen (to_be32 ?v)] => change (zlen (to_be32 v)) with 4
  | H : context [zlen (to_be16 ?v)] |- _ => change (zlen (to_be16 v)) with 2 in H
  | H : context [zlen (to_be32 ?v)] |- _ => change (zlen (to_be32 v)) with 4 in H
  end.
Ltac field_lia :=
  repeat match goal with |- context [zlen ?l] =>
    lazymatch goal with H : 0 <= zlen l |- _ => fail | _ => pose proof (zlen_nonneg l) end end;
  autorewrite with zlen in *; field_lengths; lia.

(** Runs the next call of a parser whose position is in the goal; the failing
    outcomes are discharged. *)
Ltac parse_next :=
  let H := fresh "H" in
  match goal with
  | |- context [Unmarshal_TPM2B ?m (Some ?p +p ?o) (u32 (?n - ?o)) ?max] =>
      pose proof (Unmarshal_TPM2B_step max m p n o) as H;
      destruct (Unmarshal_TPM2B m (Some p +p o) (u32 (n - o)) max) as [[[? ?] ?]|?|]
  | |- context [?f ?m (Some ?p +p ?o) (u32 (?n - ?o))] =>
      pose proof (codec_step (f := f) m p n o) as H;
      destruct (f m (Some p +p o) (u32 (n - o))) as [[? ?]|?|]
  end;
  [ destruct H as (? & -> & -> & ? & ?); [done || lia..|] | apply H; done || lia.. ];
  field_lengths.

(** Joins the pieces read by the single calls into the whole encoding. *)
Ltac join_loads :=
  repeat (apply load_app; [autorewrite with zlen; field_lengths; lia|split]);
  field_lengths;
  match goal with
  | |- load ?m ?a ?n = Some ?l =>
      match goal with
      | H : load m ?b n = Some l |- _ => replace a with b by lia; exact H
      end
  end.
Ltac parse_end := simpl_fields; split_and!; try done; try field_lia; try join_loads.

(** Splits an encoding in memory into its fields. *)
Ltac split_loads H :=
  repeat (let L := fresh "L" in
          apply load_app in H as [L H]; [|by autorewrite with zlen]);
  field_lengths.

(** Runs the next call of a parser on the encoding of [a]. *)
Ltac parse_known a :=
  match goal with
  | |- context [?f ?m (Some ?p +p ?o) (u32 (?n - ?o))] =>
      rewrite (codec_step_complete (f := f) m p n o a)
        by (done || field_lia ||
            (field_lengths; match goal with H : load m ?b _ = Some _ |- load m ?c _ = _ =>
                        replace c with b by lia; exact H end));
      field_lengths; rewrite (u32_id (o + _)) by (unfold is_u32; field_lia)
  end.

Ltac parse_known_2b size data :=
  match goal with
  | |- context [Unmarshal_TPM2B ?m (Some ?p +p ?o) (u32 (?n - ?o)) ?max] =>
      rewrite (Unmarshal_TPM2B_complete max m p n o size data)
        by (done || field_lia ||
            (match goal with H : load m ?b _ = Some _ |- load m ?c _ = _ =>
                        replace c with b by lia; exact H end));
      rewrite (u32_id (o + _)) by (unfold is_u32; field_lia)
  end.

(** The NV commands for an index behind whose handles an authorization area is
    announced. *)
Definition has_sessions (m : list Z) (p n authHandle nvIndex : Z) : Prop :=
  is_u32 authHandle /\ is_u32 nvIndex /\ 10 <= n /\
  exists authSize, is_u16 authSize /\ authSize <> 0 /\
    load m p 10 = Some (to_be32 authHandle ++ to_be32 nvIndex ++ to_be16 authSize).

Definition skipped_read (ah ix : Z) : NV_Read_Params := mk_NV_Read_Params ah ix 0 0.
Definition skipped_write (ah ix : Z) : NV_Write_Params :=
  mk_NV_Write_Params ah ix (mk_TPM2B 0 []) 0.

(** The check of the authorization area. *)
Ltac parse_auth :=
  let E := fresh "E" in
  match goal with
  | |- context [negb (?a =? 0)] =>
      destruct (negb (a =? 0)) eqn:E; [|assert (a = 0) as -> by lia; clear E]
  end.

(** The handles and the announced size, read before the check. *)
Ltac sessions_end a :=
  unfold has_sessions; split_and!; try done; try lia; exists a;
  split_and!; [done|lia|change 10 with (4 + (4 + 2)); join_loads].

Lemma Unmarshal_NV_Read_sound m p n :
  bytes m -> 0 <= p -> 0 <= n -> p + n <= zlen m -> n < 2 ^ 32 ->
  match Unmarshal_NV_Read m (Some p) n with
  | Ok (r, c) => ok_NV_Read r /\
      (c = zlen (enc_NV_Read r) /\ c <= n /\ load m p c = Some (enc_NV_Read r) \/
       c = 0 /\ exists ah ix, r = skipped_read ah ix /\ has_sessions m p n ah ix)
  | Err rc => rc <> TPM_RC_SUCCESS
  | UB => False
  end.
Proof.
  intros Hm Hp Hn Hl Hmax. unfold Unmarshal_NV_Read, fail_if, mbind, res_bind.
  do 3 parse_next. parse_auth.
  - unfold return_rc. simpl. split.
    { unfold ok_NV_Read. simpl_fields. split_and!; done || (unfold is_u16; lia). }
    right. split; [done|]. eexists _, _.
    split; [reflexivity|]. match goal with E : negb (?a =? 0) = true |- _ => sessions_end a end.
  - do 2 parse_next. unfold ok_NV_Read, enc_NV_Read. split; [parse_end|left; parse_end].
Qed.

Lemma Unmarshal_NV_Read_complete m p n r :
  ok_NV_Read r -> 0 <= p -> zlen (enc_NV_Read r) <= n -> n < 2 ^ 32 ->
  load m p (zlen (enc_NV_Read r)) = Some (enc_NV_Read r) ->
  Unmarshal_NV_Read m (Some p) n = Ok (r, zlen (enc_NV_Read r)).
Proof.
  destruct r as [ah ix sz off]. intros (H1 & H2 & H3 & H4) Hp Hn Hmax Hload.
  unfold Unmarshal_NV_Read, fail_if, mbind, res_bind.
  unfold enc_NV_Read in *. simpl_fields. rewrite !zlen_app in *. split_loads Hload.
  parse_known ah. parse_known ix. parse_known 0. cbn [negb Z.eqb].
  parse_known sz. parse_known off. do 2 f_equal; lia.
Qed.

Lemma Unmarshal_NV_Read_skips m p n ah ix :
  0 <= p -> n < 2 ^ 32 -> has_sessions m p n ah ix ->
  Unmarshal_NV_Read m (Some p) n = Ok (skipped_read ah ix, 0).
Proof.
  intros Hp Hmax (H1 & H2 & Hn & a & Ha & Hne & Hload).
  unfold Unmarshal_NV_Read, fail_if, mbind, res_bind.
  change 10 with (zlen (to_be32 ah ++ to_be32 ix ++ to_be16 a)) in Hload.
  rewrite !zlen_app in *. split_loads Hload.
  parse_known ah. parse_known ix. parse_known a. by replace (negb (a =? 0)) with true by lia.
Qed.

Lemma Unmarshal_NV_Write_sound m p n :
  bytes m -> 0 <= p -> 0 <= n -> p + n <= zlen m -> n < 2 ^ 32 ->
  match Unmarshal_NV_Write m (Some p) n with
  | Ok (r, c) => ok_NV_Write r /\
      (c = zlen (enc_NV_Write r) /\ c <= n /\ load m p c = Some (enc_NV_Write r) \/
       c = 0 /\ exists ah ix, r = skipped_write ah ix /\ has_sessions m p n ah ix)
  | Err rc => rc <> TPM_RC_SUCCESS
  | UB => False
  end.
Proof.
  intros Hm Hp Hn Hl Hmax. unfold Unmarshal_NV_Write, fail_if, mbind, res_bind.
  do 3 parse_next. parse_auth.
  - unfold return_rc. simpl. split.
    { unfold ok_NV_Write, ok_NV_BUFFER. simpl_fields. split_and!; auto with tpm; done || (unfold is_u16; lia). }
    right. split; [done|]. eexists _, _.
    split; [reflexivity|]. match goal with E : negb (?a =? 0) = true |- _ => sessions_end a end.
  - do 2 parse_next. unfold ok_NV_Write, enc_NV_Write. split; [parse_end|left; parse_end].
Qed.

Lemma Unmarshal_NV_Write_complete m p n r :
  ok_NV_Write r -> 0 <= p -> zlen (enc_NV_Write r) <= n -> n < 2 ^ 32 ->
  load m p (zlen (enc_NV_Write r)) = Some (enc_NV_Write r) ->
  Unmarshal_NV_Write m (Some p) n = Ok (r, zlen (enc_NV_Write r)).
Proof.
  destruct r as [ah ix d off]. intros (H1 & H2 & H3 & H4) Hp Hn Hmax Hload.
  unfold Unmarshal_NV_Write, fail_if, mbind, res_bind.
  unfold enc_NV_Write in *. simpl_fields. rewrite !zlen_app in *.
  pose proof (zlen_nonneg (enc_NV_BUFFER d)). split_loads Hload.
  parse_known ah. parse_known ix. parse_known 0. cbn [negb Z.eqb].
  parse_known d. parse_known off. do 2 f_equal; lia.
Qed.

Lemma Unmarshal_NV_Write_skips m p n ah ix :
  0 <= p -> n < 2 ^ 32 -> has_sessions m p n ah ix ->
  Unmarshal_NV_Write m (Some p) n = Ok (skipped_write ah ix, 0).
Proof.
  intros Hp Hmax (H1 & H2 & Hn & a & Ha & Hne & Hload).
  unfold Unmarshal_NV_Write, fail_if, mbind, res_bind.
  change 10 with (zlen (to_be32 ah ++ to_be32 ix ++ to_be16 a)) in Hload.
  rewrite !zlen_app in *. split_loads Hload.
  parse_known ah. parse_known ix. parse_known a. by replace (negb (a =? 0)) with true by lia.
Qed.

#[export] Instance Unmarshal_NV_Read_parser : Parser Unmarshal_NV_Read enc_NV_Read ok_NV_Read.
Proof.
  split; [|exact Unmarshal_NV_Read_complete].
  intros m p n Hm Hp Hn Hl Hmax. pose proof (Unmarshal_NV_Read_sound m p n Hm Hp Hn Hl Hmax) as H.
  destruct (Unmarshal_NV_Read m (Some p) n) as [[a c]|rc|]; [apply H|done..].
Qed.

#[export] Instance Unmarshal_NV_Write_parser : Parser Unmarshal_NV_Write enc_NV_Write ok_NV_Write.
Proof.
  split; [|exact Unmarshal_NV_Write_complete].
  intros m p n Hm Hp Hn Hl Hmax. pose proof (Unmarshal_NV_Write_sound m p n Hm Hp Hn Hl Hmax) as H.
  destruct (Unmarshal_NV_Write m (Some p) n) as [[a c]|rc|]; [apply H|done..].
Qed.

#[export] Instance Unmarshal_NV_DefineSpace_codec :
  Codec Unmarshal_NV_DefineSpace enc_NV_DefineSpace ok_NV_DefineSpace.
Proof.
  split; unfold Unmarshal_NV_DefineSpace, mbind, res_bind.
  - intros m p n Hm Hp Hn Hl Hmax. do 8 parse_next.
    unfold ok_NV_DefineSpace, enc_NV_DefineSpace. parse_end.
  - intros m p n [ah asz a psz ix alg at_ apsz ap dsz]
      (H1 & H2 & H3 & H4 & H5 & H6 & H7 & H8) Hp Hn Hmax Hload.
    unfold enc_NV_DefineSpace in *. simpl_fields. rewrite !zlen_app in *.
    pose proof (zlen_nonneg (enc_TPM2B (asz, a))).
    pose proof (zlen_nonneg (enc_TPM2B (apsz, ap))). split_loads Hload.
    parse_known ah. parse_known_2b asz a. parse_known psz. parse_known ix.
    parse_known alg. parse_known at_. parse_known_2b apsz ap. parse_known dsz.
    do 2 f_equal; lia.
Qed.

(** TPM2_CreatePrimary: the parsed prefix and the extent of the public area. *)
Lemma ok_TPM2B_empty max : 0 <= max -> ok_TPM2B max (0, []).
Proof. intros. repeat split; simpl; auto with tpm. Qed.

Lemma Unmarshal_CreatePrimary_sound m p n :
  bytes m -> 0 <= p -> 0 <= n -> p + n <= zlen m -> n < 2 ^ 32 ->
  match Unmarshal_CreatePrimary m (Some p) n with
  | Ok (r, c) =>
      ok_CreatePrimary r /\ c = zlen (enc_CreatePrimary r) + cp_inPublicSize r /\
      c <= n /\
      load m p (zlen (enc_CreatePrimary r)) = Some (enc_CreatePrimary r)
  | Err rc => rc <> TPM_RC_SUCCESS
  | UB => False
  end.
Proof.
  intros Hm Hp Hn Hl Hmax. unfold Unmarshal_CreatePrimary, fail_if, mbind, res_bind.
  do 2 parse_next.
  match goal with |- context [0 <? ?z] => destruct (0 <? z) eqn:Epos end.
  - do 3 parse_next.
    destruct (u32 _ <? _) eqn:E; [done|].
    rewrite u32_id in E by (unfold is_u32; lia).
    unfold is_u16 in *. rewrite u32_id by (unfold is_u32; lia).
    unfold ok_CreatePrimary, enc_CreatePrimary. simpl_fields. rewrite Epos.
    rewrite <- app_assoc. parse_end.
  - parse_next.
    destruct (u32 _ <? _) eqn:E; [done|].
    rewrite u32_id in E by (unfold is_u32; lia).
    unfold is_u16 in *. rewrite u32_id by (unfold is_u32; lia).
    unfold ok_CreatePrimary, enc_CreatePrimary. simpl_fields. rewrite Epos.
    rewrite app_nil_l. parse_end; by apply ok_TPM2B_empty.
Qed.

Lemma Unmarshal_CreatePrimary_complete m p n r :
  ok_CreatePrimary r -> 0 <= p -> zlen (enc_CreatePrimary r) + cp_inPublicSize r <= n ->
  n < 2 ^ 32 -> load m p (zlen (enc_CreatePrimary r)) = Some (enc_CreatePrimary r) ->
  Unmarshal_CreatePrimary m (Some p) n = Ok (r, zlen (enc_CreatePrimary r) + cp_inPublicSize r).
Proof.
  destruct r as [ph iss uas ua ds d ips].
  intros (H1 & H2 & H3 & H4 & H5 & H6) Hp Hn Hmax Hload.
  unfold ok_CreatePrimary, enc_CreatePrimary in *. simpl_fields.
  unfold Unmarshal_CreatePrimary, fail_if, mbind, res_bind. pose proof H3 as Hips. unfold is_u16 in Hips.
  assert (Hend : forall o, 0 <= o -> o + 2 + ips <= n -> (u32 (n - (o + 2)) <? ips) = false)
    by (intros; rewrite u32_id by (unfold is_u32; lia); lia).
  destruct (0 <? iss) eqn:Epos.
  - rewrite <- ?app_assoc in *. rewrite !zlen_app in *.
    pose proof (zlen_nonneg (enc_TPM2B (uas, ua))).
    pose proof (zlen_nonneg (enc_TPM2B (ds, d))). split_loads Hload.
    parse_known ph. parse_known iss. rewrite Epos. parse_known_2b uas ua. parse_known_2b ds d.
    parse_known ips. rewrite Hend by field_lia. rewrite u32_id by (unfold is_u32; lia). do 2 f_equal; lia.
  - rewrite app_nil_l in *. rewrite !zlen_app in *. split_loads Hload.
    parse_known ph. parse_known iss. rewrite Epos. parse_known ips.
    rewrite Hend by field_lia. rewrite u32_id by (unfold is_u32; lia).
    destruct H6 as [-> ->]; [unfold is_u16 in *; lia|]. destruct H4 as [E4 _], H5 as [E5 _].
    simpl in E4, E5. subst uas ds. reflexivity.
Qed.

(** ** What the parsers of the commands accept *)
Section Exact.
Variables (m : list Z) (p n : Z).
Hypotheses (Hm : bytes m) (Hp : 0 <= p) (Hn : 0 <= n) (Hl : p + n <= zlen m)
  (Hmax : n < 2 ^ 32).

(** [Unmarshal_CreatePrimary] never reads outside of the buffer; it succeeds
    exactly on the encodings of well-formed parameters (the user authorization
    at most 64 and the sensitive data at most 256 bytes long) followed by at
    least the announced number of bytes of public area, which it skips. *)
Lemma Unmarshal_CreatePrimary_exact :
  Unmarshal_CreatePrimary m (Some p) n <> UB /\
  forall r c, Unmarshal_CreatePrimary m (Some p) n = Ok (r, c) <->
    ok_CreatePrimary r /\ c = zlen (enc_CreatePrimary r) + cp_inPublicSize r /\ c <= n /\
    load m p (zlen (enc_CreatePrimary r)) = Some (enc_CreatePrimary r).
Proof using All.
  pose proof (Unmarshal_CreatePrimary_sound m p n Hm Hp Hn Hl Hmax) as H.
  split; [by intros E; rewrite E in H|]. intros r c. split.
  - intros E. by rewrite E in H.
  - intros (Hok & -> & Hc & L). by apply Unmarshal_CreatePrimary_complete.
Qed.

Lemma Unmarshal_NV_Write_exact :
  Unmarshal_NV_Write m (Some p) n <> UB /\
  forall r c, Unmarshal_NV_Write m (Some p) n = Ok (r, c) <->
    ok_NV_Write r /\ c = zlen (enc_NV_Write r) /\ c <= n /\ load m p c = Some (enc_NV_Write r) \/
    c = 0 /\ exists ah ix, r = skipped_write ah ix /\ has_sessions m p n ah ix.
Proof using All.
  pose proof (Unmarshal_NV_Write_sound m p n Hm Hp Hn Hl Hmax) as H.
  split; [by intros E; rewrite E in H|]. intros r c. split.
  - intros E. rewrite E in H. tauto.
  - intros [(Hok & -> & Hc & L)|(-> & ah & ix & -> & Hs)];
      [by apply Unmarshal_NV_Write_complete|by apply Unmarshal_NV_Write_skips].
Qed.

Lemma Unmarshal_NV_Read_exact :
  Unmarshal_NV_Read m (Some p) n <> UB /\
  forall r c, Unmarshal_NV_Read m (Some p) n = Ok (r, c) <->
    ok_NV_Read r /\ c = zlen (enc_NV_Read r) /\ c <= n /\ load m p c = Some (enc_NV_Read r) \/
    c = 0 /\ exists ah ix, r = skipped_read ah ix /\ has_sessions m p n ah ix.
Proof using All.
  pose proof (Unmarshal_NV_Read_sound m p n Hm Hp Hn Hl Hmax) as H.
  split; [by intros E; rewrite E in H|]. intros r c. split.
  - intros E. rewrite E in H. tauto.
  - intros [(Hok & -> & Hc & L)|(-> & ah & ix & -> & Hs)];
      [by apply Unmarshal_NV_Read_complete|by apply Unmarshal_NV_Read_skips].
Qed.

(** C24: what the parameter parsers of the commands accept.  None of them reads
    outside of the command body; each succeeds on the wire encodings of well-formed
    parameters and returns them with the length of the encoding, so that what
    follows is left unread.  [Unmarshal_NV_DefineSpace] accepts nothing else;
    [Unmarshal_CreatePrimary] also wants, and skips, the announced number of bytes
    of public area.  [Unmarshal_NV_Write] and [Unmarshal_NV_Read] accept one thing
    more: behind the two handles an authorization area that is not empty, whatever
    follows, since the [TPM_RC_VALUE] they return for it is the code of success;
    the parameters are then the two handles and zeros. *)
Theorem command_parsers_exact :
  (Unmarshal_NV_DefineSpace m (Some p) n <> UB /\
   forall r c, Unmarshal_NV_DefineSpace m (Some p) n = Ok (r, c) <->
     ok_NV_DefineSpace r /\ c = zlen (enc_NV_DefineSpace r) /\ c <= n /\
     load m p c = Some (enc_NV_DefineSpace r)) /\
  (Unmarshal_NV_Write m (Some p) n <> UB /\
   forall r c, Unmarshal_NV_Write m (Some p) n = Ok (r, c) <->
     ok_NV_Write r /\ c = zlen (enc_NV_Write r) /\ c <= n /\ load m p c = Some (enc_NV_Write r) \/
     c = 0 /\ exists ah ix, r = skipped_write ah ix /\ has_sessions m p n ah ix) /\
  (Unmarshal_NV_Read m (Some p) n <> UB /\
   forall r c, Unmarshal_NV_Read m (Some p) n = Ok (r, c) <->
     ok_NV_Read r /\ c = zlen (enc_NV_Read r) /\ c <= n /\ load m p c = Some (enc_NV_Read r) \/
     c = 0 /\ exists ah ix, r = skipped_read ah ix /\ has_sessions m p n ah ix) /\
  (Unmarshal_CreatePrimary m (Some p) n <> UB /\
   forall r c, Unmarshal_CreatePrimary m (Some p) n = Ok (r, c) <->
     ok_CreatePrimary r /\ c = zlen (enc_CreatePrimary r) + cp_inPublicSize r /\ c <= n /\
     load m p (zlen (enc_CreatePrimary r)) = Some (enc_CreatePrimary r)).
Proof using All.
  split; [by apply codec_exact|]. split; [exact Unmarshal_NV_Write_exact|].
  split; [exact Unmarshal_NV_Read_exact|]. exact Unmarshal_CreatePrimary_exact.
Qed.
End Exact.

(** A command of each kind, and one with an authorization area of nine bytes. *)
Lemma command_parsers_exact_witness :
  let w := mk_NV_Write_Params 1073741825 16777217 (mk_TPM2B 3 [1; 2; 3]) 0 in
  let c := mk_CreatePrimary_Params 1073741825 4 0 [] 0 [] 2 in
  let x := to_be32 1073741825 ++ to_be32 16777217 ++ to_be16 9 in
  Unmarshal_NV_Write (enc_NV_Write w) (Some 0) (zlen (enc_NV_Write w)) = Ok (w, zlen (enc_NV_Write w)) /\
  Unmarshal_NV_Write x (Some 0) 10 = Ok (skipped_write 1073741825 16777217, 0) /\ ok_CreatePrimary c.
Proof.
  intros w c x.
  destruct (command_parsers_exact (enc_NV_Write w) 0 (zlen (enc_NV_Write w))) as (_ & [_ H] & _);
    [apply (bool_decide_unpack _); by vm_compute|by vm_compute..|].
  destruct (command_parsers_exact x 0 10) as (_ & [_ H1] & _);
    [apply (bool_decide_unpack _); by vm_compute|by vm_compute..|].
  destruct (command_parsers_exact (enc_CreatePrimary c ++ [9; 9]) 0 14) as (_ & _ & _ & _ & H');
    [apply (bool_decide_unpack _); by vm_compute|by vm_compute..|].
  split; [apply (proj2 (H w (zlen (enc_NV_Write w))))|split; [apply (proj2 (H1 _ 0))|]].
  - left. split; [|split; [reflexivity|split; [reflexivity|vm_compute; reflexivity]]].
    unfold ok_NV_Write, ok_NV_BUFFER, is_u32, is_u16, bytes, is_u8, zlen, MAX_NV_BUFFER_SIZE. simpl.
    repeat split; try lia; repeat constructor; lia.
  - right. split; [reflexivity|]. exists 1073741825, 16777217. split; [reflexivity|].
    unfold has_sessions, is_u32. split; [lia|]. split; [lia|]. split; [lia|].
    exists 9. unfold is_u16. split; [lia|]. split; [lia|vm_compute; reflexivity].
  - exact (proj1 (proj1 (H' c 14) ltac:(vm_compute; reflexivity))).
Defined.
