(* ===== verification/Handle.v ===== *)
(** * Handles

    [src/qemu/include/tpm/command_chain/cc_handle.h]: the ranges handles are
    classified by, the validation functions of the interface types, and the
    (un)marshalling of handles.  No file of the device includes this header; what
    [TPM_RC_VALUE] stands for in it is a matter of the file that would ([0x084]
    behind [tpm2_rc.h] alone, [0] behind [tpm2_device.h]), and a parameter here. *)
From stdpp Require Import base list numbers.
From Stdlib Require Import String.
From S2P Require Import Prelude Constants Codec Unmarshal.
Open Scope string_scope.
Open Scope Z_scope.

(** ** Classification *)
Definition GET_HANDLE_TYPE (handle : Z) : Z := u8 (Z.shiftr handle 24).
Definition HANDLE_IN_RANGE (handle first last : Z) : bool :=
  (first <=? handle) && (handle <=? last).

Definition IsNVIndexHandle (handle : Z) : bool :=
  HANDLE_IN_RANGE handle NV_INDEX_FIRST NV_INDEX_LAST.
Definition IsTransientHandle (handle : Z) : bool :=
  HANDLE_IN_RANGE handle TRANSIENT_FIRST TRANSIENT_LAST.
Definition IsPersistentHandle (handle : Z) : bool :=
  HANDLE_IN_RANGE handle PERSISTENT_FIRST PERSISTENT_LAST.
Definition IsPermanentHandle (handle : Z) : bool :=
  HANDLE_IN_RANGE handle PERMANENT_FIRST PERMANENT_LAST.
Definition IsSessionHandle (handle : Z) : bool :=
  HANDLE_IN_RANGE handle HMAC_SESSION_FIRST HMAC_SESSION_LAST ||
  HANDLE_IN_RANGE handle POLICY_SESSION_FIRST POLICY_SESSION_LAST.
Definition IsHMACSessionHandle (handle : Z) : bool :=
  HANDLE_IN_RANGE handle HMAC_SESSION_FIRST HMAC_SESSION_LAST.
Definition IsPolicySessionHandle (handle : Z) : bool :=
  HANDLE_IN_RANGE handle POLICY_SESSION_FIRST POLICY_SESSION_LAST.
Definition IsACHandle (handle : Z) : bool :=
  HANDLE_IN_RANGE handle AC_FIRST AC_LAST.

(** ** Validation: the value returned is a [TPM_RC] *)
Section Validation.
Context (TPM_RC_VALUE : Z).

(** A [switch] whose listed cases return [TPM_RC_SUCCESS]. *)
Definition case_of (handle : Z) (cases : list Z) : bool :=
  existsb (Z.eqb handle) cases.

Definition ValidatePermanentHandle (handle : Z) : Z :=
  if case_of handle
       [TPM_RH_OWNER; TPM_RH_NULL; TPM_RS_PW; TPM_RH_LOCKOUT; TPM_RH_ENDORSEMENT;
        TPM_RH_PLATFORM; TPM_RH_PLATFORM_NV; TPM_RH_FW_OWNER; TPM_RH_FW_ENDORSEMENT;
        TPM_RH_FW_PLATFORM; TPM_RH_FW_NULL]
  then TPM_RC_SUCCESS
  else if HANDLE_IN_RANGE handle TPM_RH_ACT_0 TPM_RH_ACT_F then TPM_RC_SUCCESS
  else if HANDLE_IN_RANGE handle TPM_RH_AUTH_00 TPM_RH_AUTH_FF then TPM_RC_SUCCESS
  else if HANDLE_IN_RANGE handle SVN_OWNER_FIRST SVN_OWNER_LAST ||
          HANDLE_IN_RANGE handle SVN_ENDORSEMENT_FIRST SVN_ENDORSEMENT_LAST ||
          HANDLE_IN_RANGE handle SVN_PLATFORM_FIRST SVN_PLATFORM_LAST ||
          HANDLE_IN_RANGE handle SVN_NULL_FIRST SVN_NULL_LAST
  then TPM_RC_SUCCESS
  else TPM_RC_VALUE.

Definition ValidateObjectHandle (handle allowNull : Z) : Z :=
  if IsTransientHandle handle then TPM_RC_SUCCESS
  else if IsPersistentHandle handle then TPM_RC_SUCCESS
  else if negb (allowNull =? 0) && (handle =? TPM_RH_NULL) then TPM_RC_SUCCESS
  else TPM_RC_VALUE.

Definition ValidateParentHandle (handle : Z) : Z :=
  if IsTransientHandle handle then TPM_RC_SUCCESS
  else if IsPersistentHandle handle then TPM_RC_SUCCESS
  else if case_of handle
            [TPM_RH_OWNER; TPM_RH_PLATFORM; TPM_RH_ENDORSEMENT; TPM_RH_NULL;
             TPM_RH_FW_OWNER; TPM_RH_FW_PLATFORM; TPM_RH_FW_ENDORSEMENT; TPM_RH_FW_NULL]
  then TPM_RC_SUCCESS
  else if HANDLE_IN_RANGE handle SVN_OWNER_FIRST SVN_OWNER_LAST ||
          HANDLE_IN_RANGE handle SVN_ENDORSEMENT_FIRST SVN_ENDORSEMENT_LAST ||
          HANDLE_IN_RANGE handle SVN_PLATFORM_FIRST SVN_PLATFORM_LAST ||
          HANDLE_IN_RANGE handle SVN_NULL_FIRST SVN_NULL_LAST
  then TPM_RC_SUCCESS
  else TPM_RC_VALUE.

Definition ValidateEntityHandle (handle : Z) : Z :=
  if (handle =? TPM_RH_OWNER) || (handle =? TPM_RH_ENDORSEMENT) ||
     (handle =? TPM_RH_PLATFORM) || (handle =? TPM_RH_LOCKOUT)
  then TPM_RC_SUCCESS
  else if IsTransientHandle handle || IsPersistentHandle handle then TPM_RC_SUCCESS
  else if IsNVIndexHandle handle then TPM_RC_SUCCESS
  else if HANDLE_IN_RANGE handle 0x40000000 0x400000FF then TPM_RC_SUCCESS
  else TPM_RC_VALUE.

Definition ValidateAuthSessionHandle (handle : Z) : Z :=
  if IsHMACSessionHandle handle then TPM_RC_SUCCESS
  else if IsPolicySessionHandle handle then TPM_RC_SUCCESS
  else if handle =? TPM_RS_PW then TPM_RC_SUCCESS
  else TPM_RC_VALUE.

Definition ValidateHierarchyHandle (handle : Z) : Z :=
  if case_of handle
       [TPM_RH_OWNER; TPM_RH_PLATFORM; TPM_RH_ENDORSEMENT; TPM_RH_NULL;
        TPM_RH_FW_OWNER; TPM_RH_FW_PLATFORM; TPM_RH_FW_ENDORSEMENT; TPM_RH_FW_NULL]
  then TPM_RC_SUCCESS
  else if HANDLE_IN_RANGE handle SVN_OWNER_FIRST SVN_OWNER_LAST ||
          HANDLE_IN_RANGE handle SVN_ENDORSEMENT_FIRST SVN_ENDORSEMENT_LAST ||
          HANDLE_IN_RANGE handle SVN_PLATFORM_FIRST SVN_PLATFORM_LAST ||
          HANDLE_IN_RANGE handle SVN_NULL_FIRST SVN_NULL_LAST
  then TPM_RC_SUCCESS
  else TPM_RC_VALUE.

Definition ValidateNVIndexHandle (handle : Z) : Z :=
  if IsNVIndexHandle handle then TPM_RC_SUCCESS
  else if HANDLE_IN_RANGE handle EXTERNAL_NV_FIRST EXTERNAL_NV_LAST then TPM_RC_SUCCESS
  else if HANDLE_IN_RANGE handle PERMANENT_NV_FIRST PERMANENT_NV_LAST then TPM_RC_SUCCESS
  else TPM_RC_VALUE.

(** ** Unmarshalling and marshalling: no function tests [buffer] for NULL *)
Definition UnmarshalHandle (m : list Z) (buffer : ptr) (bufferSize : Z) : res (Z * Z) :=
  fail_if (bufferSize <? 4) TPM_RC_INSUFFICIENT ;;
  match buffer with
  | None => UB
  | Some p => handle ← ld32 m p; Ok (handle, 4)
  end.

(** [return Validate(handle)]: the outputs are used only on success. *)
Definition validated (validate : Z -> Z) (r : res (Z * Z)) : res (Z * Z) :=
  '(handle, bytesRead) ← r;
  if validate handle =? TPM_RC_SUCCESS then Ok (handle, bytesRead)
  else Err (validate handle).

Definition UnmarshalObjectHandle (m : list Z) (buffer : ptr) (bufferSize allowNull : Z)
  : res (Z * Z) :=
  validated (fun handle => ValidateObjectHandle handle allowNull)
    (UnmarshalHandle m buffer bufferSize).
Definition UnmarshalHierarchyHandle (m : list Z) (buffer : ptr) (bufferSize : Z)
  : res (Z * Z) :=
  validated ValidateHierarchyHandle (UnmarshalHandle m buffer bufferSize).
Definition UnmarshalNVIndexHandle (m : list Z) (buffer : ptr) (bufferSize : Z)
  : res (Z * Z) :=
  validated ValidateNVIndexHandle (UnmarshalHandle m buffer bufferSize).
Definition UnmarshalSessionHandle (m : list Z) (buffer : ptr) (bufferSize : Z)
  : res (Z * Z) :=
  validated ValidateAuthSessionHandle (UnmarshalHandle m buffer bufferSize).

Definition MarshalHandle (m : list Z) (buffer : ptr) (bufferSize handle : Z) : wres :=
  if bufferSize <? 4 then WFail TPM_RC_INSUFFICIENT m
  else match buffer with
       | None => WUB
       | Some p => wput m p (to_be32 handle)
       end.

(** ** Utilities *)
Definition GetHandleTypeString (handle : Z) : string :=
  if IsNVIndexHandle handle then "NV_INDEX"
  else if IsHMACSessionHandle handle then "HMAC_SESSION"
  else if IsPolicySessionHandle handle then "POLICY_SESSION"
  else if IsTransientHandle handle then "TRANSIENT"
  else if IsPersistentHandle handle then "PERSISTENT"
  else if IsPermanentHandle handle then "PERMANENT"
  else if IsACHandle handle then "ATTACHED_COMPONENT"
  else "UNKNOWN".

Definition HandleRequiresAuth (handle : Z) : Z :=
  if handle =? TPM_RH_NULL then 0
  else if handle =? TPM_RS_PW then 0
  else 1.

(** ** Lemmas *)
Lemma HANDLE_IN_RANGE_spec handle first last :
  HANDLE_IN_RANGE handle first last = true <-> first <= handle <= last.
Proof. unfold HANDLE_IN_RANGE. rewrite andb_true_iff. lia. Qed.

Lemma case_of_spec handle cases : case_of handle cases = true <-> handle ∈ cases.
Proof.
  unfold case_of. rewrite existsb_exists, list_elem_of_In.
  split; [intros (x & Hx & ->%Z.eqb_eq); done | eauto using Z.eqb_refl].
Qed.

(** What holds of all cases holds of a handle that matches one. *)
Lemma case_of_all handle cases P :
  case_of handle cases = true -> forallb P cases = true -> P handle = true.
Proof.
  rewrite case_of_spec, list_elem_of_In, forallb_forall. auto.
Qed.

(** The most significant octet of a handle in a range that does not cross it. *)
Lemma handle_type_range handle t :
  0 <= t < 256 -> t * 2 ^ 24 <= handle < (t + 1) * 2 ^ 24 ->
  GET_HANDLE_TYPE handle = t.
Proof.
  intros Ht Hr. unfold GET_HANDLE_TYPE, u8. rewrite Z.shiftr_div_pow2 by lia.
  rewrite <- (Z.div_unique handle (2 ^ 24) t (handle - t * 2 ^ 24)) by lia.
  apply Z.mod_small. lia.
Qed.

#[export] Instance UnmarshalHandle_codec : Codec UnmarshalHandle to_be32 is_u32.
Proof.
  split; unfold UnmarshalHandle, fail_if, mbind, res_bind.
  - intros m p n Hm Hp Hn Hl _. destruct (_ <? _) eqn:E; [done|].
    destruct (load_ld32 m p) as (v & -> & Hv & Hload); [done|lia|lia|].
    split_and!; try done. change (zlen _) with 4. lia.
  - intros m p n v Hv Hp Hn _ Hload. change (zlen _) with 4 in *.
    destruct (_ <? _) eqn:E; [lia|]. by rewrite (ld32_be m p v).
Qed.

(** A validated handle is a codec of the handles that pass the validation. *)
#[export] Instance validated_codec validate :
  Codec (fun m p n => validated validate (UnmarshalHandle m p n)) to_be32
    (fun h => is_u32 h /\ validate h = TPM_RC_SUCCESS).
Proof.
  destruct UnmarshalHandle_codec as [Hs Hc]. split.
  - intros m p n Hm Hp Hn Hl Hmax. specialize (Hs m p n Hm Hp Hn Hl Hmax).
    unfold validated, mbind, res_bind.
    destruct (UnmarshalHandle m (Some p) n) as [[h c]|rc|]; [|done..].
    destruct Hs as (Hu & Hrest). destruct (_ =? _) eqn:E; [|lia].
    split; [|done]. split; [done|lia].
  - intros m p n h [Hu Hv] Hp Hn Hmax L. unfold validated.
    rewrite (Hc m p n h Hu Hp Hn Hmax L). unfold mbind, res_bind.
    by rewrite Hv.
Qed.

Ltac unfold_ranges :=
  unfold IsNVIndexHandle, IsHMACSessionHandle, IsPolicySessionHandle,
    IsTransientHandle, IsPersistentHandle, IsPermanentHandle, IsACHandle in *.

(** The seven handle classes are pairwise disjoint: the answer of
    [GetHandleTypeString] names the class of the handle whatever the order of
    its tests, and a handle of a class other than the permanent ones carries
    the class in its most significant octet. *)
Theorem GetHandleTypeString_classes (handle : Z) :
  (GetHandleTypeString handle = "NV_INDEX" <-> IsNVIndexHandle handle = true) /\
  (GetHandleTypeString handle = "HMAC_SESSION" <-> IsHMACSessionHandle handle = true) /\
  (GetHandleTypeString handle = "POLICY_SESSION" <-> IsPolicySessionHandle handle = true) /\
  (GetHandleTypeString handle = "TRANSIENT" <-> IsTransientHandle handle = true) /\
  (GetHandleTypeString handle = "PERSISTENT" <-> IsPersistentHandle handle = true) /\
  (GetHandleTypeString handle = "PERMANENT" <-> IsPermanentHandle handle = true) /\
  (GetHandleTypeString handle = "ATTACHED_COMPONENT" <-> IsACHandle handle = true) /\
  (IsNVIndexHandle handle = true -> GET_HANDLE_TYPE handle = TPM_HT_NV_INDEX) /\
  (IsTransientHandle handle = true -> GET_HANDLE_TYPE handle = TPM_HT_TRANSIENT) /\
  (IsPersistentHandle handle = true -> GET_HANDLE_TYPE handle = TPM_HT_PERSISTENT).
Proof.
  assert (Hd : forall a b c d : Z, b < c ->
    HANDLE_IN_RANGE handle a b = true -> HANDLE_IN_RANGE handle c d = true -> False).
  { intros a b c d Hbc. rewrite !HANDLE_IN_RANGE_spec. lia. }
  split_and!.
  1-7: unfold GetHandleTypeString; unfold_ranges; guards;
    repeat split; try done; intros; exfalso; simplify_eq;
    match goal with
    | H1 : HANDLE_IN_RANGE _ ?a ?b = true, H2 : HANDLE_IN_RANGE _ ?c ?d = true |- _ =>
        refine (Hd a b c d _ H1 H2); by vm_compute
    end.
  all: unfold_ranges; rewrite HANDLE_IN_RANGE_spec;
    intros [H1 H2]; apply handle_type_range; [by vm_compute|];
    (split; [eapply Z.le_trans; [|exact H1] | eapply Z.le_lt_trans; [exact H2|]]);
    by vm_compute.
Qed.

(** Every hierarchy handle lies below the object handles. *)
Lemma ValidateHierarchy_low handle :
  0x4004FFFF < handle -> ValidateHierarchyHandle handle = TPM_RC_VALUE.
Proof.
  intros Hh. unfold ValidateHierarchyHandle.
  destruct (case_of handle _) eqn:E1.
  - pose proof (case_of_all _ _ (fun h => h <=? 0x4004FFFF) E1 eq_refl) as H.
    cbv beta in H. lia.
  - destruct (_ || _) eqn:E2; [|done].
    rewrite !orb_true_iff, !HANDLE_IN_RANGE_spec in E2.
    assert (forall a b, a <= handle <= b -> b <= 0x4004FFFF -> False) as Hf by lia.
    destruct E2 as [[[E|E]|E]|E]; exfalso; apply (Hf _ _ E); by vm_compute.
Qed.

(** A handle accepted as a hierarchy is accepted as a parent of a key and as
    a permanent handle; an object handle is accepted as a parent and as an
    entity, and never as a hierarchy; all that where the code of a refusal is not
    that of success. *)
Theorem Validate_handles_ordered (handle : Z) :
  TPM_RC_VALUE <> TPM_RC_SUCCESS ->
  (ValidateHierarchyHandle handle = TPM_RC_SUCCESS ->
   ValidateParentHandle handle = TPM_RC_SUCCESS /\
   ValidatePermanentHandle handle = TPM_RC_SUCCESS) /\
  (ValidateObjectHandle handle 0 = TPM_RC_SUCCESS ->
   ValidateParentHandle handle = TPM_RC_SUCCESS /\
   ValidateEntityHandle handle = TPM_RC_SUCCESS /\
   ValidateHierarchyHandle handle = TPM_RC_VALUE).
Proof.
  intros Hrc. split.
  - unfold ValidateHierarchyHandle, ValidateParentHandle, ValidatePermanentHandle.
    destruct (case_of handle _) eqn:E1.
    + intros _. split; [guards; done|].
      match goal with |- (if case_of _ ?l then _ else _) = _ =>
        by rewrite (case_of_all _ _ (fun h => case_of h l) E1 eq_refl) end.
    + destruct (_ || _) eqn:E2; [|done]. intros _. guards; done.
  - unfold ValidateObjectHandle, ValidateParentHandle, ValidateEntityHandle.
    cbn [negb Z.eqb andb].
    assert (Hn : IsTransientHandle handle || IsPersistentHandle handle = true ->
      ValidateHierarchyHandle handle = TPM_RC_VALUE).
    { intros Ho. apply ValidateHierarchy_low. unfold_ranges.
      apply orb_true_iff in Ho as [[H _]%HANDLE_IN_RANGE_spec|[H _]%HANDLE_IN_RANGE_spec];
        (eapply Z.lt_le_trans; [|exact H]); by vm_compute. }
    destruct (IsTransientHandle handle), (IsPersistentHandle handle);
      intros; guards; split_and!; auto; done.
Qed.
End Validation.
