(* ===== verification/Marshal.v ===== *)
(** * Marshalling of responses

    [src/qemu/include/tpm/command_chain/cc_marshal.h].  A function takes the
    memory object its [buffer] points into, the pointer and [bufferSize], and
    returns the object after its writes, with the number of bytes written or
    the response code of an early return. *)
From stdpp Require Import base list numbers.
From S2P Require Import Prelude Constants State Codec Header Unmarshal.

Definition MarshalResponseHeader (m : list Z) (buffer : ptr) (bufferSize : Z)
    (header : TPM_RSP_HEADER) : wres :=
  match buffer with
  | None => WFail TPM_RC_FAILURE m
  | Some p =>
      if bufferSize <? TPM_RSP_HEADER_SIZE then WFail TPM_RC_INSUFFICIENT m
      else wput m p (to_be16 (rh_tag header) ++ to_be32 (rh_size header) ++
                     to_be32 (rh_code header))
  end.

Definition Marshal_UINT8 (m : list Z) (buffer : ptr) (bufferSize value : Z) : wres :=
  match buffer with
  | None => WFail TPM_RC_FAILURE m
  | Some p =>
      if bufferSize <? 1 then WFail TPM_RC_INSUFFICIENT m else wput m p [value]
  end.

Definition Marshal_UINT16 (m : list Z) (buffer : ptr) (bufferSize value : Z) : wres :=
  match buffer with
  | None => WFail TPM_RC_FAILURE m
  | Some p =>
      if bufferSize <? 2 then WFail TPM_RC_INSUFFICIENT m
      else wput m p (to_be16 value)
  end.

Definition Marshal_UINT32 (m : list Z) (buffer : ptr) (bufferSize value : Z) : wres :=
  match buffer with
  | None => WFail TPM_RC_FAILURE m
  | Some p =>
      if bufferSize <? 4 then WFail TPM_RC_INSUFFICIENT m
      else wput m p (to_be32 value)
  end.

Definition Marshal_UINT64 (m : list Z) (buffer : ptr) (bufferSize value : Z) : wres :=
  match buffer with
  | None => WFail TPM_RC_FAILURE m
  | Some p =>
      if bufferSize <? 8 then WFail TPM_RC_INSUFFICIENT m
      else wput m p (to_be64 value)
  end.

(** [memcpy(buffer + offset, data, n)] from an array [data], then the number of
    bytes written so far. *)
Definition wcopy (m : list Z) (p offset : Z) (data : list Z) (n : Z) : wres :=
  match load data 0 n with
  | None => WUB
  | Some bs =>
      match store m (p + offset) bs with
      | None => WUB
      | Some m' => Wrote (u32 (offset + n)) m'
      end
  end.

(** [dataBuffer] is NULL or an array. *)
Definition Marshal_TPM2B (m : list Z) (buffer : ptr) (bufferSize : Z)
    (dataBuffer : option (list Z)) (dataSize : Z) : wres :=
  match buffer with
  | None => WFail TPM_RC_FAILURE m
  | Some p =>
      let offset := 0 in
      wthen offset
        (Marshal_UINT16 m (Some p +p offset) (u32 (bufferSize - offset)) dataSize)
        (fun offset m =>
           if u32 (bufferSize - offset) <? dataSize
           then WFail TPM_RC_INSUFFICIENT m
           else match dataBuffer with
                | Some data =>
                    if 0 <? dataSize then wcopy m p offset data dataSize
                    else Wrote (u32 (offset + dataSize)) m
                | None => Wrote (u32 (offset + dataSize)) m
                end)
  end.

Definition Marshal_GetRandom_Response (m : list Z) (buffer : ptr) (bufferSize : Z)
    (randomBytes : option (list Z)) (randomSize : Z) : wres :=
  Marshal_TPM2B m buffer bufferSize randomBytes randomSize.

Record CreatePrimary_Response := mk_CreatePrimary_Response {
  cr_objectHandle : Z;
  cr_outPublicSize : Z;
  cr_outPublic : list Z;
  cr_creationDataSize : Z;
  cr_creationData : list Z;
  cr_creationHashSize : Z;
  cr_creationHash : list Z;
  cr_creationTicketTag : Z;
  cr_creationTicketHierarchy : Z;
  cr_creationTicketDigestSize : Z;
  cr_creationTicketDigest : list Z;
  cr_nameSize : Z;
  cr_name : list Z
}.

Definition Marshal_CreatePrimary_Response (m : list Z) (buffer : ptr) (bufferSize : Z)
    (response : CreatePrimary_Response) : wres :=
  match buffer with
  | None => WFail TPM_RC_FAILURE m
  | Some p =>
      let at_ offset := Some p +p offset in
      let left offset := u32 (bufferSize - offset) in
      wthen 0 (Marshal_UINT32 m (at_ 0) (left 0) (cr_objectHandle response))
      (fun offset m =>
      wthen offset (Marshal_TPM2B m (at_ offset) (left offset)
                      (Some (cr_outPublic response)) (cr_outPublicSize response))
      (fun offset m =>
      wthen offset (Marshal_TPM2B m (at_ offset) (left offset)
                      (Some (cr_creationData response)) (cr_creationDataSize response))
      (fun offset m =>
      wthen offset (Marshal_TPM2B m (at_ offset) (left offset)
                      (Some (cr_creationHash response)) (cr_creationHashSize response))
      (fun offset m =>
      wthen offset (Marshal_UINT16 m (at_ offset) (left offset)
                      (cr_creationTicketTag response))
      (fun offset m =>
      wthen offset (Marshal_UINT32 m (at_ offset) (left offset)
                      (cr_creationTicketHierarchy response))
      (fun offset m =>
      wthen offset (Marshal_TPM2B m (at_ offset) (left offset)
                      (Some (cr_creationTicketDigest response))
                      (cr_creationTicketDigestSize response))
      (fun offset m =>
      wthen offset (Marshal_TPM2B m (at_ offset) (left offset)
                      (Some (cr_name response)) (cr_nameSize response))
      (fun offset m => Wrote offset m))))))))
  end.

Definition Marshal_NV_DefineSpace_Response (m : list Z) (buffer : ptr)
    (bufferSize : Z) : wres := Wrote 0 m.

Definition Marshal_TPM2B_MAX_NV_BUFFER (m : list Z) (buffer : ptr) (bufferSize : Z)
    (source : TPM2B) : wres :=
  match buffer with
  | None => WFail TPM_RC_FAILURE m
  | Some p =>
      let offset := 0 in
      wthen offset
        (Marshal_UINT16 m (Some p +p offset) (u32 (bufferSize - offset)) (b_size source))
        (fun offset m =>
           if MAX_NV_BUFFER_SIZE <? b_size source then WFail TPM_RC_SIZE m
           else if u32 (bufferSize - offset) <? b_size source
           then WFail TPM_RC_INSUFFICIENT m
           else wcopy m p offset (b_buffer source) (b_size source))
  end.

Definition Marshal_NV_Read_Response (m : list Z) (buffer : ptr) (bufferSize : Z)
    (response : TPM2B) : wres :=
  match buffer with
  | None => WFail TPM_RC_FAILURE m
  | Some p =>
      wthen 0 (Marshal_TPM2B_MAX_NV_BUFFER m (Some p +p 0) (u32 (bufferSize - 0)) response)
        (fun offset m => Wrote offset m)
  end.

(** ** What a marshalling function promises

    [f] writes [bs] when it is given room for it. *)
Class Marshals (f : list Z -> ptr -> Z -> wres) (bs : list Z) : Prop := {
  marshals_ok m p n :
    0 <= p -> zlen bs <= n -> n < 2 ^ 32 -> p + n <= zlen m ->
    f m (Some p) n = wput m p bs
}.

Lemma wput_ok m p bs :
  0 <= p -> p + zlen bs <= zlen m ->
  exists m', store m p bs = Some m' /\ wput m p bs = Wrote (zlen bs) m'.
Proof.
  intros Hp Hl. destruct (store_in m p bs Hp Hl) as [m' E].
  exists m'. unfold wput. by rewrite E.
Qed.

(** One call of a function that has already written [pre] from [p] on. *)
Lemma marshals_step f b `{!Marshals f b} m0 m p n pre :
  store m0 p pre = Some m -> zlen pre + zlen b <= n -> n < 2 ^ 32 ->
  p + n <= zlen m0 ->
  exists m', store m0 p (pre ++ b) = Some m' /\
    forall k, wthen (zlen pre) (f m (Some p +p zlen pre) (u32 (n - zlen pre))) k =
              k (zlen (pre ++ b)) m'.
Proof.
  intros Hst Hl Hn Hm. pose proof (store_zlen _ _ _ _ Hst) as Hz.
  assert (0 <= p) by (apply store_Some in Hst; lia).
  pose proof (zlen_nonneg pre). pose proof (zlen_nonneg b).
  rewrite u32_id by (unfold is_u32; lia). simpl padd.
  rewrite marshals_ok by lia.
  destruct (wput_ok m (p + zlen pre) b) as (m' & E & ->); [lia..|].
  exists m'. split; [by apply (store_app m0 p pre b m m')|].
  intros k. simpl. rewrite zlen_app, u32_id by (unfold is_u32; lia). done.
Qed.

#[export] Instance Marshal_UINT8_marshals v :
  Marshals (fun m p n => Marshal_UINT8 m p n v) [v].
Proof.
  split. intros m p n Hp Hl Hn Hm. change (zlen [v]) with 1 in Hl.
  unfold Marshal_UINT8. by replace (n <? 1) with false by lia.
Qed.
#[export] Instance Marshal_UINT64_marshals v :
  Marshals (fun m p n => Marshal_UINT64 m p n v) (to_be64 v).
Proof.
  split. intros m p n Hp Hl Hn Hm. change (zlen (to_be64 v)) with 8 in Hl.
  unfold Marshal_UINT64. by replace (n <? 8) with false by lia.
Qed.
#[export] Instance Marshal_UINT16_marshals v :
  Marshals (fun m p n => Marshal_UINT16 m p n v) (to_be16 v).
Proof.
  split. intros m p n Hp Hl Hn Hm. change (zlen (to_be16 v)) with 2 in Hl.
  unfold Marshal_UINT16. by replace (n <? 2) with false by lia.
Qed.
#[export] Instance Marshal_UINT32_marshals v :
  Marshals (fun m p n => Marshal_UINT32 m p n v) (to_be32 v).
Proof.
  split. intros m p n Hp Hl Hn Hm. change (zlen (to_be32 v)) with 4 in Hl.
  unfold Marshal_UINT32. by replace (n <? 4) with false by lia.
Qed.
#[export] Instance MarshalResponseHeader_marshals h :
  Marshals (fun m p n => MarshalResponseHeader m p n h)
    (to_be16 (rh_tag h) ++ to_be32 (rh_size h) ++ to_be32 (rh_code h)).
Proof.
  split. intros m p n Hp Hl Hn Hm. unfold MarshalResponseHeader.
  replace (n <? TPM_RSP_HEADER_SIZE) with false; [done|].
  change (zlen _) with 10 in Hl. unfold TPM_RSP_HEADER_SIZE. lia.
Qed.

(** The copy that ends the marshalling of a sized buffer. *)
Lemma wcopy_ok m0 m p v data n :
  store m0 p (to_be16 v) = Some m -> 0 <= n <= zlen data -> p + 2 + n <= zlen m0 ->
  n < 65536 ->
  wcopy m p 2 data n = wput m0 p (to_be16 v ++ take (Z.to_nat n) data).
Proof.
  intros Hst Hn Hl Hmax. pose proof (store_zlen _ _ _ _ Hst) as Hz.
  assert (0 <= p) by (apply store_Some in Hst; lia).
  unfold wcopy. rewrite load_in by lia. change (Z.to_nat 0) with 0%nat. rewrite drop_0.
  assert (Hlen : zlen (take (Z.to_nat n) data) = n) by (rewrite zlen_take; lia).
  destruct (store_in m (p + 2) (take (Z.to_nat n) data)) as [m' E]; [lia..|].
  rewrite E. change 2 with (zlen (to_be16 v)) in E.
  unfold wput. rewrite (store_app _ _ _ _ _ _ Hst E).
  rewrite zlen_app, Hlen, u32_id by (unfold is_u32; lia). done.
Qed.

(** The size field is in place; the rest of the buffer has room for [size]. *)
Lemma Marshal_size_first m p n size :
  0 <= p -> 2 <= n -> n < 2 ^ 32 -> p + n <= zlen m ->
  exists m', store m p (to_be16 size) = Some m' /\
    forall k, wthen 0 (Marshal_UINT16 m (Some p +p 0) (u32 (n - 0)) size) k = k 2 m'.
Proof.
  intros Hp Hn Hmax Hl.
  destruct (marshals_step (fun m p n => Marshal_UINT16 m p n size) (to_be16 size)
    m m p n []) as (m' & E & Hk).
  all: try (change (zlen (to_be16 size)) with 2; change (zlen []) with 0; lia).
  { unfold store. change (zlen []) with 0. rewrite Z.add_0_r.
    replace ((0 <=? p) && (p <=? zlen m)) with true by lia.
    simpl. by rewrite Nat.add_0_r, take_drop. }
  exists m'. split; [exact E|]. intros k. apply Hk.
Qed.

Lemma Marshal_TPM2B_marshals data size :
  0 <= size <= zlen data -> size < 65536 ->
  Marshals (fun m p n => Marshal_TPM2B m p n (Some data) size)
    (to_be16 size ++ take (Z.to_nat size) data).
Proof.
  intros Hs Hmax. split. intros m p n Hp Hl Hn Hm.
  rewrite zlen_app, zlen_take in Hl by lia. change (zlen (to_be16 size)) with 2 in Hl.
  unfold Marshal_TPM2B.
  destruct (Marshal_size_first m p n size) as (m' & E & ->); [lia..|].
  rewrite u32_id by (unfold is_u32; lia).
  replace (n - 2 <? size) with false by lia.
  destruct (Z.ltb_spec 0 size).
  - apply wcopy_ok; done || lia.
  - assert (size = 0) as -> by lia. simpl take. rewrite app_nil_r.
    unfold wput. by rewrite E.
Qed.

(** The body of a TPM2_NV_Read response, on a buffer of [n] bytes: the sized
    buffer, or an error that leaves the memory outside of the size field as it
    was. *)
Lemma Marshal_NV_Read_Response_spec m p n r :
  is_u16 (b_size r) -> zlen (b_buffer r) = MAX_NV_BUFFER_SIZE ->
  0 <= p -> 2 <= n -> n < 2 ^ 32 -> p + n <= zlen m ->
  Marshal_NV_Read_Response m (Some p) n r =
  if (b_size r <=? MAX_NV_BUFFER_SIZE) && (b_size r + 2 <=? n)
  then wput m p (to_be16 (b_size r) ++ take (Z.to_nat (b_size r)) (b_buffer r))
  else match store m p (to_be16 (b_size r)) with
       | Some m' => WFail (if MAX_NV_BUFFER_SIZE <? b_size r then TPM_RC_SIZE
                           else TPM_RC_INSUFFICIENT) m'
       | None => WUB
       end.
Proof.
  intros Hs Hb Hp Hn Hmax Hl. unfold is_u16 in Hs.
  unfold Marshal_NV_Read_Response, Marshal_TPM2B_MAX_NV_BUFFER.
  replace (u32 (n - 0)) with n
    by (rewrite Z.sub_0_r; symmetry; apply u32_id; unfold is_u32; lia).
  change (Some p +p 0) with (Some (p + 0)). rewrite Z.add_0_r.
  destruct (Marshal_size_first m p n (b_size r)) as (m' & E & ->); [lia..|].
  rewrite E. rewrite u32_id by (unfold is_u32; lia).
  destruct (MAX_NV_BUFFER_SIZE <? b_size r) eqn:E1.
  { by replace (b_size r <=? MAX_NV_BUFFER_SIZE) with false by lia. }
  replace (b_size r <=? MAX_NV_BUFFER_SIZE) with true by lia.
  destruct (n - 2 <? b_size r) eqn:E2.
  { by replace (b_size r + 2 <=? n) with false by lia. }
  replace (b_size r + 2 <=? n) with true by lia. cbn [andb].
  rewrite (wcopy_ok m m' p (b_size r)) by (done || lia). unfold wput.
  destruct (store m p (_ ++ _)); [|done]. cbn [wthen].
  rewrite zlen_app, zlen_take, u32_id; [done| |lia].
  change (zlen (to_be16 (b_size r))) with 2. unfold is_u32. lia.
Qed.

(** The body of a TPM2_CreatePrimary response. *)
Definition sized (size : Z) (data : list Z) : list Z :=
  to_be16 size ++ take (Z.to_nat size) data.
Definition sized_ok (size : Z) (data : list Z) : Prop := 0 <= size <= zlen data /\ size < 65536.

Definition enc_CreatePrimary_Response (r : CreatePrimary_Response) : list Z :=
  to_be32 (cr_objectHandle r) ++ sized (cr_outPublicSize r) (cr_outPublic r) ++
  sized (cr_creationDataSize r) (cr_creationData r) ++
  sized (cr_creationHashSize r) (cr_creationHash r) ++
  to_be16 (cr_creationTicketTag r) ++ to_be32 (cr_creationTicketHierarchy r) ++
  sized (cr_creationTicketDigestSize r) (cr_creationTicketDigest r) ++
  sized (cr_nameSize r) (cr_name r).

(** Fields marshalled one after the other. *)
Fixpoint marshal_seq (fs : list (list Z -> ptr -> Z -> wres)) (offset : Z) (m : list Z)
    (p n : Z) : wres :=
  match fs with
  | [] => Wrote offset m
  | f :: fs =>
      wthen offset (f m (Some p +p offset) (u32 (n - offset)))
        (fun offset m => marshal_seq fs offset m p n)
  end.

Lemma marshal_seq_ok fs bss m0 m p n pre :
  Forall2 Marshals fs bss -> store m0 p pre = Some m ->
  zlen pre + zlen (concat bss) <= n -> n < 2 ^ 32 -> p + n <= zlen m0 ->
  marshal_seq fs (zlen pre) m p n = wput m0 p (pre ++ concat bss).
Proof.
  intros HF. revert m pre. induction HF as [|f b fs bss Hf HF IH]; intros m pre Hst Hl Hn Hm.
  - simpl in *. rewrite app_nil_r. unfold wput. by rewrite Hst.
  - simpl concat in *. rewrite zlen_app in Hl. pose proof (zlen_nonneg (concat bss)).
    destruct (marshals_step f b m0 m p n pre Hst) as (m' & Hst' & Hk); [lia..|].
    simpl marshal_seq. rewrite Hk, (IH m') by (try rewrite zlen_app; done || lia).
    by rewrite <- app_assoc.
Qed.

Lemma Marshal_CreatePrimary_marshals r :
  sized_ok (cr_outPublicSize r) (cr_outPublic r) ->
  sized_ok (cr_creationDataSize r) (cr_creationData r) ->
  sized_ok (cr_creationHashSize r) (cr_creationHash r) ->
  sized_ok (cr_creationTicketDigestSize r) (cr_creationTicketDigest r) ->
  sized_ok (cr_nameSize r) (cr_name r) ->
  Marshals (fun m p n => Marshal_CreatePrimary_Response m p n r)
    (enc_CreatePrimary_Response r).
Proof.
  intros [A1 A2] [B1 B2] [C1 C2] [D1 D2] [F1 F2].
  pose proof (Marshal_TPM2B_marshals _ _ A1 A2). pose proof (Marshal_TPM2B_marshals _ _ B1 B2).
  pose proof (Marshal_TPM2B_marshals _ _ C1 C2). pose proof (Marshal_TPM2B_marshals _ _ D1 D2).
  pose proof (Marshal_TPM2B_marshals _ _ F1 F2).
  split. intros m p n Hp Hl Hmax Hm.
  assert (Hst : store m p [] = Some m)
    by (apply store_nil; pose proof (zlen_nonneg (enc_CreatePrimary_Response r)); lia).
  pose (fs := [
    (fun m p n => Marshal_UINT32 m p n (cr_objectHandle r));
    (fun m p n => Marshal_TPM2B m p n (Some (cr_outPublic r)) (cr_outPublicSize r));
    (fun m p n => Marshal_TPM2B m p n (Some (cr_creationData r)) (cr_creationDataSize r));
    (fun m p n => Marshal_TPM2B m p n (Some (cr_creationHash r)) (cr_creationHashSize r));
    (fun m p n => Marshal_UINT16 m p n (cr_creationTicketTag r));
    (fun m p n => Marshal_UINT32 m p n (cr_creationTicketHierarchy r));
    (fun m p n => Marshal_TPM2B m p n (Some (cr_creationTicketDigest r))
                    (cr_creationTicketDigestSize r));
    (fun m p n => Marshal_TPM2B m p n (Some (cr_name r)) (cr_nameSize r))]).
  change (marshal_seq fs 0 m p n = wput m p (enc_CreatePrimary_Response r)).
  pose (bss := [to_be32 (cr_objectHandle r); sized (cr_outPublicSize r) (cr_outPublic r);
    sized (cr_creationDataSize r) (cr_creationData r);
    sized (cr_creationHashSize r) (cr_creationHash r);
    to_be16 (cr_creationTicketTag r); to_be32 (cr_creationTicketHierarchy r);
    sized (cr_creationTicketDigestSize r) (cr_creationTicketDigest r);
    sized (cr_nameSize r) (cr_name r)]).
  assert (Henc : concat bss = enc_CreatePrimary_Response r)
    by (unfold bss, enc_CreatePrimary_Response; cbn [concat]; by rewrite app_nil_r).
  assert (HF : Forall2 Marshals fs bss) by (unfold fs, bss; do 8 (constructor; [first [apply _|assumption]|]); constructor).
  pose proof (marshal_seq_ok fs bss m m p n [] HF Hst) as H'. rewrite Henc in H'.
  apply H'; done.
Qed.

(** ** Round trips *)

Lemma response_header_decode m p n h :
  10 <= n -> (rh_tag h = TPM_ST_NO_SESSIONS \/ rh_tag h = TPM_ST_SESSIONS) ->
  10 <= rh_size h <= n -> rh_size h <= TPM_MAX_RESPONSE_SIZE -> is_u32 (rh_code h) ->
  load m p 10 = Some (to_be16 (rh_tag h) ++ to_be32 (rh_size h) ++ to_be32 (rh_code h)) ->
  UnmarshalResponseHeader m p n = Ok (h, 10).
Proof.
  intros Hn Ht Hs Hmax Hc L.
  apply load_app in L as [L1 L]; [|done]. apply load_app in L as [L2 L3]; [|done].
  field_lengths. replace (p + 2 + 4) with (p + 6) in L3 by lia.
  unfold UnmarshalResponseHeader, fail_if, check_rc, mbind, res_bind.
  unfold TPM_RSP_HEADER_SIZE. replace (n <? 10) with false by lia.
  unfold TPM_MAX_RESPONSE_SIZE in Hmax.
  rewrite (ld16_be _ _ (rh_tag h)); [|destruct Ht as [-> | ->]; done|done].
  rewrite (ld32_be _ _ (rh_size h)); [|unfold is_u32; lia|done].
  rewrite (ld32_be _ _ (rh_code h)) by done.
  replace (UnmarshalResponseTag (rh_tag h)) with TPM_RC_SUCCESS
    by (destruct Ht as [-> | ->]; done).
  replace (UnmarshalResponseSize (rh_size h)) with TPM_RC_SUCCESS.
  2:{ unfold UnmarshalResponseSize, TPM_MIN_RESPONSE_SIZE, TPM_MAX_RESPONSE_SIZE.
      by replace ((rh_size h <? 10) || (4096 <? rh_size h)) with false by lia. }
  cbn [negb fail_if]. replace (n <? rh_size h) with false by lia. by destruct h.
Qed.

(** What is marshalled by one function and parsed by another. *)
Lemma codec_roundtrip {A : Type} (f : list Z -> ptr -> Z -> res (A * Z)) (enc : A -> list Z) (ok : A -> Prop)
    `{!Codec f enc ok} (g : list Z -> ptr -> Z -> wres) (a : A) `{!Marshals g (enc a)} m p n :
  ok a -> 0 <= p -> zlen (enc a) <= n -> n < 2 ^ 32 -> p + n <= zlen m ->
  exists m', g m (Some p) n = Wrote (zlen (enc a)) m' /\ f m' (Some p) n = Ok (a, zlen (enc a)).
Proof.
  intros Hok Hp Hn Hmax Hm. destruct (wput_ok m p (enc a)) as (m' & E & Hw); [lia..|].
  exists m'. split; [by rewrite marshals_ok|]. apply load_store_same in E. by apply codec_complete.
Qed.

(** An integer of [size] bytes: it comes back from a buffer with room for it, and
    a buffer without is refused by both functions. *)
Definition int_roundtrip (marshal : list Z -> ptr -> Z -> Z -> wres)
    (unmarshal : list Z -> ptr -> Z -> res (Z * Z)) (in_range : Z -> Prop) (size : Z)
    (m : list Z) (p n : Z) : Prop :=
  forall v, in_range v ->
    if n <? size then
      marshal m (Some p) n v = WFail TPM_RC_INSUFFICIENT m /\
      unmarshal m (Some p) n = Err TPM_RC_INSUFFICIENT
    else exists m', marshal m (Some p) n v = Wrote size m' /\ unmarshal m' (Some p) n = Ok (v, size).

(** A response header marshalled by the device is unmarshalled by
    [UnmarshalResponseHeader] to itself when its tag is a response tag and its
    size is at least 10 and at most what was received and the maximum. *)
Lemma ResponseHeader_roundtrip (m : list Z) (p n : Z) (h : TPM_RSP_HEADER) :
  0 <= p -> 10 <= n < 2 ^ 32 -> p + n <= zlen m ->
  (rh_tag h = TPM_ST_NO_SESSIONS \/ rh_tag h = TPM_ST_SESSIONS) ->
  10 <= rh_size h <= n -> rh_size h <= TPM_MAX_RESPONSE_SIZE -> is_u32 (rh_code h) ->
  exists m', MarshalResponseHeader m (Some p) n h = Wrote 10 m' /\
             UnmarshalResponseHeader m' p n = Ok (h, 10).
Proof.
  intros Hp Hn Hl Ht Hs Hmax Hc.
  destruct (wput_ok m p (to_be16 (rh_tag h) ++ to_be32 (rh_size h) ++ to_be32 (rh_code h)))
    as (m' & E & Hw); [lia|change (zlen (_ ++ _)) with 10; lia|].
  exists m'. split.
  { pose proof (MarshalResponseHeader_marshals h) as [Hok].
    rewrite Hok; [exact Hw|lia|change (zlen (_ ++ _)) with 10; lia|lia|lia]. }
  apply load_store_same in E. apply response_header_decode; done || lia.
Qed.

(** What [Marshal_TPM2B] writes, [Unmarshal_TPM2B] reads back, for every
    payload that fits the buffer and the reader's limit. *)
Lemma TPM2B_roundtrip (m : list Z) (p n max : Z) (data : list Z) :
  bytes data -> 0 <= p -> 2 + zlen data <= n < 2 ^ 32 -> p + n <= zlen m ->
  zlen data < 65536 -> zlen data <= max ->
  exists m', Marshal_TPM2B m (Some p) n (Some data) (zlen data) = Wrote (2 + zlen data) m' /\
    Unmarshal_TPM2B m' (Some p) n max = Ok (zlen data, data, 2 + zlen data).
Proof.
  intros Hb Hp Hn Hl Hu Hmax. pose proof (zlen_nonneg data).
  assert (take (Z.to_nat (zlen data)) data = data) as Htake
    by (apply take_ge; unfold zlen; lia).
  destruct (wput_ok m p (to_be16 (zlen data) ++ data)) as (m' & E & Hw);
    [lia|rewrite zlen_app; change (zlen (to_be16 _)) with 2; lia|].
  exists m'. split.
  - destruct (Marshal_TPM2B_marshals data (zlen data)) as [Hok]; [lia..|].
    rewrite Htake in Hok. rewrite Hok; [by rewrite Hw, zlen_app|lia| |lia|lia].
    rewrite zlen_app. change (zlen (to_be16 _)) with 2. lia.
  - apply load_store_same in E. rewrite zlen_app in E. field_lengths.
    pose proof (Unmarshal_TPM2B_complete max m' p n 0 (zlen data) data) as Hc.
    unfold enc_TPM2B in Hc. simpl fst in Hc; simpl snd in Hc.
    rewrite zlen_app in Hc. field_lengths.
    rewrite Z.sub_0_r, u32_id in Hc by (unfold is_u32; lia). simpl padd in Hc.
    rewrite Z.add_0_r in Hc. apply Hc; try done; try lia; split; done || lia.
Qed.

(** C25: round trips on the wire, in a buffer of [n] bytes at [p].  Integers of 8 to
    64 bits, sized buffers up to the limit of the reader, and response headers with
    a response tag and a size that the reader takes are parsed to what was
    marshalled, and the two sides agree on the number of bytes; a buffer that is
    too short for an integer is refused by both. *)
Theorem wire_roundtrip (m : list Z) (p n : Z) :
  0 <= p -> n < 2 ^ 32 -> p + n <= zlen m ->
  int_roundtrip Marshal_UINT8 Unmarshal_UINT8 is_u8 1 m p n /\
  int_roundtrip Marshal_UINT16 Unmarshal_UINT16 is_u16 2 m p n /\
  int_roundtrip Marshal_UINT32 Unmarshal_UINT32 is_u32 4 m p n /\
  int_roundtrip Marshal_UINT64 Unmarshal_UINT64 is_u64 8 m p n /\
  (forall max data, bytes data -> 2 + zlen data <= n -> zlen data < 65536 -> zlen data <= max ->
     exists m', Marshal_TPM2B m (Some p) n (Some data) (zlen data) = Wrote (2 + zlen data) m' /\
       Unmarshal_TPM2B m' (Some p) n max = Ok (zlen data, data, 2 + zlen data)) /\
  (forall h, 10 <= n -> rh_tag h = TPM_ST_NO_SESSIONS \/ rh_tag h = TPM_ST_SESSIONS ->
     10 <= rh_size h <= n -> rh_size h <= TPM_MAX_RESPONSE_SIZE -> is_u32 (rh_code h) ->
     exists m', MarshalResponseHeader m (Some p) n h = Wrote 10 m' /\
       UnmarshalResponseHeader m' p n = Ok (h, 10)).
Proof.
  intros Hp Hn Hm. split_and!.
  - intros v Hv. destruct (n <? 1) eqn:E; [unfold Marshal_UINT8, Unmarshal_UINT8; by rewrite E|].
    apply (codec_roundtrip Unmarshal_UINT8 (fun v => [v]) is_u8 (fun m p n => Marshal_UINT8 m p n v) v); try done.
    change (zlen _) with 1. lia.
  - intros v Hv. destruct (n <? 2) eqn:E; [unfold Marshal_UINT16, Unmarshal_UINT16; by rewrite E|].
    apply (codec_roundtrip Unmarshal_UINT16 to_be16 is_u16 (fun m p n => Marshal_UINT16 m p n v) v); try done.
    change (zlen _) with 2. lia.
  - intros v Hv. destruct (n <? 4) eqn:E; [unfold Marshal_UINT32, Unmarshal_UINT32; by rewrite E|].
    apply (codec_roundtrip Unmarshal_UINT32 to_be32 is_u32 (fun m p n => Marshal_UINT32 m p n v) v); try done.
    change (zlen _) with 4. lia.
  - intros v Hv. destruct (n <? 8) eqn:E; [unfold Marshal_UINT64, Unmarshal_UINT64; by rewrite E|].
    apply (codec_roundtrip Unmarshal_UINT64 to_be64 is_u64 (fun m p n => Marshal_UINT64 m p n v) v); try done.
    change (zlen _) with 8. lia.
  - intros. by apply TPM2B_roundtrip.
  - intros. by apply ResponseHeader_roundtrip.
Qed.

Lemma wire_roundtrip_witness :
  exists m', Marshal_UINT64 (replicate 9 0) (Some 1) 8 0x1122334455667788 = Wrote 8 m' /\
    Unmarshal_UINT64 m' (Some 1) 8 = Ok (0x1122334455667788, 8).
Proof.
  destruct (wire_roundtrip (replicate 9 0) 1 8) as (_ & _ & _ & H & _); [by vm_compute..|].
  apply (H 0x1122334455667788). by split; vm_compute.
Defined.
