(* ===== verification/OpenSSL.v ===== *)
(** * The interface of OpenSSL

    The device calls OpenSSL for its cryptography.  [OpenSSL] declares the
    functions the code calls, as parameters; [OpenSSLLaws] states what their
    documentation promises and the proofs rely on: EVP digests and HMAC process
    their input in pieces, the AES-CFB128 ciphers compute the CFB mode of a
    16-byte block function, results have their fixed lengths.

    Conventions.  A context is a value, a call that changes it returns the new
    one, and a call that reports failure ([NULL], 0, or a value that is not
    positive) returns [None].  Calls whose result the code ignores return the
    buffer contents they leave.  Freeing a context has no model. *)
From stdpp Require Import base list numbers.
From S2P Require Import Prelude.

Class OpenSSL := {
  (** Digests *)
  EVP_MD : Type;
  EVP_sha256 : EVP_MD;
  EVP_MD_CTX : Type;
  EVP_MD_CTX_new : option EVP_MD_CTX;
  EVP_DigestInit_ex : EVP_MD_CTX -> EVP_MD -> option EVP_MD_CTX;
  EVP_DigestUpdate : EVP_MD_CTX -> list Z -> option EVP_MD_CTX;
  EVP_DigestFinal_ex : EVP_MD_CTX -> option (list Z);
  (** HMAC *)
  HMAC_CTX : Type;
  HMAC_CTX_new : option HMAC_CTX;
  HMAC_Init_ex : HMAC_CTX -> list Z -> EVP_MD -> option HMAC_CTX;
  HMAC_Update : HMAC_CTX -> list Z -> HMAC_CTX;
  HMAC_Final : HMAC_CTX -> list Z;
  (** Ciphers: a NULL cipher, key or IV is [None]. *)
  EVP_CIPHER : Type;
  EVP_aes_128_cfb128 : EVP_CIPHER;
  EVP_aes_192_cfb128 : EVP_CIPHER;
  EVP_aes_256_cfb128 : EVP_CIPHER;
  EVP_CIPHER_CTX : Type;
  EVP_CIPHER_CTX_new : option EVP_CIPHER_CTX;
  EVP_CipherInit_ex : EVP_CIPHER_CTX -> option EVP_CIPHER -> option (list Z) ->
    option (list Z) -> bool -> option EVP_CIPHER_CTX;
  EVP_CIPHER_CTX_set_key_length : EVP_CIPHER_CTX -> Z -> option EVP_CIPHER_CTX;
  EVP_CipherUpdate : EVP_CIPHER_CTX -> list Z -> option (list Z * EVP_CIPHER_CTX);
  EVP_CipherFinal_ex : EVP_CIPHER_CTX -> list Z;
  (** Elliptic curves: [EC_POINT_mul grp d] is the product with the generator,
      [BN_bn2binpad v n] the [n] bytes of the output array after the call. *)
  EC_GROUP : Type;
  EC_POINT : Type;
  BIGNUM : Type;
  NID_X9_62_prime256v1 : Z;
  EC_GROUP_new_by_curve_name : Z -> EC_GROUP;
  BN_bin2bn : list Z -> BIGNUM;
  EC_POINT_mul : EC_GROUP -> BIGNUM -> EC_POINT;
  EC_POINT_get_affine_coordinates : EC_GROUP -> EC_POINT -> BIGNUM * BIGNUM;
  BN_bn2binpad : BIGNUM -> Z -> list Z;
  (** Signatures: [EVP_PKEY_sign_size] is the call with a NULL signature. *)
  EVP_PKEY : Type;
  EVP_PKEY_CTX : Type;
  EVP_PKEY_RSA : Z;
  EVP_PKEY_RSA_PSS : Z;
  RSA_PKCS1_PADDING : Z;
  RSA_PKCS1_PSS_PADDING : Z;
  EVP_PKEY_base_id : EVP_PKEY -> Z;
  EVP_PKEY_CTX_new : EVP_PKEY -> option EVP_PKEY_CTX;
  EVP_PKEY_sign_init : EVP_PKEY_CTX -> option EVP_PKEY_CTX;
  EVP_PKEY_CTX_set_signature_md : EVP_PKEY_CTX -> EVP_MD -> option EVP_PKEY_CTX;
  EVP_PKEY_CTX_set_rsa_padding : EVP_PKEY_CTX -> Z -> option EVP_PKEY_CTX;
  EVP_PKEY_CTX_set_rsa_pss_saltlen : EVP_PKEY_CTX -> Z -> option EVP_PKEY_CTX;
  EVP_PKEY_sign_size : EVP_PKEY_CTX -> list Z -> option Z;
  EVP_PKEY_sign : EVP_PKEY_CTX -> Z -> list Z -> option (list Z);
  (** RSA key generation: number of the call, bits and public exponent. *)
  RSA_generate_key_ex : nat -> Z -> Z -> Z;
  RSA_F4 : Z;
  (** Random bytes: number of the call and number of bytes; [None] when the
      generator fails and leaves the buffer. *)
  RAND_bytes : nat -> Z -> option (list Z)
}.

(** ** CFB-128 (NIST SP 800-38A)

    [E] is the block function under the key.  [fb] collects the ciphertext of
    the current block, [ks] is what is left of its key stream. *)
Section Cfb.
Variable E : list Z -> list Z.

Fixpoint cfb (enc : bool) (fb ks data : list Z) : list Z :=
  match data with
  | [] => []
  | b :: rest =>
      let '(fb, ks) := match ks with [] => ([], E fb) | _ => (fb, ks) end in
      match ks with
      | [] => b :: cfb enc fb [] rest
      | k :: ks =>
          let o := Z.lxor b k in
          o :: cfb enc (fb ++ [if enc then o else b]) ks rest
      end
  end.

Definition cfb128 (enc : bool) (iv data : list Z) : list Z := cfb enc iv [] data.
End Cfb.

(** What the documentation of the library promises. *)
Class OpenSSLLaws (O : OpenSSL) := {
  sha256 : list Z -> list Z;
  hmac_sha256 : list Z -> list Z -> list Z;
  aes_block : list Z -> list Z -> list Z;
  law_sha256 data : exists c0 c1 c2,
    EVP_MD_CTX_new = Some c0 /\ EVP_DigestInit_ex c0 EVP_sha256 = Some c1 /\
    EVP_DigestUpdate c1 data = Some c2 /\ EVP_DigestFinal_ex c2 = Some (sha256 data);
  law_sha256_size data : zlen (sha256 data) = 32 /\ bytes (sha256 data);
  law_hmac key : exists c0 c1,
    HMAC_CTX_new = Some c0 /\ HMAC_Init_ex c0 key EVP_sha256 = Some c1 /\
    forall chunks, HMAC_Final (fold_left HMAC_Update chunks c1) =
                   hmac_sha256 key (concat chunks);
  law_hmac_size key data : zlen (hmac_sha256 key data) = 32 /\ bytes (hmac_sha256 key data);
  law_cfb cipher keylen key iv data enc :
    (cipher, keylen) ∈ [(EVP_aes_128_cfb128, 16); (EVP_aes_192_cfb128, 24);
                        (EVP_aes_256_cfb128, 32)] ->
    zlen key = keylen -> zlen iv = 16 ->
    exists c0 c1 c2 c3 c4,
      EVP_CIPHER_CTX_new = Some c0 /\
      EVP_CipherInit_ex c0 (Some cipher) None None enc = Some c1 /\
      EVP_CIPHER_CTX_set_key_length c1 keylen = Some c2 /\
      EVP_CipherInit_ex c2 None (Some key) (Some iv) enc = Some c3 /\
      EVP_CipherUpdate c3 data = Some (cfb128 (aes_block key) enc iv data, c4) /\
      EVP_CipherFinal_ex c4 = [];
  law_aes_block key block : zlen (aes_block key block) = 16 /\ bytes (aes_block key block);
  law_bn2binpad v n : 0 <= n -> zlen (BN_bn2binpad v n) = n /\ bytes (BN_bn2binpad v n);
  law_rand i n bs : 0 <= n -> RAND_bytes i n = Some bs -> zlen bs = n /\ bytes bs
}.

(** ** Properties of CFB-128 *)
Section CfbLemmas.
Variable E : list Z -> list Z.

Lemma cfb_length enc fb ks data : length (cfb E enc fb ks data) = length data.
Proof.
  revert fb ks. induction data as [|b rest IH]; intros fb ks; simpl; [done|].
  destruct ks as [|k ks]; [destruct (E fb)|]; simpl; by rewrite IH.
Qed.

(** Decryption undoes encryption. *)
Lemma cfb_inverse fb ks data : cfb E false fb ks (cfb E true fb ks data) = data.
Proof.
  assert (Hx : forall b k, Z.lxor (Z.lxor b k) k = b).
  { intros. by rewrite Z.lxor_assoc, Z.lxor_nilpotent, Z.lxor_0_r. }
  revert fb ks. induction data as [|b rest IH]; intros fb ks; simpl; [done|].
  destruct ks as [|k ks]; [destruct (E fb) eqn:HE|]; simpl; rewrite ?HE; simpl;
    by rewrite ?Hx, IH.
Qed.

(** CFB is a stream mode: a prefix of the output is the output of the prefix. *)
Lemma cfb_prefix enc fb ks data n :
  take n (cfb E enc fb ks data) = cfb E enc fb ks (take n data).
Proof.
  revert fb ks n. induction data as [|b rest IH]; intros fb ks [|n]; try done; simpl.
  destruct ks as [|k ks]; [destruct (E fb)|]; simpl; by rewrite IH.
Qed.

Lemma lxor_u8 a b : is_u8 a -> is_u8 b -> is_u8 (Z.lxor a b).
Proof.
  unfold is_u8. intros Ha Hb.
  assert (0 <= Z.lxor a b) by (apply Z.lxor_nonneg; lia). split; [done|].
  destruct (Z.eq_dec (Z.lxor a b) 0) as [->|]; [lia|].
  apply (Z.log2_lt_pow2 _ 8); [lia|].
  eapply Z.le_lt_trans; [apply Z.log2_lxor; lia|].
  assert (forall x, 0 <= x < 256 -> Z.log2 x < 8).
  { intros x Hx. destruct (Z.eq_dec x 0) as [->|]; [done|].
    apply Z.log2_lt_pow2; lia. }
  apply Z.max_lub_lt; auto.
Qed.

Lemma cfb_bytes enc fb ks data :
  (forall b, bytes (E b)) -> bytes ks -> bytes data -> bytes (cfb E enc fb ks data).
Proof.
  intros HE. revert fb ks. induction data as [|b rest IH]; intros fb ks Hks Hd;
    simpl; [done|].
  inversion Hd as [|?? Hb Hr]; subst.
  destruct ks as [|k ks]; [pose proof (HE fb) as Hk; destruct (E fb) as [|k ks']|];
    simpl.
  - apply bytes_cons; auto.
  - inversion Hk; subst. apply bytes_cons; auto using lxor_u8.
  - inversion Hks; subst. apply bytes_cons; auto using lxor_u8.
Qed.
End CfbLemmas.

(** ** An instance

    A small model of the interface on which the laws hold, used to evaluate the
    device on concrete inputs.  Its primitives are arithmetic checksums, not
    cryptography. *)
Module Toy.
Definition checksum (l : list Z) : Z := fold_left (fun a b => (a * 31 + b + 7) mod 256) l 0.
Definition digest (l : list Z) : list Z :=
  (fun i => (checksum l + 5 * Z.of_nat i) mod 256) <$> seq 0 32.
Definition block (key b : list Z) : list Z :=
  (fun i => (checksum (key ++ b) + 3 * Z.of_nat i) mod 256) <$> seq 0 16.

(** A cipher context: key length, key, IV and direction. *)
Record cipher_ctx := { cc_keylen : Z; cc_key : list Z; cc_iv : list Z; cc_enc : bool }.

Definition cipher_init (c : cipher_ctx) (cipher : option Z) (key iv : option (list Z))
    (enc : bool) : option cipher_ctx :=
  Some {| cc_keylen := default (cc_keylen c) cipher; cc_key := default (cc_key c) key;
          cc_iv := default (cc_iv c) iv; cc_enc := enc |}.

#[export] Instance openssl : OpenSSL := {|
  EVP_MD := unit;
  EVP_sha256 := tt;
  EVP_MD_CTX := list Z;
  EVP_MD_CTX_new := Some [];
  EVP_DigestInit_ex _ _ := Some [];
  EVP_DigestUpdate c d := Some (c ++ d);
  EVP_DigestFinal_ex c := Some (digest c);
  HMAC_CTX := list Z * list Z;
  HMAC_CTX_new := Some ([], []);
  HMAC_Init_ex _ key _ := Some (key, []);
  HMAC_Update c d := (fst c, snd c ++ d);
  HMAC_Final c := digest (fst c ++ snd c);
  EVP_CIPHER := Z;
  EVP_aes_128_cfb128 := 16;
  EVP_aes_192_cfb128 := 24;
  EVP_aes_256_cfb128 := 32;
  EVP_CIPHER_CTX := cipher_ctx;
  EVP_CIPHER_CTX_new := Some {| cc_keylen := 0; cc_key := []; cc_iv := []; cc_enc := true |};
  EVP_CipherInit_ex := cipher_init;
  EVP_CIPHER_CTX_set_key_length c n := if cc_keylen c =? n then Some c else None;
  EVP_CipherUpdate c d := Some (cfb128 (block (cc_key c)) (cc_enc c) (cc_iv c) d, c);
  EVP_CipherFinal_ex _ := [];
  EC_GROUP := unit;
  EC_POINT := list Z;
  BIGNUM := list Z;
  NID_X9_62_prime256v1 := 415;
  EC_GROUP_new_by_curve_name _ := tt;
  BN_bin2bn l := l;
  EC_POINT_mul _ d := d;
  EC_POINT_get_affine_coordinates _ p := (0 :: p, 1 :: p);
  BN_bn2binpad v n := take (Z.to_nat n) (digest v ++ replicate (Z.to_nat n) 0);
  EVP_PKEY := Z;
  EVP_PKEY_CTX := Z;
  EVP_PKEY_RSA := 6;
  EVP_PKEY_RSA_PSS := 912;
  RSA_PKCS1_PADDING := 1;
  RSA_PKCS1_PSS_PADDING := 6;
  EVP_PKEY_base_id k := k;
  EVP_PKEY_CTX_new k := Some k;
  EVP_PKEY_sign_init c := Some c;
  EVP_PKEY_CTX_set_signature_md c _ := Some c;
  EVP_PKEY_CTX_set_rsa_padding c _ := Some c;
  EVP_PKEY_CTX_set_rsa_pss_saltlen c _ := Some c;
  EVP_PKEY_sign_size _ _ := Some 32;
  EVP_PKEY_sign c n d := if 32 <=? n then Some (digest (c :: d)) else None;
  RSA_generate_key_ex i bits e := Z.of_nat i;
  RSA_F4 := 65537;
  RAND_bytes i n :=
    Some ((fun k => (Z.of_nat i * 17 + 11 * Z.of_nat k) mod 256) <$> seq 0 (Z.to_nat n))
|}.

Lemma bytes_map_mod {A} (f : A -> Z) (l : list A) : bytes ((fun x => f x mod 256) <$> l).
Proof.
  induction l; simpl; [apply bytes_nil|]. apply bytes_cons; [|done].
  unfold is_u8. apply Z.mod_pos_bound. lia.
Qed.

Lemma hmac_fold key acc chunks :
  fold_left HMAC_Update chunks (key, acc) = (key, acc ++ concat chunks).
Proof.
  revert acc. induction chunks as [|d l IH]; intros acc; simpl.
  - by rewrite app_nil_r.
  - by rewrite IH, <- app_assoc.
Qed.

#[export] Instance laws : OpenSSLLaws openssl.
Proof.
  refine {| sha256 := digest; hmac_sha256 key d := digest (key ++ d); aes_block := block |}.
  - intros data. exists [], [], data. done.
  - intros data. split; [done|apply bytes_map_mod].
  - intros key. exists ([], []), (key, []). split; [done|]. split; [done|].
    intros chunks. by rewrite hmac_fold.
  - intros key data. split; [done|apply bytes_map_mod].
  - intros cipher keylen key iv data enc Hin Hk Hiv.
    assert (cipher = keylen) as ->.
    { apply list_elem_of_In in Hin. by destruct Hin as [[= <- <-]|[[= <- <-]|[[= <- <-]|[]]]]. }
    do 5 eexists. split_and!; [done|done| |done|done|done].
    simpl. by rewrite Z.eqb_refl.
  - intros key b. split; [done|apply bytes_map_mod].
  - intros v n Hn. split.
    + cbn [BN_bn2binpad openssl]. rewrite zlen_take by done. rewrite zlen_app, zlen_replicate by done.
      pose proof (zlen_nonneg (digest v)). lia.
    + apply bytes_take, bytes_app; [apply bytes_map_mod|auto with tpm].
  - intros i n bs Hn [= <-]. split; [|apply bytes_map_mod].
    unfold zlen. rewrite length_fmap, length_seq. lia.
Defined.
End Toy.
