(* ===== verification/Crypto.v ===== *)
(** * Cryptographic services

    [src/qemu/hw/tpm/tpm_crypto.c]: SHA-256, the KDFa key derivation, AES-CFB,
    RSA signatures and the creation of a primary key, over the OpenSSL
    interface.  A function that writes to an array takes the array and returns
    its contents; [None] is an access outside of an array (or, in the KDFa
    loop, a loop that makes no progress). *)
From stdpp Require Import base list numbers.
From S2P Require Import Prelude Constants State OpenSSL.

(** Choices of the compiler: the bytes a [TPMT_PUBLIC] occupies in memory, which the
    code hashes, and the stack behind the [TPM2B_NAME] of the two functions that
    call [tpm2_CreatePrimary].  That structure ends in a flexible array member, so
    its objects have the two bytes of [size] and nothing more, while 34 bytes are
    written behind [size].  The frames are the bytes behind the object that the
    compiler has left without another use; the C standard promises none ([[]]). *)
Class Layout := {
  public_image : TPMT_PUBLIC -> list Z;
  handler_frame : list Z;
  self_test_frame : list Z
}.

(** There is room for the name in both frames, by the luck of the compilation. *)
Class NameRoom (LY : Layout) : Prop := {
  handler_room : 34 <= zlen handler_frame;
  self_test_room : 34 <= zlen self_test_frame
}.

Section Crypto.
Context `{OS : OpenSSL}.

(** The return value and the contents of [out]. *)
Definition TPM2_SHA256 (data : list Z) (len : Z) (out : list Z) : option (Z * list Z) :=
  let? md := EVP_MD_CTX_new else Some (0, out) in
  let? md := EVP_DigestInit_ex md EVP_sha256 else Some (0, out) in
  let? bs := load data 0 len else None in
  let? md := EVP_DigestUpdate md bs else Some (0, out) in
  let? digest := EVP_DigestFinal_ex md else Some (0, out) in
  let? out := store out 0 digest else None in
  Some (if zlen digest =? 32 then 1 else 0, out).

(** The input of one HMAC round. *)
Definition KDFa_round (hash : EVP_MD) (hmac : HMAC_CTX) (label : option (list Z))
    (counter bits : Z) : list Z :=
  let hmac := HMAC_Update hmac (to_be32 counter) in
  let hmac := match label with
              | Some (c :: rest) => HMAC_Update hmac (c :: rest)
              | _ => hmac
              end in
  let hmac := HMAC_Update hmac [0] in
  let hmac := HMAC_Update hmac (to_be32 bits) in
  HMAC_Final hmac.

(** The [while] loop; [fuel] bounds the number of rounds. *)
Fixpoint KDFa_loop (fuel : nat) (hash : EVP_MD) (hmacKey : list Z) (hmacKeyLen : Z)
    (label : option (list Z)) (bits bytesToGenerate counter generated : Z)
    (out : list Z) : option (Z * list Z) :=
  if generated <? bytesToGenerate then
    match fuel with
    | O => None
    | S fuel =>
        let? hmac := HMAC_CTX_new else Some (0, out) in
        let? key := load hmacKey 0 hmacKeyLen else None in
        let? hmac := HMAC_Init_ex hmac key hash else Some (0, out) in
        let hmacBuf := KDFa_round hash hmac label counter bits in
        let hmacLen := zlen hmacBuf in
        let toCopy := if bytesToGenerate <? u32 (generated + hmacLen)
                      then u32 (bytesToGenerate - generated) else hmacLen in
        let? bs := load hmacBuf 0 toCopy else None in
        let? out := store out generated bs else None in
        KDFa_loop fuel hash hmacKey hmacKeyLen label bits bytesToGenerate
          (u32 (counter + 1)) (u32 (generated + toCopy)) out
    end
  else Some (1, out).

Definition TPM2_KDFa (hash : EVP_MD) (hmacKey : list Z) (hmacKeyLen : Z)
    (label : option (list Z)) (bits : Z) (out : list Z) : option (Z * list Z) :=
  let bytesToGenerate := u32 (bits + 7) / 8 in
  let? (ret, out) := KDFa_loop (Z.to_nat bytesToGenerate) hash hmacKey hmacKeyLen
                       label bits bytesToGenerate 1 0 out else None in
  if ret =? 0 then Some (0, out)
  else if negb (bits mod 8 =? 0) then
    let mask := u8 (Z.shiftl 255 (8 - bits mod 8)) in
    match load out (bytesToGenerate - 1) 1 with
    | Some [b] =>
        let? out := store out (bytesToGenerate - 1) [Z.land b mask] else None in
        Some (1, out)
    | _ => None
    end
  else Some (1, out).

(** The bytes written to [out]; the function returns their number, so that no
    bytes is the failure value 0. *)
Definition TPM2_AES_CFB_Crypt (key : list Z) (keylen : Z) (iv data : list Z)
    (inlen : Z) (enc : bool) : option (list Z) :=
  let? ctx := EVP_CIPHER_CTX_new else Some [] in
  let? cipher :=
    (if keylen =? 16 then Some EVP_aes_128_cfb128
     else if keylen =? 24 then Some EVP_aes_192_cfb128
     else if keylen =? 32 then Some EVP_aes_256_cfb128
     else None) else Some [] in
  let? ctx := EVP_CipherInit_ex ctx (Some cipher) None None enc else Some [] in
  let? ctx := EVP_CIPHER_CTX_set_key_length ctx keylen else Some [] in
  let? k := load key 0 keylen else None in
  let? v := load iv 0 16 else None in
  let? ctx := EVP_CipherInit_ex ctx None (Some k) (Some v) enc else Some [] in
  let? bs := load data 0 inlen else None in
  let? (out, ctx) := EVP_CipherUpdate ctx bs else Some [] in
  Some (out ++ EVP_CipherFinal_ex ctx).

(** NULL arguments are [None].  The result is the return value, the signature
    buffer and the signature length. *)
Definition TPM2_RSA_Sign (pkey : option EVP_PKEY) (msg : option (list Z))
    (sig : option (list Z)) (siglen : option Z) (md : option EVP_MD)
  : option (Z * option (list Z) * option Z) :=
  match pkey, msg, sig, siglen, md with
  | Some pkey, Some msg, Some sigbuf, Some _, Some md =>
      let? ctx := EVP_PKEY_CTX_new pkey else Some (0, sig, siglen) in
      let? ctx := EVP_PKEY_sign_init ctx else Some (0, sig, siglen) in
      let? ctx := EVP_PKEY_CTX_set_signature_md ctx md else Some (0, sig, siglen) in
      let key_type := EVP_PKEY_base_id pkey in
      let? ctx :=
        (if key_type =? EVP_PKEY_RSA_PSS then
           let? ctx := EVP_PKEY_CTX_set_rsa_padding ctx RSA_PKCS1_PSS_PADDING else None in
           EVP_PKEY_CTX_set_rsa_pss_saltlen ctx (-1)
         else if key_type =? EVP_PKEY_RSA then
           EVP_PKEY_CTX_set_rsa_padding ctx RSA_PKCS1_PADDING
         else None) else Some (0, sig, siglen) in
      let? n := EVP_PKEY_sign_size ctx msg else Some (0, sig, siglen) in
      let? s := EVP_PKEY_sign ctx n msg else Some (0, sig, Some n) in
      let? sigbuf := store sigbuf 0 s else None in
      Some (1, Some sigbuf, Some (zlen s))
  | _, _, _, _, _ => Some (0, sig, siglen)
  end.

(** ** TPM2_CreatePrimary *)
Context `{LY : Layout}.

(** The seed of the hierarchy; its proof is only logged. *)
Definition hierarchy_seed (s : TPM2State) (primaryHandle : Z) : option (list Z) :=
  if primaryHandle =? TPM_RH_OWNER then Some (sps s)
  else if primaryHandle =? TPM_RH_PLATFORM then Some (pps s)
  else if primaryHandle =? TPM_RH_ENDORSEMENT then Some (eps s)
  else None.

(** The string literal ["PRIMARY"]. *)
Definition PRIMARY_label : list Z := [80; 82; 73; 77; 65; 82; 89].

(** [memcpy(b.buffer, src, n); b.size = n] *)
Definition fill (b : TPM2B) (src : list Z) (n : Z) : option TPM2B :=
  let? bs := load src 0 n else None in
  let? buf := store (b_buffer b) 0 bs else None in
  Some {| b_size := n; b_buffer := buf |}.

(** The result is the response code, the state, [outPublic] and [name]; the
    last two are the caller's when the code is an error.  The buffer of [name] is
    what lies behind the object on the caller's stack; [s->primary_name = *name]
    copies the size only. *)
Definition tpm2_CreatePrimary (s : TPM2State) (primaryHandle : Z)
    (inSensitive : TPM2B_SENSITIVE_CREATE) (tmpl : TPMT_PUBLIC)
    (outPublic : TPMT_PUBLIC) (name : TPM2B)
  : option (Z * TPM2State * TPMT_PUBLIC * TPM2B) :=
  let? seed := hierarchy_seed s primaryHandle
    else Some (TPM_RC_HIERARCHY, s, outPublic, name) in
  let sens := TPM2B_SENSITIVE_zero in
  let sens := sens <| ss_sensitiveType := pa_type tmpl |> in
  let sens := sens <| ss_authValue := sc_userAuth inSensitive |> in
  let? seedValue := fill (ss_seedValue sens) seed 32 else None in
  let sens := sens <| ss_seedValue := seedValue |> in
  if negb (pa_type tmpl =? TPM_ALG_ECC)
  then Some (TPM_RC_ASYMMETRIC, s <| primary_sensitive := sens |>, outPublic, name)
  else
  let priv := replicate 32 0 in
  let? (_, priv) := TPM2_KDFa EVP_sha256 seed 32 (Some PRIMARY_label) 256 priv
    else None in
  let grp := EC_GROUP_new_by_curve_name NID_X9_62_prime256v1 in
  let d := BN_bin2bn priv in
  let Q := EC_POINT_mul grp d in
  let '(x, y) := EC_POINT_get_affine_coordinates grp Q in
  let pubx := BN_bn2binpad x 32 in
  let puby := BN_bn2binpad y 32 in
  let? ecc := fill (ss_ecc sens) priv 32 else None in
  let s := s <| primary_sensitive := sens <| ss_ecc := ecc |> |> in
  let? ux := fill (pa_unique_x tmpl) pubx 32 else None in
  let? uy := fill (pa_unique_y tmpl) puby 32 else None in
  let outPublic :=
    {| pa_type := pa_type tmpl; pa_nameAlg := pa_nameAlg tmpl;
       pa_objectAttributes := pa_objectAttributes tmpl; pa_curveID := pa_curveID tmpl;
       pa_unique_x := ux; pa_unique_y := uy |} in
  let s := s <| primary_public := outPublic |> in
  let image := public_image outPublic in
  let? (_, hash) := TPM2_SHA256 image (zlen image) (replicate 32 0) else None in
  let? frame := store (b_buffer name) 0 [byte_at TPM_ALG_SHA256 8; byte_at TPM_ALG_SHA256 0]
    else None in
  let? frame := store frame 2 hash else None in
  let name := {| b_size := 2 + 32; b_buffer := frame |} in
  let s := s <| primary_name_size := b_size name |> in
  Some (TPM_RC_SUCCESS, s, outPublic, name).

(** ** Reference definition of KDFa (TPM 2.0, part 1, 11.4.9.2)

    The key stream is the concatenation of the HMACs of consecutive counters;
    its first [(bits + 7) / 8] bytes are taken, and the bits of the last byte
    beyond [bits] are cleared. *)
Context `{!OpenSSLLaws OS}.

Definition KDFa_input (label : list Z) (counter bits : Z) : list Z :=
  to_be32 counter ++ label ++ [0] ++ to_be32 bits.

Fixpoint KDFa_blocks (key label : list Z) (bits counter : Z) (n : nat) : list Z :=
  match n with
  | O => []
  | S n => hmac_sha256 key (KDFa_input label counter bits) ++
           KDFa_blocks key label bits (counter + 1) n
  end.

Definition mask_last (bits : Z) (l : list Z) : list Z :=
  if bits mod 8 =? 0 then l
  else alter (fun b => Z.land b (u8 (Z.shiftl 255 (8 - bits mod 8)))) (length l - 1)%nat l.

Definition KDFa_spec (key label : list Z) (bits : Z) : list Z :=
  let n := Z.to_nat ((bits + 7) / 8) in
  mask_last bits (take n (KDFa_blocks key label bits 1 n)).
End Crypto.

(** ** Lemmas *)
Section CryptoLemmas.
Context `{OS : OpenSSL, !OpenSSLLaws OS}.

Lemma TPM2_SHA256_ok data out :
  zlen out = 32 -> TPM2_SHA256 data (zlen data) out = Some (1, sha256 data).
Proof.
  intros Hout. unfold TPM2_SHA256.
  destruct (law_sha256 data) as (c0 & c1 & c2 & -> & -> & E & F).
  rewrite load_in by (pose proof (zlen_nonneg data); lia).
  rewrite drop_0, take_ge, E, F by (unfold zlen; lia).
  destruct (law_sha256_size data) as [Hz _].
  destruct (store_in out 0 (sha256 data)) as [out' Hst]; [lia..|].
  rewrite Hst, Hz. simpl. repeat f_equal.
  apply store_prefix_app in Hst as ->.
  rewrite drop_ge, app_nil_r; [done|]. unfold zlen in *. lia.
Qed.

Lemma KDFa_round_ok c key label counter bits :
  (forall chunks, HMAC_Final (fold_left HMAC_Update chunks c) =
                  hmac_sha256 key (concat chunks)) ->
  KDFa_round EVP_sha256 c (Some label) counter bits =
  hmac_sha256 key (KDFa_input label counter bits).
Proof.
  intros Hc. unfold KDFa_round, KDFa_input. destruct label as [|b l].
  - exact (Hc [to_be32 counter; [0]; to_be32 bits]).
  - etrans; [exact (Hc [to_be32 counter; b :: l; [0]; to_be32 bits])|]. done.
Qed.

Lemma KDFa_loop_ok fuel key keylen label bits N counter generated out :
  load key 0 keylen = Some key ->
  0 <= generated <= N -> N - generated <= Z.of_nat fuel -> N <= zlen out ->
  N < 2 ^ 29 -> 1 <= counter -> counter + (N - generated) < 2 ^ 32 ->
  exists out',
    store out generated (take (Z.to_nat (N - generated))
                           (KDFa_blocks key label bits counter fuel)) = Some out' /\
    KDFa_loop fuel EVP_sha256 key keylen (Some label) bits N counter generated out =
    Some (1, out').
Proof.
  intros Hkey. revert counter generated out.
  induction fuel as [|fuel IH]; intros counter generated out Hg Hf Hout HN Hc Hcm; simpl.
  - replace (generated <? N) with false by lia. rewrite take_nil.
    exists out. by rewrite store_nil by lia.
  - destruct (generated <? N) eqn:E.
    2:{ replace (N - generated) with 0 by lia. simpl. exists out.
        by rewrite store_nil by lia. }
    destruct (law_hmac key) as (c0 & c1 & -> & Hinit & Hfin). rewrite Hkey, Hinit.
    rewrite (KDFa_round_ok c1 key label counter bits Hfin).
    destruct (law_hmac_size key (KDFa_input label counter bits)) as [Hz _].
    set (B := hmac_sha256 key (KDFa_input label counter bits)) in *.
    rewrite Hz, (u32_id (generated + 32)) by (unfold is_u32; lia).
    destruct (N <? generated + 32) eqn:E2.
    + rewrite (u32_id (N - generated)) by (unfold is_u32; lia).
      rewrite load_in, drop_0 by lia.
      rewrite take_app_le by (unfold zlen in Hz; lia).
      destruct (store_in out generated (take (Z.to_nat (N - generated)) B))
        as [out' Hst]; [lia|rewrite zlen_take; lia|].
      rewrite Hst. exists out'. split; [done|].
      replace (u32 (generated + (N - generated))) with N
        by (rewrite u32_id by (unfold is_u32; lia); lia).
      destruct fuel; simpl; by rewrite Z.ltb_irrefl.
    + rewrite load_in, drop_0 by lia. rewrite (take_ge B) by (unfold zlen in Hz; lia).
      destruct (store_in out generated B) as [out1 Hst]; [lia..|]. rewrite Hst.
      rewrite !u32_id by (unfold is_u32; lia).
      pose proof (store_zlen _ _ _ _ Hst) as Hl1.
      destruct (IH (counter + 1) (generated + 32) out1) as (out' & Hst' & ->); [lia..|].
      exists out'. split; [|done].
      replace (Z.to_nat (N - generated)) with (length B + Z.to_nat (N - (generated + 32)))%nat
        by (unfold zlen in Hz; lia).
      rewrite take_app_add. apply (store_app out generated _ _ out1); [done|].
      by rewrite Hz.
Qed.

Lemma KDFa_blocks_take key label bits counter n :
  0 <= n -> zlen (take (Z.to_nat n) (KDFa_blocks key label bits counter (Z.to_nat n))) = n.
Proof.
  intros Hn. rewrite zlen_take by done. apply Z.min_l.
  rewrite <- (Z2Nat.id n) at 1 by done. generalize (Z.to_nat n) as k. clear n Hn.
  intros k. revert counter. induction k as [|k IH]; intros counter; simpl;
    [apply zlen_nonneg|].
  rewrite zlen_app. destruct (law_hmac_size key (KDFa_input label counter bits)) as [-> _].
  specialize (IH (counter + 1)). lia.
Qed.

(** The final masking, on a buffer that holds the [n] bytes of the result. *)
Lemma mask_last_ok bits n l rest :
  bits mod 8 <> 0 -> zlen l = n -> 0 < n ->
  exists b, load (l ++ rest) (n - 1) 1 = Some [b] /\
    store (l ++ rest) (n - 1) [Z.land b (u8 (Z.shiftl 255 (8 - bits mod 8)))] =
    Some (mask_last bits l ++ rest).
Proof.
  intros Hb Hn Hpos. destruct l as [|b l0 _] using rev_ind; [change (zlen []) with 0 in Hn; lia|].
  rewrite zlen_app in Hn. change (zlen [b]) with 1 in Hn.
  exists b. rewrite <- app_assoc. replace (n - 1) with (zlen l0) by lia.
  split; [apply (load_mid l0 [b] rest)|].
  rewrite store_mid by done. unfold mask_last.
  replace (bits mod 8 =? 0) with false by lia.
  rewrite length_app. simpl length. rewrite Nat.add_sub.
  rewrite <- (Nat.add_0_r (length l0)), alter_app_r, <- app_assoc. done.
Qed.

Lemma TPM2_KDFa_ok key label bits out :
  0 <= bits < 2 ^ 32 - 7 -> (bits + 7) / 8 <= zlen out ->
  TPM2_KDFa EVP_sha256 key (zlen key) (Some label) bits out =
  Some (1, KDFa_spec key label bits ++ drop (Z.to_nat ((bits + 7) / 8)) out).
Proof.
  intros Hb Hout. unfold TPM2_KDFa, KDFa_spec.
  rewrite u32_id by (unfold is_u32; lia).
  set (n := (bits + 7) / 8) in *.
  assert (Hn : 0 <= n < 2 ^ 29).
  { split; [apply Z.div_pos; lia|apply Z.div_lt_upper_bound; lia]. }
  destruct (KDFa_loop_ok (Z.to_nat n) key (zlen key) label bits n 1 0 out)
    as (out' & Hst & ->); try lia.
  { rewrite load_in by (pose proof (zlen_nonneg key); lia).
    rewrite drop_0, take_ge; [done|unfold zlen; lia]. }
  rewrite Z.sub_0_r in Hst.
  set (l := take (Z.to_nat n) (KDFa_blocks key label bits 1 (Z.to_nat n))) in *.
  assert (Hl : zlen l = n) by (apply KDFa_blocks_take; lia).
  pose proof (store_prefix_app _ _ _ Hst) as ->.
  replace (length l) with (Z.to_nat n) by (unfold zlen in Hl; lia).
  simpl. unfold mask_last at 1. destruct (bits mod 8 =? 0) eqn:E; simpl; [done|].
  destruct (mask_last_ok bits n l (drop (Z.to_nat n) out)) as (b & -> & ->);
    [lia|done| |].
  { pose proof (Z.mod_pos_bound bits 8). subst n.
    enough (1 <= (bits + 7) / 8) by lia. apply Z.div_le_lower_bound; [lia|].
    enough (bits <> 0) by lia. intros ->. done. }
  unfold mask_last. by rewrite E.
Qed.

(** C21: [TPM2_KDFa] with SHA-256 is the KDFa of the specification: for every
    key, label and output size it terminates, returns 1, writes exactly the
    specified [(bits + 7) / 8] bytes, the excess bits of the last one masked, at the
    start of the output array and leaves the rest of the array. *)
Theorem TPM2_KDFa_correct (key label : list Z) (bits : Z) (out : list Z) :
  0 <= bits < 2 ^ 32 - 7 -> (bits + 7) / 8 <= zlen out ->
  TPM2_KDFa EVP_sha256 key (zlen key) (Some label) bits out =
  Some (1, KDFa_spec key label bits ++ drop (Z.to_nat ((bits + 7) / 8)) out).
Proof. apply TPM2_KDFa_ok. Qed.

Lemma TPM2_AES_CFB_Crypt_ok key keylen iv data inlen enc k v bs :
  keylen = 16 \/ keylen = 24 \/ keylen = 32 ->
  load key 0 keylen = Some k -> load iv 0 16 = Some v -> load data 0 inlen = Some bs ->
  TPM2_AES_CFB_Crypt key keylen iv data inlen enc =
  Some (cfb128 (aes_block k) enc v bs).
Proof.
  intros Hl Hk Hv Hd. unfold TPM2_AES_CFB_Crypt. rewrite Hk, Hv, Hd.
  assert (Hc : exists cipher,
    (if keylen =? 16 then Some EVP_aes_128_cfb128
     else if keylen =? 24 then Some EVP_aes_192_cfb128
     else if keylen =? 32 then Some EVP_aes_256_cfb128 else None) = Some cipher /\
    (cipher, keylen) ∈ [(EVP_aes_128_cfb128, 16); (EVP_aes_192_cfb128, 24);
                        (EVP_aes_256_cfb128, 32)]).
  { destruct Hl as [-> | [-> | ->]]; eexists; (split; [reflexivity|apply list_elem_of_In; simpl; tauto]). }
  destruct Hc as (cipher & -> & Hin).
  destruct (law_cfb cipher keylen k v bs enc Hin) as (c0&c1&c2&c3&c4&E0&E1&E2&E3&E4&E5);
    [by apply load_zlen in Hk|by apply load_zlen in Hv|].
  rewrite E0. rewrite E1. rewrite E2. rewrite E3. rewrite E4, E5.
  by rewrite app_nil_r.
Qed.

(** Any other key length is refused. *)
Lemma TPM2_AES_CFB_Crypt_keylen key keylen iv data inlen enc :
  keylen <> 16 -> keylen <> 24 -> keylen <> 32 ->
  TPM2_AES_CFB_Crypt key keylen iv data inlen enc = Some [].
Proof.
  intros. unfold TPM2_AES_CFB_Crypt. destruct EVP_CIPHER_CTX_new; [|done].
  replace (keylen =? 16) with false by lia. replace (keylen =? 24) with false by lia.
  by replace (keylen =? 32) with false by lia.
Qed.

(** C22: AES-CFB round trip: decrypting the first [n] bytes of what
    [TPM2_AES_CFB_Crypt] encrypted, with the same key and IV, gives the first
    [n] bytes of the plaintext, and the call returns that many bytes. *)
Theorem TPM2_AES_CFB_Crypt_roundtrip (key iv data : list Z) (keylen n : Z) :
  keylen = 16 \/ keylen = 24 \/ keylen = 32 ->
  keylen <= zlen key -> 16 <= zlen iv -> 0 <= n <= zlen data ->
  exists ct, TPM2_AES_CFB_Crypt key keylen iv data (zlen data) true = Some ct /\
    zlen ct = zlen data /\
    TPM2_AES_CFB_Crypt key keylen iv ct n false = Some (take (Z.to_nat n) data).
Proof.
  intros Hl Hk Hv Hn.
  pose proof (load_prefix key keylen ltac:(lia)) as Lk.
  pose proof (load_prefix iv 16 ltac:(lia)) as Lv.
  pose proof (load_prefix data (zlen data) ltac:(lia)) as Ld.
  rewrite (take_ge data) in Ld by (unfold zlen; lia).
  rewrite (TPM2_AES_CFB_Crypt_ok _ _ _ _ _ _ _ _ _ Hl Lk Lv Ld).
  set (ct := cfb128 _ _ _ _).
  assert (Hz : zlen ct = zlen data) by (unfold zlen, ct, cfb128; by rewrite cfb_length).
  exists ct. split_and!; [done|done|].
  pose proof (load_prefix ct n ltac:(lia)) as Lc.
  rewrite (TPM2_AES_CFB_Crypt_ok _ _ _ _ _ _ _ _ _ Hl Lk Lv Lc).
  unfold ct, cfb128. by rewrite cfb_prefix, cfb_inverse.
Qed.

(** ** Primary keys *)
(** The size of the buffer that the caller passes in [siglen] has no effect on a
    signature: it is overwritten with the size needed, and a buffer shorter than the
    signature is overrun whatever [siglen] says. *)
Lemma TPM2_RSA_Sign_siglen pkey msg sig n n' md out len :
  TPM2_RSA_Sign pkey msg (Some sig) (Some n) md = Some (1, Some out, len) ->
  TPM2_RSA_Sign pkey msg (Some sig) (Some n') md = Some (1, Some out, len) /\
  (forall short, zlen short < from_option id 0 len ->
     TPM2_RSA_Sign pkey msg (Some short) (Some n') md = None).
Proof.
  unfold TPM2_RSA_Sign. destruct pkey as [pkey|], msg as [msg|], md as [md|]; try done.
  destruct (EVP_PKEY_CTX_new pkey) as [c|]; [|done].
  destruct (EVP_PKEY_sign_init c) as [c1|]; [|done].
  destruct (EVP_PKEY_CTX_set_signature_md c1 md) as [c2|]; [|done]. cbv zeta.
  match goal with |- context [ match ?e with Some _ => _ | None => Some (0, Some sig, Some n) end ] =>
    destruct e as [c3|]; [|done] end.
  destruct (EVP_PKEY_sign_size c3 msg) as [k|]; [|done].
  destruct (EVP_PKEY_sign c3 k msg) as [bs|]; [|done].
  destruct (store sig 0 bs) as [b|] eqn:E; [|done]. intros [= <- <-]. split; [done|].
  intros short Hs. simpl in Hs. by rewrite store_oob by lia.
Qed.

Context `{LY : Layout}.

(** The private key derived from a seed, and the public area made of it. *)
Definition primary_priv (seed : list Z) : list Z := KDFa_spec seed PRIMARY_label 256.

Definition primary_sens (ptype : Z) (auth : TPM2B) (seed : list Z) : TPM2B_SENSITIVE :=
  {| ss_sensitiveType := ptype; ss_authValue := auth;
     ss_seedValue := {| b_size := 32; b_buffer := seed ++ replicate 32 0 |};
     ss_ecc := {| b_size := 32; b_buffer := primary_priv seed ++ replicate 32 0 |} |}.

Definition primary_pub (tmpl : TPMT_PUBLIC) (seed : list Z) : TPMT_PUBLIC :=
  let grp := EC_GROUP_new_by_curve_name NID_X9_62_prime256v1 in
  let '(x, y) := EC_POINT_get_affine_coordinates grp
                   (EC_POINT_mul grp (BN_bin2bn (primary_priv seed))) in
  {| pa_type := pa_type tmpl; pa_nameAlg := pa_nameAlg tmpl;
     pa_objectAttributes := pa_objectAttributes tmpl; pa_curveID := pa_curveID tmpl;
     pa_unique_x := {| b_size := 32;
       b_buffer := BN_bn2binpad x 32 ++ drop 32 (b_buffer (pa_unique_x tmpl)) |};
     pa_unique_y := {| b_size := 32;
       b_buffer := BN_bn2binpad y 32 ++ drop 32 (b_buffer (pa_unique_y tmpl)) |} |}.

Lemma primary_priv_size seed : zlen (primary_priv seed) = 32 /\ bytes (primary_priv seed).
Proof.
  unfold primary_priv, KDFa_spec. change (mask_last 256 ?l) with l.
  split; [by apply KDFa_blocks_take|]. apply bytes_take.
  generalize (Z.to_nat ((256 + 7) / 8)) as k, 1 as c.
  induction k as [|k IH]; intros c; simpl; [apply bytes_nil|].
  apply bytes_app; [apply law_hmac_size|done].
Qed.

Lemma fill_ok b src n :
  0 <= n -> zlen src = n -> n <= zlen (b_buffer b) ->
  fill b src n = Some {| b_size := n; b_buffer := src ++ drop (Z.to_nat n) (b_buffer b) |}.
Proof.
  intros Hn Hs Hb. unfold fill.
  rewrite load_in, drop_0, take_ge by (lia || unfold zlen in *; lia).
  destruct (store_in (b_buffer b) 0 src) as [m Hst]; [lia..|]. rewrite Hst.
  apply store_prefix_app in Hst as ->. do 3 f_equal.
  f_equal. unfold zlen in Hs. lia.
Qed.

(** The name of a public area, and the frame it is written to. *)
Definition primary_name (tmpl : TPMT_PUBLIC) (seed : list Z) : list Z :=
  [0; 11] ++ sha256 (public_image (primary_pub tmpl seed)).

Lemma primary_name_wf tmpl seed : zlen (primary_name tmpl seed) = 34 /\ bytes (primary_name tmpl seed).
Proof.
  unfold primary_name. destruct (law_sha256_size (public_image (primary_pub tmpl seed))) as [H1 H2].
  split; [by rewrite zlen_app, H1|]. apply bytes_app; [|done].
  apply (bool_decide_unpack _). by vm_compute.
Qed.

Lemma name_stored frame a b hash :
  zlen hash = 32 ->
  (let? f := store frame 0 [a; b] else None in store f 2 hash) =
    if 34 <=? zlen frame then Some (([a; b] ++ hash) ++ drop 34 frame) else None.
Proof.
  intros Hh. destruct (34 <=? zlen frame) eqn:E.
  - destruct (store_in frame 0 [a; b]) as [f Hf]; [lia|simpl; change (zlen [a; b]) with 2; lia|]. rewrite Hf.
    pose proof (store_zlen _ _ _ _ Hf) as Hz.
    destruct (store_in f 2 hash) as [f' Hf']; [lia|lia|]. rewrite Hf'. f_equal.
    assert (Hs : store frame 0 ([a; b] ++ hash) = Some f') by (apply (store_app _ _ _ _ f); done).
    apply store_prefix_app in Hs as ->. f_equal. f_equal. rewrite length_app. unfold zlen in Hh. simpl. lia.
  - destruct (store frame 0 [a; b]) as [f|] eqn:Hf; [|done].
    apply store_oob. rewrite (store_zlen _ _ _ _ Hf). lia.
Qed.

(** The result of TPM2_CreatePrimary on each branch. *)
Lemma tpm2_CreatePrimary_ok s h sc tmpl out name seed :
  hierarchy_seed s h = Some seed -> zlen seed = 32 -> pa_type tmpl = TPM_ALG_ECC ->
  zlen (b_buffer (pa_unique_x tmpl)) = 64 -> zlen (b_buffer (pa_unique_y tmpl)) = 64 ->
  tpm2_CreatePrimary s h sc tmpl out name =
  if 34 <=? zlen (b_buffer name) then
    Some (TPM_RC_SUCCESS,
      s <| primary_sensitive := primary_sens TPM_ALG_ECC (sc_userAuth sc) seed |>
        <| primary_public := primary_pub tmpl seed |> <| primary_name_size := 34 |>,
      primary_pub tmpl seed,
      {| b_size := 34; b_buffer := primary_name tmpl seed ++ drop 34 (b_buffer name) |})
  else None.
Proof.
  intros Hh Hs Ht Hx Hy. unfold tpm2_CreatePrimary. rewrite Hh, Ht.
  rewrite fill_ok by (done || lia).
  change (negb (TPM_ALG_ECC =? TPM_ALG_ECC)) with false. cbv iota.
  rewrite <- Hs at 1. rewrite TPM2_KDFa_ok by (done || lia).
  change (drop _ (replicate 32 0)) with (@nil Z). rewrite app_nil_r.
  fold (primary_priv seed). destruct (primary_priv_size seed) as [Hp _].
  unfold primary_name, primary_pub. destruct (EC_POINT_get_affine_coordinates _ _) as [x y].
  rewrite (fill_ok _ (primary_priv seed)) by (done || lia).
  pose proof (law_bn2binpad x 32 ltac:(lia)) as [Hbx _].
  pose proof (law_bn2binpad y 32 ltac:(lia)) as [Hby _].
  rewrite (fill_ok _ (BN_bn2binpad x 32)), (fill_ok _ (BN_bn2binpad y 32)) by lia.
  rewrite TPM2_SHA256_ok by done. rewrite Ht.
  match goal with |- context [sha256 ?l] => destruct (law_sha256_size l) as [Hl _];
    pose proof (name_stored (b_buffer name) (byte_at TPM_ALG_SHA256 8) (byte_at TPM_ALG_SHA256 0) (sha256 l) Hl) as Hn
  end.
  destruct (store (b_buffer name) 0 _) as [f|]; rewrite ?Hn; by destruct (34 <=? _).
Qed.

Lemma tpm2_CreatePrimary_hierarchy s h sc tmpl out name :
  hierarchy_seed s h = None ->
  tpm2_CreatePrimary s h sc tmpl out name = Some (TPM_RC_HIERARCHY, s, out, name).
Proof. intros Hh. unfold tpm2_CreatePrimary. by rewrite Hh. Qed.

(** The sensitive area is cleared before the type is looked at. *)
Lemma tpm2_CreatePrimary_asymmetric s h sc tmpl out name seed :
  hierarchy_seed s h = Some seed -> zlen seed = 32 -> pa_type tmpl <> TPM_ALG_ECC ->
  tpm2_CreatePrimary s h sc tmpl out name =
  Some (TPM_RC_ASYMMETRIC,
    s <| primary_sensitive :=
      {| ss_sensitiveType := pa_type tmpl; ss_authValue := sc_userAuth sc;
         ss_seedValue := {| b_size := 32; b_buffer := seed ++ replicate 32 0 |};
         ss_ecc := TPM2B_zero 64 |} |>, out, name).
Proof.
  intros Hh Hs Ht. unfold tpm2_CreatePrimary. rewrite Hh, fill_ok by (done || lia).
  replace (pa_type tmpl =? TPM_ALG_ECC) with false by lia. reflexivity.
Qed.
End CryptoLemmas.

#[local] Existing Instances Toy.openssl Toy.laws.

Lemma TPM2_KDFa_correct_witness :
  TPM2_KDFa EVP_sha256 [1; 2; 3] 3 (Some [75]) 300 (replicate 40 255) =
  Some (1, KDFa_spec [1; 2; 3] [75] 300 ++ [255; 255]).
Proof.
  apply (TPM2_KDFa_correct [1; 2; 3] [75] 300 (replicate 40 255)); by vm_compute.
Defined.

Lemma TPM2_AES_CFB_Crypt_roundtrip_witness :
  exists ct, TPM2_AES_CFB_Crypt (replicate 64 9) 32 (replicate 16 0) [1; 2; 3; 4] 4 true =
      Some ct /\ zlen ct = 4 /\
    TPM2_AES_CFB_Crypt (replicate 64 9) 32 (replicate 16 0) ct 3 false = Some [1; 2; 3].
Proof.
  apply (TPM2_AES_CFB_Crypt_roundtrip (replicate 64 9) (replicate 16 0) [1; 2; 3; 4] 32 3);
    [by right; right|by vm_compute|by vm_compute|by vm_compute].
Defined.
