(* ===== verification/Nv.v ===== *)
(** * Non-volatile storage

    [src/qemu/hw/tpm/tpm_nv.c]: definition of NV indices, encrypted writes and
    decrypting reads.  The data of all indices live in one bank of
    [TPM2_NVSTORAGE_SIZE] bytes, cut into slices by a cursor that only grows: an
    entry's slice is 16 bytes of IV followed by its data.  An operation returns
    its [TPM_RC] and the state; [None] is an access outside of an array.

    [NvSpec] is the abstract contract (a map from indices to separate byte
    arrays, with no bank), which the operations are proved to implement in
    [NvRefine]. *)
From stdpp Require Import base list numbers gmap.
From S2P Require Import Prelude Constants State OpenSSL Crypto.

(** ** Hash table of entries (GLib)

    On a NULL table GLib reports a critical warning and does nothing. *)
Definition g_hash_table_lookup (t : option (gmap Z NVEntry)) (k : Z) : option NVEntry :=
  t ≫= fun m => m !! k.
Definition g_hash_table_contains (t : option (gmap Z NVEntry)) (k : Z) : bool :=
  bool_decide (is_Some (g_hash_table_lookup t k)).
Definition g_hash_table_insert (t : option (gmap Z NVEntry)) (k : Z) (e : NVEntry)
  : option (gmap Z NVEntry) := (fun m => <[k := e]> m) <$> t.

(** ** Feature stubs *)
Definition impl_supports_counter (s : TPM2State) : bool := true.
Definition impl_supports_setbits (s : TPM2State) : bool := true.
Definition impl_supports_undefine_policy_delete (s : TPM2State) : bool := true.
Definition tpm2_nv_flush_dirty (s : TPM2State) : bool := true.

(** ** Allocation *)

(** The entry that [nv_entry_alloc] fills in, for a slice that starts at [base];
    what it does not assign is zero ([g_malloc0]). *)
Definition nv_entry_new (base index dataSize nameAlg : Z) (attrs : TPMA_NV) : NVEntry :=
  {| e_pub := {| np_nvIndex := index; np_nameAlg := nameAlg; np_attributes := attrs;
                 np_authPolicy := replicate 64 0; np_authPolicySize := 0;
                 np_dataSize := dataSize |};
     e_authValue := replicate 64 0; e_authValueLen := 0;
     e_name := replicate 64 0; e_nameLen := 0;
     e_data := base + 16; e_dataLen := dataSize; e_iv_ptr := base;
     e_written := false; e_readLocked := false; e_writeLocked := false;
     e_integrityLen := 0 |}.

(** The outer [option] is memory safety, the inner one the returned pointer.
    [memset] of the two parts of the slice is done in the bank. *)
Definition nv_entry_alloc (s : TPM2State) (index dataSize nameAlg : Z) (attrs : TPMA_NV)
  : option (option NVEntry * TPM2State) :=
  match nv_bank s with
  | None => Some (None, s)
  | Some bank =>
      let need := 16 + dataSize in
      if nv_bank_size s <? nv_alloc_offset s + need then Some (None, s)
      else
      let e := nv_entry_new (nv_alloc_offset s) index dataSize nameAlg attrs in
      let? bank := store bank (e_iv_ptr e) (replicate 16 0) else None in
      let? bank := store bank (e_data e) (replicate (Z.to_nat (e_dataLen e)) 0) else None in
      Some (Some e, s <| nv_bank := Some bank |>
                      <| nv_alloc_offset := u32 (nv_alloc_offset s + need) |>)
  end.

(** ** Attributes *)
Definition nv_index_type (attrs : TPMA_NV) : Z := u8 (a_nvType attrs).
Definition any_read_bit (a : TPMA_NV) : bool :=
  a_ppRead a || a_ownerRead a || a_authRead a || a_policyRead a.
Definition any_write_bit (a : TPMA_NV) : bool :=
  a_ppWrite a || a_ownerWrite a || a_authWrite a || a_policyWrite a.

(** The type-specific rules, the [switch] of step 10. *)
Definition nv_type_rules (s : TPM2State) (attrs : TPMA_NV) (nvt dataSize : Z) : Z :=
  if nvt =? TPM_NT_COUNTER then
    if negb (impl_supports_counter s) then TPM_RC_ATTRIBUTES
    else if a_clearStClear attrs then TPM_RC_ATTRIBUTES
    else if negb (dataSize =? 8) then TPM_RC_SIZE
    else TPM_RC_SUCCESS
  else if nvt =? TPM_NT_BITS then
    if negb (impl_supports_setbits s) then TPM_RC_ATTRIBUTES
    else if negb (dataSize =? 8) then TPM_RC_SIZE
    else TPM_RC_SUCCESS
  else if nvt =? TPM_NT_PIN_FAIL then
    if negb (a_noDA attrs) then TPM_RC_ATTRIBUTES
    else if negb (dataSize =? 8) then TPM_RC_SIZE
    else if a_authWrite attrs then TPM_RC_ATTRIBUTES
    else if negb (a_ppWrite attrs || a_ownerWrite attrs || a_policyWrite attrs)
    then TPM_RC_ATTRIBUTES
    else TPM_RC_SUCCESS
  else if nvt =? TPM_NT_PIN_PASS then
    if negb (dataSize =? 8) then TPM_RC_SIZE
    else if a_authWrite attrs then TPM_RC_ATTRIBUTES
    else if negb (a_ppWrite attrs || a_ownerWrite attrs || a_policyWrite attrs)
    then TPM_RC_ATTRIBUTES
    else TPM_RC_SUCCESS
  else TPM_RC_SUCCESS.

(** Steps 2 to 12: the checks made before anything is changed. *)
Definition nv_define_checks (s : TPM2State) (authHandle : TPMI_RH_PROVISION)
    (nv : TPMS_NV_PUBLIC) : Z :=
  let index := np_nvIndex nv in
  let attrs := np_attributes nv in
  let dataSize := np_dataSize nv in
  let nvt := nv_index_type attrs in
  if (np_nvIndex nv =? 0) || (TPM2_NVSTORAGE_SIZE <? dataSize) then TPM_RC_SIZE
  else if g_hash_table_contains (nv_map s) index then TPM_RC_NV_DEFINED
  else if TPM2_MAX_NV_INDEXES <=? nv_count s then TPM_RC_NV_SPACE
  else if a_written attrs || a_readLocked attrs || a_writeLocked attrs
  then TPM_RC_ATTRIBUTES
  else if TPM_NT_PIN_PASS <? nvt then TPM_RC_ATTRIBUTES
  else if negb (any_read_bit attrs) then TPM_RC_ATTRIBUTES
  else if negb (any_write_bit attrs) then TPM_RC_ATTRIBUTES
  else
  let platformAuth := ph_platform authHandle =? TPM_RH_PLATFORM in
  if platformAuth && negb (a_platformCreate attrs) then TPM_RC_ATTRIBUTES
  else if negb platformAuth && a_platformCreate attrs then TPM_RC_ATTRIBUTES
  else if a_policyDelete attrs && negb platformAuth then TPM_RC_ATTRIBUTES
  else
  let rc := nv_type_rules s attrs nvt dataSize in
  if negb (rc =? TPM_RC_SUCCESS) then rc
  else
  let is_ordinary := (nvt =? TPM_NT_ORDINARY) || (nvt =? 0) in
  if is_ordinary && (nv_bank_size s <? dataSize) then TPM_RC_SIZE
  else if is_ordinary && (a_writeAll attrs && (MAX_NV_BUFFER_SIZE <? dataSize))
  then TPM_RC_SIZE
  else if a_policyDelete attrs && negb (impl_supports_undefine_policy_delete s)
  then TPM_RC_ATTRIBUTES
  else TPM_RC_SUCCESS.

(** [auth] is not used: the entry's authorization value stays empty.  The
    response structure built at the end is only printed. *)
Definition tpm2_nv_define_space (s : TPM2State) (authHandle : TPMI_RH_PROVISION)
    (auth : TPM2B) (public : TPMS_NV_PUBLIC) : option (Z * TPM2State) :=
  let rc := nv_define_checks s authHandle public in
  if negb (rc =? TPM_RC_SUCCESS) then Some (rc, s)
  else
  let? (oe, s) := nv_entry_alloc s (np_nvIndex public) (np_dataSize public)
                    (np_nameAlg public) (np_attributes public) else None in
  let? e := oe else Some (TPM_RC_MEMORY, s) in
  let s := s <| nv_map := g_hash_table_insert (nv_map s) (np_nvIndex public) e |> in
  let s := s <| nv_count := u32 (nv_count s + 1) |> in
  let s := s <| nv_dirty := true |> in
  let rc := if negb (tpm2_nv_flush_dirty s) then TPM_RC_NV_SPACE else TPM_RC_SUCCESS in
  Some (rc, s).

Definition tpm2_nv_init (s : TPM2State) : TPM2State :=
  match nv_map s with
  | Some _ => s
  | None =>
      s <| nv_map := Some ∅ |> <| nv_count := 0 |> <| nv_dirty := false |>
        <| nv_bank_size := TPM2_NVSTORAGE_SIZE |> <| nv_alloc_offset := 0 |>
  end.

Definition tpm2_nv_cleanup (s : TPM2State) : TPM2State :=
  s <| nv_map := None |> <| nv_count := 0 |> <| nv_dirty := false |>.

(** ** Writing and reading *)

(** The memory from an offset of the bank on. *)
Definition bank_from (bank : list Z) (p : Z) : list Z := drop (Z.to_nat p) bank.

Section Access.
Context `{OS : OpenSSL}.

(** The checks of [TPM2_NV_Write] on the entry, before the encryption: the code of
    the early return, if there is one.  [TPM_RC_VALUE] is the code of success. *)
Definition nv_write_checks (e : NVEntry) (data : TPM2B) (offset : Z) : option Z :=
  let attrs := np_attributes (e_pub e) in
  if e_writeLocked e then Some TPM_RC_NV_LOCKED
  else if (a_nvType attrs =? TPM_NT_COUNTER) || (a_nvType attrs =? TPM_NT_BITS) ||
          (a_nvType attrs =? TPM_NT_EXTEND) then Some TPM_RC_ATTRIBUTES
  else if e_dataLen e <? offset then Some TPM_RC_VALUE
  else if e_dataLen e <? u32 (offset + b_size data) then Some TPM_RC_NV_RANGE
  else if a_writeAll attrs && negb (b_size data =? e_dataLen e) then Some TPM_RC_NV_RANGE
  else if negb (a_ownerWrite attrs || a_authWrite attrs || a_policyWrite attrs ||
                a_ppWrite attrs) then Some TPM_RC_AUTH_FAIL
  else if MAX_NV_BUFFER_SIZE <? b_size data then Some TPM_RC_SIZE
  else None.

(** [memcpy] is skipped when the bank already holds the ciphertext. *)
Definition TPM2_NV_Write (s : TPM2State) (authHandle : TPMI_RH_PROVISION) (nvIndex : Z)
    (data : TPM2B) (offset : Z) : option (Z * TPM2State) :=
  let? e := g_hash_table_lookup (nv_map s) nvIndex else Some (TPM_RC_HANDLE, s) in
  match nv_write_checks e data offset with
  | Some rc => Some (rc, s)
  | None =>
  let key := b_buffer (ss_ecc (primary_sensitive s)) in
  let keylen := b_size (ss_ecc (primary_sensitive s)) in
  let? bank := nv_bank s else None in
  let? out := TPM2_AES_CFB_Crypt key keylen (bank_from bank (e_iv_ptr e))
                (b_buffer data) (b_size data) true else None in
  let? ciphertext := store (replicate (Z.to_nat MAX_NV_BUFFER_SIZE) 0) 0 out else None in
  if zlen out <=? 0 then Some (TPM_RC_FAILURE, s)
  else
  let dst := e_data e + offset in
  let? old := load bank dst (b_size data) else None in
  let? new := load ciphertext 0 (b_size data) else None in
  let? bank := (if bool_decide (old = new) then Some bank else store bank dst new)
    else None in
  let e := e <| e_written := true |> in
  let e := e <| e_pub := (e_pub e) <| np_attributes :=
                  (np_attributes (e_pub e)) <| a_written := true |> |> |> in
  Some (TPM_RC_SUCCESS,
        s <| nv_bank := Some bank |>
          <| nv_map := g_hash_table_insert (nv_map s) nvIndex e |>)
  end.

(** The response code and the contents of [out]. *)
Definition nv_read_decrypt_from_bank (s : TPM2State) (e : NVEntry) (out : list Z)
    (len offset : Z) : option (Z * list Z) :=
  if e_dataLen e <? u32 (offset + len) then Some (TPM_RC_SIZE, out)
  else
  let? bank := nv_bank s else None in
  let? bs := TPM2_AES_CFB_Crypt (b_buffer (ss_ecc (primary_sensitive s)))
               (b_size (ss_ecc (primary_sensitive s))) (bank_from bank (e_iv_ptr e))
               (bank_from bank (e_data e + offset)) len false else None in
  let? out := store out 0 bs else None in
  Some (if 0 <? zlen bs then TPM_RC_SUCCESS else TPM_RC_FAILURE, out).
End Access.
