(* ===== verification/NvRefine.v ===== *)
(** * The NV storage implements a map of separate arrays

    The contract of the NV storage is a finite map from index to a cell: the
    public area, whether it has been written, and the stored bytes.  [nv_abs]
    reads it off the bank; [nv_wf] is the invariant (slices inside the bank,
    pairwise disjoint, below the cursor, with a zero IV), which every operation
    keeps and under which every operation acts on the map as the contract says. *)
From stdpp Require Import base list numbers gmap.
From S2P Require Import Prelude Constants State OpenSSL Crypto Nv.

(** ** Contract *)
Record cell := mk_cell { c_pub : TPMS_NV_PUBLIC; c_written : bool; c_bytes : list Z }.

Definition cell_of (bank : list Z) (e : NVEntry) : cell :=
  {| c_pub := e_pub e; c_written := e_written e;
     c_bytes := default [] (load bank (e_data e) (e_dataLen e)) |}.

Definition nv_abs (s : TPM2State) : gmap Z cell :=
  match nv_bank s, nv_map s with
  | Some bank, Some m => cell_of bank <$> m
  | _, _ => ∅
  end.

(** The cell of a fresh index: the public area given, without a policy, and
    zeros. *)
Definition fresh_cell (pub : TPMS_NV_PUBLIC) : cell :=
  {| c_pub := {| np_nvIndex := np_nvIndex pub; np_nameAlg := np_nameAlg pub;
                 np_attributes := np_attributes pub; np_authPolicy := replicate 64 0;
                 np_authPolicySize := 0; np_dataSize := np_dataSize pub |};
     c_written := false;
     c_bytes := replicate (Z.to_nat (np_dataSize pub)) 0 |}.

(** [ct] written at [offset] of a cell. *)
Definition write_cell (c : cell) (offset : Z) (ct : list Z) : cell :=
  {| c_pub := (c_pub c) <| np_attributes := (np_attributes (c_pub c)) <| a_written := true |> |>;
     c_written := true;
     c_bytes := default [] (store (c_bytes c) offset ct) |}.

(** ** Invariant *)
Record entry_wf (bank : list Z) (top k : Z) (e : NVEntry) : Prop := {
  ew_index : np_nvIndex (e_pub e) = k;
  ew_iv : 0 <= e_iv_ptr e;
  ew_data : e_data e = e_iv_ptr e + 16;
  ew_len : e_dataLen e = np_dataSize (e_pub e);
  ew_size : is_u16 (e_dataLen e);
  ew_top : e_data e + e_dataLen e <= top;
  ew_zero : load bank (e_iv_ptr e) 16 = Some (replicate 16 0);
  ew_readLocked : e_readLocked e = false;
  ew_writeLocked : e_writeLocked e = false
}.

Definition slices_disjoint (e e' : NVEntry) : Prop :=
  e_data e + e_dataLen e <= e_iv_ptr e' \/ e_data e' + e_dataLen e' <= e_iv_ptr e.

Record nv_at (s : TPM2State) (bank : list Z) (m : gmap Z NVEntry) : Prop := {
  na_bank : nv_bank s = Some bank;
  na_map : nv_map s = Some m;
  na_len : zlen bank = TPM2_NVSTORAGE_SIZE;
  na_size : nv_bank_size s = TPM2_NVSTORAGE_SIZE;
  na_bytes : bytes bank;
  na_count : nv_count s = Z.of_nat (size m);
  na_max : nv_count s <= TPM2_MAX_NV_INDEXES;
  na_top : 0 <= nv_alloc_offset s <= TPM2_NVSTORAGE_SIZE;
  na_entries : map_Forall (entry_wf bank (nv_alloc_offset s)) m;
  na_disjoint k k' e e' :
    m !! k = Some e -> m !! k' = Some e' -> k <> k' -> slices_disjoint e e'
}.

Definition nv_wf (s : TPM2State) : Prop := exists bank m, nv_at s bank m.

(** The storage is not touched between two states. *)
Definition same_nv (s s' : TPM2State) : Prop :=
  nv_bank s' = nv_bank s /\ nv_map s' = nv_map s /\ nv_bank_size s' = nv_bank_size s /\
  nv_count s' = nv_count s /\ nv_alloc_offset s' = nv_alloc_offset s.

Lemma same_nv_wf s s' : same_nv s s' -> nv_wf s -> nv_wf s'.
Proof.
  intros (H1 & H2 & H3 & H4 & H5) (bank & m & []). exists bank, m.
  split; by rewrite ?H1, ?H2, ?H3, ?H4, ?H5.
Qed.

Lemma same_nv_abs s s' : same_nv s s' -> nv_abs s' = nv_abs s.
Proof. intros (H1 & H2 & _). unfold nv_abs. by rewrite H1, H2. Qed.

(** ** Changes of the bank *)

(** A store outside of an entry's slice keeps the entry and its cell. *)
Definition bank_keeps (bank bank' : list Z) (e : NVEntry) : Prop :=
  load bank' (e_iv_ptr e) 16 = load bank (e_iv_ptr e) 16 /\
  load bank' (e_data e) (e_dataLen e) = load bank (e_data e) (e_dataLen e).

Lemma store_keeps bank p bs bank' top k e :
  store bank p bs = Some bank' -> entry_wf bank top k e ->
  e_data e + e_dataLen e <= p \/ p + zlen bs <= e_iv_ptr e ->
  bank_keeps bank bank' e.
Proof.
  intros Hst [] Hd. unfold is_u16 in *.
  split; (eapply load_store_disjoint; [exact Hst|lia]).
Qed.

Lemma entry_wf_keeps bank bank' top top' k e :
  entry_wf bank top k e -> bank_keeps bank bank' e -> top <= top' ->
  entry_wf bank' top' k e.
Proof. intros [] [H1 H2] Ht. split; try done; [lia|by rewrite H1]. Qed.

Lemma cell_of_keeps bank bank' e : bank_keeps bank bank' e -> cell_of bank' e = cell_of bank e.
Proof. intros [_ H]. unfold cell_of. by rewrite H. Qed.

(** Two views of a map that differ at one key agree once it is replaced. *)
Lemma insert_fmap_ext (f g : NVEntry -> cell) (m : gmap Z NVEntry) k c :
  (forall j e, j <> k -> m !! j = Some e -> f e = g e) ->
  <[k := c]> (f <$> m) = <[k := c]> (g <$> m).
Proof.
  intros H. apply map_eq. intros j. destruct (decide (j = k)) as [->|Hj].
  - by rewrite !lookup_insert_eq.
  - rewrite !lookup_insert_ne, !lookup_fmap by done.
    destruct (m !! j) as [e|] eqn:E; simpl; [|done]. f_equal. by apply (H j).
Qed.

Lemma bytes_zero n : bytes (replicate n 0).
Proof. auto with tpm. Qed.
#[export] Hint Resolve bytes_zero : tpm.

(** ** TPM2_NV_DefineSpace *)
Section Define.
Variables (s : TPM2State) (bank : list Z) (m : gmap Z NVEntry).
Hypothesis (Hs : nv_at s bank m).
Variables (ah : TPMI_RH_PROVISION) (auth : TPM2B) (pub : TPMS_NV_PUBLIC).
Hypothesis (Hsize : is_u16 (np_dataSize pub)).

(** The entry and the slice of the new index. *)
Definition def_entry : NVEntry :=
  nv_entry_new (nv_alloc_offset s) (np_nvIndex pub) (np_dataSize pub)
    (np_nameAlg pub) (np_attributes pub).
Definition def_zeros : list Z := replicate 16 0 ++ replicate (Z.to_nat (np_dataSize pub)) 0.
Definition def_fits : bool :=
  nv_alloc_offset s + (16 + np_dataSize pub) <=? TPM2_NVSTORAGE_SIZE.

Definition def_state (bank' : list Z) : TPM2State :=
  s <| nv_bank := Some bank' |>
    <| nv_alloc_offset := nv_alloc_offset s + (16 + np_dataSize pub) |>
    <| nv_map := Some (<[np_nvIndex pub := def_entry]> m) |>
    <| nv_count := nv_count s + 1 |> <| nv_dirty := true |>.

Lemma def_zeros_len : zlen def_zeros = 16 + np_dataSize pub.
Proof using Hsize.
  unfold def_zeros. rewrite zlen_app, zlen_replicate by (unfold is_u16 in Hsize; lia).
  change (zlen (replicate 16 0)) with 16. done.
Qed.

Lemma def_store :
  def_fits = true -> exists bank', store bank (nv_alloc_offset s) def_zeros = Some bank'.
Proof using Hs Hsize.
  intros Hf. unfold def_fits in Hf. destruct Hs.
  apply store_in; [lia|rewrite def_zeros_len; lia].
Qed.

Lemma nv_entry_alloc_ok bank' :
  def_fits = true -> store bank (nv_alloc_offset s) def_zeros = Some bank' ->
  nv_entry_alloc s (np_nvIndex pub) (np_dataSize pub) (np_nameAlg pub) (np_attributes pub) =
  Some (Some def_entry,
        s <| nv_bank := Some bank' |>
          <| nv_alloc_offset := nv_alloc_offset s + (16 + np_dataSize pub) |>).
Proof using Hs Hsize.
  intros Hf Hst. unfold def_fits in Hf. unfold is_u16 in Hsize. destruct Hs as [].
  unfold nv_entry_alloc. rewrite na_bank0, na_size0.
  replace (TPM2_NVSTORAGE_SIZE <? _) with false by lia.
  change (e_iv_ptr (nv_entry_new ?a _ _ _ _)) with a.
  change (e_data (nv_entry_new ?a _ _ _ _)) with (a + 16).
  change (e_dataLen (nv_entry_new _ _ ?d _ _)) with d.
  destruct (store_in bank (nv_alloc_offset s) (replicate 16 0)) as [b1 E1];
    [lia|change (zlen (replicate 16 0)) with 16; lia|].
  rewrite E1. pose proof (store_zlen _ _ _ _ E1).
  destruct (store_in b1 (nv_alloc_offset s + 16)
    (replicate (Z.to_nat (np_dataSize pub)) 0)) as [b2 E2];
    [lia|rewrite zlen_replicate; lia|].
  rewrite E2. change 16 with (zlen (replicate 16 0)) in E2.
  pose proof (store_app _ _ _ _ _ _ E1 E2) as E3. unfold def_zeros in Hst.
  assert (b2 = bank') as -> by congruence.
  rewrite u32_id; [done|]. unfold is_u32, TPM2_NVSTORAGE_SIZE in *. lia.
Qed.

Lemma define_error :
  nv_define_checks s ah pub <> TPM_RC_SUCCESS ->
  tpm2_nv_define_space s ah auth pub = Some (nv_define_checks s ah pub, s).
Proof using.
  intros H. unfold tpm2_nv_define_space.
  by replace (nv_define_checks s ah pub =? TPM_RC_SUCCESS) with false by lia.
Qed.

Lemma define_full :
  nv_define_checks s ah pub = TPM_RC_SUCCESS -> def_fits = false ->
  tpm2_nv_define_space s ah auth pub = Some (TPM_RC_MEMORY, s).
Proof using Hs.
  intros Hc Hf. unfold def_fits in Hf. unfold tpm2_nv_define_space, nv_entry_alloc.
  destruct Hs as []. rewrite Hc, na_bank0, na_size0. simpl.
  by replace (TPM2_NVSTORAGE_SIZE <? _) with true by lia.
Qed.

Lemma define_success bank' :
  nv_define_checks s ah pub = TPM_RC_SUCCESS -> def_fits = true ->
  store bank (nv_alloc_offset s) def_zeros = Some bank' ->
  tpm2_nv_define_space s ah auth pub = Some (TPM_RC_SUCCESS, def_state bank').
Proof using Hs Hsize.
  intros Hc Hf Hst. unfold tpm2_nv_define_space. rewrite Hc.
  rewrite (nv_entry_alloc_ok bank') by done. destruct Hs as [].
  assert (u32 (nv_count s + 1) = nv_count s + 1) as Hu.
  { apply u32_id. unfold is_u32, TPM2_MAX_NV_INDEXES in *. lia. }
  cbn [negb Z.eqb tpm2_nv_flush_dirty]. fields. rewrite Hu, na_map0. reflexivity.
Qed.

(** What the checks guarantee about the storage. *)
Lemma define_checks_fresh :
  nv_define_checks s ah pub = TPM_RC_SUCCESS ->
  m !! np_nvIndex pub = None /\ nv_count s < TPM2_MAX_NV_INDEXES /\ np_nvIndex pub <> 0.
Proof using Hs.
  unfold nv_define_checks. destruct Hs as [].
  destruct (_ || _) eqn:E1; [done|].
  destruct (g_hash_table_contains _ _) eqn:E2; [done|].
  destruct (_ <=? _) eqn:E3; [done|]. intros _.
  unfold g_hash_table_contains, g_hash_table_lookup in E2. rewrite na_map0 in E2.
  apply bool_decide_eq_false in E2. simpl in E2.
  destruct (m !! np_nvIndex pub) eqn:E; [|split_and!; [done|lia|lia]].
  exfalso. apply E2. done.
Qed.

Section After.
Variable (bank' : list Z).
Hypotheses (Hf : def_fits = true) (Hfresh : m !! np_nvIndex pub = None)
  (Hcount : nv_count s < TPM2_MAX_NV_INDEXES)
  (Hst : store bank (nv_alloc_offset s) def_zeros = Some bank').

Lemma def_slice :
  load bank' (nv_alloc_offset s) 16 = Some (replicate 16 0) /\
  load bank' (nv_alloc_offset s + 16) (np_dataSize pub) =
    Some (replicate (Z.to_nat (np_dataSize pub)) 0).
Proof using Hst Hsize.
  pose proof (load_store_same _ _ _ _ Hst) as L. unfold def_zeros in L at 2.
  apply load_app in L as [L1 L2]; [|unfold def_zeros; apply zlen_app].
  split; [exact L1|]. rewrite zlen_replicate in L2 by (unfold is_u16 in Hsize; lia).
  exact L2.
Qed.

Lemma def_keeps k e : m !! k = Some e -> bank_keeps bank bank' e.
Proof using Hs Hst.
  intros He. destruct Hs as []. pose proof (na_entries0 _ _ He) as Hw.
  eapply store_keeps; [exact Hst|exact Hw|]. left. apply Hw.
Qed.

Lemma def_entry_wf :
  entry_wf bank' (nv_alloc_offset s + (16 + np_dataSize pub)) (np_nvIndex pub) def_entry.
Proof using Hs Hst Hsize.
  destruct Hs as []. split; try done; simpl; try lia. apply def_slice.
Qed.

Lemma define_wf : nv_at (def_state bank') bank' (<[np_nvIndex pub := def_entry]> m).
Proof using Hs Hsize Hf Hfresh Hcount Hst.
  pose proof (store_zlen _ _ _ _ Hst) as Hl. pose proof Hs as [].
  unfold is_u16, def_fits in *.
  split; unfold def_state; fields; try done; try lia.
  - eapply store_bytes; [exact na_bytes0| |exact Hst].
    unfold def_zeros. auto with tpm.
  - rewrite map_size_insert_None by done. lia.
  - apply map_Forall_insert_2; [exact def_entry_wf|].
    intros k e He. eapply entry_wf_keeps; [apply (na_entries0 _ _ He)| |lia].
    by apply (def_keeps k).
  - assert (Hnew : forall k e, m !! k = Some e -> e_data e + e_dataLen e <= e_iv_ptr def_entry).
    { intros k e He. apply (na_entries0 _ _ He). }
    intros k k' e e' He He' Hne.
    apply lookup_insert_Some in He as [[<- <-]|[Hk He]];
      apply lookup_insert_Some in He' as [[<- <-]|[Hk' He']]; try done.
    + right. by apply (Hnew k').
    + left. by apply (Hnew k).
    + by apply (na_disjoint0 k k').
Qed.

Lemma define_abs : nv_abs (def_state bank') = <[np_nvIndex pub := fresh_cell pub]> (nv_abs s).
Proof using Hs Hsize Hst.
  unfold nv_abs, def_state. fields. destruct Hs as []. rewrite na_bank0, na_map0.
  rewrite fmap_insert.
  replace (cell_of bank' def_entry) with (fresh_cell pub).
  - apply insert_fmap_ext. intros j e _ He. apply cell_of_keeps. by apply (def_keeps j).
  - unfold cell_of. simpl. destruct def_slice as [_ ->]. done.
Qed.
End After.
End Define.

(** ** TPM2_NV_Write and the decrypting read *)
Section Access.
Context `{OS : OpenSSL, !OpenSSLLaws OS}.

Definition zero_iv : list Z := replicate 16 0.

(** The AES key of the storage: the private part of the last primary key. *)
Definition nv_key (s : TPM2State) : option (list Z) :=
  let b := ss_ecc (primary_sensitive s) in
  if (b_size b =? 16) || (b_size b =? 24) || (b_size b =? 32)
  then load (b_buffer b) 0 (b_size b) else None.

(** The private key array of the device. *)
Definition key_wf (s : TPM2State) : Prop :=
  zlen (b_buffer (ss_ecc (primary_sensitive s))) = 64.

(** What is stored for a plaintext, and what a read decrypts. *)
Definition nv_encrypt (k data : list Z) : list Z := cfb128 (aes_block k) true zero_iv data.
Definition nv_decrypt (k data : list Z) : list Z := cfb128 (aes_block k) false zero_iv data.

Lemma zlen_encrypt k data : zlen (nv_encrypt k data) = zlen data.
Proof. unfold nv_encrypt, cfb128, zlen. by rewrite cfb_length. Qed.
Lemma zlen_decrypt k data : zlen (nv_decrypt k data) = zlen data.
Proof. unfold nv_decrypt, cfb128, zlen. by rewrite cfb_length. Qed.
Lemma bytes_encrypt k data : bytes data -> bytes (nv_encrypt k data).
Proof. intros. apply cfb_bytes; [apply law_aes_block|apply bytes_nil|done]. Qed.
Lemma decrypt_prefix k data n : nv_decrypt k (take n (nv_encrypt k data)) = take n data.
Proof. unfold nv_decrypt, nv_encrypt, cfb128. by rewrite cfb_prefix, cfb_inverse. Qed.

Lemma bank_from_load bank p o n :
  0 <= p <= zlen bank -> 0 <= o -> load (bank_from bank p) o n = load bank (p + o) n.
Proof.
  intros Hp Ho. unfold load, bank_from. rewrite zlen_drop.
  replace (Z.max 0 (zlen bank - Z.max 0 p)) with (zlen bank - p) by lia.
  replace ((0 <=? o) && (0 <=? n) && (o + n <=? zlen bank - p))
    with ((0 <=? p + o) && (0 <=? n) && (p + o + n <=? zlen bank)) by lia.
  case_match; [|done]. rewrite drop_drop. do 3 f_equal. lia.
Qed.

(** The cipher call on a well-formed entry, whatever the key. *)
Lemma nv_crypt s bank top i e data n enc bs :
  key_wf s -> entry_wf bank top i e -> top <= zlen bank -> load data 0 n = Some bs ->
  TPM2_AES_CFB_Crypt (b_buffer (ss_ecc (primary_sensitive s)))
    (b_size (ss_ecc (primary_sensitive s))) (bank_from bank (e_iv_ptr e)) data n enc =
  Some (match nv_key s with Some k => cfb128 (aes_block k) enc zero_iv bs | None => [] end).
Proof.
  intros Hk [] Ht Hd. unfold nv_key. unfold is_u16 in *.
  set (b := ss_ecc (primary_sensitive s)).
  destruct (_ || _) eqn:E.
  - rewrite load_prefix by (unfold key_wf in Hk; fold b in Hk; lia).
    apply TPM2_AES_CFB_Crypt_ok; [lia| | |done].
    + apply load_prefix. unfold key_wf in Hk; fold b in Hk; lia.
    + rewrite bank_from_load by lia. by rewrite Z.add_0_r.
  - apply TPM2_AES_CFB_Crypt_keylen; lia.
Qed.

Definition written_entry (e : NVEntry) : NVEntry :=
  e <| e_written := true |> <| e_pub := (e_pub e) <| np_attributes :=
    (np_attributes (e_pub e)) <| a_written := true |> |> |>.

Section Write.
Variables (s : TPM2State) (bank : list Z) (m : gmap Z NVEntry).
Hypothesis (Hs : nv_at s bank m).
Hypothesis (Hkey : key_wf s).
Variables (ah : TPMI_RH_PROVISION) (idx : Z) (e : NVEntry) (data : TPM2B) (offset : Z).
Hypotheses (He : m !! idx = Some e) (Hoff : is_u16 offset) (Hdata : is_u16 (b_size data)).

Lemma entry_ok : entry_wf bank (nv_alloc_offset s) idx e.
Proof using Hs He. destruct Hs as []. exact (na_entries0 _ _ He). Qed.

(** What a passed check means. *)
Lemma write_checks_range :
  nv_write_checks e data offset = None ->
  offset + b_size data <= e_dataLen e /\ b_size data <= MAX_NV_BUFFER_SIZE.
Proof using Hoff Hdata.
  unfold nv_write_checks, is_u16 in *. rewrite u32_id by (unfold is_u32; lia).
  guards; done || lia.
Qed.

Lemma write_returns rc :
  nv_write_checks e data offset = Some rc -> TPM2_NV_Write s ah idx data offset = Some (rc, s).
Proof using Hs He.
  intros H. unfold TPM2_NV_Write, g_hash_table_lookup. destruct Hs as [].
  rewrite na_map0. simpl. by rewrite He, H.
Qed.

Section Checked.
Hypothesis (Hc : nv_write_checks e data offset = None).
Variables (bs : list Z).
Hypothesis (Hbs : load (b_buffer data) 0 (b_size data) = Some bs).

(** The state after the ciphertext has been stored. *)
Definition write_state (bank' : list Z) : TPM2State :=
  s <| nv_bank := Some bank' |> <| nv_map := Some (<[idx := written_entry e]> m) |>.

(** Without a key, or without data, the write fails and changes nothing. *)
Lemma write_failure :
  nv_key s = None \/ b_size data = 0 ->
  TPM2_NV_Write s ah idx data offset = Some (TPM_RC_FAILURE, s).
Proof using All.
  intros H. pose proof entry_ok as Hw. pose proof Hs as [].
  unfold TPM2_NV_Write, g_hash_table_lookup. rewrite na_map0. simpl mbind. rewrite He, Hc.
  rewrite na_bank0.
  rewrite (nv_crypt s bank _ idx e _ _ _ bs Hkey Hw ltac:(lia) Hbs).
  replace (match nv_key s with Some _ => _ | None => _ end) with (@nil Z); [reflexivity|].
  destruct H as [-> | H]; [done|]. rewrite H in Hbs. apply load_zlen in Hbs.
  unfold zlen in Hbs. destruct bs; [|simpl in Hbs; lia]. by destruct (nv_key s).
Qed.

Lemma write_success k :
  nv_key s = Some k -> 0 < b_size data ->
  exists bank', store bank (e_data e + offset) (nv_encrypt k bs) = Some bank' /\
    TPM2_NV_Write s ah idx data offset = Some (TPM_RC_SUCCESS, write_state bank').
Proof using All.
  intros Hk Hpos. pose proof entry_ok as Hw. pose proof Hs as []. pose proof Hw as [].
  destruct (write_checks_range Hc) as [Hr Hm]. unfold is_u16 in *.
  pose proof (load_zlen _ _ _ _ Hbs) as Hlen. pose proof (zlen_encrypt k bs) as Hel.
  destruct (store_in bank (e_data e + offset) (nv_encrypt k bs)) as [bank' Hst];
    [lia..|].
  exists bank'. split; [done|].
  unfold TPM2_NV_Write, g_hash_table_lookup. rewrite na_map0. simpl mbind. rewrite He, Hc.
  rewrite na_bank0.
  rewrite (nv_crypt s bank _ idx e _ _ _ bs Hkey Hw ltac:(lia) Hbs), Hk.
  change (cfb128 _ _ _ _) with (nv_encrypt k bs).
  destruct (store_in (replicate (Z.to_nat MAX_NV_BUFFER_SIZE) 0) 0 (nv_encrypt k bs))
    as [ct Hct]; [lia|rewrite zlen_replicate by done; lia|].
  rewrite Hct. replace (zlen (nv_encrypt k bs) <=? 0) with false by lia.
  apply load_store_same in Hct. rewrite Hel, Hlen in Hct.
  rewrite (load_in bank) by lia. rewrite Hct.
  case_bool_decide as Hold.
  - assert (bank' = bank) as ->; [|reflexivity].
    rewrite store_same in Hst; [congruence|].
    rewrite Hel, Hlen, load_in by lia. by f_equal.
  - rewrite Hst. reflexivity.
Qed.

Section AfterWrite.
Variables (k bank' : list Z).
Hypotheses (Hk : nv_key s = Some k) (Hb : bytes bs)
  (Hst : store bank (e_data e + offset) (nv_encrypt k bs) = Some bank').

Lemma write_keeps j e' : j <> idx -> m !! j = Some e' -> bank_keeps bank bank' e'.
Proof using Hs He Hoff Hdata Hc Hbs Hst.
  intros Hj He'. pose proof Hs as []. pose proof entry_ok as [].
  pose proof (na_entries0 _ _ He') as Hw'. destruct (write_checks_range Hc) as [Hr _].
  pose proof (load_zlen _ _ _ _ Hbs). pose proof (zlen_encrypt k bs). unfold is_u16 in *.
  eapply store_keeps; [exact Hst|exact Hw'|].
  destruct (na_disjoint0 _ _ _ _ He He') as [|]; [done|lia..].
Qed.

Lemma write_wf : nv_at (write_state bank') bank' (<[idx := written_entry e]> m).
Proof using Hs He Hoff Hdata Hc Hbs Hst Hb OpenSSLLaws0.
  pose proof (store_zlen _ _ _ _ Hst) as Hl. pose proof Hs as []. pose proof entry_ok as [].
  assert (Hidx : load bank' (e_iv_ptr e) 16 = load bank (e_iv_ptr e) 16).
  { apply (load_store_disjoint _ _ _ _ _ _ Hst). unfold is_u16 in *. lia. }
  split; unfold write_state; fields; try done; try lia.
  - eapply store_bytes; [exact na_bytes0| |exact Hst]. by apply bytes_encrypt.
  - rewrite map_size_insert_Some by eauto. lia.
  - apply map_Forall_lookup. intros j e' Hj.
    apply lookup_insert_Some in Hj as [[<- <-]|[Hne Hj]].
    + split; unfold written_entry; fields; try done. by rewrite Hidx.
    + eapply entry_wf_keeps; [apply (na_entries0 _ _ Hj)|by eapply write_keeps|lia].
  - intros j j' a b Hj Hj' Hne.
    apply lookup_insert_Some in Hj as [[<- <-]|[Hj0 Hj]];
      apply lookup_insert_Some in Hj' as [[<- <-]|[Hj0' Hj']]; try done.
    + exact (na_disjoint0 _ _ _ _ He Hj' Hne).
    + exact (na_disjoint0 _ _ _ _ Hj He Hne).
    + exact (na_disjoint0 _ _ _ _ Hj Hj' Hne).
Qed.

Lemma write_abs :
  nv_abs (write_state bank') =
  <[idx := write_cell (cell_of bank e) offset (nv_encrypt k bs)]> (nv_abs s).
Proof using Hs He Hoff Hdata Hc Hbs Hst.
  unfold nv_abs, write_state. fields. pose proof Hs as []. pose proof entry_ok as [].
  rewrite na_bank0, na_map0, fmap_insert.
  replace (cell_of bank' (written_entry e))
    with (write_cell (cell_of bank e) offset (nv_encrypt k bs)).
  - apply insert_fmap_ext. intros j e' Hj He'. apply cell_of_keeps. by eapply write_keeps.
  - unfold write_cell, cell_of, written_entry. fields. simpl.
    f_equal. rewrite (load_in bank) by (unfold is_u16 in *; lia). simpl.
    destruct (write_checks_range Hc) as [Hr _]. unfold is_u16 in *.
    pose proof (load_zlen _ _ _ _ Hbs). pose proof (zlen_encrypt k bs).
    erewrite store_inside; [done|apply load_in; lia|exact Hst|lia|lia].
Qed.
End AfterWrite.
End Checked.
End Write.

(** A part of a cell is a part of the bank. *)
Lemma cell_slice bank top k e offset len :
  entry_wf bank top k e -> top <= zlen bank -> 0 <= offset -> 0 <= len ->
  offset + len <= e_dataLen e ->
  load bank (e_data e + offset) len =
  Some (take (Z.to_nat len) (drop (Z.to_nat offset) (c_bytes (cell_of bank e)))).
Proof.
  intros [] Ht Ho Hl Hr. unfold is_u16, cell_of in *. simpl.
  rewrite (load_in bank (e_data e) (e_dataLen e)) by lia. simpl.
  rewrite <- load_in; [|lia..|rewrite zlen_take, zlen_drop; lia].
  symmetry. eapply load_inside; [apply load_in; lia|lia..].
Qed.

(** The decrypting read, in terms of the cell. *)
Lemma nv_read_spec s bank m idx e out len offset :
  nv_at s bank m -> key_wf s -> m !! idx = Some e -> is_u16 len -> is_u16 offset ->
  nv_read_decrypt_from_bank s e out len offset =
  if e_dataLen e <? offset + len then Some (TPM_RC_SIZE, out)
  else match nv_key s with
       | None => Some (TPM_RC_FAILURE, out)
       | Some k =>
           let pt := nv_decrypt k (take (Z.to_nat len)
                       (drop (Z.to_nat offset) (c_bytes (cell_of bank e)))) in
           let? out' := store out 0 pt else None in
           Some (if 0 <? len then TPM_RC_SUCCESS else TPM_RC_FAILURE, out')
       end.
Proof using OpenSSLLaws0.
  intros Hs Hkey He Hlen Hoff. pose proof Hs as [].
  pose proof (na_entries0 _ _ He) as Hw. pose proof Hw as []. unfold is_u16 in *.
  unfold nv_read_decrypt_from_bank. rewrite u32_id by (unfold is_u32; lia).
  destruct (e_dataLen e <? offset + len) eqn:E; [done|]. rewrite na_bank0.
  assert (Hd : load (bank_from bank (e_data e + offset)) 0 len =
    Some (take (Z.to_nat len) (drop (Z.to_nat offset) (c_bytes (cell_of bank e))))).
  { rewrite bank_from_load, Z.add_0_r by lia.
    eapply cell_slice; [exact Hw|lia..]. }
  rewrite (nv_crypt s bank _ idx e _ _ _ _ Hkey Hw ltac:(lia) Hd).
  destruct (nv_key s) as [k|]; simpl.
  - change (cfb128 _ _ _ _) with (nv_decrypt k (take (Z.to_nat len)
      (drop (Z.to_nat offset) (c_bytes (cell_of bank e))))).
    pose proof (zlen_decrypt k (take (Z.to_nat len)
      (drop (Z.to_nat offset) (c_bytes (cell_of bank e))))) as Hz.
    rewrite (load_zlen _ _ _ _ Hd) in Hz. by rewrite Hz.
  - by rewrite store_nil by (pose proof (zlen_nonneg out); lia).
Qed.

Lemma nv_abs_lookup s bank m idx :
  nv_at s bank m -> nv_abs s !! idx = cell_of bank <$> m !! idx.
Proof. intros []. unfold nv_abs. by rewrite na_bank0, na_map0, lookup_fmap. Qed.

(** ** The contract of a write *)
Definition write_allowed (pub : TPMS_NV_PUBLIC) (size offset : Z) : Prop :=
  let a := np_attributes pub in
  a_nvType a <> TPM_NT_COUNTER /\ a_nvType a <> TPM_NT_BITS /\
  a_nvType a <> TPM_NT_EXTEND /\ offset + size <= np_dataSize pub /\
  (a_writeAll a = true -> size = np_dataSize pub) /\ any_write_bit a = true /\
  size <= MAX_NV_BUFFER_SIZE.

(** The write that returns success without writing: its offset is past the end. *)
Definition write_ignored (pub : TPMS_NV_PUBLIC) (offset : Z) : Prop :=
  let a := np_attributes pub in
  a_nvType a <> TPM_NT_COUNTER /\ a_nvType a <> TPM_NT_BITS /\
  a_nvType a <> TPM_NT_EXTEND /\ np_dataSize pub < offset.

Lemma write_checks_allowed bank top k e data offset :
  entry_wf bank top k e -> is_u16 offset -> is_u16 (b_size data) ->
  nv_write_checks e data offset = None <->
  write_allowed (e_pub e) (b_size data) offset.
Proof.
  intros [] Ho Hd. unfold nv_write_checks, write_allowed, any_write_bit, is_u16 in *.
  rewrite u32_id by (unfold is_u32; lia). rewrite ew_writeLocked0, ew_len0.
  destruct (a_ppWrite _), (a_ownerWrite _), (a_authWrite _), (a_policyWrite _),
    (a_writeAll _); simpl; guards; split; try done; try lia; intros; split_and!; try lia.
Qed.

Lemma write_checks_ignored bank top k e data offset :
  entry_wf bank top k e ->
  nv_write_checks e data offset = Some TPM_RC_SUCCESS <-> write_ignored (e_pub e) offset.
Proof.
  intros []. unfold nv_write_checks, write_ignored. rewrite ew_writeLocked0, ew_len0.
  guards; split; try done; try lia; intros; split_and!; try lia.
Qed.
End Access.

(** ** The contract of a definition *)
Definition define_allowed (platform : bool) (pub : TPMS_NV_PUBLIC) : Prop :=
  let a := np_attributes pub in
  let t := nv_index_type a in
  a_written a = false /\ a_readLocked a = false /\ a_writeLocked a = false /\
  t <= TPM_NT_PIN_PASS /\ any_read_bit a = true /\ any_write_bit a = true /\
  a_platformCreate a = platform /\ (a_policyDelete a = true -> platform = true) /\
  (t = TPM_NT_COUNTER -> a_clearStClear a = false) /\
  (t = TPM_NT_PIN_FAIL -> a_noDA a = true) /\
  (t = TPM_NT_PIN_FAIL \/ t = TPM_NT_PIN_PASS -> a_authWrite a = false) /\
  (t = TPM_NT_COUNTER \/ t = TPM_NT_BITS \/ t = TPM_NT_PIN_FAIL \/ t = TPM_NT_PIN_PASS ->
   np_dataSize pub = 8) /\
  (t = TPM_NT_ORDINARY -> a_writeAll a = true -> np_dataSize pub <= MAX_NV_BUFFER_SIZE).

Lemma nv_type_rules_spec s a t size :
  nv_type_rules s a t size = TPM_RC_SUCCESS <->
  (t = TPM_NT_COUNTER -> a_clearStClear a = false) /\
  (t = TPM_NT_PIN_FAIL -> a_noDA a = true) /\
  (t = TPM_NT_PIN_FAIL \/ t = TPM_NT_PIN_PASS ->
   a_authWrite a = false /\
   a_ppWrite a || a_ownerWrite a || a_policyWrite a = true) /\
  (t = TPM_NT_COUNTER \/ t = TPM_NT_BITS \/ t = TPM_NT_PIN_FAIL \/ t = TPM_NT_PIN_PASS ->
   size = 8).
Proof.
  unfold nv_type_rules, TPM_NT_COUNTER, TPM_NT_BITS, TPM_NT_PIN_FAIL, TPM_NT_PIN_PASS.
  cbn [impl_supports_counter impl_supports_setbits negb].
  destruct (a_clearStClear a), (a_noDA a), (a_authWrite a),
    (a_ppWrite a || a_ownerWrite a || a_policyWrite a);
    simpl; guards; split; try done; try lia;
    intros; split_and!; intros; try done; try lia.
Qed.

(** A conjunction of guards in front of [TPM_RC_SUCCESS]. *)
Lemma guard_success (b : bool) rc rest :
  rc <> TPM_RC_SUCCESS ->
  (if b then rc else rest) = TPM_RC_SUCCESS <-> b = false /\ rest = TPM_RC_SUCCESS.
Proof. destruct b; naive_solver. Qed.

Lemma guard_rc rc rest :
  (if negb (rc =? TPM_RC_SUCCESS) then rc else rest) = TPM_RC_SUCCESS <->
  rc = TPM_RC_SUCCESS /\ rest = TPM_RC_SUCCESS.
Proof. destruct (rc =? TPM_RC_SUCCESS) eqn:E; simpl; naive_solver lia. Qed.

Lemma define_checks_spec s bank m ah pub :
  nv_at s bank m ->
  nv_define_checks s ah pub = TPM_RC_SUCCESS <->
  np_nvIndex pub <> 0 /\ np_dataSize pub <= TPM2_NVSTORAGE_SIZE /\
  m !! np_nvIndex pub = None /\ nv_count s < TPM2_MAX_NV_INDEXES /\
  define_allowed (ph_platform ah =? TPM_RH_PLATFORM) pub.
Proof.
  intros Hs. pose proof Hs as []. unfold nv_define_checks, define_allowed.
  rewrite !guard_success, guard_rc, !guard_success, nv_type_rules_spec by done.
  assert (Hc : g_hash_table_contains (nv_map s) (np_nvIndex pub) = false <->
               m !! np_nvIndex pub = None).
  { unfold g_hash_table_contains, g_hash_table_lookup. rewrite na_map0. simpl.
    rewrite bool_decide_eq_false, eq_None_not_Some. done. }
  rewrite Hc, na_size0. unfold any_write_bit, impl_supports_undefine_policy_delete,
    TPM_NT_ORDINARY.
  split.
  - intros (H1 & H2 & H3 & H4 & H5 & H6 & H7 & H8 & H9 & H10 & (T1 & T2 & T3 & T4) &
            H11 & H12 & H13 & _).
    apply orb_false_iff in H4 as [[? ?]%orb_false_iff ?].
    apply negb_false_iff in H6, H7.
    split_and!; try done; try lia.
    + by destruct (ph_platform ah =? _), (a_platformCreate _).
    + by destruct (ph_platform ah =? _), (a_policyDelete _).
    + intros Ht. by apply T3.
    + intros Ht Hw. rewrite Ht, Hw in H12. simpl in H12. lia.
  - intros (H1 & H2 & H3 & H4 & H5 & H6 & H7 & H8 & H9 & H10 & H11 & H12 & T1 & T2 & T3 &
            T4 & H13).
    rewrite H5, H6, H7, H9, H10, H11.
    split_and!; try done; try lia.
    + destruct (a_policyDelete _); [by rewrite H12|done].
    + intros Ht. specialize (T3 Ht). rewrite T3 in H10. split; [done|].
      by rewrite orb_false_r in H10.
    + destruct (_ =? 0) eqn:E; [|done]. simpl. destruct (a_writeAll _); [|done]. simpl.
      specialize (H13 ltac:(lia) eq_refl). lia.
Qed.

(** ** Refinement *)
Section Refinement.
Context `{OS : OpenSSL, !OpenSSLLaws OS}.

Lemma nv_define_contract s ah auth pub :
  nv_wf s -> is_u16 (np_dataSize pub) ->
  exists rc s', tpm2_nv_define_space s ah auth pub = Some (rc, s') /\ nv_wf s' /\
    (rc = TPM_RC_SUCCESS <->
       np_nvIndex pub <> 0 /\ nv_abs s !! np_nvIndex pub = None /\
       nv_count s < TPM2_MAX_NV_INDEXES /\
       nv_alloc_offset s + 16 + np_dataSize pub <= TPM2_NVSTORAGE_SIZE /\
       define_allowed (ph_platform ah =? TPM_RH_PLATFORM) pub) /\
    (rc = TPM_RC_SUCCESS ->
       nv_abs s' = <[np_nvIndex pub := fresh_cell pub]> (nv_abs s) /\
       nv_alloc_offset s' = nv_alloc_offset s + 16 + np_dataSize pub /\
       nv_count s' = nv_count s + 1) /\
    (rc <> TPM_RC_SUCCESS -> s' = s).
Proof using.
  intros (bank & m & Hs) Hsz. pose proof (define_checks_spec s bank m ah pub Hs) as Hc.
  pose proof (nv_abs_lookup s bank m (np_nvIndex pub) Hs) as Hl.
  assert (Hnone : nv_abs s !! np_nvIndex pub = None <-> m !! np_nvIndex pub = None).
  { rewrite Hl. by destruct (m !! _). }
  assert (Hw : nv_wf s) by (by exists bank, m). pose proof Hs as [].
  destruct (Z.eq_dec (nv_define_checks s ah pub) TPM_RC_SUCCESS) as [E|E].
  - destruct (def_fits s pub) eqn:Hf.
    + destruct (def_store s bank m Hs pub Hsz Hf) as [bank' Hst].
      pose proof (define_checks_fresh s bank m Hs ah pub E) as (F1 & F2 & F3).
      exists TPM_RC_SUCCESS, (def_state s m pub bank').
      pose proof (define_wf s bank m Hs pub Hsz bank' Hf F1 F2 Hst) as Hw'.
      unfold def_fits in Hf. split_and!.
      * by eapply define_success.
      * by exists bank', (<[np_nvIndex pub := def_entry s pub]> m).
      * split; [|done]. intros _. apply Hc in E as (? & ? & ? & ? & ?).
        split_and!; try done; [by apply Hnone|lia].
      * intros _. split_and!; [by eapply define_abs| |done].
        change (nv_alloc_offset (def_state s m pub bank'))
          with (nv_alloc_offset s + (16 + np_dataSize pub)). lia.
      * done.
    + exists TPM_RC_MEMORY, s. unfold def_fits in Hf. split_and!; try done.
      * by eapply define_full.
      * split; [done|]. intros (_ & _ & _ & Hfit & _). lia.
  - exists (nv_define_checks s ah pub), s. split_and!; try done.
    + by apply define_error.
    + split; [done|]. intros (H1 & H2 & H3 & H4 & H5). apply Hc.
      split_and!; try done; [lia|by apply Hnone].
Qed.

Lemma nv_write_contract s ah idx data offset bs :
  nv_wf s -> key_wf s -> is_u16 offset -> is_u16 (b_size data) ->
  load (b_buffer data) 0 (b_size data) = Some bs -> bytes bs ->
  exists rc s', TPM2_NV_Write s ah idx data offset = Some (rc, s') /\ nv_wf s' /\
    (rc <> TPM_RC_SUCCESS -> s' = s) /\
    (rc = TPM_RC_SUCCESS <-> exists c, nv_abs s !! idx = Some c /\
       (write_ignored (c_pub c) offset \/
        is_Some (nv_key s) /\ write_allowed (c_pub c) (b_size data) offset /\ 0 < b_size data)) /\
    (forall c, nv_abs s !! idx = Some c -> write_ignored (c_pub c) offset -> s' = s) /\
    (forall c k, nv_abs s !! idx = Some c -> nv_key s = Some k -> 0 < b_size data ->
       write_allowed (c_pub c) (b_size data) offset ->
       nv_abs s' = <[idx := write_cell c offset (nv_encrypt k bs)]> (nv_abs s)).
Proof using All.
  intros (bank & m & Hs) Hkey Ho Hd Hbs Hb.
  assert (Hw : nv_wf s) by (by exists bank, m).
  rewrite (nv_abs_lookup s bank m idx Hs).
  destruct (m !! idx) as [e|] eqn:He; simpl.
  2:{ exists TPM_RC_HANDLE, s. split_and!; try done; [|split; [done|naive_solver]].
      unfold TPM2_NV_Write, g_hash_table_lookup. destruct Hs. rewrite na_map0.
      simpl. by rewrite He. }
  pose proof (entry_ok s bank m Hs idx e He) as Hwf.
  pose proof (write_checks_allowed bank _ idx e data offset Hwf Ho Hd) as Hc.
  pose proof (write_checks_ignored bank _ idx e data offset Hwf) as Hi.
  destruct (nv_write_checks e data offset) as [rc|] eqn:E.
  { exists rc, s. split_and!; try done; [by eapply write_returns| |].
    - split; [intros ->; exists (cell_of bank e); split; [done|left; by apply Hi]|].
      intros (c & [= <-] & [H|(_ & H & _)]); [apply Hi in H; congruence|by apply Hc in H].
    - intros c k [= <-] _ _ H. by apply Hc in H. }
  assert (Hno : ~ write_ignored (e_pub e) offset) by (by intros H%Hi).
  assert (Hcase : (nv_key s = None \/ b_size data = 0) \/
                  exists k, nv_key s = Some k /\ 0 < b_size data).
  { unfold is_u16 in Hd. destruct (nv_key s) as [k|]; [|naive_solver].
    destruct (Z.eq_dec (b_size data) 0); [naive_solver|].
    right. exists k. split; [done|lia]. }
  destruct Hcase as [Hf|(k & Hk & Hpos)].
  - exists TPM_RC_FAILURE, s. split_and!; try done.
    + by eapply write_failure.
    + split; [done|]. intros (c & [= <-] & [?|([k Hk] & _ & Hp)]); [done|].
      destruct Hf as [Hf|Hf]; [congruence|lia].
    + intros c k _ Hk Hp. destruct Hf as [Hf|Hf]; [congruence|lia].
  - destruct (write_success s bank m Hs Hkey ah idx e data offset He Ho Hd E bs Hbs k Hk Hpos)
      as (bank' & Hst & Heq).
    exists TPM_RC_SUCCESS, (write_state s m idx e bank'). split_and!; try done.
    + exists bank', (<[idx := written_entry e]> m). by eapply (write_wf s bank m Hs idx e data offset He Ho Hd E bs Hbs k bank').
    + split; [|done]. intros _. exists (cell_of bank e). split; [done|]. right. rewrite Hk. by rewrite <- Hc.
    + intros c [= <-] H. by destruct Hno.
    + intros c k' [= <-] Hk' _ _. assert (k' = k) as -> by congruence. by eapply (write_abs s bank m Hs idx e data offset He Ho Hd E bs Hbs k bank').
Qed.
End Refinement.

(** The storage right after [tpm2_nv_init]. *)
Lemma nv_wf_init s :
  nv_bank s = Some (replicate (Z.to_nat TPM2_NVSTORAGE_SIZE) 0) -> nv_map s = None ->
  nv_wf (tpm2_nv_init s) /\ nv_abs (tpm2_nv_init s) = ∅.
Proof.
  intros Hb Hm. unfold tpm2_nv_init, nv_abs. rewrite Hm. fields. rewrite Hb.
  split; [|by rewrite fmap_empty].
  exists (replicate (Z.to_nat TPM2_NVSTORAGE_SIZE) 0), ∅.
  split; fields; try done; auto with tpm.
Qed.

(** ** Theorems *)
Section Theorems.
Context `{OS : OpenSSL, !OpenSSLLaws OS}.

(** C15: TPM2_NV_DefineSpace refines the contract of the NV storage.  On a
    well-formed storage it never leaves an array and keeps the storage well
    formed; it succeeds exactly when the index is nonzero and undefined, fewer
    than 16 indices are defined, 16 + dataSize bytes are left in the bank and
    the attributes are admissible; on success it adds exactly one cell of
    zeros, on any error it changes nothing. *)
Theorem tpm2_nv_define_space_refines (s : TPM2State) (ah : TPMI_RH_PROVISION)
    (auth : TPM2B) (pub : TPMS_NV_PUBLIC) :
  nv_wf s -> is_u16 (np_dataSize pub) ->
  exists rc s', tpm2_nv_define_space s ah auth pub = Some (rc, s') /\ nv_wf s' /\
    (rc = TPM_RC_SUCCESS <->
       np_nvIndex pub <> 0 /\ nv_abs s !! np_nvIndex pub = None /\
       nv_count s < TPM2_MAX_NV_INDEXES /\
       nv_alloc_offset s + 16 + np_dataSize pub <= TPM2_NVSTORAGE_SIZE /\
       define_allowed (ph_platform ah =? TPM_RH_PLATFORM) pub) /\
    (rc = TPM_RC_SUCCESS ->
       nv_abs s' = <[np_nvIndex pub := fresh_cell pub]> (nv_abs s) /\
       nv_alloc_offset s' = nv_alloc_offset s + 16 + np_dataSize pub /\
       nv_count s' = nv_count s + 1) /\
    (rc <> TPM_RC_SUCCESS -> s' = s).
Proof using. apply nv_define_contract. Qed.

(** C16: TPM2_NV_Write refines the contract of the NV storage.  On a well-formed
    storage it never leaves an array and keeps the storage well formed.  It returns
    success exactly when the index is defined and either the write is allowed by
    its attributes and size, there is a storage key and the data is not empty, or
    the offset is past the end of an index of a plain type.  In the first case the
    only change is that the ciphertext of the data replaces the bytes at [offset]
    of that index, which is marked written; in the second, where the code returned
    is [TPM_RC_VALUE], and on any error nothing changes. *)
Theorem TPM2_NV_Write_refines (s : TPM2State) (ah : TPMI_RH_PROVISION) (idx : Z)
    (data : TPM2B) (offset : Z) (bs : list Z) :
  nv_wf s -> key_wf s -> is_u16 offset -> is_u16 (b_size data) ->
  load (b_buffer data) 0 (b_size data) = Some bs -> bytes bs ->
  exists rc s', TPM2_NV_Write s ah idx data offset = Some (rc, s') /\ nv_wf s' /\
    (rc <> TPM_RC_SUCCESS -> s' = s) /\
    (rc = TPM_RC_SUCCESS <-> exists c, nv_abs s !! idx = Some c /\
       (write_ignored (c_pub c) offset \/
        is_Some (nv_key s) /\ write_allowed (c_pub c) (b_size data) offset /\ 0 < b_size data)) /\
    (forall c, nv_abs s !! idx = Some c -> write_ignored (c_pub c) offset -> s' = s) /\
    (forall c k, nv_abs s !! idx = Some c -> nv_key s = Some k -> 0 < b_size data ->
       write_allowed (c_pub c) (b_size data) offset ->
       nv_abs s' = <[idx := write_cell c offset (nv_encrypt k bs)]> (nv_abs s)).
Proof using All. apply nv_write_contract. Qed.

(** A write that succeeds, with what it did, if anything. *)
Lemma nv_write_inv s bank m ah idx data offset bs s' :
  nv_at s bank m -> key_wf s -> is_u16 offset -> is_u16 (b_size data) ->
  load (b_buffer data) 0 (b_size data) = Some bs ->
  TPM2_NV_Write s ah idx data offset = Some (TPM_RC_SUCCESS, s') ->
  exists e, m !! idx = Some e /\
    (e_dataLen e < offset /\ s' = s \/
     exists k bank', nv_key s = Some k /\ nv_write_checks e data offset = None /\
       store bank (e_data e + offset) (nv_encrypt k bs) = Some bank' /\
       s' = write_state s m idx e bank').
Proof using All.
  intros Hs Hkey Ho Hd Hbs Hw.
  destruct (m !! idx) as [e|] eqn:He.
  2:{ unfold TPM2_NV_Write, g_hash_table_lookup in Hw. destruct Hs.
      rewrite na_map0 in Hw. simpl in Hw. by rewrite He in Hw. }
  exists e. split; [done|].
  destruct (nv_write_checks e data offset) as [rc|] eqn:E.
  { rewrite (write_returns s bank m Hs ah idx e data offset He rc E) in Hw. injection Hw as -> <-.
    pose proof (entry_ok s bank m Hs idx e He) as Hwf.
    apply (write_checks_ignored bank _ idx e data offset Hwf) in E as (_ & _ & _ & ?).
    left. split; [|done]. destruct Hwf. lia. }
  right.
  assert (Hf : (nv_key s = None \/ b_size data = 0) -> False).
  { intros Hf. rewrite (write_failure s bank m Hs Hkey ah idx e data offset He Ho Hd E bs Hbs Hf)
      in Hw. done. }
  destruct (nv_key s) as [k|] eqn:Hk; [|exfalso; auto].
  assert (Hpos : 0 < b_size data).
  { unfold is_u16 in Hd. destruct (Z.eq_dec (b_size data) 0); [exfalso; auto|lia]. }
  destruct (write_success s bank m Hs Hkey ah idx e data offset He Ho Hd E bs Hbs k Hk Hpos)
    as (bank' & Hst & Heq).
  exists k, bank'. split_and!; try done. congruence.
Qed.

(** C17: what is written can be read back: after a successful TPM2_NV_Write of
    [data] at an [offset] that is not past the end of the index, the decrypting read
    of [n] bytes (at most as many as were written) at the same offset returns the
    first [n] bytes of [data]. *)
Theorem NV_write_read_roundtrip (s : TPM2State) (ah : TPMI_RH_PROVISION) (idx : Z)
    (data : TPM2B) (offset : Z) (bs : list Z) (s' : TPM2State) (n : Z) (out : list Z) :
  nv_wf s -> key_wf s -> is_u16 offset -> is_u16 (b_size data) ->
  load (b_buffer data) 0 (b_size data) = Some bs -> bytes bs ->
  TPM2_NV_Write s ah idx data offset = Some (TPM_RC_SUCCESS, s') ->
  (forall c, nv_abs s !! idx = Some c -> offset <= np_dataSize (c_pub c)) ->
  0 < n <= b_size data -> n <= zlen out ->
  exists e, g_hash_table_lookup (nv_map s') idx = Some e /\ e_written e = true /\
    nv_read_decrypt_from_bank s' e out n offset =
    Some (TPM_RC_SUCCESS, take (Z.to_nat n) bs ++ drop (Z.to_nat n) out).
Proof using All.
  intros (bank & m & Hs) Hkey Ho Hd Hbs Hb Hw Hend Hn Hout.
  destruct (nv_write_inv _ _ _ _ _ _ _ _ _ Hs Hkey Ho Hd Hbs Hw)
    as (e & He & [[Hlt _]|(k & bank' & Hk & Hc & Hst & ->)]).
  { specialize (Hend (cell_of bank e)). rewrite (nv_abs_lookup s bank m idx Hs), He in Hend.
    specialize (Hend eq_refl). destruct (entry_ok s bank m Hs idx e He). simpl in Hend. lia. }
  pose proof (write_wf s bank m Hs idx e data offset He Ho Hd Hc bs Hbs k bank' Hb Hst) as Hs'.
  destruct (write_checks_range e data offset Ho Hd Hc) as [Hr _].
  exists (written_entry e). split_and!.
  { change (nv_map (write_state s m idx e bank')) with (Some (<[idx := written_entry e]> m)).
    simpl. by rewrite lookup_insert_eq. }
  { done. }
  assert (Hl : <[idx := written_entry e]> m !! idx = Some (written_entry e))
    by (by rewrite lookup_insert_eq).
  unfold is_u16 in *.
  rewrite (nv_read_spec _ _ _ idx _ out n offset Hs') by (done || unfold is_u16; lia).
  change (e_dataLen (written_entry e)) with (e_dataLen e).
  replace (e_dataLen e <? offset + n) with false by lia.
  change (nv_key (write_state s m idx e bank')) with (nv_key s). rewrite Hk. cbv zeta.
  pose proof (load_zlen _ _ _ _ Hbs) as Hlen.
  pose proof (zlen_encrypt k bs) as Hel.
  pose proof (load_store_prefix _ _ _ _ n Hst ltac:(lia)) as L.
  pose proof Hs' as []. pose proof (na_entries0 _ _ Hl) as Hw'.
  change (e_data e) with (e_data (written_entry e)) in L.
  rewrite (cell_slice bank' _ idx (written_entry e) offset n Hw') in L;
    [|rewrite na_len0; lia|lia|lia|change (e_dataLen (written_entry e)) with (e_dataLen e); lia].
  match type of L with Some ?a = Some ?b => assert (a = b) as -> by congruence end.
  rewrite decrypt_prefix.
  destruct (store_in out 0 (take (Z.to_nat n) bs)) as [out' Hout'];
    [lia|rewrite zlen_take by lia; lia|].
  rewrite Hout'. apply store_prefix_app in Hout' as ->.
  replace (0 <? n) with true by lia. do 4 f_equal. rewrite length_take.
  unfold zlen in *. lia.
Qed.

(** A read depends on the entry's slice and the key only. *)
Lemma nv_read_keeps s s' bank bank' m m' j e out len offset :
  nv_at s bank m -> nv_at s' bank' m' -> key_wf s ->
  primary_sensitive s' = primary_sensitive s ->
  m !! j = Some e -> m' !! j = Some e -> bank_keeps bank bank' e ->
  is_u16 len -> is_u16 offset ->
  nv_read_decrypt_from_bank s' e out len offset = nv_read_decrypt_from_bank s e out len offset.
Proof using All.
  intros Hs Hs' Hkey Hp He He' Hb Hl Ho.
  rewrite (nv_read_spec s bank m j), (nv_read_spec s' bank' m' j)
    by (done || (unfold key_wf in *; by rewrite Hp)).
  unfold nv_key. rewrite Hp. by rewrite (cell_of_keeps _ _ _ Hb).
Qed.

(** A call that may change the storage, on indices other than [j]. *)
Inductive nv_call_apart (j : Z) (s s' : TPM2State) : Prop :=
| apart_define ah auth pub rc :
    is_u16 (np_dataSize pub) ->
    tpm2_nv_define_space s ah auth pub = Some (rc, s') -> nv_call_apart j s s'
| apart_write ah idx data offset bs rc :
    idx <> j -> is_u16 offset -> is_u16 (b_size data) ->
    load (b_buffer data) 0 (b_size data) = Some bs -> bytes bs ->
    TPM2_NV_Write s ah idx data offset = Some (rc, s') -> nv_call_apart j s s'.

Lemma apart_keeps s s' bank m j e :
  nv_at s bank m -> key_wf s -> m !! j = Some e -> nv_call_apart j s s' ->
  exists bank' m', nv_at s' bank' m' /\ m' !! j = Some e /\ bank_keeps bank bank' e /\
    primary_sensitive s' = primary_sensitive s.
Proof using All.
  intros Hs Hkey He [ah auth pub rc Hsz Hd|ah idx data offset bs rc Hj Ho Hd Hbs Hb Hw].
  - destruct (nv_define_contract s ah auth pub) as (rc' & s1 & Hd' & _ & Hiff & _ & Herr);
      [by exists bank, m|done|].
    assert (rc' = rc /\ s1 = s') as [-> ->] by (rewrite Hd in Hd'; by simplify_eq).
    destruct (Z.eq_dec rc TPM_RC_SUCCESS) as [->|E]; [|rewrite (Herr E); by exists bank, m].
    clear Herr Hd'.
    destruct (Z.eq_dec (nv_define_checks s ah pub) TPM_RC_SUCCESS) as [Hc|Hc].
    2:{ rewrite define_error in Hd by done. congruence. }
    destruct (def_fits s pub) eqn:Hf.
    2:{ by rewrite (define_full s bank m Hs ah auth pub Hc Hf) in Hd. }
    destruct (def_store s bank m Hs pub Hsz Hf) as [bank' Hst].
    rewrite (define_success s bank m Hs ah auth pub Hsz bank' Hc Hf Hst) in Hd.
    injection Hd as <-.
    destruct (define_checks_fresh s bank m Hs ah pub Hc) as (F1 & F2 & F3).
    exists bank', (<[np_nvIndex pub := def_entry s pub]> m). split_and!.
    + by apply (define_wf s bank).
    + by rewrite lookup_insert_ne by congruence.
    + by apply (def_keeps s bank m Hs pub bank' Hst j).
    + done.
  - destruct (Z.eq_dec rc TPM_RC_SUCCESS) as [->|E].
    2:{ destruct (nv_write_contract s ah idx data offset bs) as (rc' & s1 & Hw' & _ & Herr & _);
          try done; [by exists bank, m|].
        assert (rc' = rc /\ s1 = s') as [-> ->] by (rewrite Hw in Hw'; by simplify_eq).
        rewrite (Herr E). by exists bank, m. }
    destruct (nv_write_inv _ _ _ _ _ _ _ _ _ Hs Hkey Ho Hd Hbs Hw)
      as (e0 & He0 & [[_ ->]|(k & bank' & Hk & Hc & Hst & ->)]); [by exists bank, m|].
    exists bank', (<[idx := written_entry e0]> m). split_and!.
    + by eapply (write_wf s bank m Hs idx e0 data offset He0 Ho Hd Hc bs Hbs k bank').
    + by rewrite lookup_insert_ne.
    + by eapply (write_keeps s bank m Hs idx e0 data offset He0 Ho Hd Hc bs Hbs k bank' Hst j).
    + done.
Qed.

(** C18: indices are isolated: defining an index, or writing to an index other
    than [j], leaves the entry of [j] and the result of every read of it
    unchanged, although all indices share one bank. *)
Theorem NV_isolation (s s' : TPM2State) (j : Z) (e : NVEntry) (out : list Z) (len offset : Z) :
  nv_wf s -> key_wf s -> g_hash_table_lookup (nv_map s) j = Some e ->
  is_u16 len -> is_u16 offset -> nv_call_apart j s s' ->
  g_hash_table_lookup (nv_map s') j = Some e /\
  nv_read_decrypt_from_bank s' e out len offset = nv_read_decrypt_from_bank s e out len offset.
Proof using All.
  intros (bank & m & Hs) Hkey He Hl Ho Hcall.
  assert (Hm : m !! j = Some e) by (pose proof Hs as []; by rewrite na_map0 in He).
  destruct (apart_keeps s s' bank m j e Hs Hkey Hm Hcall) as (bank' & m' & Hs' & Hm' & Hb & Hp).
  split.
  - pose proof Hs' as []. by rewrite na_map0.
  - by eapply (nv_read_keeps s s' bank bank' m m' j).
Qed.
End Theorems.

(** ** Witnesses: a storage with a 32-byte index under a toy key *)
Module Example.
#[local] Existing Instances Toy.openssl Toy.laws.

Definition attrs : TPMA_NV := TPMA_NV_of_words 0x000C0006 0.
Definition pub (index size : Z) : TPMS_NV_PUBLIC :=
  {| np_nvIndex := index; np_nameAlg := TPM_ALG_SHA256; np_attributes := attrs;
     np_authPolicy := replicate 64 0; np_authPolicySize := 0; np_dataSize := size |}.
Definition owner : TPMI_RH_PROVISION :=
  {| ph_owner := TPM_RH_OWNER; ph_platform := TPM_RH_OWNER;
     ph_responsefailcode := TPM_RH_OWNER |}.
Definition empty : TPM2State :=
  tpm2_nv_init (TPM2State_zero
    <| nv_bank := Some (replicate (Z.to_nat TPM2_NVSTORAGE_SIZE) 0) |>
    <| primary_sensitive :=
         TPM2B_SENSITIVE_zero <| ss_ecc := mk_TPM2B 32 (replicate 64 7) |> |>).

Lemma empty_wf : nv_wf empty /\ key_wf empty.
Proof. split; [|done]. by apply nv_wf_init. Qed.

(** One index of 32 bytes. *)
Definition one : TPM2State :=
  match tpm2_nv_define_space empty owner (mk_TPM2B 0 []) (pub 0x1500016 32) with
  | Some (_, s) => s
  | None => empty
  end.

Lemma one_wf : nv_wf one /\ key_wf one.
Proof.
  destruct empty_wf as [Hw Hk].
  destruct (nv_define_contract empty owner (mk_TPM2B 0 []) (pub 0x1500016 32) Hw)
    as (rc & s' & E & Hw' & _); [by vm_compute|].
  split; [unfold one; by rewrite E|by vm_compute].
Qed.

Definition text : TPM2B := mk_TPM2B 5 [72; 101; 108; 108; 111].

Lemma tpm2_nv_define_space_refines_witness :
  exists rc s', tpm2_nv_define_space empty owner (mk_TPM2B 0 []) (pub 0x1500016 32) =
    Some (rc, s') /\ nv_wf s' /\
    (rc = TPM_RC_SUCCESS ->
     nv_abs s' = <[0x1500016 := fresh_cell (pub 0x1500016 32)]> (nv_abs empty)).
Proof.
  destruct (tpm2_nv_define_space_refines empty owner (mk_TPM2B 0 []) (pub 0x1500016 32))
    as (rc & s' & H1 & H2 & _ & H3 & _); [exact (proj1 empty_wf)|done|].
  exists rc, s'. exact (conj H1 (conj H2 (fun Hrc => proj1 (H3 Hrc)))).
Defined.

Lemma TPM2_NV_Write_refines_witness :
  (exists rc s', TPM2_NV_Write one owner 0x1500016 text 3 = Some (rc, s') /\ nv_wf s' /\
     (rc <> TPM_RC_SUCCESS -> s' = one)) /\
  TPM2_NV_Write one owner 0x1500016 text 33 = Some (TPM_RC_SUCCESS, one).
Proof.
  split.
  - destruct (TPM2_NV_Write_refines one owner 0x1500016 text 3 (b_buffer text))
      as (rc & s' & H1 & H2 & H3 & _);
      [exact (proj1 one_wf)|exact (proj2 one_wf)|done|done|done|apply (bool_decide_unpack _); by vm_compute|].
    exists rc, s'. exact (conj H1 (conj H2 H3)).
  - destruct (nv_abs one !! 0x1500016) as [c|] eqn:Ec; [|exfalso; vm_compute in Ec; discriminate Ec].
    assert (Hi : write_ignored (c_pub c) 33) by (vm_compute in Ec; injection Ec as <-; vm_compute; intuition discriminate).
    destruct (TPM2_NV_Write_refines one owner 0x1500016 text 33 (b_buffer text))
      as (rc & s' & H1 & _ & _ & H4 & H5 & _);
      [exact (proj1 one_wf)|exact (proj2 one_wf)|done|done|done|apply (bool_decide_unpack _); by vm_compute|].
    rewrite H1, (H5 c Ec Hi), (proj2 H4 (ex_intro _ c (conj Ec (or_introl Hi)))). reflexivity.
Defined.

Lemma text_ok :
  is_u16 (b_size text) /\ load (b_buffer text) 0 (b_size text) = Some (b_buffer text) /\
  bytes (b_buffer text).
Proof. split_and!; [done|done|]. apply (bool_decide_unpack _). by vm_compute. Qed.

Lemma text_inside c : nv_abs one !! 0x1500016 = Some c -> 3 <= np_dataSize (c_pub c).
Proof. intros Ec. vm_compute in Ec. injection Ec as <-. vm_compute. discriminate. Qed.

Lemma NV_write_read_roundtrip_witness :
  exists s' e, TPM2_NV_Write one owner 0x1500016 text 3 = Some (TPM_RC_SUCCESS, s') /\
    nv_read_decrypt_from_bank s' e (replicate 8 0) 4 3 =
    Some (TPM_RC_SUCCESS, [72; 101; 108; 108; 0; 0; 0; 0]).
Proof.
  assert (H3 : is_u16 3 /\ 0 < 4 <= b_size text /\ 4 <= zlen (replicate 8 0)) by done.
  destruct H3 as (H3 & H4 & H5). destruct text_ok as (T1 & T2 & T3).
  destruct (TPM2_NV_Write one owner 0x1500016 text 3) as [[rc s']|] eqn:E.
  2:{ exfalso. vm_compute in E. discriminate E. }
  assert (rc = TPM_RC_SUCCESS) as -> by (vm_compute in E; by injection E).
  destruct (NV_write_read_roundtrip one owner 0x1500016 text 3 (b_buffer text) s' 4
    (replicate 8 0) (proj1 one_wf) (proj2 one_wf) H3 T1 T2 T3 E text_inside H4 H5) as (e & _ & _ & H).
  exists s', e. exact (conj eq_refl H).
Defined.

Lemma NV_isolation_witness :
  exists s' e, tpm2_nv_define_space one owner (mk_TPM2B 0 []) (pub 0x1500017 8) =
    Some (TPM_RC_SUCCESS, s') /\
    nv_read_decrypt_from_bank s' e (replicate 8 0) 4 0 =
    nv_read_decrypt_from_bank one e (replicate 8 0) 4 0.
Proof.
  assert (H : is_u16 4 /\ is_u16 0 /\ is_u16 8) by done. destruct H as (H1 & H2 & H3).
  destruct (tpm2_nv_define_space one owner (mk_TPM2B 0 []) (pub 0x1500017 8))
    as [[rc s']|] eqn:E.
  2:{ exfalso. vm_compute in E. discriminate E. }
  assert (rc = TPM_RC_SUCCESS) as -> by (vm_compute in E; by injection E).
  destruct (g_hash_table_lookup (nv_map one) 0x1500016) as [e|] eqn:He.
  2:{ exfalso. vm_compute in He. discriminate He. }
  exists s', e. split; [reflexivity|].
  exact (proj2 (NV_isolation one s' 0x1500016 e (replicate 8 0) 4 0 (proj1 one_wf)
    (proj2 one_wf) He H1 H2
    (apart_define 0x1500016 one s' owner (mk_TPM2B 0 []) (pub 0x1500017 8) _ H3 E))).
Defined.
End Example.
