(* ===== verification/Device.v ===== *)
(** * The TPM device

    [src/qemu/hw/tpm/tpm_hw.c]: the memory-mapped registers, the command
    dispatcher, the handler of each command, reset and realization.  A function
    takes the device state and returns it updated; [None] is an access outside
    of an array (or a cryptographic call that does not return).

    The body of a command is the part of [command_buffer] behind its header, so
    the unmarshalling functions get that array and a pointer into it.  Logging
    and the QEMU object model have no model; the self tests that
    [tpm2_realize] runs have, since they change the state. *)
From stdpp Require Import base list numbers gmap.
From S2P Require Import Prelude Constants State Header Unmarshal Marshal OpenSSL Crypto Nv.

(** [sizeof(s->command_buffer)], [sizeof(s->response_buffer)]. *)
Definition BUFFER_SIZE : Z := 1024.
(** [sizeof(s->random_data)] *)
Definition RANDOM_SIZE : Z := 32.

(** ** Responses *)
Definition build_error_response (s : TPM2State) (rc : Z) : option TPM2State :=
  let header := {| rh_tag := TPM_ST_NO_SESSIONS; rh_size := TPM_RSP_HEADER_SIZE;
                   rh_code := rc |} in
  match MarshalResponseHeader (response_buffer s) (Some 0) BUFFER_SIZE header with
  | WUB => None
  | Wrote _ m | WFail _ m =>
      Some (s <| response_buffer := m |> <| resp_size := rh_size header |>
              <| resp_idx := 0 |> <| state := TPM_STATE_SENDING |>)
  end.

(** [for (i = actual_size; i < padded_size; i++) response_buffer[i] = 0], in [n]
    rounds. *)
Fixpoint pad_zero (n : nat) (i : Z) (buf : list Z) : option (list Z) :=
  match n with
  | O => Some buf
  | S n => let? buf := store buf i [0] else None in pad_zero n (i + 1) buf
  end.

Definition padded (actual_size : Z) : Z := Z.land (u32 (actual_size + 3)) (u32 (Z.lnot 3)).

Definition build_success_response (s : TPM2State) (bodySize : Z) : option TPM2State :=
  let header := {| rh_tag := TPM_ST_NO_SESSIONS;
                   rh_size := u32 (TPM_RSP_HEADER_SIZE + bodySize);
                   rh_code := TPM_RC_SUCCESS |} in
  match MarshalResponseHeader (response_buffer s) (Some 0) BUFFER_SIZE header with
  | WUB => None
  | Wrote _ m | WFail _ m =>
      let actual_size := rh_size header in
      let padded_size := padded actual_size in
      let? m := pad_zero (Z.to_nat (padded_size - actual_size)) actual_size m else None in
      Some (s <| response_buffer := m |> <| resp_size := padded_size |>
              <| resp_idx := 0 |> <| state := TPM_STATE_SENDING |>)
  end.

(** The response is marshalled behind the header. *)
Definition respond (s : TPM2State) (w : list Z -> ptr -> Z -> wres) : option TPM2State :=
  match w (response_buffer s) (Some TPM_RSP_HEADER_SIZE) (BUFFER_SIZE - TPM_RSP_HEADER_SIZE) with
  | Wrote n m => build_success_response (s <| response_buffer := m |>) n
  | WFail rc m => build_error_response (s <| response_buffer := m |>) rc
  | WUB => None
  end.

Section Device.
Context `{OS : OpenSSL, LY : Layout}.

(** ** Random numbers and keys *)
Definition tpm2_generate_random (s : TPM2State) : TPM2State :=
  let s' := s <| rand_calls := S (rand_calls s) |> in
  match RAND_bytes (rand_calls s) RANDOM_SIZE with
  | Some bs => s' <| random_data := bs |>
  | None => s'
  end.

Definition tpm2_generate_rsa_key (s : TPM2State) : TPM2State :=
  s <| rsa_key := Some (RSA_generate_key_ex (rand_calls s) 2048 RSA_F4) |>
    <| rand_calls := S (rand_calls s) |> <| key_generated := 1 |>.

(** ** Command handlers *)
Definition handle_GetRandom (s : TPM2State) (cmdBody : ptr) (bodySize : Z)
  : option TPM2State :=
  match Unmarshal_GetRandom (command_buffer s) cmdBody bodySize with
  | UB => None
  | Err rc => build_error_response s rc
  | Ok (bytesRequested, _) =>
      if RANDOM_SIZE <? bytesRequested then build_error_response s TPM_RC_SIZE
      else
      let s := tpm2_generate_random s in
      respond s (fun m p n =>
        Marshal_GetRandom_Response m p n (Some (random_data s)) bytesRequested)
  end.

(** The [TPM2B_SENSITIVE_CREATE] made of the parameters. *)
Definition CreatePrimary_inSensitive (params : CreatePrimary_Params)
  : option TPM2B_SENSITIVE_CREATE :=
  let copy (buffer data : list Z) (size : Z) : option TPM2B :=
    if 0 <? size then
      let? bs := load data 0 size else None in
      let? b := store buffer 0 bs else None in
      Some {| b_size := size; b_buffer := b |}
    else Some {| b_size := size; b_buffer := buffer |} in
  let? userAuth := copy (replicate 64 0) (cp_userAuth params) (cp_userAuthSize params)
    else None in
  let? data := copy (replicate (Z.to_nat MAX_SYM_DATA) 0) (cp_data params)
                 (cp_dataSize params) else None in
  Some {| sc_userAuth := userAuth; sc_data := data |}.

(** The fields read from the public area at [pubBuf]; the size of the policy is
    not compared with the size of the area. *)
Definition CreatePrimary_inPublic (m : list Z) (pubBuf : Z) : res TPMT_PUBLIC :=
  type ← ld16 m pubBuf;
  let pubOffset := 2 in
  nameAlg ← ld16 m (pubBuf + pubOffset);
  let pubOffset := pubOffset + 2 in
  objectAttributes ← ld32 m (pubBuf + pubOffset);
  let pubOffset := pubOffset + 4 in
  authPolicySize ← ld16 m (pubBuf + pubOffset);
  let pubOffset := pubOffset + 2 in
  let pubOffset := u32 (pubOffset + authPolicySize) in
  curveID ←
    (if type =? TPM_ALG_ECC then
       let pubOffset := u32 (pubOffset + 4) in
       ld16 m (pubBuf + pubOffset)
     else Ok 0);
  Ok {| pa_type := type; pa_nameAlg := nameAlg;
        pa_objectAttributes := objectAttributes; pa_curveID := curveID;
        pa_unique_x := TPM2B_zero 64; pa_unique_y := TPM2B_zero 64 |}.

(** The bytes put in [tempBuf]; there is room for 512. *)
Definition CreatePrimary_outPublic (p : TPMT_PUBLIC) : option (list Z) :=
  let head := to_be16 (pa_type p) ++ to_be16 (pa_nameAlg p) ++
              to_be32 (pa_objectAttributes p) ++ [0; 0] in
  let? body :=
    (if pa_type p =? TPM_ALG_ECC then
       let? x := load (b_buffer (pa_unique_x p)) 0 (b_size (pa_unique_x p)) else None in
       let? y := load (b_buffer (pa_unique_y p)) 0 (b_size (pa_unique_y p)) else None in
       Some ([0; 16] ++ [0; 16] ++ to_be16 (pa_curveID p) ++ [0; 16] ++
             to_be16 (b_size (pa_unique_x p)) ++ x ++
             to_be16 (b_size (pa_unique_y p)) ++ y)
     else Some []) else None in
  if zlen (head ++ body) <=? 512 then Some (head ++ body) else None.

(** An array of [n] zeros with [bs] copied to its start. *)
Definition array_with (n : nat) (bs : list Z) : option (list Z) :=
  store (replicate n 0) 0 bs.

(** The response structure. *)
Definition CreatePrimary_response (objectHandle primaryHandle : Z) (pub : list Z)
    (name : TPM2B) : option CreatePrimary_Response :=
  let? outPublic := array_with 512 pub else None in
  let? nameBytes := load (b_buffer name) 0 (b_size name) else None in
  let? nameBuf := array_with 64 nameBytes else None in
  Some {| cr_objectHandle := objectHandle;
          cr_outPublicSize := u16 (zlen pub); cr_outPublic := outPublic;
          cr_creationDataSize := 0; cr_creationData := replicate 256 0;
          cr_creationHashSize := 0; cr_creationHash := replicate 64 0;
          cr_creationTicketTag := TPM_ST_CREATION;
          cr_creationTicketHierarchy := primaryHandle;
          cr_creationTicketDigestSize := 0; cr_creationTicketDigest := replicate 64 0;
          cr_nameSize := b_size name; cr_name := nameBuf |}.

(** [name] is a local of two bytes; [handler_frame] is the stack behind it. *)
Definition handle_CreatePrimary (s : TPM2State) (cmdBody : ptr) (bodySize : Z)
  : option TPM2State :=
  match Unmarshal_CreatePrimary (command_buffer s) cmdBody bodySize with
  | UB => None
  | Err rc => build_error_response s rc
  | Ok (params, bytesRead) =>
      let? inSensitive := CreatePrimary_inSensitive params else None in
      let? body := cmdBody else None in
      match CreatePrimary_inPublic (command_buffer s)
              (body + bytesRead - cp_inPublicSize params) with
      | UB | Err _ => None
      | Ok inPublic =>
          let objectHandle := Z.lor 0x80000000 (next_transient_handle s) in
          let s := s <| next_transient_handle := u32 (next_transient_handle s + 1) |> in
          let? (rc, s, outPublic, name) :=
            tpm2_CreatePrimary s (cp_primaryHandle params) inSensitive inPublic
              TPMT_PUBLIC_zero {| b_size := 0; b_buffer := handler_frame |} else None in
          if negb (rc =? TPM_RC_SUCCESS) then build_error_response s rc
          else
          let? pub := CreatePrimary_outPublic outPublic else None in
          let? response := CreatePrimary_response objectHandle (cp_primaryHandle params)
                             pub name else None in
          respond s (fun m p n => Marshal_CreatePrimary_Response m p n response)
      end
  end.

(** The hierarchy of an authorization handle, for the NV commands. *)
Definition provision_handle (authHandle : Z) : option TPMI_RH_PROVISION :=
  if authHandle =? 0x4000000C then
    Some {| ph_owner := TPM_RH_PLATFORM; ph_platform := TPM_RH_PLATFORM;
            ph_responsefailcode := TPM_RH_PLATFORM |}
  else if authHandle =? 0x40000001 then
    Some {| ph_owner := TPM_RH_OWNER; ph_platform := TPM_RH_OWNER;
            ph_responsefailcode := TPM_RH_OWNER |}
  else None.

(** [memcpy(&attributes, &params.attributes, sizeof(TPMA_NV))] copies 8 bytes:
    the 32-bit [attributes] and the 16-bit [authPolicySize] that follows it in
    the parameter structure, whose low half is the second unit's low bit
    field. *)
Definition handle_NV_DefineSpace (s : TPM2State) (cmdBody : ptr) (bodySize : Z)
  : option TPM2State :=
  match Unmarshal_NV_DefineSpace (command_buffer s) cmdBody bodySize with
  | UB => None
  | Err rc => build_error_response s rc
  | Ok (params, _) =>
      let? provHandle := provision_handle (dp_authHandle params)
        else build_error_response s TPM_RC_HANDLE in
      let? authBuf := array_with 64 (dp_auth params) else None in
      let auth := {| b_size := dp_authSize params; b_buffer := authBuf |} in
      let? authPolicy := array_with 64 (dp_authPolicy params) else None in
      let public :=
        {| np_nvIndex := dp_nvIndex params; np_nameAlg := dp_nameAlg params;
           np_attributes := TPMA_NV_of_words (dp_attributes params)
                              (dp_authPolicySize params);
           np_authPolicy := authPolicy; np_authPolicySize := dp_authPolicySize params;
           np_dataSize := dp_dataSize params |} in
      let? (rc, s) := tpm2_nv_define_space s provHandle auth public else None in
      if negb (rc =? TPM_RC_SUCCESS) then build_error_response s rc
      else build_success_response s 0
  end.

Definition handle_NV_Write (s : TPM2State) (cmdBody : ptr) (bodySize : Z)
  : option TPM2State :=
  match Unmarshal_NV_Write (command_buffer s) cmdBody bodySize with
  | UB => None
  | Err rc => build_error_response s rc
  | Ok (params, _) =>
      let? e := g_hash_table_lookup (nv_map s) (wp_nvIndex params)
        else build_error_response s TPM_RC_HANDLE in
      if np_dataSize (e_pub e) <? u32 (wp_offset params + b_size (wp_data params))
      then build_error_response s TPM_RC_NV_RANGE
      else
      let? provHandle := provision_handle (wp_authHandle params)
        else build_error_response s TPM_RC_HANDLE in
      let? (rc, s) := TPM2_NV_Write s provHandle (wp_nvIndex params) (wp_data params)
                        (wp_offset params) else None in
      if negb (rc =? TPM_RC_SUCCESS) then build_error_response s rc
      else
      let s := s <| nv_map := (alter (fun e => e <| e_written := true |>)
                                 (wp_nvIndex params)) <$> nv_map s |> in
      let s := s <| nv_dirty := true |> in
      build_success_response s 0
  end.

Definition handle_NV_Read (s : TPM2State) (cmdBody : ptr) (bodySize : Z)
  : option TPM2State :=
  match Unmarshal_NV_Read (command_buffer s) cmdBody bodySize with
  | UB => None
  | Err rc => build_error_response s rc
  | Ok (params, _) =>
      let? e := g_hash_table_lookup (nv_map s) (rp_nvIndex params)
        else build_error_response s TPM_RC_HANDLE in
      if negb (e_written e) then build_error_response s TPM_RC_NV_UNINITIALIZED
      else if np_dataSize (e_pub e) <? u32 (rp_offset params + rp_sizeToRead params)
      then build_error_response s TPM_RC_NV_RANGE
      else if e_readLocked e then build_error_response s TPM_RC_NV_LOCKED
      else
      let? (rc, buffer) :=
        nv_read_decrypt_from_bank s e (replicate (Z.to_nat MAX_NV_BUFFER_SIZE) 0)
          (rp_sizeToRead params) (rp_offset params) else None in
      if negb (rc =? TPM_RC_SUCCESS) then build_error_response s rc
      else
      respond s (fun m p n => Marshal_NV_Read_Response m p n
                   {| b_size := rp_sizeToRead params; b_buffer := buffer |})
  end.

(** ** Dispatch *)
Definition tpm2_process_command (s : TPM2State) : option TPM2State :=
  match TPM2_ValidateCommandHeader (command_buffer s) (Some 0) (cmd_size s) with
  | UB => None
  | Err rc => build_error_response s rc
  | Ok header =>
      let rc := TPM2_ValidateMode header (tpm_mode s) in
      if negb (rc =? TPM_RC_SUCCESS) then build_error_response s rc
      else
      let cmdBody := Some TPM_CMD_HEADER_SIZE in
      let bodySize := u32 (cmd_size s - TPM_CMD_HEADER_SIZE) in
      let code := ch_code header in
      if code =? TPM_CC_GetRandom then handle_GetRandom s cmdBody bodySize
      else if code =? TPM_CC_CreatePrimary then handle_CreatePrimary s cmdBody bodySize
      else if code =? TPM_CC_NV_DefineSpace then handle_NV_DefineSpace s cmdBody bodySize
      else if code =? TPM_CC_NV_Write then handle_NV_Write s cmdBody bodySize
      else if code =? TPM_CC_NV_Read then handle_NV_Read s cmdBody bodySize
      else build_error_response s TPM_RC_COMMAND_CODE
  end.

(** ** Registers *)
Definition tpm2_reset (s : TPM2State) : TPM2State :=
  s <| ctrl := 0 |> <| status := 0 |> <| key_generated := 0 |>
    <| state := TPM_STATE_IDLE |> <| cmd_size := 0 |> <| resp_size := 0 |>
    <| resp_idx := 0 |>
    <| command_buffer := replicate (Z.to_nat BUFFER_SIZE) 0 |>
    <| response_buffer := replicate (Z.to_nat BUFFER_SIZE) 0 |>
    <| rsa_key := None |> <| random_data := replicate 32 0 |>.

Definition tpm2_mmio_read (s : TPM2State) (addr : Z) : option (Z * TPM2State) :=
  if addr =? TPM2_CTRL_REG then Some (ctrl s, s)
  else if addr =? TPM2_STATUS_REG then Some (tpm_state_val (state s), s)
  else if addr =? TPM2_DATA_REG then
    if negb (bool_decide (state s = TPM_STATE_SENDING)) then Some (0, s)
    else if resp_size s <=? resp_idx s then Some (0, s)
    else
    match ld32 (response_buffer s) (resp_idx s) with
    | Ok val =>
        let s := s <| resp_idx := u32 (resp_idx s + 4) |> in
        if resp_size s <=? resp_idx s
        then Some (val, s <| state := TPM_STATE_IDLE |> <| resp_idx := 0 |>
                          <| resp_size := 0 |>)
        else Some (val, s)
    | _ => None
    end
  else Some (0, s).

Definition tpm2_mmio_write (s : TPM2State) (addr value : Z) : option TPM2State :=
  let val32 := u32 value in
  if addr =? TPM2_CTRL_REG then
    if value =? 1 then
      Some (s <| state := TPM_STATE_RECEIVING |> <| cmd_size := 0 |>
              <| resp_size := 0 |> <| resp_idx := 0 |>)
    else if value =? 0 then Some (tpm2_reset s)
    else Some s
  else if addr =? TPM2_CMD_REG then
    if value =? 1 then
      if negb (bool_decide (state s = TPM_STATE_RECEIVING))
      then Some (s <| state := TPM_STATE_IDLE |>)
      else
      match ld32 (command_buffer s) 2 with
      | Ok actual_size =>
          if cmd_size s <? actual_size then
            build_error_response (s <| state := TPM_STATE_IDLE |>) TPM_RC_COMMAND_SIZE
          else
          let s := s <| cmd_size := actual_size |> in
          let s := s <| state := TPM_STATE_PROCESSING |> in
          tpm2_process_command s
      | _ => None
      end
    else Some s
  else if addr =? TPM2_DATA_REG then
    if negb (bool_decide (state s = TPM_STATE_RECEIVING)) then Some s
    else if BUFFER_SIZE <? u32 (cmd_size s + 4)
    then Some (s <| state := TPM_STATE_IDLE |>)
    else
    let? buf := store (command_buffer s) (cmd_size s) (to_be32 val32) else None in
    Some (s <| command_buffer := buf |> <| cmd_size := u32 (cmd_size s + 4) |>)
  else Some s.

(** ** Realization and the self tests it runs *)
Definition tpm2_provision_owner : TPMI_RH_PROVISION :=
  {| ph_owner := TPM_RH_OWNER; ph_platform := TPM_RH_OWNER;
     ph_responsefailcode := TPM_RH_PLATFORM |}.

(** The response code is only logged. *)
Definition tpm2_test_definespace (s : TPM2State) : option TPM2State :=
  let auth := {| b_size := 4; b_buffer := [49; 50; 51; 52] ++ replicate 60 0 |} in
  let pub :=
    {| np_nvIndex := 0x1500016; np_nameAlg := 0x000B;
       np_attributes :=
         {| a_ppWrite := false; a_ownerWrite := true; a_authWrite := true;
            a_policyWrite := false; a_reserved1 := 0; a_nvType := TPM_NT_ORDINARY;
            a_policyDelete := false; a_writeLocked := false; a_writeAll := false;
            a_writeDefine := false; a_writeStClear := false; a_globalLock := false;
            a_ppRead := false; a_ownerRead := true; a_authRead := true;
            a_policyRead := false; a_reserved2 := 0; a_noDA := true;
            a_orderly := false; a_clearStClear := false; a_readLocked := false;
            a_written := false; a_platformCreate := false; a_readStClear := false |};
       np_authPolicy := replicate 64 0; np_authPolicySize := 0; np_dataSize := 32 |} in
  let? (_, s) := tpm2_nv_define_space s tpm2_provision_owner auth pub else None in
  Some s.

(** [base + i] for [i] from 0 to 31, in a [uint8_t] array. *)
Definition seed_bytes (base : Z) : list Z := (fun i => u8 (base + Z.of_nat i)) <$> seq 0 32.

Definition tpm2_test_CreatePrimary (s : TPM2State) : option (Z * TPM2State) :=
  let s := s <| sps := seed_bytes 0x10 |> <| shProof := seed_bytes 0x20 |>
             <| pps := seed_bytes 0x30 |> <| phProof := seed_bytes 0x40 |>
             <| eps := seed_bytes 0x50 |> <| ehProof := seed_bytes 0x60 |> in
  let s := s <| next_transient_handle := 1 |> <| initialized := true |> in
  let inSensitive :=
    {| sc_userAuth := {| b_size := 6;
         b_buffer := [112; 97; 115; 115; 119; 100] ++ replicate 58 0 |};
       sc_data := TPM2B_zero (Z.to_nat MAX_SYM_DATA) |} in
  let inPublic :=
    {| pa_type := TPM_ALG_ECC; pa_nameAlg := TPM_ALG_SHA256;
       pa_objectAttributes := 0x00030072; pa_curveID := TPM_ECC_NIST_P256;
       pa_unique_x := TPM2B_zero 64; pa_unique_y := TPM2B_zero 64 |} in
  let? (rc, s, outPublic, name) :=
    tpm2_CreatePrimary s TPM_RH_OWNER inSensitive inPublic TPMT_PUBLIC_zero
      {| b_size := 0; b_buffer := self_test_frame |} else None in
  if negb (rc =? TPM_RC_SUCCESS) then Some (rc, s) else Some (TPM_RC_SUCCESS, s).

(** [allocated] tells whether the host had memory for the bank, that is, whether
    [memory_region_init_ram] left [err] alone; the result is whether [errp] is still
    clear, and the state. *)
Definition tpm2_realize (allocated : bool) (s : TPM2State) : option (bool * TPM2State) :=
  if negb allocated then Some (false, s)
  else
  let s := s <| nv_bank := Some (replicate (Z.to_nat TPM2_NVSTORAGE_SIZE) 0) |>
             <| nv_bank_size := TPM2_NVSTORAGE_SIZE |> in
  let s := tpm2_nv_init s in
  let s := s <| nv_alloc_offset := 0 |> in
  let? s := tpm2_test_definespace s else None in
  let? (_, s) := tpm2_test_CreatePrimary s else None in
  Some (true, s).
End Device.
