(* ===== verification/DeviceInv.v ===== *)
(** * The device keeps its invariant

    [dev_wf] is the well-formedness of a device state: the arrays have their
    sizes, the cursors are inside them, the NV storage is well formed.  This
    file shows what the two response builders do and that every register access
    keeps the invariant. *)
From stdpp Require Import base list numbers gmap.
From S2P Require Import Prelude Constants State Codec Header Unmarshal Marshal OpenSSL Crypto Nv NvRefine Device.

(** ** Invariant *)
Definition array_wf (l : list Z) (n : Z) : Prop := zlen l = n /\ bytes l.

Record resp_wf (s : TPM2State) : Prop := {
  rw_size : 10 <= resp_size s <= BUFFER_SIZE;
  rw_idx : 0 <= resp_idx s < resp_size s;
  rw_word : (4 | resp_idx s)
}.

Record dev_wf (s : TPM2State) : Prop := {
  dw_nv : nv_wf s;
  dw_key : key_wf s;
  dw_cmd : array_wf (command_buffer s) BUFFER_SIZE;
  dw_resp : array_wf (response_buffer s) BUFFER_SIZE;
  dw_rand : array_wf (random_data s) RANDOM_SIZE;
  dw_sps : zlen (sps s) = 32;
  dw_pps : zlen (pps s) = 32;
  dw_eps : zlen (eps s) = 32;
  dw_mode : tpm_mode s = TPM_MODE_NORMAL;
  dw_size : 0 <= cmd_size s <= BUFFER_SIZE;
  dw_handle : is_u32 (next_transient_handle s);
  dw_sending : state s = TPM_STATE_SENDING -> resp_wf s
}.

(** The header of a response, as bytes. *)
Definition rsp_header (size code : Z) : list Z :=
  to_be16 TPM_ST_NO_SESSIONS ++ to_be32 size ++ to_be32 code.

Lemma rsp_header_len size code : zlen (rsp_header size code) = 10.
Proof. done. Qed.
Lemma rsp_header_bytes size code : bytes (rsp_header size code).
Proof. unfold rsp_header. auto with tpm. Qed.

(** [s] with a response of [n] bytes ready in [m]. *)
Definition sending (s : TPM2State) (m : list Z) (n : Z) : TPM2State :=
  s <| response_buffer := m |> <| resp_size := n |> <| resp_idx := 0 |>
    <| state := TPM_STATE_SENDING |>.

(** The response the device has ready: code and body. *)
Definition replies (s : TPM2State) (rc : Z) (body : list Z) : Prop :=
  state s = TPM_STATE_SENDING /\ resp_idx s = 0 /\
  load (response_buffer s) 0 (10 + zlen body) =
    Some (rsp_header (10 + zlen body) rc ++ body) /\
  resp_size s = if rc =? TPM_RC_SUCCESS then padded (10 + zlen body) else 10.

(** ** Rounding up to words *)
Lemma padded_spec n : 0 <= n <= BUFFER_SIZE -> padded n = (n + 3) / 4 * 4.
Proof.
  intros Hn. unfold padded, BUFFER_SIZE in *. rewrite u32_id by (unfold is_u32; lia).
  change (u32 (Z.lnot 3)) with (Z.shiftl (Z.ones 30) 2).
  replace ((n + 3) / 4 * 4) with (Z.shiftl (Z.shiftr (n + 3) 2) 2)
    by (rewrite (Z.shiftl_mul_pow2 _ 2) by done;
        by rewrite (Z.shiftr_div_pow2 _ 2) by done).
  apply Z.bits_inj'. intros i Hi. rewrite Z.land_spec.
  destruct (Z.ltb_spec i 2).
  - rewrite !Z.shiftl_spec_low by lia. apply andb_false_r.
  - rewrite !Z.shiftl_spec, Z.shiftr_spec by lia. replace (i - 2 + 2) with i by lia.
    destruct (Z.ltb_spec i 32).
    + rewrite Z.ones_spec_low by lia. apply andb_true_r.
    + rewrite Z.ones_spec_high by lia. rewrite andb_false_r. symmetry.
      destruct (Z.eq_dec (n + 3) 0) as [->|]; [by rewrite Z.bits_0|].
      apply Z.bits_above_log2; [lia|]. apply Z.log2_lt_pow2; [lia|].
      apply Z.lt_le_trans with (2 ^ 32); [lia|apply Z.pow_le_mono_r; lia].
Qed.

Lemma padded_bounds n :
  0 <= n <= BUFFER_SIZE -> n <= padded n <= BUFFER_SIZE /\ padded n < n + 4 /\ (4 | padded n).
Proof.
  intros Hn. rewrite padded_spec by done. unfold BUFFER_SIZE in *.
  assert ((n + 3) / 4 < 257) by (apply Z.div_lt_upper_bound; lia).
  pose proof (Z.div_mod (n + 3) 4 ltac:(lia)). pose proof (Z.mod_pos_bound (n + 3) 4 ltac:(lia)).
  split_and!; try lia. by exists ((n + 3) / 4).
Qed.

(** ** Response builders *)
Lemma pad_zero_ok n i buf :
  0 <= i -> i + Z.of_nat n <= zlen buf ->
  pad_zero n i buf = store buf i (replicate n 0).
Proof.
  revert i buf. induction n as [|n IH]; intros i buf Hi Hl; simpl.
  - by rewrite store_nil by lia.
  - destruct (store_in buf i [0]) as [b E]; [lia|change (zlen [0]) with 1; lia|].
    rewrite E. pose proof (store_zlen _ _ _ _ E).
    rewrite IH by lia.
    destruct (store_in b (i + 1) (replicate n 0)) as [b' E'];
      [lia|unfold zlen in *; rewrite length_replicate; lia|].
    rewrite E'. symmetry. exact (store_app buf i [0] (replicate n 0) b b' E E').
Qed.

Section Build.
Variable (s : TPM2State).
Hypothesis (Hr : array_wf (response_buffer s) BUFFER_SIZE).

Lemma build_error_response_ok rc :
  exists m, store (response_buffer s) 0 (rsp_header 10 rc) = Some m /\
    build_error_response s rc = Some (sending s m 10).
Proof using Hr.
  destruct Hr as [Hl _]. unfold build_error_response.
  destruct (MarshalResponseHeader_marshals
    {| rh_tag := TPM_ST_NO_SESSIONS; rh_size := TPM_RSP_HEADER_SIZE; rh_code := rc |}) as [Hm].
  rewrite Hm; [|lia|done|done|by rewrite Hl].
  destruct (wput_ok (response_buffer s) 0 (rsp_header 10 rc)) as (m & E & Hw);
    [lia|rewrite Hl; done|].
  exists m. split; [done|]. change (to_be16 _ ++ _ ++ _) with (rsp_header 10 rc).
  by rewrite Hw.
Qed.

(** The header goes in front of the body, zeros behind it. *)
Lemma build_success_response_ok n :
  0 <= n <= BUFFER_SIZE - 10 ->
  exists m1 m, store (response_buffer s) 0 (rsp_header (10 + n) TPM_RC_SUCCESS) = Some m1 /\
    store m1 (10 + n) (replicate (Z.to_nat (padded (10 + n) - (10 + n))) 0) = Some m /\
    build_success_response s n = Some (sending s m (padded (10 + n))).
Proof using Hr.
  intros Hn. destruct Hr as [Hl _]. unfold build_success_response, BUFFER_SIZE in *.
  change TPM_RSP_HEADER_SIZE with 10. rewrite u32_id by (unfold is_u32; lia).
  destruct (MarshalResponseHeader_marshals
    {| rh_tag := TPM_ST_NO_SESSIONS; rh_size := 10 + n; rh_code := TPM_RC_SUCCESS |}) as [Hm].
  rewrite Hm; [|lia|done|done|lia].
  change (to_be16 _ ++ _ ++ _) with (rsp_header (10 + n) TPM_RC_SUCCESS).
  destruct (wput_ok (response_buffer s) 0 (rsp_header (10 + n) TPM_RC_SUCCESS))
    as (m1 & E & Hw); [lia|rewrite Hl, rsp_header_len; lia|].
  rewrite Hw. cbv zeta. cbn [rh_size].
  pose proof (store_zlen _ _ _ _ E). pose proof (padded_bounds (10 + n)) as Hp.
  unfold BUFFER_SIZE in Hp. specialize (Hp ltac:(lia)).
  rewrite pad_zero_ok by lia.
  destruct (store_in m1 (10 + n) (replicate (Z.to_nat (padded (10 + n) - (10 + n))) 0))
    as [m E2]; [lia|rewrite zlen_replicate; lia|].
  exists m1, m. rewrite E2. done.
Qed.
End Build.

(** ** Replies *)
Lemma array_wf_store m n p bs m' :
  array_wf m n -> bytes bs -> store m p bs = Some m' -> array_wf m' n.
Proof.
  intros [Hl Hb] Hbs Hst. split; [by rewrite (store_zlen _ _ _ _ Hst)|].
  exact (store_bytes _ _ _ _ Hb Hbs Hst).
Qed.
#[export] Hint Resolve rsp_header_bytes : tpm.

Lemma sending_wf s m n :
  dev_wf s -> array_wf m BUFFER_SIZE -> 10 <= n <= BUFFER_SIZE -> dev_wf (sending s m n).
Proof.
  intros [] Hm Hn. split; unfold sending, key_wf in *; fields; try done.
  - by apply (same_nv_wf s).
  - intros _. split; fields; [done|lia|by exists 0].
Qed.

(** What a command leaves: a reply, in a well-formed state that differs from
    [s] in the response only. *)
Definition answered (s : TPM2State) (o : option TPM2State) (rc : Z) (body : list Z) : Prop :=
  exists m n, o = Some (sending s m n) /\ replies (sending s m n) rc body /\
    dev_wf (sending s m n).

Lemma build_error_answered s rc :
  dev_wf s -> rc <> TPM_RC_SUCCESS -> answered s (build_error_response s rc) rc [].
Proof.
  intros Hw Hrc. pose proof Hw as [].
  destruct (build_error_response_ok s dw_resp0 rc) as (m & Hst & ->).
  exists m, 10. split_and!; [done| |].
  - unfold replies, sending. fields. split_and!; [done|done| |].
    + change (zlen []) with 0. rewrite app_nil_r. by apply load_store_same in Hst.
    + by replace (rc =? TPM_RC_SUCCESS) with false by lia.
  - apply sending_wf; [done| |done].
    eapply array_wf_store; [exact dw_resp0| |exact Hst]. auto with tpm.
Qed.

(** The body is in the buffer, behind the room for the header. *)
Lemma build_success_answered s body :
  dev_wf s -> zlen body <= BUFFER_SIZE - 10 ->
  load (response_buffer s) 10 (zlen body) = Some body ->
  answered s (build_success_response s (zlen body)) TPM_RC_SUCCESS body.
Proof.
  intros Hw Hlen Hbody. pose proof Hw as []. pose proof (zlen_nonneg body).
  destruct (build_success_response_ok s dw_resp0 (zlen body)) as (m1 & m & E1 & E2 & ->);
    [lia|].
  pose proof (padded_bounds (10 + zlen body)) as Hp. unfold BUFFER_SIZE in *.
  specialize (Hp ltac:(lia)).
  exists m, (padded (10 + zlen body)). split_and!; [done| |].
  - unfold replies, sending. fields. split_and!; [done|done| |done].
    apply load_app; [by rewrite rsp_header_len|]. rewrite rsp_header_len. split.
    + rewrite (load_store_disjoint _ _ _ _ _ _ E2) by lia. by apply load_store_same in E1.
    + rewrite (load_store_disjoint _ _ _ _ _ _ E2) by lia.
      rewrite (load_store_disjoint _ _ _ _ _ _ E1); [done|].
      right. rewrite rsp_header_len. lia.
  - apply sending_wf; [done| |unfold BUFFER_SIZE; lia].
    eapply array_wf_store; [|apply bytes_zero|exact E2].
    eapply array_wf_store; [exact dw_resp0| |exact E1]. auto with tpm.
Qed.

(** Only the response differs. *)
Lemma answered_core s m o rc body :
  answered (s <| response_buffer := m |>) o rc body -> answered s o rc body.
Proof. intros (m' & n & -> & H1 & H2). by exists m', n. Qed.

Lemma response_buffer_wf s m :
  dev_wf s -> array_wf m BUFFER_SIZE -> dev_wf (s <| response_buffer := m |>).
Proof.
  intros [] Hm. split; unfold key_wf in *; fields; try done.
  - by apply (same_nv_wf s).
  - intros Hs. by destruct (dw_sending0 Hs).
Qed.

Lemma respond_answered s w body `{!Marshals w body} :
  dev_wf s -> bytes body -> zlen body <= BUFFER_SIZE - 10 ->
  answered s (respond s w) TPM_RC_SUCCESS body.
Proof.
  intros Hw Hb Hlen. pose proof Hw as []. destruct dw_resp0 as [Hl Hr].
  unfold respond. rewrite marshals_ok; [|done|done|done|by rewrite Hl].
  change TPM_RSP_HEADER_SIZE with 10.
  destruct (wput_ok (response_buffer s) 10 body) as (m & E & ->); [lia|lia|].
  apply (answered_core _ m). apply build_success_answered; [|done|].
  - apply response_buffer_wf; [done|]. exact (array_wf_store _ _ _ _ _ (conj Hl Hr) Hb E).
  - fields. by apply load_store_same in E.
Qed.

(** ** Frames: what the NV operations leave *)
Record dev_frame (s s' : TPM2State) : Prop := {
  df_sens : primary_sensitive s' = primary_sensitive s;
  df_cmd : command_buffer s' = command_buffer s;
  df_resp : response_buffer s' = response_buffer s;
  df_rand : random_data s' = random_data s;
  df_sps : sps s' = sps s;
  df_pps : pps s' = pps s;
  df_eps : eps s' = eps s;
  df_mode : tpm_mode s' = tpm_mode s;
  df_size : cmd_size s' = cmd_size s;
  df_handle : next_transient_handle s' = next_transient_handle s;
  df_state : state s' = state s;
  df_rsize : resp_size s' = resp_size s;
  df_ridx : resp_idx s' = resp_idx s;
  df_calls : rand_calls s' = rand_calls s
}.

Lemma dev_frame_refl s : dev_frame s s.
Proof. done. Qed.
#[export] Hint Resolve dev_frame_refl : tpm.

Lemma dev_frame_wf s s' : dev_frame s s' -> nv_wf s' -> dev_wf s -> dev_wf s'.
Proof.
  intros [] Hn [].
  split; unfold key_wf in *; rewrite ?df_sens0, ?df_cmd0, ?df_resp0, ?df_rand0, ?df_sps0,
    ?df_pps0, ?df_eps0, ?df_mode0, ?df_size0, ?df_handle0, ?df_state0; try done.
  intros Hs. destruct (dw_sending0 Hs) as []. split; by rewrite ?df_rsize0, ?df_ridx0.
Qed.

Lemma define_frame s ah auth pub rc s' :
  tpm2_nv_define_space s ah auth pub = Some (rc, s') -> dev_frame s s'.
Proof.
  unfold tpm2_nv_define_space, nv_entry_alloc. intros H.
  destruct (negb _); [by simplify_eq|].
  destruct (nv_bank s) as [bank|]; [|by simplify_eq].
  destruct (_ <? _); [by simplify_eq|].
  destruct (store bank _ _) as [b1|]; [|done].
  destruct (store b1 _ _) as [b2|]; [|done].
  injection H as <- <-. split; by fields.
Qed.

Section Frames.
Context `{OS : OpenSSL}.

(** A write changes the bank and the table of entries only. *)
Lemma write_shape s ah idx data offset rc s' :
  TPM2_NV_Write s ah idx data offset = Some (rc, s') ->
  s' = s \/ exists bank map, s' = s <| nv_bank := bank |> <| nv_map := map |>.
Proof.
  unfold TPM2_NV_Write. intros H.
  destruct (g_hash_table_lookup _ _) as [e|]; [|left; by simplify_eq].
  destruct (nv_write_checks _ _ _); [left; by simplify_eq|].
  destruct (nv_bank s) as [bank|]; [|done].
  destruct (TPM2_AES_CFB_Crypt _ _ _ _ _ _) as [out|]; [|done].
  destruct (store _ 0 out) as [ct|]; [|done].
  destruct (_ <=? 0); [left; by simplify_eq|].
  destruct (load bank _ _) as [old|]; [|done].
  destruct (load ct _ _) as [new|]; [|done].
  destruct (if bool_decide _ then _ else _) as [b|]; [|done].
  right. injection H as <- <-. eauto.
Qed.

Lemma write_frame s ah idx data offset rc s' :
  TPM2_NV_Write s ah idx data offset = Some (rc, s') -> dev_frame s s'.
Proof.
  intros [->|(bank & map & ->)]%write_shape; [auto with tpm|split; by fields].
Qed.

Lemma write_counts s ah idx data offset rc s' :
  TPM2_NV_Write s ah idx data offset = Some (rc, s') ->
  nv_count s' = nv_count s /\ nv_alloc_offset s' = nv_alloc_offset s.
Proof. intros [->|(bank & map & ->)]%write_shape; by fields. Qed.
End Frames.

(** ** The bytes of a command *)
Section Handlers.
Context `{OS : OpenSSL, !OpenSSLLaws OS}.
Variable (s : TPM2State).
Hypothesis (Hw : dev_wf s).
Variable (n : Z).
Hypotheses (Hn : 0 <= n) (Hfit : 10 + n <= BUFFER_SIZE).

(** A parser run on the command body ends well or with an error code. *)
Lemma body_sound {A} f (enc : A -> list Z) ok `{!Parser f enc ok} :
  match f (command_buffer s) (Some 10) n with
  | Ok (a, c) => ok a
  | Err rc => rc <> TPM_RC_SUCCESS
  | UB => False
  end.
Proof using Hw Hn Hfit.
  pose proof Hw as []. destruct dw_cmd0 as [Hl Hb]. unfold BUFFER_SIZE in *.
  pose proof (parser_sound (command_buffer s) 10 n Hb) as H.
  destruct (f _ _ _) as [[a c]|rc|]; apply H; lia.
Qed.

Lemma generate_random_wf : dev_wf (tpm2_generate_random s).
Proof using Hw OpenSSLLaws0.
  pose proof Hw as []. unfold tpm2_generate_random.
  destruct (RAND_bytes _ _) as [bs|] eqn:E.
  - apply law_rand in E; [|done].
    split; unfold key_wf in *; fields; try done; [by apply (same_nv_wf s)|].
    intros Hs. by destruct (dw_sending0 Hs).
  - split; unfold key_wf in *; fields; try done; [by apply (same_nv_wf s)|].
    intros Hs. by destruct (dw_sending0 Hs).
Qed.

(** TPM2_GetRandom *)
Lemma handle_GetRandom_ok :
  match Unmarshal_GetRandom (command_buffer s) (Some 10) n with
  | Ok (k, _) =>
      if RANDOM_SIZE <? k then answered s (handle_GetRandom s (Some 10) n) TPM_RC_SIZE []
      else answered (tpm2_generate_random s) (handle_GetRandom s (Some 10) n) TPM_RC_SUCCESS
             (to_be16 k ++ take (Z.to_nat k) (random_data (tpm2_generate_random s)))
  | Err rc => rc <> TPM_RC_SUCCESS /\ answered s (handle_GetRandom s (Some 10) n) rc []
  | UB => False
  end.
Proof using All.
  pose proof (body_sound Unmarshal_UINT16 to_be16 is_u16) as H.
  unfold handle_GetRandom. change Unmarshal_GetRandom with Unmarshal_UINT16.
  destruct (Unmarshal_UINT16 _ _ _) as [[k c]|rc|]; [| |done].
  - unfold is_u16, RANDOM_SIZE in *. destruct (32 <? k) eqn:E.
    + by apply build_error_answered.
    + pose proof generate_random_wf as Hg. pose proof Hg as [].
      destruct dw_rand0 as [Hl Hb]. unfold RANDOM_SIZE in Hl.
      apply respond_answered; [|done|auto with tpm|].
      * apply Marshal_TPM2B_marshals; lia.
      * rewrite zlen_app, zlen_take by lia. change (zlen (to_be16 k)) with 2.
        unfold BUFFER_SIZE. lia.
  - split; [done|]. by apply build_error_answered.
Qed.

Lemma array_with_ok l k : zlen l <= Z.of_nat k -> exists a, array_with k l = Some a.
Proof using.
  intros H. apply store_in; [lia|]. unfold zlen in *. rewrite length_replicate. lia.
Qed.

(** The public area made of the parameters of TPM2_NV_DefineSpace. *)
Definition define_public (p : NV_DefineSpace_Params) (policy : list Z) : TPMS_NV_PUBLIC :=
  {| np_nvIndex := dp_nvIndex p; np_nameAlg := dp_nameAlg p;
     np_attributes := TPMA_NV_of_words (dp_attributes p) (dp_authPolicySize p);
     np_authPolicy := policy; np_authPolicySize := dp_authPolicySize p;
     np_dataSize := dp_dataSize p |}.

(** TPM2_NV_DefineSpace *)
Lemma handle_NV_DefineSpace_ok :
  match Unmarshal_NV_DefineSpace (command_buffer s) (Some 10) n with
  | Ok (p, _) =>
      match provision_handle (dp_authHandle p) with
      | None => answered s (handle_NV_DefineSpace s (Some 10) n) TPM_RC_HANDLE []
      | Some ph => exists auth policy rc s1,
          tpm2_nv_define_space s ph auth (define_public p policy) = Some (rc, s1) /\
          dev_frame s s1 /\ nv_wf s1 /\
          answered s1 (handle_NV_DefineSpace s (Some 10) n) rc []
      end
  | Err rc => rc <> TPM_RC_SUCCESS /\ answered s (handle_NV_DefineSpace s (Some 10) n) rc []
  | UB => False
  end.
Proof using All.
  pose proof (body_sound Unmarshal_NV_DefineSpace enc_NV_DefineSpace ok_NV_DefineSpace) as H.
  unfold handle_NV_DefineSpace.
  destruct (Unmarshal_NV_DefineSpace _ _ _) as [[p c]|rc|]; [| |done].
  2:{ split; [done|]. by apply build_error_answered. }
  destruct (provision_handle _) as [ph|]; [|by apply build_error_answered].
  destruct H as (_ & (_ & _ & _ & Ha) & _ & _ & _ & _ & (_ & _ & _ & Hp) & Hd).
  destruct (array_with_ok (dp_auth p) 64 Ha) as [auth ->].
  destruct (array_with_ok (dp_authPolicy p) 64 Hp) as [policy ->].
  fold (define_public p policy). pose proof Hw as [].
  destruct (nv_define_contract s ph {| b_size := dp_authSize p; b_buffer := auth |}
    (define_public p policy) dw_nv0 Hd) as (rc & s1 & E & Hn1 & _).
  exists {| b_size := dp_authSize p; b_buffer := auth |}, policy, rc, s1.
  pose proof (define_frame _ _ _ _ _ _ E) as Hf. split_and!; try done.
  rewrite E. pose proof (dev_frame_wf s s1 Hf Hn1 Hw) as Hw1.
  destruct (Z.eq_dec rc TPM_RC_SUCCESS) as [->|Hrc].
  - apply (build_success_answered s1 []); [done|done|].
    pose proof Hw1 as []. destruct dw_resp1 as [Hl _]. apply load_empty. by rewrite Hl.
  - replace (rc =? TPM_RC_SUCCESS) with false by lia. by apply build_error_answered.
Qed.

(** Marking the entry written again changes nothing. *)
Lemma mark_written_same ph idx data offset bs s0 :
  (forall c, nv_abs s !! idx = Some c -> offset <= np_dataSize (c_pub c)) ->
  is_u16 offset -> is_u16 (b_size data) ->
  load (b_buffer data) 0 (b_size data) = Some bs ->
  TPM2_NV_Write s ph idx data offset = Some (TPM_RC_SUCCESS, s0) ->
  alter (fun e => e <| e_written := true |>) idx <$> nv_map s0 = nv_map s0.
Proof using All.
  intros Hend Ho Hd Hbs E. pose proof Hw as []. destruct dw_nv0 as (bank & m & Hs).
  destruct (nv_write_inv _ _ _ _ _ _ _ _ _ Hs dw_key0 Ho Hd Hbs E)
    as (e & He & [[Hlt _]|(k & bank' & _ & _ & _ & ->)]).
  { specialize (Hend (cell_of bank e)). rewrite (nv_abs_lookup s bank m idx Hs), He in Hend.
    specialize (Hend eq_refl). destruct (entry_ok s bank m Hs idx e He). simpl in Hend. lia. }
  change (nv_map (write_state s m idx e bank')) with (Some (<[idx := written_entry e]> m)).
  simpl. f_equal. rewrite alter_insert_eq. reflexivity.
Qed.

(** TPM2_NV_Write: the outcome of the storage operation is the reply. *)
Lemma handle_NV_Write_ok :
  match Unmarshal_NV_Write (command_buffer s) (Some 10) n with
  | Ok (p, _) =>
      match nv_abs s !! wp_nvIndex p with
      | None => answered s (handle_NV_Write s (Some 10) n) TPM_RC_HANDLE []
      | Some c =>
          if np_dataSize (c_pub c) <? wp_offset p + b_size (wp_data p)
          then answered s (handle_NV_Write s (Some 10) n) TPM_RC_NV_RANGE []
          else match provision_handle (wp_authHandle p) with
               | None => answered s (handle_NV_Write s (Some 10) n) TPM_RC_HANDLE []
               | Some ph => exists rc s0 s1,
                   TPM2_NV_Write s ph (wp_nvIndex p) (wp_data p) (wp_offset p) =
                     Some (rc, s0) /\
                   same_nv s0 s1 /\ dev_frame s s1 /\ nv_wf s1 /\
                   answered s1 (handle_NV_Write s (Some 10) n) rc []
               end
      end
  | Err rc => rc <> TPM_RC_SUCCESS /\ answered s (handle_NV_Write s (Some 10) n) rc []
  | UB => False
  end.
Proof using All.
  pose proof (body_sound Unmarshal_NV_Write enc_NV_Write ok_NV_Write) as H.
  unfold handle_NV_Write.
  destruct (Unmarshal_NV_Write _ _ _) as [[p c]|rc|]; [| |done].
  2:{ split; [done|]. by apply build_error_answered. }
  destruct H as (_ & _ & (Hsz & Hd & Hb & Hmax) & Ho).
  pose proof Hw as []. pose proof dw_nv0 as (bank & m & Hs).
  rewrite (nv_abs_lookup s bank m _ Hs). pose proof Hs as [].
  unfold g_hash_table_lookup. rewrite na_map. simpl mbind.
  destruct (m !! wp_nvIndex p) as [e|] eqn:He; simpl; [|by apply build_error_answered].
  rewrite u32_id by (unfold is_u16, is_u32 in *; lia).
  destruct (_ <? _) eqn:Er; [by apply build_error_answered|].
  destruct (provision_handle _) as [ph|]; [|by apply build_error_answered].
  assert (Hend : forall c, nv_abs s !! wp_nvIndex p = Some c -> wp_offset p <= np_dataSize (c_pub c)).
  { intros c'. rewrite (nv_abs_lookup s bank m _ Hs), He. intros [= <-]. unfold is_u16 in *. simpl. lia. }
  assert (Hbs : load (b_buffer (wp_data p)) 0 (b_size (wp_data p)) = Some (b_buffer (wp_data p))).
  { rewrite Hsz. apply load_all. }
  destruct (nv_write_contract s ph (wp_nvIndex p) (wp_data p) (wp_offset p) _ dw_nv0 dw_key0
    Ho Hd Hbs Hb) as (rc & s0 & E & Hn0 & _).
  exists rc, s0. rewrite E. pose proof (write_frame _ _ _ _ _ _ _ E) as Hf.
  pose proof (dev_frame_wf s s0 Hf Hn0 Hw) as Hw0.
  destruct (Z.eq_dec rc TPM_RC_SUCCESS) as [->|Hrc].
  - rewrite (mark_written_same _ _ _ _ _ _ Hend Ho Hd Hbs E).
    set (s1 := s0 <| nv_map := nv_map s0 |> <| nv_dirty := true |>).
    assert (Hf1 : dev_frame s s1) by (destruct Hf; split; unfold s1; by fields).
    assert (Hn1 : nv_wf s1) by (by apply (same_nv_wf s0)).
    exists s1. split_and!; try done.
    pose proof (dev_frame_wf s s1 Hf1 Hn1 Hw) as Hw1.
    apply (build_success_answered s1 []); [done|done|].
    destruct Hw1 as []. destruct dw_resp1 as [Hl _]. apply load_empty. by rewrite Hl.
  - exists s0. split_and!; try done.
    replace (rc =? TPM_RC_SUCCESS) with false by lia. by apply build_error_answered.
Qed.

(** The reply of TPM2_NV_Read: [BUFFER_SIZE - 12] bytes fit. *)
Lemma respond_NV_Read len buf :
  0 < len <= MAX_NV_BUFFER_SIZE -> zlen buf = MAX_NV_BUFFER_SIZE ->
  bytes (take (Z.to_nat len) buf) ->
  let o := respond s (fun m p n => Marshal_NV_Read_Response m p n
                        {| b_size := len; b_buffer := buf |}) in
  if BUFFER_SIZE - 12 <? len then answered s o TPM_RC_INSUFFICIENT []
  else answered s o TPM_RC_SUCCESS (to_be16 len ++ take (Z.to_nat len) buf).
Proof using Hw.
  intros Hl Hb Hbt. cbv zeta. unfold MAX_NV_BUFFER_SIZE in Hl.
  assert (Hu : is_u16 (b_size {| b_size := len; b_buffer := buf |}))
    by (unfold is_u16; simpl; lia).
  pose proof Hw as []. pose proof dw_resp0 as [Hz _].
  destruct (BUFFER_SIZE - 12 <? len) eqn:E; unfold BUFFER_SIZE in *.
  - unfold respond. rewrite Marshal_NV_Read_Response_spec;
      [|done|done|done|done|done|by rewrite Hz].
    cbn [b_size b_buffer]. change (BUFFER_SIZE - TPM_RSP_HEADER_SIZE) with 1014.
    unfold MAX_NV_BUFFER_SIZE. replace (len + 2 <=? 1014) with false by lia.
    rewrite andb_false_r. replace (1024 <? len) with false by lia.
    destruct (store_in (response_buffer s) TPM_RSP_HEADER_SIZE (to_be16 len)) as [m Hst];
      [done|by rewrite Hz|]. rewrite Hst.
    apply (answered_core _ m). apply build_error_answered; [|done].
    apply response_buffer_wf; [done|].
    refine (array_wf_store _ _ _ _ _ dw_resp0 _ Hst). auto with tpm.
  - apply respond_answered; [|done|auto with tpm|].
    + split. intros m p k Hp Hk Hmax Hm. rewrite zlen_app in Hk.
      rewrite zlen_take in Hk by lia. change (zlen (to_be16 len)) with 2 in Hk.
      unfold MAX_NV_BUFFER_SIZE in Hb.
      rewrite Marshal_NV_Read_Response_spec by (done || lia). cbn [b_size b_buffer].
      unfold MAX_NV_BUFFER_SIZE. by replace ((len <=? 1024) && (len + 2 <=? k)) with true by lia.
    + rewrite zlen_app, zlen_take by lia. change (zlen (to_be16 len)) with 2.
      unfold BUFFER_SIZE. lia.
Qed.

Lemma bytes_decrypt k data : bytes data -> bytes (nv_decrypt k data).
Proof using. intros. apply cfb_bytes; [apply law_aes_block|apply bytes_nil|done]. Qed.

(** TPM2_NV_Read *)
Definition read_reply (k : list Z) (c : cell) (offset len : Z) : list Z :=
  nv_decrypt k (take (Z.to_nat len) (drop (Z.to_nat offset) (c_bytes c))).

Lemma handle_NV_Read_ok :
  match Unmarshal_NV_Read (command_buffer s) (Some 10) n with
  | Ok (p, _) =>
      let len := rp_sizeToRead p in
      let o := handle_NV_Read s (Some 10) n in
      match nv_abs s !! rp_nvIndex p with
      | None => answered s o TPM_RC_HANDLE []
      | Some c =>
          if negb (c_written c) then answered s o TPM_RC_NV_UNINITIALIZED []
          else if np_dataSize (c_pub c) <? rp_offset p + len
          then answered s o TPM_RC_NV_RANGE []
          else match nv_key s with
               | None => answered s o TPM_RC_FAILURE []
               | Some k =>
                   if len =? 0 then answered s o TPM_RC_FAILURE []
                   else if MAX_NV_BUFFER_SIZE <? len then o = None
                   else if BUFFER_SIZE - 12 <? len then answered s o TPM_RC_INSUFFICIENT []
                   else answered s o TPM_RC_SUCCESS
                          (to_be16 len ++ read_reply k c (rp_offset p) len)
               end
      end
  | Err rc => rc <> TPM_RC_SUCCESS /\ answered s (handle_NV_Read s (Some 10) n) rc []
  | UB => False
  end.
Proof using All.
  pose proof (body_sound Unmarshal_NV_Read enc_NV_Read ok_NV_Read) as H.
  unfold handle_NV_Read.
  destruct (Unmarshal_NV_Read _ _ _) as [[p c]|rc|]; [| |done].
  2:{ split; [done|]. by apply build_error_answered. }
  destruct H as (_ & _ & Hl & Ho). cbv zeta.
  pose proof Hw as []. pose proof dw_nv0 as (bank & m & Hs).
  rewrite (nv_abs_lookup s bank m _ Hs). pose proof Hs as [].
  unfold g_hash_table_lookup. rewrite na_map. simpl mbind.
  destruct (m !! rp_nvIndex p) as [e|] eqn:He; [|by apply build_error_answered].
  change (cell_of bank <$> Some e) with (Some (cell_of bank e)). cbv iota.
  cbn [cell_of c_written c_pub].
  destruct (negb (e_written e)); [by apply build_error_answered|].
  unfold is_u16 in Hl, Ho. rewrite u32_id by (unfold is_u32 in *; lia).
  destruct (_ <? _) eqn:Er; [by apply build_error_answered|].
  pose proof (na_entries _ _ He) as []. rewrite ew_readLocked.
  rewrite (nv_read_spec s bank m (rp_nvIndex p)) by done.
  rewrite ew_len, Er.
  destruct (nv_key s) as [k|]; [|by apply build_error_answered]. cbv zeta.
  set (pt := nv_decrypt k _).
  assert (Hpt : zlen pt = rp_sizeToRead p).
  { unfold pt. rewrite zlen_decrypt, zlen_take, zlen_drop by lia. unfold cell_of. simpl.
    rewrite load_in by (unfold is_u16 in *; lia). simpl.
    rewrite zlen_take, zlen_drop by (unfold is_u16 in *; lia). unfold is_u16 in *. lia. }
  destruct (rp_sizeToRead p =? 0) eqn:E0.
  { replace pt with (@nil Z) by (symmetry; apply length_zero_iff_nil; unfold zlen in Hpt; lia).
    rewrite store_nil by done. replace (0 <? rp_sizeToRead p) with false by lia.
    by apply build_error_answered. }
  replace (0 <? rp_sizeToRead p) with true by lia.
  destruct (MAX_NV_BUFFER_SIZE <? rp_sizeToRead p) eqn:Emax.
  { rewrite store_oob; [done|]. rewrite Hpt, zlen_replicate by done. lia. }
  destruct (store_in (replicate (Z.to_nat MAX_NV_BUFFER_SIZE) 0) 0 pt) as [buf Hbuf];
    [done|rewrite zlen_replicate by done; lia|].
  rewrite Hbuf. change (negb (TPM_RC_SUCCESS =? TPM_RC_SUCCESS)) with false. cbv iota.
  assert (Hbl : zlen buf = MAX_NV_BUFFER_SIZE)
    by (rewrite (store_zlen _ _ _ _ Hbuf), zlen_replicate; done).
  assert (Htake : take (Z.to_nat (rp_sizeToRead p)) buf = pt).
  { pose proof (load_store_same _ _ _ _ Hbuf) as L. rewrite Hpt, load_prefix in L by lia.
    congruence. }
  change (read_reply k (cell_of bank e) (rp_offset p) (rp_sizeToRead p)) with pt.
  rewrite <- Htake. apply respond_NV_Read; [lia|done|]. rewrite Htake.
  apply bytes_decrypt. apply bytes_take, bytes_drop. unfold cell_of. simpl.
  rewrite load_in by (unfold is_u16 in *; lia). simpl. auto with tpm.
Qed.
End Handlers.

(** ** TPM2_CreatePrimary *)
Definition CreatePrimary_body (handle hierarchy : Z) (pub name : list Z) : list Z :=
  to_be32 handle ++ (to_be16 (zlen pub) ++ pub) ++ [0; 0] ++ [0; 0] ++
  to_be16 TPM_ST_CREATION ++ to_be32 hierarchy ++ [0; 0] ++ (to_be16 (zlen name) ++ name).

Lemma sized_array k l a :
  array_with k l = Some a -> zlen l < 65536 ->
  sized_ok (zlen l) a /\ sized (zlen l) a = to_be16 (zlen l) ++ l.
Proof.
  intros Ha Hl. pose proof (store_zlen _ _ _ _ Ha) as Hz.
  pose proof (load_store_same _ _ _ _ Ha) as L. pose proof (zlen_nonneg l).
  assert (zlen l <= zlen a).
  { apply store_Some in Ha as (_ & Hle & _). lia. }
  rewrite load_prefix in L by lia. injection L as L.
  split; [split; lia|]. unfold sized. by rewrite L.
Qed.

Lemma CreatePrimary_response_ok h ph pub name nm :
  zlen pub <= 512 -> load (b_buffer name) 0 (b_size name) = Some nm -> b_size name <= 64 ->
  exists r, CreatePrimary_response h ph pub name = Some r /\
    Marshals (fun m p n => Marshal_CreatePrimary_Response m p n r)
      (CreatePrimary_body h ph pub nm).
Proof.
  intros Hp Hs Hn. unfold CreatePrimary_response. pose proof (zlen_nonneg pub).
  destruct (array_with_ok pub 512 Hp) as [ap Ep]. rewrite Ep.
  rewrite Hs. rewrite <- (load_zlen _ _ _ _ Hs) in *.
  destruct (array_with_ok nm 64) as [an En]; [lia|]. rewrite En.
  eexists. split; [done|].
  assert (Hu : u16 (zlen pub) = zlen pub) by (apply u16_id; unfold is_u16; lia).
  rewrite Hu.
  destruct (sized_array _ _ _ Ep) as [O1 S1]; [lia|].
  destruct (sized_array _ _ _ En) as [O2 S2]; [lia|].
  match goal with |- Marshals (fun m p n => Marshal_CreatePrimary_Response m p n ?r) _ =>
    pose proof (Marshal_CreatePrimary_marshals r O1) as HM;
    replace (CreatePrimary_body h ph pub nm) with (enc_CreatePrimary_Response r)
  end.
  - apply HM; [by repeat split..|exact O2].
  - unfold enc_CreatePrimary_Response, CreatePrimary_body.
    cbn [cr_objectHandle cr_outPublicSize cr_outPublic cr_creationDataSize cr_creationData
      cr_creationHashSize cr_creationHash cr_creationTicketTag cr_creationTicketHierarchy
      cr_creationTicketDigestSize cr_creationTicketDigest cr_nameSize cr_name].
    rewrite S1, S2. done.
Qed.

Lemma CreatePrimary_inSensitive_spec p :
  ok_CreatePrimary p ->
  match CreatePrimary_inSensitive p with
  | Some _ => cp_dataSize p <= MAX_SYM_DATA
  | None => MAX_SYM_DATA < cp_dataSize p
  end.
Proof.
  intros (_ & _ & _ & (A1 & A2 & A3 & A4) & (D1 & D2 & D3 & D4) & _).
  cbn [fst snd] in *. unfold CreatePrimary_inSensitive.
  rewrite A1, D1, !load_all. pose proof (zlen_nonneg (cp_data p)).
  destruct (array_with_ok (cp_userAuth p) 64) as [a Ea]; [lia|].
  unfold array_with in Ea. rewrite Ea.
  assert (Hif : forall (b : bool) (x y : TPM2B), (if b then Some x else Some y) =
    Some (if b then x else y)) by (by intros []).
  rewrite Hif. destruct (0 <? zlen (cp_data p)) eqn:E.
  - destruct (Z.leb_spec (zlen (cp_data p)) MAX_SYM_DATA) as [Hle|Hgt].
    + destruct (array_with_ok (cp_data p) (Z.to_nat MAX_SYM_DATA)) as [d Ed];
        [unfold MAX_SYM_DATA in *; lia|]. unfold array_with in Ed. by rewrite Ed.
    + rewrite store_oob; [done|]. rewrite zlen_replicate by done. lia.
  - unfold MAX_SYM_DATA. lia.
Qed.

Lemma CreatePrimary_inPublic_zero m p pub :
  CreatePrimary_inPublic m p = Ok pub ->
  pa_unique_x pub = TPM2B_zero 64 /\ pa_unique_y pub = TPM2B_zero 64.
Proof.
  unfold CreatePrimary_inPublic, mbind, res_bind. intros H.
  repeat case_match; by simplify_eq/=.
Qed.

Lemma CreatePrimary_inPublic_no_err m p rc : CreatePrimary_inPublic m p <> Err rc.
Proof.
  unfold CreatePrimary_inPublic, mbind, res_bind, ld16, ld32.
  repeat (case_match; try done).
Qed.

Section CreatePrimary.
Context `{OS : OpenSSL, !OpenSSLLaws OS, LY : Layout}.

(** The public area in the reply: 86 bytes. *)
Definition public_bytes (p : TPMT_PUBLIC) (x y : list Z) : list Z :=
  (to_be16 (pa_type p) ++ to_be16 (pa_nameAlg p) ++ to_be32 (pa_objectAttributes p) ++ [0; 0]) ++
  [0; 16] ++ [0; 16] ++ to_be16 (pa_curveID p) ++ [0; 16] ++
  to_be16 32 ++ x ++ to_be16 32 ++ y.

(** The coordinates of the public point that belongs to a seed. *)
Definition primary_point (seed : list Z) : list Z * list Z :=
  let grp := EC_GROUP_new_by_curve_name NID_X9_62_prime256v1 in
  let '(x, y) := EC_POINT_get_affine_coordinates grp
                   (EC_POINT_mul grp (BN_bin2bn (primary_priv seed))) in
  (BN_bn2binpad x 32, BN_bn2binpad y 32).

Lemma primary_point_wf seed :
  array_wf (fst (primary_point seed)) 32 /\ array_wf (snd (primary_point seed)) 32.
Proof using OpenSSLLaws0.
  unfold primary_point. destruct (EC_POINT_get_affine_coordinates _ _) as [x y].
  split; by apply law_bn2binpad.
Qed.

Lemma CreatePrimary_outPublic_ok tmpl seed :
  pa_type tmpl = TPM_ALG_ECC -> pa_unique_x tmpl = TPM2B_zero 64 ->
  pa_unique_y tmpl = TPM2B_zero 64 ->
  CreatePrimary_outPublic (primary_pub tmpl seed) =
    Some (public_bytes tmpl (fst (primary_point seed)) (snd (primary_point seed))).
Proof using OpenSSLLaws0.
  intros Ht Hx Hy. unfold CreatePrimary_outPublic, primary_pub, primary_point.
  destruct (EC_POINT_get_affine_coordinates _ _) as [x y].
  destruct (law_bn2binpad x 32 ltac:(lia)) as [X1 X2].
  destruct (law_bn2binpad y 32 ltac:(lia)) as [Y1 Y2].
  cbn [pa_type pa_nameAlg pa_objectAttributes pa_curveID pa_unique_x pa_unique_y
       b_size b_buffer fst snd]. rewrite Ht, Hx, Hy.
  change (TPM_ALG_ECC =? TPM_ALG_ECC) with true. cbv iota.
  assert (Hpre : forall l r, zlen l = 32 -> load (l ++ r) 0 32 = Some l)
    by (intros l r <-; apply load_app_prefix).
  rewrite !Hpre by done.
  replace (zlen _ <=? 512) with true; [unfold public_bytes; by rewrite Ht|].
  autorewrite with zlen. rewrite X1, Y1. done.
Qed.

(** The states a TPM2_CreatePrimary leaves. *)
Definition with_handle (s : TPM2State) : TPM2State :=
  s <| next_transient_handle := u32 (next_transient_handle s + 1) |>.
Definition created (s : TPM2State) (sc : TPM2B_SENSITIVE_CREATE) (tmpl : TPMT_PUBLIC)
    (seed : list Z) : TPM2State :=
  with_handle s
    <| primary_sensitive := primary_sens TPM_ALG_ECC (sc_userAuth sc) seed |>
    <| primary_public := primary_pub tmpl seed |> <| primary_name_size := 34 |>.
Definition wiped (s : TPM2State) (sc : TPM2B_SENSITIVE_CREATE) (tmpl : TPMT_PUBLIC)
    (seed : list Z) : TPM2State :=
  with_handle s <| primary_sensitive :=
    {| ss_sensitiveType := pa_type tmpl; ss_authValue := sc_userAuth sc;
       ss_seedValue := {| b_size := 32; b_buffer := seed ++ replicate 32 0 |};
       ss_ecc := TPM2B_zero 64 |} |>.

(** The invariant does not depend on the fields TPM2_CreatePrimary sets. *)
Lemma primary_wf s s' :
  dev_wf s -> same_nv s s' -> key_wf s' -> is_u32 (next_transient_handle s') ->
  command_buffer s' = command_buffer s -> response_buffer s' = response_buffer s ->
  random_data s' = random_data s -> sps s' = sps s -> pps s' = pps s -> eps s' = eps s ->
  tpm_mode s' = tpm_mode s -> cmd_size s' = cmd_size s -> state s' = state s ->
  resp_size s' = resp_size s -> resp_idx s' = resp_idx s -> dev_wf s'.
Proof using.
  intros [] Hn Hk Hh E1 E2 E3 E4 E5 E6 E7 E8 E9 E10 E11.
  split; rewrite ?E1, ?E2, ?E3, ?E4, ?E5, ?E6, ?E7, ?E8, ?E9; try done.
  - by apply (same_nv_wf s).
  - intros Hs. destruct (dw_sending0 Hs). split; by rewrite ?E10, ?E11.
Qed.

Lemma with_handle_wf s : dev_wf s -> dev_wf (with_handle s).
Proof using.
  intros Hw. pose proof Hw as []. apply (primary_wf s); try done. apply u32_range.
Qed.
Lemma created_wf s sc tmpl seed : dev_wf s -> dev_wf (created s sc tmpl seed).
Proof using OpenSSLLaws0.
  intros Hw. apply (primary_wf s); try done; [|apply u32_range].
  unfold key_wf, created. fields. unfold primary_sens. simpl.
  destruct (primary_priv_size seed) as [Hz _]. rewrite zlen_app, Hz. done.
Qed.
Lemma wiped_wf s sc tmpl seed : dev_wf s -> dev_wf (wiped s sc tmpl seed).
Proof using. intros Hw. apply (primary_wf s); try done. apply u32_range. Qed.

Lemma hierarchy_seed_len s h seed : dev_wf s -> hierarchy_seed s h = Some seed -> zlen seed = 32.
Proof using.
  intros [] H. unfold hierarchy_seed in H. guards; by simplify_eq.
Qed.

Lemma public_bytes_wf pub x y :
  array_wf x 32 -> array_wf y 32 -> array_wf (public_bytes pub x y) 86.
Proof using.
  intros [X1 X2] [Y1 Y2]. unfold public_bytes. split.
  - autorewrite with zlen. rewrite X1, Y1. done.
  - repeat apply bytes_app; auto with tpm; apply (bool_decide_unpack _); by vm_compute.
Qed.

Lemma handle_CreatePrimary_ok s n :
  dev_wf s -> 0 <= n -> 10 + n <= BUFFER_SIZE ->
  match Unmarshal_CreatePrimary (command_buffer s) (Some 10) n with
  | Ok (p, c) =>
      let o := handle_CreatePrimary s (Some 10) n in
      match CreatePrimary_inPublic (command_buffer s) (10 + c - cp_inPublicSize p),
            CreatePrimary_inSensitive p with
      | Ok pub, Some sc =>
          match hierarchy_seed s (cp_primaryHandle p) with
          | None => answered (with_handle s) o TPM_RC_HIERARCHY []
          | Some seed =>
              if pa_type pub =? TPM_ALG_ECC then
                let '(x, y) := primary_point seed in
                if 34 <=? zlen handler_frame then
                  answered (created s sc pub seed) o TPM_RC_SUCCESS
                    (CreatePrimary_body (Z.lor 0x80000000 (next_transient_handle s))
                       (cp_primaryHandle p) (public_bytes pub x y) (primary_name pub seed))
                else o = None
              else answered (wiped s sc pub seed) o TPM_RC_ASYMMETRIC []
          end
      | _, _ => o = None
      end
  | Err rc => rc <> TPM_RC_SUCCESS /\ answered s (handle_CreatePrimary s (Some 10) n) rc []
  | UB => False
  end.
Proof using OpenSSLLaws0.
  intros Hw Hn Hfit. pose proof Hw as []. pose proof dw_cmd0 as [Hl Hb].
  pose proof (Unmarshal_CreatePrimary_sound (command_buffer s) 10 n Hb) as H.
  unfold handle_CreatePrimary, BUFFER_SIZE in *.
  destruct (Unmarshal_CreatePrimary _ _ _) as [[p c]|rc|]; [| |apply H; lia].
  2:{ assert (rc <> TPM_RC_SUCCESS) by (apply H; lia). split; [done|].
      by apply build_error_answered. }
  clear H. cbv zeta.
  destruct (CreatePrimary_inPublic _ _) as [pub| |] eqn:Ep;
    [|exfalso; by eapply CreatePrimary_inPublic_no_err|by destruct (CreatePrimary_inSensitive p)].
  destruct (CreatePrimary_inSensitive p) as [sc|]; [|done].
  destruct (CreatePrimary_inPublic_zero _ _ _ Ep) as [Hx Hy].
  fold (with_handle s).
  assert (Hh : hierarchy_seed (with_handle s) (cp_primaryHandle p) =
    hierarchy_seed s (cp_primaryHandle p)) by done.
  destruct (hierarchy_seed s (cp_primaryHandle p)) as [seed|] eqn:Es.
  2:{ rewrite tpm2_CreatePrimary_hierarchy by done. cbn [negb Z.eqb].
      apply build_error_answered; [by apply with_handle_wf|done]. }
  pose proof (hierarchy_seed_len _ _ _ Hw Es) as Hsl.
  destruct (pa_type pub =? TPM_ALG_ECC) eqn:Et.
  2:{ rewrite (tpm2_CreatePrimary_asymmetric _ _ _ _ _ _ seed) by (done || lia).
      apply build_error_answered; [by apply wiped_wf|done]. }
  rewrite (tpm2_CreatePrimary_ok _ _ _ _ _ _ seed) by (done || lia || (by rewrite ?Hx, ?Hy)).
  cbn [b_buffer b_size].
  pose proof (CreatePrimary_outPublic_ok pub seed ltac:(lia) Hx Hy) as Eo.
  destruct (primary_point_wf seed) as [Wx Wy]. destruct (primary_point seed) as [x y].
  cbn [fst snd] in *. destruct (34 <=? zlen handler_frame) eqn:Ef; [|done].
  change (negb (TPM_RC_SUCCESS =? TPM_RC_SUCCESS)) with false. cbv iota. rewrite Eo.
  destruct (public_bytes_wf pub x y Wx Wy) as [Pl Pb].
  destruct (primary_name_wf pub seed) as [Nl Nb].
  destruct (CreatePrimary_response_ok (Z.lor 0x80000000 (next_transient_handle s))
    (cp_primaryHandle p) (public_bytes pub x y)
    {| b_size := 34; b_buffer := primary_name pub seed ++ drop 34 handler_frame |}
    (primary_name pub seed)) as (r & Er & HM);
    [lia|cbn [b_buffer b_size]; rewrite <- Nl; apply load_app_prefix|done|].
  rewrite Er. apply respond_answered; [done| | |].
  - by apply created_wf.
  - unfold CreatePrimary_body. cbn [b_buffer]. auto 15 with tpm.
  - unfold CreatePrimary_body. cbn [b_buffer]. autorewrite with zlen. rewrite Pl, Nl. done.
Qed.
End CreatePrimary.
