(* ===== verification/DeviceSteps.v ===== *)
(** * Register accesses

    Every access to a register of the device keeps the invariant of
    [DeviceInv]; the commands whose handling leaves an array are characterized
    exactly, all others end in a reply that the client can decode. *)
From stdpp Require Import base list numbers gmap relations.
From S2P Require Import Prelude Constants State Codec Header Unmarshal Marshal OpenSSL Crypto Nv NvRefine Device DeviceInv.

Section Steps.
Context `{OS : OpenSSL, !OpenSSLLaws OS, LY : Layout}.

(** ** The accesses as steps *)
Inductive mmio_step (s : TPM2State) : TPM2State -> Prop :=
| step_read addr v s' : tpm2_mmio_read s addr = Some (v, s') -> mmio_step s s'
| step_write addr v s' : tpm2_mmio_write s addr v = Some s' -> mmio_step s s'
| step_reset : mmio_step s (tpm2_reset s).

Inductive reachable : TPM2State -> Prop :=
| reach_realize s : tpm2_realize true TPM2State_zero = Some (true, s) -> reachable s
| reach_step s s' : reachable s -> mmio_step s s' -> reachable s'.

(** ** Commands *)

(** The command with code [code] and [n] bytes behind the header. *)
Definition dispatch (s : TPM2State) (code n : Z) : option TPM2State :=
  if code =? TPM_CC_GetRandom then handle_GetRandom s (Some 10) n
  else if code =? TPM_CC_CreatePrimary then handle_CreatePrimary s (Some 10) n
  else if code =? TPM_CC_NV_DefineSpace then handle_NV_DefineSpace s (Some 10) n
  else if code =? TPM_CC_NV_Write then handle_NV_Write s (Some 10) n
  else if code =? TPM_CC_NV_Read then handle_NV_Read s (Some 10) n
  else build_error_response s TPM_RC_COMMAND_CODE.

(** The parameters with which TPM2_CreatePrimary leaves an array: more than 128
    bytes of sensitive data, a public area that reaches past the command buffer,
    or, where the stack has no room behind the two bytes of [name], all those with
    which it would succeed. *)
Definition create_undefined (s : TPM2State) (n : Z) : Prop :=
  exists p c, Unmarshal_CreatePrimary (command_buffer s) (Some 10) n = Ok (p, c) /\
    (MAX_SYM_DATA < cp_dataSize p \/
     CreatePrimary_inPublic (command_buffer s) (10 + c - cp_inPublicSize p) = UB \/
     exists pub, CreatePrimary_inPublic (command_buffer s) (10 + c - cp_inPublicSize p) = Ok pub /\
       is_Some (hierarchy_seed s (cp_primaryHandle p)) /\ pa_type pub = TPM_ALG_ECC /\
       zlen handler_frame < 34).

(** The same for TPM2_NV_Read: more than 1024 bytes of a written index. *)
Definition read_undefined (s : TPM2State) (n : Z) : Prop :=
  exists p c cell k, Unmarshal_NV_Read (command_buffer s) (Some 10) n = Ok (p, c) /\
    nv_abs s !! rp_nvIndex p = Some cell /\ c_written cell = true /\
    nv_key s = Some k /\
    rp_offset p + rp_sizeToRead p <= np_dataSize (c_pub cell) /\
    MAX_NV_BUFFER_SIZE < rp_sizeToRead p.

Definition command_undefined (s : TPM2State) : Prop :=
  exists h, TPM2_ValidateCommandHeader (command_buffer s) (Some 0) (cmd_size s) = Ok h /\
    (ch_code h = TPM_CC_CreatePrimary /\ create_undefined s (cmd_size s - 10) \/
     ch_code h = TPM_CC_NV_Read /\ read_undefined s (cmd_size s - 10)).

(** A reply is ready, in a well-formed state. *)
Definition replied (s : TPM2State) : Prop :=
  dev_wf s /\ exists rc body, replies s rc body /\ (rc <> TPM_RC_SUCCESS -> body = []).

Definition outcome (o : option TPM2State) (undefined : Prop) : Prop :=
  match o with
  | Some s => replied s /\ ~ undefined
  | None => undefined
  end.

Lemma answered_outcome s o rc body P :
  answered s o rc body -> (rc <> TPM_RC_SUCCESS -> body = []) -> ~ P -> outcome o P.
Proof using.
  intros (m & n & -> & Hr & Hw) Hb HP. split; [|done]. split; [done|]. by exists rc, body.
Qed.

Lemma outcome_iff o P Q : (P <-> Q) -> outcome o P -> outcome o Q.
Proof using. intros HPQ. unfold outcome. destruct o; intuition. Qed.

Ltac replied_as tac :=
  eapply answered_outcome;
    [eassumption|intros; congruence|tac].

(** Each handler ends in a reply or is undefined. *)
Section Outcomes.
Variable (s : TPM2State).
Hypothesis (Hw : dev_wf s).
Variable (n : Z).
Hypotheses (Hn : 0 <= n) (Hfit : 10 + n <= BUFFER_SIZE).

Lemma GetRandom_outcome : outcome (handle_GetRandom s (Some 10) n) False.
Proof using All.
  pose proof (handle_GetRandom_ok s Hw n Hn Hfit) as H.
  destruct (Unmarshal_GetRandom _ _ _) as [[k c]|rc|]; [| |done].
  - destruct (_ <? _); replied_as tauto.
  - destruct H as [Hrc H]. replied_as tauto.
Qed.

Lemma NV_DefineSpace_outcome : outcome (handle_NV_DefineSpace s (Some 10) n) False.
Proof using All.
  pose proof (handle_NV_DefineSpace_ok s Hw n Hn Hfit) as H.
  destruct (Unmarshal_NV_DefineSpace _ _ _) as [[k c]|rc|]; [| |done].
  - destruct (provision_handle _).
    + destruct H as (auth & policy & rc & s1 & _ & _ & _ & H). replied_as tauto.
    + replied_as tauto.
  - destruct H as [Hrc H]. replied_as tauto.
Qed.

Lemma NV_Write_outcome : outcome (handle_NV_Write s (Some 10) n) False.
Proof using All.
  pose proof (handle_NV_Write_ok s Hw n Hn Hfit) as H.
  destruct (Unmarshal_NV_Write _ _ _) as [[k c]|rc|]; [| |done].
  - destruct (nv_abs s !! _); [|replied_as tauto].
    destruct (_ <? _); [replied_as tauto|].
    destruct (provision_handle _); [|replied_as tauto].
    destruct H as (rc & s0 & s1 & _ & _ & _ & _ & H). replied_as tauto.
  - destruct H as [Hrc H]. replied_as tauto.
Qed.

Lemma NV_Read_outcome : outcome (handle_NV_Read s (Some 10) n) (read_undefined s n).
Proof using All.
  pose proof (handle_NV_Read_ok s Hw n Hn Hfit) as H.
  destruct (Unmarshal_NV_Read _ _ _) as [[p c]|rc|] eqn:E; [| |done].
  2:{ destruct H as [Hrc H]. replied_as idtac.
      intros (p & c & cell & k & E' & _). congruence. }
  cbv zeta in H.
  destruct (nv_abs s !! rp_nvIndex p) as [cell|] eqn:Ec.
  2:{ replied_as idtac. intros (p' & c' & cell & k & E' & L & _).
      rewrite E in E'. simplify_eq. }
  assert (Hu : read_undefined s n <-> c_written cell = true /\ is_Some (nv_key s) /\
    rp_offset p + rp_sizeToRead p <= np_dataSize (c_pub cell) /\
    MAX_NV_BUFFER_SIZE < rp_sizeToRead p).
  { split.
    - intros (p' & c' & cell' & k & E' & L & H1 & H2 & H3 & H4).
      rewrite E in E'. simplify_eq.
      split_and!; [assumption|by exists k|assumption|assumption].
    - intros (H1 & [k H2] & H3 & H4). exists p, c, cell, k. tauto. }
  apply (outcome_iff _ _ _ (iff_sym Hu)). clear Hu.
  destruct (c_written cell); simpl in H; [|replied_as idtac; by intros [? _]].
  destruct (_ <? rp_offset p + _) eqn:Er; [replied_as lia|].
  destruct (nv_key s) as [k|]; [|replied_as idtac; by intros (_ & [] & _)].
  unfold MAX_NV_BUFFER_SIZE in *.
  destruct (rp_sizeToRead p =? 0) eqn:E0; [replied_as lia|].
  destruct (1024 <? rp_sizeToRead p) eqn:E1.
  - rewrite H. split_and!; [done|by exists k|lia|lia].
  - destruct (BUFFER_SIZE - 12 <? rp_sizeToRead p); replied_as lia.
Qed.

Lemma CreatePrimary_outcome : outcome (handle_CreatePrimary s (Some 10) n) (create_undefined s n).
Proof using All.
  pose proof (handle_CreatePrimary_ok s n Hw Hn Hfit) as H.
  pose proof Hw as []. destruct dw_cmd as [Hl Hb]. unfold BUFFER_SIZE in *.
  pose proof (Unmarshal_CreatePrimary_sound (command_buffer s) 10 n Hb) as Hs.
  destruct (Unmarshal_CreatePrimary _ _ _) as [[p c]|rc|] eqn:E; [| |done].
  2:{ destruct H as [Hrc H]. replied_as idtac.
      intros (p & c & E' & _). congruence. }
  destruct Hs as [Hok _]; [lia..|].
  pose proof (CreatePrimary_inSensitive_spec p Hok) as Hsc. cbv zeta in H.
  assert (Hu : create_undefined s n <-> (MAX_SYM_DATA < cp_dataSize p \/
     CreatePrimary_inPublic (command_buffer s) (10 + c - cp_inPublicSize p) = UB \/
     exists pub, CreatePrimary_inPublic (command_buffer s) (10 + c - cp_inPublicSize p) = Ok pub /\
       is_Some (hierarchy_seed s (cp_primaryHandle p)) /\ pa_type pub = TPM_ALG_ECC /\
       zlen handler_frame < 34)).
  { split.
    - intros (p' & c' & E' & H'). rewrite E in E'. by simplify_eq.
    - intros H'. exists p, c. tauto. }
  apply (outcome_iff _ _ _ (iff_sym Hu)). clear Hu.
  destruct (CreatePrimary_inPublic _ _) as [pub| |] eqn:Ep;
    [|exfalso; by eapply CreatePrimary_inPublic_no_err|rewrite H; right; by left].
  destruct (CreatePrimary_inSensitive p); [|rewrite H; by left].
  assert (Hno : ~ (hierarchy_seed s (cp_primaryHandle p) <> None /\ pa_type pub = TPM_ALG_ECC /\
    zlen handler_frame < 34) -> ~ (MAX_SYM_DATA < cp_dataSize p \/ @Ok TPMT_PUBLIC pub = UB \/
    exists pub', @Ok TPMT_PUBLIC pub = Ok pub' /\ is_Some (hierarchy_seed s (cp_primaryHandle p)) /\
      pa_type pub' = TPM_ALG_ECC /\ zlen handler_frame < 34)).
  { intros Hn' [|[|(pub' & [= <-] & Hs'%not_eq_None_Some & ? & ?)]]; [lia|done|tauto]. }
  destruct (hierarchy_seed _ _) as [seed|]; [|replied_as ltac:(apply Hno; tauto)].
  destruct (_ =? _) eqn:Et; [|replied_as ltac:(apply Hno; lia)].
  destruct (primary_point seed) as [x y].
  destruct (34 <=? zlen handler_frame) eqn:Ef; [replied_as ltac:(apply Hno; lia)|].
  rewrite H. right. right. exists pub. split_and!; [done|done|lia|lia].
Qed.
End Outcomes.

(** The validation of the header comes first; normal mode lets every command
    pass. *)
Lemma process_command_header s :
  dev_wf s ->
  match TPM2_ValidateCommandHeader (command_buffer s) (Some 0) (cmd_size s) with
  | Ok h => 10 <= cmd_size s /\
      tpm2_process_command s = dispatch s (ch_code h) (cmd_size s - 10)
  | Err rc => rc <> TPM_RC_SUCCESS /\ tpm2_process_command s = build_error_response s rc
  | UB => False
  end.
Proof using.
  intros []. destruct dw_cmd as [Hl Hb]. unfold tpm2_process_command, BUFFER_SIZE in *.
  rewrite dw_mode. unfold TPM2_ValidateMode.
  destruct (header_decode (command_buffer s) 0) as (h & R & L & _); [done|lia|lia|].
  rewrite (validate_encoded _ _ _ h) by done.
  destruct (cmd_size s <? 10) eqn:E; [done|].
  destruct (_ && _); [done|]. destruct (negb _); [done|]. destruct (negb _); [done|].
  split; [lia|]. rewrite u32_id by (unfold is_u32, TPM_CMD_HEADER_SIZE; lia). reflexivity.
Qed.

Lemma dispatch_outcome s code n :
  dev_wf s -> 0 <= n -> 10 + n <= BUFFER_SIZE ->
  outcome (dispatch s code n)
    (code = TPM_CC_CreatePrimary /\ create_undefined s n \/
     code = TPM_CC_NV_Read /\ read_undefined s n).
Proof using All.
  intros Hw Hn Hfit. unfold dispatch.
  assert (Hno : forall c, (code =? c) = true -> c <> TPM_CC_CreatePrimary ->
    c <> TPM_CC_NV_Read -> False <-> (code = TPM_CC_CreatePrimary /\ create_undefined s n \/
      code = TPM_CC_NV_Read /\ read_undefined s n)).
  { intros c E%Z.eqb_eq H1 H2. subst. tauto. }
  destruct (code =? TPM_CC_GetRandom) eqn:E1.
  { eapply outcome_iff; [by apply (Hno _ E1)|by apply GetRandom_outcome]. }
  destruct (code =? TPM_CC_CreatePrimary) eqn:E2.
  { eapply outcome_iff; [|by apply CreatePrimary_outcome]. apply Z.eqb_eq in E2 as ->.
    split; [by left|]. by intros [[_ ?]|[? _]]. }
  destruct (code =? TPM_CC_NV_DefineSpace) eqn:E3.
  { eapply outcome_iff; [by apply (Hno _ E3)|by apply NV_DefineSpace_outcome]. }
  destruct (code =? TPM_CC_NV_Write) eqn:E4.
  { eapply outcome_iff; [by apply (Hno _ E4)|by apply NV_Write_outcome]. }
  destruct (code =? TPM_CC_NV_Read) eqn:E5.
  { eapply outcome_iff; [|by apply NV_Read_outcome]. apply Z.eqb_eq in E5 as ->.
    split; [by right|]. by intros [[? _]|[_ ?]]. }
  pose proof (build_error_answered s TPM_RC_COMMAND_CODE Hw ltac:(done)).
  replied_as lia.
Qed.

Lemma process_command_outcome s :
  dev_wf s -> outcome (tpm2_process_command s) (command_undefined s).
Proof using All.
  intros Hw. pose proof (process_command_header s Hw) as H. pose proof Hw as [].
  destruct (TPM2_ValidateCommandHeader _ _ _) as [h|rc|] eqn:E; [| |done].
  - destruct H as [H10 ->]. eapply outcome_iff; [|apply dispatch_outcome; [done|lia..]].
    unfold command_undefined. split; [by exists h|]. intros (h' & E' & H). rewrite E in E'. by simplify_eq.
  - destruct H as [Hrc ->]. pose proof (build_error_answered s rc Hw Hrc).
    replied_as idtac. intros (h & E' & _). congruence.
Qed.
(** ** Registers *)

(** The invariant ignores the fields that the registers change, within their
    bounds. *)
Lemma dev_wf_regs s s' :
  dev_wf s -> same_nv s s' -> primary_sensitive s' = primary_sensitive s ->
  array_wf (command_buffer s') BUFFER_SIZE -> array_wf (response_buffer s') BUFFER_SIZE ->
  array_wf (random_data s') RANDOM_SIZE -> 0 <= cmd_size s' <= BUFFER_SIZE ->
  sps s' = sps s -> pps s' = pps s -> eps s' = eps s -> tpm_mode s' = tpm_mode s ->
  next_transient_handle s' = next_transient_handle s ->
  (state s' = TPM_STATE_SENDING -> resp_wf s') -> dev_wf s'.
Proof using.
  intros [] Hn Ek Hc Hr Hd Hz E1 E2 E3 E4 E5 Hs.
  split; unfold key_wf in *; rewrite ?E1, ?E2, ?E3, ?E4, ?E5, ?Ek; try done.
  by apply (same_nv_wf s).
Qed.

Lemma array_wf_zero n : 0 <= n -> array_wf (replicate (Z.to_nat n) 0) n.
Proof using. intros H. split; [by apply zlen_replicate|apply bytes_zero]. Qed.

Lemma reset_wf s : dev_wf s -> dev_wf (tpm2_reset s).
Proof using.
  intros Hw. apply (dev_wf_regs s); unfold tpm2_reset, same_nv; fields;
    try (by apply (array_wf_zero BUFFER_SIZE)); try (by apply (array_wf_zero RANDOM_SIZE));
    try assumption; by repeat split.
Qed.

Lemma mmio_read_ok s addr :
  dev_wf s -> exists v s', tpm2_mmio_read s addr = Some (v, s') /\ dev_wf s'.
Proof using.
  intros Hw. unfold tpm2_mmio_read.
  destruct (addr =? TPM2_CTRL_REG); [by eauto|].
  destruct (addr =? TPM2_STATUS_REG); [by eauto|].
  destruct (addr =? TPM2_DATA_REG); [|by eauto].
  destruct (decide (state s = TPM_STATE_SENDING)) as [Hs|Hs];
    [|rewrite bool_decide_eq_false_2 by done; simpl; by eauto].
  rewrite bool_decide_eq_true_2 by done. cbn [negb].
  pose proof Hw as []. destruct (dw_sending Hs) as [Hsz Hi [k Hk]].
  destruct (_ <=? _); [by eauto|]. destruct dw_resp as [Hl Hb]. unfold BUFFER_SIZE in *.
  destruct (ld32_ok (response_buffer s) (resp_idx s)) as (v & -> & _); [done|lia|lia|].
  rewrite u32_id by (unfold is_u32; lia). fields.
  destruct (resp_size s <=? resp_idx s + 4) eqn:E; eexists v, _; (split; [reflexivity|]);
    apply (dev_wf_regs s); fields; try done; try (split; done).
  intros _. split; fields; [done|lia|]. exists (k + 1). lia.
Qed.

(** The command whose size field fits what was received is processed. *)
Definition processing (s : TPM2State) (n : Z) : TPM2State :=
  s <| cmd_size := n |> <| state := TPM_STATE_PROCESSING |>.

Lemma processing_wf s n : dev_wf s -> 0 <= n <= BUFFER_SIZE -> dev_wf (processing s n).
Proof using.
  intros Hw Hn. pose proof Hw as []. apply (dev_wf_regs s); unfold processing; fields; done.
Qed.

Lemma idle_wf s : dev_wf s -> dev_wf (s <| state := TPM_STATE_IDLE |>).
Proof using. intros Hw. pose proof Hw as []. apply (dev_wf_regs s); fields; done. Qed.
Lemma execute_eq s n :
  state s = TPM_STATE_RECEIVING -> ld32 (command_buffer s) 2 = Ok n ->
  tpm2_mmio_write s TPM2_CMD_REG 1 =
    if cmd_size s <? n
    then build_error_response (s <| state := TPM_STATE_IDLE |>) TPM_RC_COMMAND_SIZE
    else tpm2_process_command (processing s n).
Proof using.
  intros Hs Hn. unfold tpm2_mmio_write. cbn [Z.eqb Pos.eqb TPM2_CMD_REG TPM2_CTRL_REG].
  by rewrite bool_decide_eq_true_2, Hn by done.
Qed.

(** A command that is executed gets a reply, or is undefined. *)
Definition execute_undefined (s : TPM2State) : Prop :=
  exists n, ld32 (command_buffer s) 2 = Ok n /\ n <= cmd_size s /\
    command_undefined (processing s n).

Lemma execute_outcome s :
  dev_wf s -> state s = TPM_STATE_RECEIVING ->
  outcome (tpm2_mmio_write s TPM2_CMD_REG 1) (execute_undefined s).
Proof using All.
  intros Hw Hs. pose proof Hw as []. destruct dw_cmd as [Hl Hb]. unfold BUFFER_SIZE in Hl.
  destruct (ld32_ok (command_buffer s) 2) as (n & En & Hn); [done|lia|lia|].
  rewrite (execute_eq s n Hs En). unfold is_u32 in Hn.
  assert (Hu : execute_undefined s <-> n <= cmd_size s /\ command_undefined (processing s n)).
  { split; [|by exists n]. intros (n' & En' & H). rewrite En in En'. by simplify_eq. }
  apply (outcome_iff _ _ _ (iff_sym Hu)). destruct (cmd_size s <? n) eqn:E.
  - pose proof (build_error_answered _ TPM_RC_COMMAND_SIZE (idle_wf s Hw) ltac:(done)).
    replied_as idtac. lia.
  - assert (Hp : dev_wf (processing s n)) by (apply processing_wf; [done|lia]).
    eapply outcome_iff; [|by apply process_command_outcome]. split; [intros; split; [lia|done]|tauto].
Qed.

Lemma mmio_write_ok s addr v :
  dev_wf s ->
  match tpm2_mmio_write s addr v with
  | Some s' => dev_wf s'
  | None => addr = TPM2_CMD_REG /\ v = 1 /\ state s = TPM_STATE_RECEIVING /\ execute_undefined s
  end.
Proof using All.
  intros Hw. pose proof Hw as [].
  destruct (decide (addr = TPM2_CMD_REG /\ v = 1 /\ state s = TPM_STATE_RECEIVING))
    as [(-> & -> & Hs)|Hno].
  { pose proof (execute_outcome s Hw Hs) as H.
    destruct (tpm2_mmio_write _ _ _); [apply H|done]. }
  unfold tpm2_mmio_write.
  destruct (addr =? TPM2_CTRL_REG) eqn:E1.
  { destruct (v =? 1); [apply (dev_wf_regs s); fields; done|].
    destruct (v =? 0); [by apply reset_wf|done]. }
  destruct (addr =? TPM2_CMD_REG) eqn:E2.
  { destruct (v =? 1) eqn:E3; [|done]. apply Z.eqb_eq in E2, E3.
    rewrite bool_decide_eq_false_2 by tauto. by apply idle_wf. }
  destruct (addr =? TPM2_DATA_REG); [|done].
  destruct (negb _) eqn:Es; [done|]. apply negb_false_iff, bool_decide_eq_true in Es.
  unfold BUFFER_SIZE in *. rewrite u32_id by (unfold is_u32; lia).
  destruct (_ <? _) eqn:E; [by apply idle_wf|].
  destruct dw_cmd as [Hl Hb].
  destruct (store_in (command_buffer s) (cmd_size s) (to_be32 (u32 v))) as [buf Hst];
    [lia|rewrite Hl; change (zlen (to_be32 (u32 v))) with 4; lia|].
  rewrite Hst. apply (dev_wf_regs s); fields; try done; try (unfold BUFFER_SIZE; lia).
  - refine (array_wf_store _ _ _ _ _ (conj Hl Hb) _ Hst). auto with tpm.
  - congruence.
Qed.
(** ** Realization *)

(** The index that the self test defines: 32 bytes, readable and writable by
    the owner and with its authorization. *)
Definition test_pub : TPMS_NV_PUBLIC :=
  {| np_nvIndex := 0x1500016; np_nameAlg := TPM_ALG_SHA256;
     np_attributes := TPMA_NV_of_words 0x40C0006 0;
     np_authPolicy := replicate 64 0; np_authPolicySize := 0; np_dataSize := 32 |}.

Lemma test_definespace_eq s :
  tpm2_test_definespace s =
    match tpm2_nv_define_space s tpm2_provision_owner
            {| b_size := 4; b_buffer := [49; 50; 51; 52] ++ replicate 60 0 |} test_pub with
    | Some (_, s) => Some s
    | None => None
    end.
Proof using. reflexivity. Qed.
Lemma test_definespace_ok s :
  nv_wf s -> nv_abs s = ∅ -> nv_count s = 0 -> nv_alloc_offset s = 0 ->
  exists s', tpm2_test_definespace s = Some s' /\ nv_wf s' /\ dev_frame s s' /\
    nv_abs s' = {[0x1500016 := fresh_cell test_pub]} /\ nv_count s' = 1 /\
    nv_alloc_offset s' = 48.
Proof using.
  intros Hw Ha Hc Ho. rewrite test_definespace_eq.
  destruct (nv_define_contract s tpm2_provision_owner
    {| b_size := 4; b_buffer := [49; 50; 51; 52] ++ replicate 60 0 |} test_pub Hw)
    as (rc & s' & E & Hw' & Hrc & Hs & _); [done|].
  rewrite E. exists s'. split; [done|]. split; [done|]. split; [exact (define_frame _ _ _ _ _ _ E)|].
  destruct Hs as (Hs & Hs2 & Hs3).
  - apply Hrc. rewrite Ha, Hc, Ho. unfold define_allowed. split_and!; try done; vm_compute; intuition discriminate.
  - rewrite Hs, Hs2, Hs3, Ha, Hc, Ho. done.
Qed.

(** The private part of the key that the self test creates. *)
Definition test_key : list Z := primary_priv (seed_bytes 0x10).

Lemma test_CreatePrimary_ok s :
  34 <= zlen self_test_frame ->
  exists rc s', tpm2_test_CreatePrimary s = Some (rc, s') /\ same_nv s s' /\
    key_wf s' /\ nv_key s' = Some test_key /\
    (sps s' = seed_bytes 0x10 /\ pps s' = seed_bytes 0x30 /\ eps s' = seed_bytes 0x50) /\
    next_transient_handle s' = 1 /\
    (command_buffer s' = command_buffer s /\ response_buffer s' = response_buffer s /\
     random_data s' = random_data s /\ tpm_mode s' = tpm_mode s /\
     cmd_size s' = cmd_size s /\ state s' = state s).
Proof using OpenSSLLaws0.
  intros Hroom. unfold tpm2_test_CreatePrimary. cbv zeta.
  rewrite (tpm2_CreatePrimary_ok _ _ _ _ _ _ (seed_bytes 0x10)) by done. cbn [b_buffer].
  replace (34 <=? zlen self_test_frame) with true by lia.
  destruct (primary_priv_size (seed_bytes 0x10)) as [Hp _].
  change (negb (TPM_RC_SUCCESS =? TPM_RC_SUCCESS)) with false. cbv iota.
  eexists _, _. split; [reflexivity|].
  unfold same_nv, key_wf, nv_key. fields. unfold primary_sens. cbn [ss_ecc b_size b_buffer].
  rewrite zlen_app, Hp. split; [done|]. split; [done|]. split; [|done].
  change (_ || _ || _) with true. cbv iota. unfold test_key.
  rewrite <- Hp. apply load_app_prefix.
Qed.

Lemma test_CreatePrimary_overrun s :
  zlen self_test_frame < 34 -> tpm2_test_CreatePrimary s = None.
Proof using OpenSSLLaws0.
  intros Hroom. unfold tpm2_test_CreatePrimary. cbv zeta.
  rewrite (tpm2_CreatePrimary_ok _ _ _ _ _ _ (seed_bytes 0x10)) by done. cbn [b_buffer].
  by replace (34 <=? zlen self_test_frame) with false by lia.
Qed.

Lemma realize_overrun s allocated r :
  zlen self_test_frame < 34 -> tpm2_realize allocated s = Some r -> allocated = false /\ r = (false, s).
Proof using OpenSSLLaws0.
  intros Hroom. unfold tpm2_realize. destruct allocated; simpl; [|by intros [= <-]].
  destruct (tpm2_test_definespace _) as [s'|]; [|done]. by rewrite test_CreatePrimary_overrun.
Qed.

Lemma realize_ok :
  34 <= zlen self_test_frame ->
  exists s, tpm2_realize true TPM2State_zero = Some (true, s) /\ dev_wf s /\ state s = TPM_STATE_IDLE /\
    nv_key s = Some test_key /\ nv_abs s = {[0x1500016 := fresh_cell test_pub]} /\
    nv_count s = 1 /\ nv_alloc_offset s = 48.
Proof using All.
  intros Hroom. unfold tpm2_realize. cbv zeta. cbn [negb].
  set (s1 := TPM2State_zero <| nv_bank := _ |> <| nv_bank_size := _ |>).
  destruct (nv_wf_init s1) as [Hw Ha]; [done|done|].
  set (s2 := (tpm2_nv_init s1) <| nv_alloc_offset := 0 |>).
  assert (Hsame : same_nv (tpm2_nv_init s1) s2)
    by (unfold same_nv, s2; fields; repeat split; reflexivity).
  destruct (test_definespace_ok s2) as (s3 & E3 & Hw3 & Hf & Ha3 & Hc3 & Ho3);
    [by apply (same_nv_wf _ _ Hsame)|by rewrite (same_nv_abs _ _ Hsame)|reflexivity|reflexivity|].
  assert (Hz : command_buffer s2 = replicate (Z.to_nat BUFFER_SIZE) 0 /\
    response_buffer s2 = replicate (Z.to_nat BUFFER_SIZE) 0 /\
    random_data s2 = replicate (Z.to_nat RANDOM_SIZE) 0 /\ cmd_size s2 = 0 /\
    tpm_mode s2 = TPM_MODE_NORMAL /\ state s2 = TPM_STATE_IDLE) by (repeat split; reflexivity).
  rewrite E3. clearbody s2. destruct Hz as (Z1 & Z2 & Z3 & Z4 & Z5 & Z6).
  destruct (test_CreatePrimary_ok s3 Hroom)
    as (rc & s4 & E4 & Hn4 & Hk4 & Hkey & (P1 & P2 & P3) & Hh & (R1 & R2 & R3 & R4 & R5 & R6)).
  rewrite E4. exists s4. split; [done|]. destruct Hf.
  assert (Hst : state s4 = TPM_STATE_IDLE) by congruence.
  pose proof Hn4 as (_ & _ & _ & Hc4 & Ho4).
  split_and!; [|done|done|by rewrite (same_nv_abs _ _ Hn4)|congruence|congruence].
  split; rewrite ?R1, ?R2, ?R3, ?R4, ?R5, ?P1, ?P2, ?P3, ?Hh, ?df_cmd, ?df_resp, ?df_rand,
    ?df_mode, ?df_size, ?Z1, ?Z2, ?Z3, ?Z4, ?Z5; try done.
  - by apply (same_nv_wf s3).
  - by apply (array_wf_zero BUFFER_SIZE).
  - by apply (array_wf_zero BUFFER_SIZE).
  - by apply (array_wf_zero RANDOM_SIZE).
  - by rewrite Hst.
Qed.
Lemma reachable_wf s : reachable s -> dev_wf s.
Proof using All.
  induction 1 as [s E|s s' _ IH Hstep].
  - destruct (Z.le_gt_cases 34 (zlen self_test_frame)) as [Hr|Hr].
    + destruct (realize_ok Hr) as (s' & E' & Hw & _). congruence.
    + by destruct (realize_overrun _ _ _ Hr E).
  - destruct Hstep as [addr v s' E|addr v s' E|].
    + destruct (mmio_read_ok s addr IH) as (v' & s2 & E' & Hw). congruence.
    + pose proof (mmio_write_ok s addr v IH) as H. by rewrite E in H.
    + by apply reset_wf.
Qed.

(** The header of a reply, as a client decodes it. *)
Lemma replies_header s rc body :
  dev_wf s -> replies s rc body -> zlen body <= BUFFER_SIZE - 10 ->
  UnmarshalResponseHeader (response_buffer s) 0 (10 + zlen body) =
    Ok ({| rh_tag := TPM_ST_NO_SESSIONS; rh_size := 10 + zlen body; rh_code := u32 rc |}, 10).
Proof using.
  intros Hw (_ & _ & L & _) Hlen. pose proof (zlen_nonneg body). unfold BUFFER_SIZE in Hlen.
  apply load_app in L as [L _]; [|rewrite rsp_header_len; lia]. rewrite rsp_header_len in L.
  apply response_header_decode; simpl; try (unfold TPM_MAX_RESPONSE_SIZE; lia).
  - apply u32_range.
  - rewrite L. unfold rsp_header. by rewrite to_be32_u32.
Qed.
(** The key that protects the NV storage is gone after a TPM2_CreatePrimary for
    another type of key. *)
Lemma wiped_key s sc tmpl seed : nv_key (wiped s sc tmpl seed) = None.
Proof using. unfold wiped, nv_key. fields. reflexivity. Qed.

(** ** Theorems *)

(** C1: in every state that can be reached from the realized device by register
    accesses and resets the invariant holds (arrays of their size, cursors
    inside them, NV slices disjoint); reading a register never leaves an array;
    writing one does only when it starts one of the commands that
    [command_undefined] describes: a TPM2_NV_Read of more than 1024 bytes, and a
    TPM2_CreatePrimary with more than 128 bytes of sensitive data, with a public
    area that reaches past the command buffer or, unless the compiler left 34
    unused bytes behind [name] on the stack, with any parameters that it would
    accept. *)
Theorem device_invariant (s : TPM2State) :
  reachable s ->
  dev_wf s /\
  (forall addr, exists v s', tpm2_mmio_read s addr = Some (v, s')) /\
  (forall addr v, tpm2_mmio_write s addr v = None ->
     addr = TPM2_CMD_REG /\ v = 1 /\ state s = TPM_STATE_RECEIVING /\ execute_undefined s).
Proof using All.
  intros Hw%reachable_wf. split; [done|]. split.
  - intros addr. destruct (mmio_read_ok s addr Hw) as (v & s' & E & _). eauto.
  - intros addr v E. pose proof (mmio_write_ok s addr v Hw) as H. by rewrite E in H.
Qed.

(** C2: executing the received command ends with a reply, unless the command is
    one of those of [execute_undefined] (then, and only then, an array is left).
    The reply is in the response buffer with a header that
    [UnmarshalResponseHeader] decodes, whose size field counts header and body;
    an error has no body; the number of bytes to send is the size rounded up to
    words for a success and the bare header for an error. *)
Theorem execute_replies (s : TPM2State) :
  dev_wf s -> state s = TPM_STATE_RECEIVING ->
  match tpm2_mmio_write s TPM2_CMD_REG 1 with
  | None => execute_undefined s
  | Some s' => ~ execute_undefined s /\ dev_wf s' /\ state s' = TPM_STATE_SENDING /\
      exists rc body,
        UnmarshalResponseHeader (response_buffer s') 0 (10 + zlen body) =
          Ok ({| rh_tag := TPM_ST_NO_SESSIONS; rh_size := 10 + zlen body;
                 rh_code := u32 rc |}, 10) /\
        load (response_buffer s') 10 (zlen body) = Some body /\
        (rc <> TPM_RC_SUCCESS -> body = []) /\
        resp_size s' = (if rc =? TPM_RC_SUCCESS then padded (10 + zlen body) else 10)
  end.
Proof using All.
  intros Hw Hs. pose proof (execute_outcome s Hw Hs) as H.
  destruct (tpm2_mmio_write _ _ _) as [s'|]; [|done].
  destruct H as [[Hw' (rc & body & Hr & Hb)] Hu]. split; [done|]. split; [done|].
  pose proof Hr as (Hst & _ & L & Hsz). split; [done|]. exists rc, body.
  pose proof Hw' as []. destruct dw_resp as [Hl _]. pose proof (zlen_nonneg body).
  assert (10 + zlen body <= BUFFER_SIZE) by (apply load_Some in L as (_ & _ & ? & _); lia).
  split; [apply replies_header; [done|done|lia]|].
  apply load_app in L as [_ L]; [|rewrite rsp_header_len; lia]. by rewrite rsp_header_len in L.
Qed.


(** C27: TPM2_GetRandom, on every branch: a request for at most 32 bytes is
    answered by as many bytes of a fresh draw behind their count, a larger one
    by TPM_RC_SIZE and a malformed one by the error of the parser; nothing but
    the response and the random data changes. *)
Theorem handle_GetRandom_correct (s : TPM2State) (n : Z) :
  dev_wf s -> 0 <= n -> 10 + n <= BUFFER_SIZE ->
  match Unmarshal_GetRandom (command_buffer s) (Some 10) n with
  | Ok (k, _) =>
      if RANDOM_SIZE <? k then answered s (handle_GetRandom s (Some 10) n) TPM_RC_SIZE []
      else answered (tpm2_generate_random s) (handle_GetRandom s (Some 10) n) TPM_RC_SUCCESS
             (to_be16 k ++ take (Z.to_nat k) (random_data (tpm2_generate_random s)))
  | Err rc => rc <> TPM_RC_SUCCESS /\ answered s (handle_GetRandom s (Some 10) n) rc []
  | UB => False
  end.
Proof using All. intros Hw Hn Hfit. exact (handle_GetRandom_ok s Hw n Hn Hfit). Qed.

(** C19: TPM2_CreatePrimary, on every branch: an unknown hierarchy and a type
    other than ECC are errors, otherwise the key derived from the seed of the
    hierarchy becomes the device's key and the reply holds a fresh handle, the
    public area with the coordinates of the key's point and the name.  The handler
    leaves an array exactly when the public area reaches past the command buffer,
    there are more than 128 bytes of sensitive data, or it would succeed and the
    stack has less than 34 bytes of room behind its two-byte [name]. *)
Theorem handle_CreatePrimary_correct (s : TPM2State) (n : Z) :
  dev_wf s -> 0 <= n -> 10 + n <= BUFFER_SIZE ->
  match Unmarshal_CreatePrimary (command_buffer s) (Some 10) n with
  | Ok (p, c) =>
      let o := handle_CreatePrimary s (Some 10) n in
      match CreatePrimary_inPublic (command_buffer s) (10 + c - cp_inPublicSize p),
            CreatePrimary_inSensitive p with
      | Ok pub, Some sc =>
          match hierarchy_seed s (cp_primaryHandle p) with
          | None => answered (with_handle s) o TPM_RC_HIERARCHY []
          | Some seed =>
              if pa_type pub =? TPM_ALG_ECC then
                let '(x, y) := primary_point seed in
                if 34 <=? zlen handler_frame then
                  answered (created s sc pub seed) o TPM_RC_SUCCESS
                    (CreatePrimary_body (Z.lor 0x80000000 (next_transient_handle s))
                       (cp_primaryHandle p) (public_bytes pub x y) (primary_name pub seed))
                else o = None
              else answered (wiped s sc pub seed) o TPM_RC_ASYMMETRIC []
          end
      | _, _ => o = None
      end
  | Err rc => rc <> TPM_RC_SUCCESS /\ answered s (handle_CreatePrimary s (Some 10) n) rc []
  | UB => False
  end.
Proof using All. apply handle_CreatePrimary_ok. Qed.

(** C20: a TPM2_CreatePrimary refused because its type is not ECC has already
    overwritten the device's primary key: afterwards there is no NV key, so that no
    TPM2_NV_Write changes anything; each one fails, but for those past the end of
    an index, for which the code returned is always that of success. *)
Theorem CreatePrimary_refused_loses_key (s : TPM2State) (n : Z) (p : CreatePrimary_Params)
    (c : Z) (pub : TPMT_PUBLIC) (seed : list Z) :
  dev_wf s -> 0 <= n -> 10 + n <= BUFFER_SIZE ->
  Unmarshal_CreatePrimary (command_buffer s) (Some 10) n = Ok (p, c) ->
  CreatePrimary_inPublic (command_buffer s) (10 + c - cp_inPublicSize p) = Ok pub ->
  cp_dataSize p <= MAX_SYM_DATA ->
  hierarchy_seed s (cp_primaryHandle p) = Some seed -> pa_type pub <> TPM_ALG_ECC ->
  exists s', handle_CreatePrimary s (Some 10) n = Some s' /\
    replies s' TPM_RC_ASYMMETRIC [] /\ nv_key s' = None /\ nv_abs s' = nv_abs s /\
    forall ah idx data offset, is_u16 offset -> is_u16 (b_size data) ->
      bytes (b_buffer data) -> b_size data = zlen (b_buffer data) ->
      exists rc, TPM2_NV_Write s' ah idx data offset = Some (rc, s') /\
        (rc = TPM_RC_SUCCESS <-> exists cell, nv_abs s !! idx = Some cell /\
           write_ignored (c_pub cell) offset).
Proof using All.
  intros Hw Hn Hfit Hp Hpub Hd Hseed Ht.
  pose proof (handle_CreatePrimary_ok s n Hw Hn Hfit) as H. rewrite Hp in H. cbv zeta in H.
  pose proof Hw as []. destruct dw_cmd as [Hl Hb]. unfold BUFFER_SIZE in *.
  pose proof (Unmarshal_CreatePrimary_sound (command_buffer s) 10 n Hb) as Hs.
  rewrite Hp in Hs. destruct Hs as [Hok _]; [lia..|].
  pose proof (CreatePrimary_inSensitive_spec p Hok) as Hsc.
  rewrite Hpub, Hseed in H. destruct (CreatePrimary_inSensitive p) as [sc|]; [|lia].
  replace (pa_type pub =? TPM_ALG_ECC) with false in H by lia.
  destruct H as (m & k & Hh & Hr & Hw'). eexists. split; [exact Hh|]. split; [done|].
  assert (Hkey : nv_key (sending (wiped s sc pub seed) m k) = None).
  { rewrite <- (wiped_key s sc pub seed). unfold sending, nv_key. by fields. }
  assert (Habs : nv_abs (sending (wiped s sc pub seed) m k) = nv_abs s).
  { apply same_nv_abs. unfold same_nv, sending, wiped, with_handle. fields. by repeat split. }
  split; [done|]. split; [done|].
  intros ah idx data offset Ho Hsz Hbs Hlen. destruct Hw'. rewrite <- Habs.
  destruct (nv_write_contract _ ah idx data offset (b_buffer data) dw_nv0 dw_key0 Ho Hsz)
    as (rc & s' & E & _ & Hsame & Hrc & Hign & _); [by rewrite Hlen, load_all|done|].
  assert (Hiff : rc = TPM_RC_SUCCESS <-> exists cell,
    nv_abs (sending (wiped s sc pub seed) m k) !! idx = Some cell /\ write_ignored (c_pub cell) offset).
  { rewrite Hrc. split; [|naive_solver].
    intros (cl & Hcl & [Hi|([k' Hk'] & _)]); [by exists cl|congruence]. }
  exists rc. split; [|done]. destruct (Z.eq_dec rc TPM_RC_SUCCESS) as [Hr0|Hr0]; [|by rewrite E, Hsame].
  apply Hiff in Hr0 as (cl & Hcl & Hi). by rewrite E, (Hign cl).
Qed.
End Steps.

(** ** Witnesses: the realized device under the toy primitives *)
Module DeviceExample.
#[local] Existing Instances Toy.openssl Toy.laws.
#[export] Instance toy_layout : Layout :=
  {| public_image p := to_be16 (pa_type p);
     handler_frame := replicate 40 0; self_test_frame := replicate 34 0 |}.
#[export] Instance toy_room : NameRoom toy_layout.
Proof. split; by vm_compute. Qed.

Definition dev0 : TPM2State :=
  match tpm2_realize true TPM2State_zero with Some (_, s) => s | None => TPM2State_zero end.
Lemma dev0_realized : tpm2_realize true TPM2State_zero = Some (true, dev0) /\ dev_wf dev0.
Proof. unfold dev0. destruct (realize_ok self_test_room) as (s & -> & Hw & _). done. Qed.

(** The command [cmd] received, not executed yet. *)
Definition received_in (s : TPM2State) (cmd : list Z) : TPM2State :=
  s <| command_buffer := cmd ++ replicate (1024 - length cmd) 0 |>
    <| cmd_size := zlen cmd |> <| state := TPM_STATE_RECEIVING |>.

Lemma received_in_wf s cmd :
  dev_wf s -> bytes cmd -> zlen cmd <= 1024 -> dev_wf (received_in s cmd).
Proof.
  intros Hw Hb Hl. pose proof Hw as [].
  unfold received_in. apply (dev_wf_regs s); fields; try done.
  - split; [|apply bytes_app; [done|apply bytes_zero]].
    unfold zlen in *. rewrite length_app, length_replicate. unfold BUFFER_SIZE. lia.
  - pose proof (zlen_nonneg cmd). unfold BUFFER_SIZE. lia.
Qed.

Definition received (cmd : list Z) : TPM2State := received_in dev0 cmd.
Lemma received_wf cmd : bytes cmd -> zlen cmd <= 1024 -> dev_wf (received cmd).
Proof. exact (received_in_wf dev0 cmd (proj2 dev0_realized)). Qed.

Ltac by_bytes := apply (bool_decide_unpack _); by vm_compute.

Lemma device_invariant_witness : reachable dev0 /\ dev_wf dev0.
Proof.
  assert (H : reachable dev0) by (apply reach_realize; exact (proj1 dev0_realized)).
  split; [exact H|exact (proj1 (device_invariant dev0 H))].
Defined.

(** TPM2_GetRandom for 4 bytes. *)
Definition get_random : list Z := [0x80; 0x01; 0; 0; 0; 12; 0; 0; 0x01; 0x7B; 0; 4].
Lemma get_random_wf : dev_wf (received get_random).
Proof. apply received_wf; [by_bytes|done]. Qed.

Lemma execute_replies_witness :
  exists s', tpm2_mmio_write (received get_random) TPM2_CMD_REG 1 = Some s' /\
    state s' = TPM_STATE_SENDING.
Proof.
  pose proof (execute_replies (received get_random) get_random_wf eq_refl) as H.
  destruct (tpm2_mmio_write (received get_random) TPM2_CMD_REG 1) as [s'|] eqn:E.
  - exists s'. split; [reflexivity|exact (proj1 (proj2 (proj2 H)))].
  - exfalso. vm_compute in E. discriminate E.
Defined.

Lemma handle_GetRandom_correct_witness :
  answered (tpm2_generate_random (received get_random))
    (handle_GetRandom (received get_random) (Some 10) 2) TPM_RC_SUCCESS
    (to_be16 4 ++ take 4 (random_data (tpm2_generate_random (received get_random)))).
Proof. exact (handle_GetRandom_correct _ 2 get_random_wf ltac:(done) ltac:(done)). Defined.

(** TPM2_CreatePrimary for the owner, 10 bytes of public area, of type [t]. *)
Definition create (t : Z) : list Z :=
  [0x80; 0x01; 0; 0; 0; 28; 0; 0; 0x01; 0x31; 0x40; 0; 0; 0x01; 0; 0] ++
  [0; 10; 0; t; 0; 0x0B; 0; 0x03; 0; 0x72; 0; 0].
Lemma create_rsa_wf : dev_wf (received (create 1)).
Proof. apply received_wf; [by_bytes|done]. Qed.

(** The same with the 16 bytes of public area of a key on a curve. *)
Definition create_ecc : list Z :=
  [0x80; 0x01; 0; 0; 0; 34; 0; 0; 0x01; 0x31; 0x40; 0; 0; 0x01; 0; 0] ++
  [0; 16; 0; 0x23; 0; 0x0B; 0; 0x03; 0; 0x72; 0; 0; 0; 16; 0; 16; 0; 3].
Lemma create_ecc_wf : dev_wf (received create_ecc).
Proof. apply received_wf; [by_bytes|done]. Qed.

Definition no_sensitive : TPM2B_SENSITIVE_CREATE :=
  {| sc_userAuth := TPM2B_zero 64; sc_data := TPM2B_zero (Z.to_nat MAX_SYM_DATA) |}.
Definition area (t curve : Z) : TPMT_PUBLIC :=
  {| pa_type := t; pa_nameAlg := TPM_ALG_SHA256; pa_objectAttributes := 0x00030072;
     pa_curveID := curve; pa_unique_x := TPM2B_zero 64; pa_unique_y := TPM2B_zero 64 |}.

(** The key is created, with the first handle, and a key of another type is not. *)
Lemma handle_CreatePrimary_correct_witness :
  answered (created (received create_ecc) no_sensitive (area TPM_ALG_ECC 3) (seed_bytes 0x10))
    (handle_CreatePrimary (received create_ecc) (Some 10) 24) TPM_RC_SUCCESS
    (CreatePrimary_body 0x80000001 TPM_RH_OWNER
       (public_bytes (area TPM_ALG_ECC 3) (fst (primary_point (seed_bytes 0x10)))
          (snd (primary_point (seed_bytes 0x10)))) (primary_name (area TPM_ALG_ECC 3) (seed_bytes 0x10))) /\
  answered (wiped (received (create 1)) no_sensitive (area 1 0) (seed_bytes 0x10))
    (handle_CreatePrimary (received (create 1)) (Some 10) 18) TPM_RC_ASYMMETRIC [].
Proof.
  assert (S1 : hierarchy_seed (received create_ecc) TPM_RH_OWNER = Some (seed_bytes 0x10)) by (vm_compute; reflexivity).
  assert (S2 : hierarchy_seed (received (create 1)) TPM_RH_OWNER = Some (seed_bytes 0x10)) by (vm_compute; reflexivity).
  assert (N1 : next_transient_handle (received create_ecc) = 1) by (vm_compute; reflexivity).
  split.
  - pose proof (handle_CreatePrimary_correct _ 24 create_ecc_wf ltac:(done) ltac:(done)) as H.
    replace (Unmarshal_CreatePrimary (command_buffer (received create_ecc)) (Some 10) 24)
      with (Ok (mk_CreatePrimary_Params TPM_RH_OWNER 0 0 [] 0 [] 16, 24)) in H by (vm_compute; reflexivity).
    cbv zeta in H. cbn [cp_primaryHandle cp_inPublicSize] in H.
    replace (CreatePrimary_inPublic (command_buffer (received create_ecc)) (10 + 24 - 16))
      with (Ok (area TPM_ALG_ECC 3)) in H by (vm_compute; reflexivity).
    replace (CreatePrimary_inSensitive _) with (Some no_sensitive) in H by (vm_compute; reflexivity).
    rewrite S1, N1 in H. destruct (primary_point (seed_bytes 0x10)) as [x y]. exact H.
  - pose proof (handle_CreatePrimary_correct _ 18 create_rsa_wf ltac:(done) ltac:(done)) as H.
    replace (Unmarshal_CreatePrimary (command_buffer (received (create 1))) (Some 10) 18)
      with (Ok (mk_CreatePrimary_Params TPM_RH_OWNER 0 0 [] 0 [] 10, 18)) in H by (vm_compute; reflexivity).
    cbv zeta in H. cbn [cp_primaryHandle cp_inPublicSize] in H.
    replace (CreatePrimary_inPublic (command_buffer (received (create 1))) (10 + 18 - 10))
      with (Ok (area 1 0)) in H by (vm_compute; reflexivity).
    replace (CreatePrimary_inSensitive _) with (Some no_sensitive) in H by (vm_compute; reflexivity).
    rewrite S2 in H. exact H.
Defined.


Lemma CreatePrimary_refused_loses_key_witness :
  exists s', handle_CreatePrimary (received (create 1)) (Some 10) 18 = Some s' /\
    nv_key s' = None.
Proof.
  destruct (Unmarshal_CreatePrimary (command_buffer (received (create 1))) (Some 10) 18)
    as [[p c]| |] eqn:E; [|exfalso; vm_compute in E; discriminate E..].
  pose proof E as E'. vm_compute in E'. injection E' as <- <-.
  edestruct (CreatePrimary_refused_loses_key (received (create 1)) 18) as (s' & H1 & _ & H2 & _);
    [exact create_rsa_wf|done|done|exact E|vm_compute; reflexivity|vm_compute; discriminate|
     vm_compute; reflexivity|vm_compute; discriminate|].
  exists s'. split; [exact H1|exact H2].
Defined.
End DeviceExample.
