(* ===== verification/DeviceLive.v ===== *)
(** * A reply does not block the device

    Endless sequences of register accesses: a client that keeps on reading the
    data register gets the device out of the state in which it sends a reply,
    whatever other accesses come in between. *)
From stdpp Require Import base list numbers gmap.
From S2P Require Import Prelude Constants State OpenSSL Crypto Nv NvRefine Device DeviceInv DeviceSteps.

Inductive access := Rd (addr : Z) | Wr (addr v : Z).

Section Live.
Context `{OS : OpenSSL, !OpenSSLLaws OS, LY : Layout}.

Definition perform (s : TPM2State) (a : access) : option TPM2State :=
  match a with
  | Rd addr => snd <$> tpm2_mmio_read s addr
  | Wr addr v => tpm2_mmio_write s addr v
  end.

Definition later (acc : nat -> access) (i : nat) : access := acc (S i).

(** The state after [n] accesses. *)
Fixpoint run (s : TPM2State) (acc : nat -> access) (n : nat) : option TPM2State :=
  match n with
  | O => Some s
  | S n => s' ← perform s (acc O); run s' (later acc) n
  end.

Definition is_data_read (a : access) : bool :=
  match a with Rd addr => addr =? TPM2_DATA_REG | Wr _ _ => false end.

(** How often the data register is read in [n] accesses. *)
Fixpoint data_reads (acc : nat -> access) (n : nat) : nat :=
  match n with
  | O => O
  | S n => ((if is_data_read (acc O) then 1 else 0) + data_reads (later acc) n)%nat
  end.

(** The words of the reply that are left. *)
Definition words_left (s : TPM2State) : Z := (resp_size s - resp_idx s + 3) / 4.

Definition quiet (s : TPM2State) : Prop :=
  state s = TPM_STATE_IDLE \/ state s = TPM_STATE_RECEIVING.

Lemma sending_read s addr v s' :
  dev_wf s -> state s = TPM_STATE_SENDING -> tpm2_mmio_read s addr = Some (v, s') ->
  state s' = TPM_STATE_IDLE \/
  state s' = TPM_STATE_SENDING /\
  words_left s' <= words_left s - (if addr =? TPM2_DATA_REG then 1 else 0).
Proof using.
  intros Hw Hs E. destruct (dw_sending _ Hw Hs) as [Hsz Hi Hk]. unfold BUFFER_SIZE in Hsz.
  unfold tpm2_mmio_read in E. destruct (addr =? TPM2_DATA_REG) eqn:E3.
  - apply Z.eqb_eq in E3. subst addr. cbn [Z.eqb Pos.eqb TPM2_DATA_REG TPM2_CTRL_REG TPM2_STATUS_REG] in E.
    rewrite bool_decide_eq_true_2 in E by done. cbn [negb] in E.
    rewrite (proj2 (Z.leb_gt _ _)) in E by lia. destruct (ld32 _ _) as [w| |]; [|done..].
    rewrite u32_id in E by (unfold is_u32; lia). revert E. fields.
    destruct (resp_size s <=? resp_idx s + 4); intros [= <- <-]; [by left|right].
    fields. split; [done|]. unfold words_left. fields.
    replace (resp_size s - resp_idx s + 3) with (resp_size s - (resp_idx s + 4) + 3 + 1 * 4) by lia.
    rewrite Z.div_add by lia. lia.
  - right. rewrite Z.sub_0_r. destruct (addr =? TPM2_CTRL_REG), (addr =? TPM2_STATUS_REG); injection E as <- <-; done.
Qed.

Lemma sending_write s addr v s' :
  state s = TPM_STATE_SENDING -> tpm2_mmio_write s addr v = Some s' -> quiet s' \/ s' = s.
Proof using.
  intros Hs E. unfold quiet. unfold tpm2_mmio_write in E.
  rewrite (bool_decide_eq_false_2 (state s = TPM_STATE_RECEIVING)) in E by congruence. cbn [negb] in E.
  destruct (addr =? TPM2_CTRL_REG).
  { destruct (v =? 1); [injection E as <-; left; right; by fields|].
    destruct (v =? 0); injection E as <-; [left; left; by unfold tpm2_reset; fields|by right]. }
  destruct (addr =? TPM2_CMD_REG).
  { destruct (v =? 1); injection E as <-; [left; left; by fields|by right]. }
  destruct (addr =? TPM2_DATA_REG); injection E as <-; by right.
Qed.

(** While a reply is sent every access is defined; it ends the reply, takes a word
    of it or leaves it alone. *)
Lemma sending_step s a :
  dev_wf s -> state s = TPM_STATE_SENDING ->
  exists s', perform s a = Some s' /\ dev_wf s' /\
    (quiet s' \/
     state s' = TPM_STATE_SENDING /\
     words_left s' <= words_left s - (if is_data_read a then 1 else 0)).
Proof using All.
  intros Hw Hs. destruct a as [addr|addr v]; simpl.
  - destruct (mmio_read_ok s addr Hw) as (v & s' & E & Hw'). rewrite E. exists s'. split; [done|]. split; [done|].
    destruct (sending_read s addr v s' Hw Hs E) as [H|H]; [by left; left|by right].
  - pose proof (mmio_write_ok s addr v Hw) as Hw'. destruct (tpm2_mmio_write s addr v) as [s'|] eqn:E.
    + exists s'. split; [done|]. split; [done|].
      destruct (sending_write s addr v s' Hs E) as [H| ->]; [by left|right]. split; [done|lia].
    + destruct Hw' as (_ & _ & H & _). congruence.
Qed.

(** The reply ends after some accesses, at most [w] of them reads of its words. *)
Definition drains (w : nat) (s : TPM2State) (acc : nat -> access) : Prop :=
  exists n s', run s acc n = Some s' /\ quiet s' /\ dev_wf s' /\ (data_reads acc n <= w)%nat.

Lemma drains_now w s acc s' :
  perform s (acc O) = Some s' -> quiet s' -> dev_wf s' ->
  ((if is_data_read (acc O) then 1 else 0) <= w)%nat -> drains w s acc.
Proof using. intros E Hq Hw Hr. exists 1%nat, s'. simpl. rewrite E. simpl. split_and!; [done..|lia]. Qed.

Lemma drains_later w s acc s' :
  perform s (acc O) = Some s' -> drains w s' (later acc) ->
  drains ((if is_data_read (acc O) then 1 else 0) + w) s acc.
Proof using.
  intros E (n & s2 & Hr & Hq & Hw & Hd). exists (S n), s2. simpl. rewrite E. simpl.
  split_and!; [done..|lia].
Qed.

(** The data register is read again and again. *)
Definition keeps_reading (acc : nat -> access) : Prop :=
  forall n, exists m, (n <= m)%nat /\ is_data_read (acc m) = true.

Lemma keeps_reading_later acc : keeps_reading acc -> keeps_reading (later acc).
Proof using.
  intros H n. destruct (H (S n)) as (m & Hm & E). destruct m as [|m]; [lia|]. exists m. split; [lia|done].
Qed.

Lemma sending_drains w : forall s acc,
  dev_wf s -> state s = TPM_STATE_SENDING -> words_left s <= Z.of_nat w -> keeps_reading acc ->
  drains w s acc.
Proof using All.
  assert (Hpos : forall s, dev_wf s -> state s = TPM_STATE_SENDING -> 1 <= words_left s).
  { intros s Hw Hs. destruct (dw_sending _ Hw Hs) as [Hsz Hi _]. unfold words_left.
    apply Z.div_le_lower_bound; lia. }
  induction w as [|w IH]; intros s acc Hw Hs Hl Hk; [specialize (Hpos s Hw Hs); lia|].
  destruct (Hk O) as (m & _ & Hm). revert s acc Hw Hs Hl Hk Hm.
  induction m as [|m IHm]; intros s acc Hw Hs Hl Hk Hm;
    destruct (sending_step s (acc O) Hw Hs) as (s' & E & Hw' & [Hq|[Hs' Hl']]);
    try (eapply drains_now; [done..|destruct (is_data_read (acc O)); lia]).
  - rewrite Hm in Hl'. pose proof (drains_later w s acc s' E) as H. rewrite Hm in H.
    apply H, IH; [done|done|lia|by apply keeps_reading_later].
  - destruct (is_data_read (acc O)) eqn:Er.
    + pose proof (drains_later w s acc s' E) as H. rewrite Er in H.
      apply H, IH; [done|done|lia|by apply keeps_reading_later].
    + pose proof (drains_later (S w) s acc s' E) as H. rewrite Er in H.
      apply H, IHm; [done|done|lia|by apply keeps_reading_later|done].
Qed.

(** C14: the device does not stay with a reply.  From every reachable state in which
    it sends one, along every endless sequence of register accesses in which the
    data register is read again and again, the device becomes idle or receives
    the next command; no access on the way leaves an array, and at most 256 reads
    of the data register are needed. *)
Theorem reply_drains (s : TPM2State) (acc : nat -> access) :
  reachable s -> state s = TPM_STATE_SENDING ->
  (forall n, exists m, (n <= m)%nat /\ acc m = Rd TPM2_DATA_REG) ->
  exists n s', run s acc n = Some s' /\
    (state s' = TPM_STATE_IDLE \/ state s' = TPM_STATE_RECEIVING) /\
    (data_reads acc n <= 256)%nat.
Proof using All.
  intros Hw%reachable_wf Hs Hk. destruct (sending_drains 256 s acc Hw Hs) as (n & s' & Hr & Hq & _ & Hd).
  - destruct (dw_sending _ Hw Hs) as [Hsz Hi _]. unfold words_left, BUFFER_SIZE in *.
    apply Z.lt_succ_r, Z.div_lt_upper_bound; lia.
  - intros n. destruct (Hk n) as (m & Hm & E). exists m. by rewrite E.
  - by exists n, s'.
Qed.
End Live.

(** The reply to a TPM2_GetRandom, read to its end. *)
Module LiveExample.
#[local] Existing Instances Toy.openssl Toy.laws DeviceExample.toy_layout.

(** The command is written to the realized device and executed. *)
Definition sent : option TPM2State :=
  s ← tpm2_mmio_write DeviceExample.dev0 TPM2_CTRL_REG 1;
  s ← tpm2_mmio_write s TPM2_DATA_REG 0x80010000;
  s ← tpm2_mmio_write s TPM2_DATA_REG 0x000c0000;
  s ← tpm2_mmio_write s TPM2_DATA_REG 0x017b0004;
  tpm2_mmio_write s TPM2_CMD_REG 1.

(** Status and data are read in turns. *)
Definition polling (n : nat) : access := if Nat.even n then Rd TPM2_STATUS_REG else Rd TPM2_DATA_REG.

Lemma reach_write s addr v s' : reachable s -> tpm2_mmio_write s addr v = Some s' -> reachable s'.
Proof. intros Hr E. apply (reach_step s); [exact Hr|]. exact (step_write s addr v s' E). Qed.

Lemma sent_reachable s : sent = Some s -> reachable s.
Proof.
  unfold sent. intros (s1 & E1 & (s2 & E2 & (s3 & E3 & (s4 & E4 & E5)%bind_Some)%bind_Some)%bind_Some)%bind_Some.
  assert (H : reachable DeviceExample.dev0) by (apply reach_realize; exact (proj1 DeviceExample.dev0_realized)).
  exact (reach_write s4 _ _ s (reach_write s3 _ _ s4 (reach_write s2 _ _ s3
    (reach_write s1 _ _ s2 (reach_write _ _ _ s1 H E1) E2) E3) E4) E5).
Qed.

Lemma reply_drains_witness :
  exists s, sent = Some s /\ state s = TPM_STATE_SENDING /\
    exists n s', run s polling n = Some s' /\
      (state s' = TPM_STATE_IDLE \/ state s' = TPM_STATE_RECEIVING) /\
      (data_reads polling n <= 256)%nat.
Proof.
  destruct sent as [s|] eqn:E; [|exfalso; vm_compute in E; discriminate E].
  assert (Hs : state s = TPM_STATE_SENDING).
  { assert (H : state <$> sent = Some TPM_STATE_SENDING) by (vm_compute; reflexivity).
    rewrite E in H. injection H as H. exact H. }
  exists s. split; [reflexivity|]. split; [exact Hs|].
  apply (reply_drains s polling); [|exact Hs|].
  - exact (sent_reachable s E).
  - intros n. exists (S (2 * n)). split; [lia|]. unfold polling. rewrite Nat.even_succ, Nat.odd_mul. reflexivity.
Defined.
End LiveExample.
