(* ===== verification/Memory.v ===== *)
(** * Memory topology

    [src/qemu/system/memory.c]: the tree of memory regions that a board builds,
    and the flat view of it that accesses are resolved with.  A region is known
    by its identity, of a type [R] that the board chooses.  An [Int128] is a [Z]:
    its values here are sums of at most as many 64-bit numbers as the tree is
    deep.  The tree is a value: a region that occurs twice in it, below its
    container and as the target of an alias, is the same in both places. *)
From stdpp Require Import base list numbers.
From S2P Require Import Prelude.

(** ** Address ranges *)
Record AddrRange := addrrange_make { ar_start : Z; ar_size : Z }.

Definition addrrange_end (r : AddrRange) : Z := ar_start r + ar_size r.
Definition addrrange_contains (r : AddrRange) (addr : Z) : bool :=
  (ar_start r <=? addr) && (addr <? addrrange_end r).
Definition addrrange_intersects (r1 r2 : AddrRange) : bool :=
  addrrange_contains r1 (ar_start r2) || addrrange_contains r2 (ar_start r1).
Definition addrrange_intersection (r1 r2 : AddrRange) : AddrRange :=
  let start := Z.max (ar_start r1) (ar_start r2) in
  let end_ := Z.min (addrrange_end r1) (addrrange_end r2) in
  addrrange_make start (end_ - start).

Section Memory.
Context {R : Type} `{!EqDecision R}.

(** ** Regions *)

(** The fields of a region that are not links to other regions. *)
Record mr_fields := mk_mr_fields {
  mr_id : R;
  mr_addr : Z;
  mr_size : Z;
  mr_priority : Z;
  mr_enabled : bool;
  mr_terminates : bool;
  mr_readonly : bool;
  mr_nonvolatile : bool;
  mr_unmergeable : bool;
  mr_romd_mode : bool;
  mr_dirty_log_mask : Z;
  mr_alias_offset : Z
}.

Unset Elimination Schemes.
Inductive MemoryRegion :=
| mk_MemoryRegion (f : mr_fields) (alias : option MemoryRegion) (subregions : list MemoryRegion).
Set Elimination Schemes.

Definition eta_mr (r : mr_fields) : mr_fields :=
  mk_mr_fields (mr_id r) (mr_addr r) (mr_size r) (mr_priority r) (mr_enabled r)
    (mr_terminates r) (mr_readonly r) (mr_nonvolatile r) (mr_unmergeable r)
    (mr_romd_mode r) (mr_dirty_log_mask r) (mr_alias_offset r).
#[local] Instance set_mr_addr : Setter mr_addr := ltac:(setter eta_mr mr_addr).
#[local] Instance set_mr_size : Setter mr_size := ltac:(setter eta_mr mr_size).
#[local] Instance set_mr_priority : Setter mr_priority := ltac:(setter eta_mr mr_priority).
#[local] Instance set_mr_terminates : Setter mr_terminates := ltac:(setter eta_mr mr_terminates).
#[local] Instance set_mr_readonly : Setter mr_readonly := ltac:(setter eta_mr mr_readonly).

Definition fields_of (mr : MemoryRegion) : mr_fields :=
  let '(mk_MemoryRegion f _ _) := mr in f.
Definition alias_of (mr : MemoryRegion) : option MemoryRegion :=
  let '(mk_MemoryRegion _ alias _) := mr in alias.
Definition subregions_of (mr : MemoryRegion) : list MemoryRegion :=
  let '(mk_MemoryRegion _ _ subregions) := mr in subregions.

(** *** Construction *)

(** A size of [UINT64_MAX] stands for the whole address space. *)
Definition region_size (size : Z) : Z := if size =? 2 ^ 64 - 1 then 2 ^ 64 else size.

(** A container: [memory_region_init]. *)
Definition memory_region_init (id : R) (size : Z) : MemoryRegion :=
  mk_MemoryRegion
    {| mr_id := id; mr_addr := 0; mr_size := region_size size; mr_priority := 0;
       mr_enabled := true; mr_terminates := false; mr_readonly := false;
       mr_nonvolatile := false; mr_unmergeable := false; mr_romd_mode := true;
       mr_dirty_log_mask := 0; mr_alias_offset := 0 |} None [].

(** Changes the fields of a region, not its links. *)
Definition on_fields (u : mr_fields -> mr_fields) (mr : MemoryRegion) : MemoryRegion :=
  let '(mk_MemoryRegion f alias subregions) := mr in mk_MemoryRegion (u f) alias subregions.

(** Regions with accesses of their own: the registers of a device, and memory. *)
Definition memory_region_init_io (id : R) (size : Z) : MemoryRegion :=
  on_fields (fun f => f <| mr_terminates := true |>) (memory_region_init id size).
Definition memory_region_init_ram (id : R) (size : Z) : MemoryRegion :=
  on_fields (fun f => f <| mr_terminates := true |>) (memory_region_init id size).
Definition memory_region_init_rom (id : R) (size : Z) : MemoryRegion :=
  on_fields (fun f => f <| mr_readonly := true |>) (memory_region_init_ram id size).

Definition memory_region_set_size (mr : MemoryRegion) (size : Z) : MemoryRegion :=
  on_fields (fun f => f <| mr_size := region_size size |>) mr.

(** The list is in descending order of priority, the latest region first among
    equals. *)
Fixpoint memory_region_update_container_subregions (subregion : MemoryRegion)
    (subregions : list MemoryRegion) : list MemoryRegion :=
  match subregions with
  | [] => [subregion]
  | other :: rest =>
      if mr_priority (fields_of other) <=? mr_priority (fields_of subregion)
      then subregion :: other :: rest
      else other :: memory_region_update_container_subregions subregion rest
  end.

Definition memory_region_add_subregion_overlap (mr : MemoryRegion) (offset : Z)
    (subregion : MemoryRegion) (priority : Z) : MemoryRegion :=
  let '(mk_MemoryRegion f alias subs) := mr in
  mk_MemoryRegion f alias
    (memory_region_update_container_subregions
       (on_fields (fun f => f <| mr_priority := priority |> <| mr_addr := offset |>) subregion)
       subs).
Definition memory_region_add_subregion (mr : MemoryRegion) (offset : Z)
    (subregion : MemoryRegion) : MemoryRegion :=
  memory_region_add_subregion_overlap mr offset subregion 0.

(** ** Flat views *)
Record FlatRange := mk_FlatRange {
  fr_mr : R;
  fr_offset_in_region : Z;
  fr_addr : AddrRange;
  fr_dirty_log_mask : Z;
  fr_romd_mode : bool;
  fr_readonly : bool;
  fr_nonvolatile : bool;
  fr_unmergeable : bool
}.

(** The ranges of the view, in ascending order. *)
Definition FlatView := list FlatRange.

(** The loop that renders a region into the gaps of the view, from [base] on and
    for [remain] bytes; [fr] gives the range for an offset and an address range. *)
Fixpoint render_gaps (fr : Z -> AddrRange -> FlatRange) (offset_in_region base remain : Z)
    (view : FlatView) : FlatView :=
  match view with
  | [] => if negb (remain =? 0) then [fr offset_in_region (addrrange_make base remain)] else []
  | r :: rest =>
      if remain =? 0 then r :: rest
      else if addrrange_end (fr_addr r) <=? base
      then r :: render_gaps fr offset_in_region base remain rest
      else
        let '(gap, offset_in_region, base, remain) :=
          if base <? ar_start (fr_addr r) then
            let now := Z.min remain (ar_start (fr_addr r) - base) in
            ([fr offset_in_region (addrrange_make base now)], u64 (offset_in_region + now),
             base + now, remain - now)
          else ([], offset_in_region, base, remain) in
        let now := Z.min (base + remain) (addrrange_end (fr_addr r)) - base in
        gap ++ r :: render_gaps fr (u64 (offset_in_region + now)) (base + now) (remain - now) rest
  end.

Definition flat_range (f : mr_fields) (readonly nonvolatile unmergeable : bool)
    (offset_in_region : Z) (addr : AddrRange) : FlatRange :=
  {| fr_mr := mr_id f; fr_offset_in_region := offset_in_region; fr_addr := addr;
     fr_dirty_log_mask := mr_dirty_log_mask f; fr_romd_mode := mr_romd_mode f;
     fr_readonly := readonly; fr_nonvolatile := nonvolatile; fr_unmergeable := unmergeable |}.

Fixpoint render_memory_region (view : FlatView) (mr : MemoryRegion) (base : Z)
    (clip : AddrRange) (readonly nonvolatile unmergeable : bool) {struct mr} : FlatView :=
  let '(mk_MemoryRegion f alias subregions) := mr in
  if negb (mr_enabled f) then view
  else
  let base := base + mr_addr f in
  let readonly := readonly || mr_readonly f in
  let nonvolatile := nonvolatile || mr_nonvolatile f in
  let unmergeable := unmergeable || mr_unmergeable f in
  let tmp := addrrange_make base (mr_size f) in
  if negb (addrrange_intersects tmp clip) then view
  else
  let clip := addrrange_intersection tmp clip in
  match alias with
  | Some target =>
      let base := base - mr_addr (fields_of target) in
      let base := base - mr_alias_offset f in
      render_memory_region view target base clip readonly nonvolatile unmergeable
  | None =>
      let view :=
        fold_left (fun view subregion =>
          render_memory_region view subregion base clip readonly nonvolatile unmergeable)
          subregions view in
      if negb (mr_terminates f) then view
      else
        render_gaps (flat_range f readonly nonvolatile unmergeable)
          (u64 (ar_start clip - base)) (ar_start clip) (ar_size clip) view
  end.

Definition can_merge (r1 r2 : FlatRange) : bool :=
  (addrrange_end (fr_addr r1) =? ar_start (fr_addr r2)) &&
  bool_decide (fr_mr r1 = fr_mr r2) &&
  (fr_offset_in_region r1 + ar_size (fr_addr r1) =? fr_offset_in_region r2) &&
  (fr_dirty_log_mask r1 =? fr_dirty_log_mask r2) &&
  eqb (fr_romd_mode r1) (fr_romd_mode r2) &&
  eqb (fr_readonly r1) (fr_readonly r2) &&
  eqb (fr_nonvolatile r1) (fr_nonvolatile r2) &&
  negb (fr_unmergeable r1) && negb (fr_unmergeable r2).

(** [int128_addto (&r.addr.size, n)] *)
Definition grow (r : FlatRange) (n : Z) : FlatRange :=
  {| fr_mr := fr_mr r; fr_offset_in_region := fr_offset_in_region r;
     fr_addr := addrrange_make (ar_start (fr_addr r)) (ar_size (fr_addr r) + n);
     fr_dirty_log_mask := fr_dirty_log_mask r; fr_romd_mode := fr_romd_mode r;
     fr_readonly := fr_readonly r; fr_nonvolatile := fr_nonvolatile r;
     fr_unmergeable := fr_unmergeable r |}.

(** [ranges[i]] has taken up the ranges up to [ranges[j-1]], which is [last]. *)
Fixpoint simplify_from (ranges_i last : FlatRange) (rest : FlatView) : FlatView :=
  match rest with
  | [] => [ranges_i]
  | r :: rest =>
      if can_merge last r
      then simplify_from (grow ranges_i (ar_size (fr_addr r))) r rest
      else ranges_i :: simplify_from r r rest
  end.
Definition flatview_simplify (view : FlatView) : FlatView :=
  match view with
  | [] => []
  | r :: rest => simplify_from r r rest
  end.

(** The loop over the children of a container of [size] bytes: whether an enabled
    one was found, and [root] of it if it is the only one and fits. *)
Definition scan_children (root : MemoryRegion -> option MemoryRegion) (size : Z) :=
  fix scan (found : bool) (next : option (option MemoryRegion)) (children : list MemoryRegion) :=
    match children with
    | [] => (found, next)
    | child :: rest =>
        if mr_enabled (fields_of child) then
          if found then (true, None)
          else scan true
                 (if (mr_addr (fields_of child) =? 0) && (mr_size (fields_of child) <=? size)
                  then Some (root child) else None) rest
        else scan found next rest
    end.

(** The region that a view is generated for: an alias, or a container with one
    child, is left out when its whole content is there. *)
Fixpoint memory_region_get_flatview_root (mr : MemoryRegion) : option MemoryRegion :=
  let '(mk_MemoryRegion f alias subregions) := mr in
  if negb (mr_enabled f) then None
  else
  match alias with
  | Some target =>
      if (mr_alias_offset f =? 0) && (mr_size (fields_of target) <=? mr_size f)
      then memory_region_get_flatview_root target
      else Some mr
  | None =>
      if mr_terminates f then Some mr
      else
      let '(found, next) :=
        scan_children memory_region_get_flatview_root (mr_size f) false None subregions in
      if negb found then None
      else match next with Some root => root | None => Some mr end
  end.

Definition generate_memory_topology (mr : option MemoryRegion) : FlatView :=
  flatview_simplify
    match mr with
    | Some mr => render_memory_region [] mr 0 (addrrange_make 0 (2 ^ 64)) false false false
    | None => []
    end.

(** ** Lookup *)

(** Negative, positive or zero when [addr] is below, above or meets the range. *)
Definition cmp_flatrange_addr (addr : AddrRange) (fr : FlatRange) : Z :=
  if addrrange_end addr <=? ar_start (fr_addr fr) then -1
  else if addrrange_end (fr_addr fr) <=? ar_start addr then 1
  else 0.

(** [bsearch] of the C library on the elements from [lo] to [hi - 1]; the window
    halves in each round. *)
Fixpoint bsearch {A : Type} (fuel : nat) (cmp : A -> Z) (base : list A) (lo hi : nat) : option nat :=
  match fuel with
  | O => None
  | S fuel =>
      if (hi <=? lo)%nat then None
      else
      let mid := ((lo + hi) / 2)%nat in
      match base !! mid with
      | None => None
      | Some x =>
          if cmp x <? 0 then bsearch fuel cmp base lo mid
          else if 0 <? cmp x then bsearch fuel cmp base (S mid) hi
          else Some mid
      end
  end.

(** The position of the range found. *)
Definition flatview_lookup (view : FlatView) (addr : AddrRange) : option nat :=
  bsearch (S (length view)) (cmp_flatrange_addr addr) view 0 (length view).

(** [while (fr > view->ranges && addrrange_intersects (fr[-1].addr, range)) --fr;] *)
Fixpoint first_intersecting (view : FlatView) (range : AddrRange) (i : nat) : nat :=
  match i with
  | O => O
  | S i' =>
      match view !! i' with
      | Some fr => if addrrange_intersects (fr_addr fr) range
                   then first_intersecting view range i' else i
      | None => i
      end
  end.

Record MemoryRegionSection := mk_MemoryRegionSection {
  mrs_mr : R;
  mrs_offset_within_region : Z;
  mrs_size : Z;
  mrs_offset_within_address_space : Z;
  mrs_readonly : bool;
  mrs_nonvolatile : bool;
  mrs_unmergeable : bool
}.

(** The first part of the view in [addr, addr + size), for addresses of the
    address space itself. *)
Definition memory_region_find (view : FlatView) (addr size : Z) : option MemoryRegionSection :=
  let range := addrrange_make addr size in
  i ← flatview_lookup view range;
  fr ← view !! first_intersecting view range i;
  let range := addrrange_intersection range (fr_addr fr) in
  Some {| mrs_mr := fr_mr fr;
          mrs_offset_within_region :=
            u64 (fr_offset_in_region fr + (ar_start range - ar_start (fr_addr fr)));
          mrs_size := ar_size range;
          mrs_offset_within_address_space := ar_start range;
          mrs_readonly := fr_readonly fr; mrs_nonvolatile := fr_nonvolatile fr;
          mrs_unmergeable := false |}.

Definition section_from_flat_range (fr : FlatRange) : MemoryRegionSection :=
  {| mrs_mr := fr_mr fr; mrs_offset_within_region := fr_offset_in_region fr;
     mrs_size := ar_size (fr_addr fr);
     mrs_offset_within_address_space := u64 (ar_start (fr_addr fr));
     mrs_readonly := fr_readonly fr; mrs_nonvolatile := fr_nonvolatile fr;
     mrs_unmergeable := fr_unmergeable fr |}.
End Memory.
#[global] Arguments mr_fields : clear implicits.
#[global] Arguments MemoryRegion : clear implicits.
#[global] Arguments FlatRange : clear implicits.
#[global] Arguments FlatView : clear implicits.
#[global] Arguments MemoryRegionSection : clear implicits.
