(* ===== verification/MemoryView.v ===== *)
(** * The flat view shows the tree

    [resolve] says which region of the tree takes an access: an enabled region
    whose window has the address passes it to the target of its alias, else to
    its subregions in the order of their priority, and takes it itself if none of
    them does and it terminates.  The view that [render_memory_region] and
    [flatview_simplify] compute is sorted, without overlaps, and gives the same
    answer for every address; the binary search finds it. *)
From stdpp Require Import base list numbers.
From S2P Require Import Prelude Memory.

Section View.
Context {R : Type} `{!EqDecision R}.
Implicit Types (mr : MemoryRegion R) (fr : FlatRange R) (view : FlatView R).

(** Induction over regions, their alias targets and their subregions. *)
Lemma region_ind (P : MemoryRegion R -> Prop) :
  (forall f alias subs, (forall t, alias = Some t -> P t) -> Forall P subs ->
     P (mk_MemoryRegion f alias subs)) ->
  forall mr, P mr.
Proof.
  intros H. fix IH 1. intros [f alias subs]. apply H.
  - destruct alias as [t|]; [|discriminate]. intros t' [= <-]. apply IH.
  - induction subs as [|s subs IHs]; constructor; [apply IH|exact IHs].
Qed.

(** ** What an access reaches *)
Record hit := mk_hit {
  h_mr : R; h_offset : Z; h_mask : Z; h_romd : bool;
  h_readonly : bool; h_nonvolatile : bool; h_unmergeable : bool
}.

Definition hit_of (fr : FlatRange R) (a : Z) : hit :=
  {| h_mr := fr_mr fr; h_offset := u64 (fr_offset_in_region fr + (a - ar_start (fr_addr fr)));
     h_mask := fr_dirty_log_mask fr; h_romd := fr_romd_mode fr; h_readonly := fr_readonly fr;
     h_nonvolatile := fr_nonvolatile fr; h_unmergeable := fr_unmergeable fr |}.

(** In a view. *)
Fixpoint view_at (view : FlatView R) (a : Z) : option hit :=
  match view with
  | [] => None
  | fr :: rest => if addrrange_contains (fr_addr fr) a then Some (hit_of fr a) else view_at rest a
  end.

Definition or_else (o1 o2 : option hit) : option hit :=
  match o1 with Some h => Some h | None => o2 end.
Lemma or_else_assoc o1 o2 o3 : or_else (or_else o1 o2) o3 = or_else o1 (or_else o2 o3).
Proof. by destruct o1. Qed.
Lemma or_else_none o : or_else o None = o.
Proof. by destruct o. Qed.

(** In a region whose container starts at [base]. *)
Fixpoint resolve (mr : MemoryRegion R) (base a : Z) (readonly nonvolatile unmergeable : bool)
  : option hit :=
  let '(mk_MemoryRegion f alias subregions) := mr in
  let base := base + mr_addr f in
  let readonly := readonly || mr_readonly f in
  let nonvolatile := nonvolatile || mr_nonvolatile f in
  let unmergeable := unmergeable || mr_unmergeable f in
  if mr_enabled f && addrrange_contains (addrrange_make base (mr_size f)) a then
    match alias with
    | Some target =>
        resolve target (base - mr_addr (fields_of target) - mr_alias_offset f) a
          readonly nonvolatile unmergeable
    | None =>
        or_else
          (foldr (fun s => or_else (resolve s base a readonly nonvolatile unmergeable)) None
             subregions)
          (if mr_terminates f
           then Some (hit_of (flat_range f readonly nonvolatile unmergeable 0
                                (addrrange_make base (mr_size f))) a)
           else None)
    end
  else None.

(** The first of the subregions that takes the access. *)
Definition resolve_first (subs : list (MemoryRegion R)) (base a : Z) (ro nv um : bool)
  : option hit :=
  foldr (fun s => or_else (resolve s base a ro nv um)) None subs.

Lemma resolve_unfold f alias subs base a ro nv um :
  resolve (mk_MemoryRegion f alias subs) base a ro nv um =
    let base := base + mr_addr f in
    let ro := ro || mr_readonly f in
    let nv := nv || mr_nonvolatile f in
    let um := um || mr_unmergeable f in
    if mr_enabled f && addrrange_contains (addrrange_make base (mr_size f)) a then
      match alias with
      | Some t => resolve t (base - mr_addr (fields_of t) - mr_alias_offset f) a ro nv um
      | None =>
          or_else (resolve_first subs base a ro nv um)
            (if mr_terminates f
             then Some (hit_of (flat_range f ro nv um 0 (addrrange_make base (mr_size f))) a)
             else None)
      end
    else None.
Proof. reflexivity. Qed.

(** ** Well-formed regions and views *)
Fixpoint region_ok (mr : MemoryRegion R) : bool :=
  let '(mk_MemoryRegion f alias subregions) := mr in
  (0 <=? mr_size f) &&
  match alias with Some target => region_ok target | None => true end &&
  forallb region_ok subregions.

(** Ranges that are not empty, in ascending order from [lo] to [hi]. *)
Fixpoint view_ok (lo hi : Z) (view : FlatView R) : Prop :=
  match view with
  | [] => lo <= hi
  | fr :: rest =>
      lo <= ar_start (fr_addr fr) /\ 0 < ar_size (fr_addr fr) /\
      view_ok (addrrange_end (fr_addr fr)) hi rest
  end.

Lemma view_ok_bound lo hi view : view_ok lo hi view -> lo <= hi.
Proof.
  revert lo. induction view as [|fr rest IH]; intros lo; simpl; [done|].
  intros (H1 & H2 & H3). apply IH in H3. unfold addrrange_end in H3. lia.
Qed.

Lemma view_ok_weaken lo lo' hi view : view_ok lo hi view -> lo' <= lo -> view_ok lo' hi view.
Proof. destruct view; simpl; intros H ?; [lia|]. destruct H as (?&?&?). split_and!; [lia|done..]. Qed.

Lemma contains_spec r a : addrrange_contains r a = true <-> ar_start r <= a < addrrange_end r.
Proof. unfold addrrange_contains. lia. Qed.
Lemma contains_false r a :
  addrrange_contains r a = false <-> a < ar_start r \/ addrrange_end r <= a.
Proof. unfold addrrange_contains. lia. Qed.

(** Nothing is seen below a view. *)
Lemma view_at_below lo hi view a : view_ok lo hi view -> a < lo -> view_at view a = None.
Proof.
  revert lo. induction view as [|fr rest IH]; intros lo; simpl; [done|].
  intros (H1 & H2 & H3) Ha. rewrite (proj2 (contains_false _ _)) by lia.
  apply (IH _ H3). unfold addrrange_end. lia.
Qed.

(** ** Rendering into the gaps *)
Section Gaps.
Variables (f : mr_fields R) (ro nv um : bool).

(** The region [f] seen through a window that starts at [base] with [offset]. *)
Definition window_at (offset base remain a : Z) : option hit :=
  if addrrange_contains (addrrange_make base remain) a
  then Some (hit_of (flat_range f ro nv um offset (addrrange_make base remain)) a) else None.

Lemma window_at_u64 offset base remain a :
  window_at (u64 offset) base remain a = window_at offset base remain a.
Proof.
  unfold window_at. destruct (addrrange_contains _ _); [|done]. unfold hit_of. simpl.
  do 2 f_equal. unfold u64. by rewrite Zplus_mod_idemp_l.
Qed.

Lemma window_at_skip offset base remain n a :
  0 <= n <= remain -> base + n <= a \/ a < base ->
  window_at (u64 (offset + n)) (base + n) (remain - n) a = window_at offset base remain a.
Proof.
  intros Hn Ha. rewrite window_at_u64. unfold window_at, hit_of, addrrange_contains, addrrange_end. simpl.
  replace (base + n + (remain - n)) with (base + remain) by lia.
  replace (base + n <=? a) with (base <=? a) by lia.
  destruct (_ && _); [|done]. do 2 f_equal. f_equal. lia.
Qed.

Lemma window_at_empty offset base a : window_at offset base 0 a = None.
Proof. unfold window_at. by rewrite (proj2 (contains_false _ _)) by (unfold addrrange_end; simpl; lia). Qed.
End Gaps.

Lemma window_at_out f ro nv um offset base remain a :
  a < base \/ base + remain <= a -> window_at f ro nv um offset base remain a = None.
Proof.
  intros. unfold window_at. by rewrite (proj2 (contains_false _ _)) by (unfold addrrange_end; simpl; lia).
Qed.

(** Behind a range [r] of the view that [base] is not behind of. *)
Lemma window_at_behind f ro nv um r offset base remain a :
  addrrange_contains r a = false -> base < addrrange_end r -> 0 <= remain ->
  remain = 0 \/ ar_start r <= base ->
  let now := Z.min (base + remain) (addrrange_end r) - base in
  window_at f ro nv um (u64 (offset + now)) (base + now) (remain - now) a =
  window_at f ro nv um offset base remain a.
Proof.
  intros Ha Hb Hr Hs now. apply contains_false in Ha.
  destruct (Z_lt_le_dec a base); [rewrite !window_at_out; [done|lia|lia]|].
  destruct (Z_lt_le_dec (base + remain) (addrrange_end r)).
  - rewrite !window_at_out; [done|lia|lia].
  - apply window_at_skip; lia.
Qed.

(** The region is seen where the view shows nothing. *)
Lemma render_gaps_at f ro nv um offset base remain view lo hi a :
  view_ok lo hi view -> 0 <= remain -> remain = 0 \/ lo <= base ->
  view_at (render_gaps (flat_range f ro nv um) offset base remain view) a =
  or_else (view_at view a) (window_at f ro nv um offset base remain a).
Proof.
  revert offset base remain lo. induction view as [|r rest IH];
    intros offset base remain lo Hok Hr Hlo; simpl.
  { destruct (Z.eqb_spec remain 0) as [->|Hz]; simpl; [by rewrite window_at_empty|].
    unfold window_at. by destruct (addrrange_contains _ a). }
  destruct Hok as (H1 & H2 & H3).
  assert (Hend : addrrange_end (fr_addr r) = ar_start (fr_addr r) + ar_size (fr_addr r)) by done.
  destruct (Z.eqb_spec remain 0) as [->|Hz]; [by rewrite window_at_empty, or_else_none|].
  destruct Hlo as [?|Hlo]; [done|].
  destruct (Z.leb_spec (addrrange_end (fr_addr r)) base) as [He|He]; simpl.
  { destruct (addrrange_contains (fr_addr r) a); [done|]. apply (IH _ _ _ _ H3); auto. }
  destruct (Z.ltb_spec base (ar_start (fr_addr r))) as [Hg|Hg]; simpl.
  - set (now := Z.min remain (ar_start (fr_addr r) - base)).
    assert (Hnow : 0 <= now <= remain /\ now <= ar_start (fr_addr r) - base /\
      (remain - now = 0 \/ ar_start (fr_addr r) = base + now)) by lia. clearbody now.
    destruct (addrrange_contains (addrrange_make base now) a) eqn:Ea.
    + apply contains_spec in Ea. unfold addrrange_end in Ea. simpl in Ea.
      rewrite (proj2 (contains_false (fr_addr r) a)) by lia.
      rewrite (view_at_below _ _ _ _ H3) by (unfold addrrange_end; lia). simpl.
      unfold window_at. by rewrite (proj2 (contains_spec _ _)) by (unfold addrrange_end; simpl; lia).
    + apply contains_false in Ea. unfold addrrange_end in Ea. simpl in Ea.
      destruct (addrrange_contains (fr_addr r) a) eqn:Er; [done|].
      rewrite (IH _ _ _ _ H3) by lia. f_equal.
      rewrite window_at_behind by (done || lia). apply window_at_skip; lia.
  - destruct (addrrange_contains (fr_addr r) a) eqn:Er; [done|].
    rewrite (IH _ _ _ _ H3) by lia. f_equal. apply window_at_behind; done || lia.
Qed.

Lemma render_gaps_ok f ro nv um offset base remain view lo hi :
  view_ok lo hi view -> 0 <= remain -> remain = 0 \/ lo <= base /\ base + remain <= hi ->
  view_ok lo hi (render_gaps (flat_range f ro nv um) offset base remain view).
Proof.
  revert offset base remain lo. induction view as [|r rest IH];
    intros offset base remain lo Hok Hr Hlo; simpl.
  { simpl in Hok. destruct (Z.eqb_spec remain 0); simpl; unfold addrrange_end; simpl; lia. }
  destruct Hok as (H1 & H2 & H3). pose proof (view_ok_bound _ _ _ H3).
  destruct (Z.eqb_spec remain 0) as [->|Hz]; [done|].
  destruct Hlo as [?|Hlo]; [done|].
  destruct (Z.leb_spec (addrrange_end (fr_addr r)) base) as [He|He]; simpl.
  { split_and!; [done..|]. apply (IH _ _ _ _ H3); lia. }
  destruct (Z.ltb_spec base (ar_start (fr_addr r))) as [Hg|Hg]; simpl;
    unfold addrrange_end at 1; simpl; split_and!; try lia; apply (IH _ _ _ _ H3); lia.
Qed.

(** ** Rendering a region *)
Definition clipped (clip : AddrRange) (a : Z) (o : option hit) : option hit :=
  if addrrange_contains clip a then o else None.

Lemma intersects_false r1 r2 a :
  addrrange_intersects r1 r2 = false ->
  addrrange_contains r1 a = true -> addrrange_contains r2 a = false.
Proof. unfold addrrange_intersects, addrrange_contains. lia. Qed.

Lemma intersection_spec r1 r2 a :
  addrrange_contains (addrrange_intersection r1 r2) a =
  addrrange_contains r1 a && addrrange_contains r2 a.
Proof. unfold addrrange_contains, addrrange_intersection, addrrange_end. simpl. lia. Qed.

(** A window into which something of size [hi - lo] may be rendered. *)
Definition clip_ok (lo hi : Z) (clip : AddrRange) : Prop :=
  lo <= ar_start clip /\ 0 <= ar_size clip /\ addrrange_end clip <= hi.

Lemma intersection_ok lo hi r clip :
  0 <= ar_size r -> addrrange_intersects r clip = true -> clip_ok lo hi clip ->
  clip_ok lo hi (addrrange_intersection r clip).
Proof.
  unfold clip_ok, addrrange_intersects, addrrange_contains, addrrange_intersection, addrrange_end.
  simpl. lia.
Qed.

(** What rendering a region has to do to the view. *)
Definition renders (mr : MemoryRegion R) : Prop := forall view base clip ro nv um lo hi,
  view_ok lo hi view -> clip_ok lo hi clip ->
  view_ok lo hi (render_memory_region view mr base clip ro nv um) /\
  forall a, view_at (render_memory_region view mr base clip ro nv um) a =
    or_else (view_at view a) (clipped clip a (resolve mr base a ro nv um)).

Lemma render_subregions subs base clip ro nv um lo hi view :
  Forall renders subs -> view_ok lo hi view -> clip_ok lo hi clip ->
  let view' := fold_left (fun view s => render_memory_region view s base clip ro nv um) subs view in
  view_ok lo hi view' /\
  forall a, view_at view' a =
    or_else (view_at view a) (clipped clip a (resolve_first subs base a ro nv um)).
Proof.
  intros Hs. revert view. induction Hs as [|s subs Hr _ IH]; intros view Hv Hc; simpl.
  { split; [done|]. intros a. unfold clipped. by destruct (addrrange_contains _ _), (view_at view a). }
  destruct (Hr view base clip ro nv um lo hi Hv Hc) as [Hv1 Ha1].
  destruct (IH _ Hv1 Hc) as [Hv2 Ha2]. split; [done|]. intros a.
  rewrite Ha2, Ha1, or_else_assoc. f_equal. unfold clipped.
  by destruct (addrrange_contains clip a).
Qed.

Lemma window_clip f ro nv um base clip a :
  window_at f ro nv um (u64 (ar_start clip - base)) (ar_start clip) (ar_size clip) a =
  clipped clip a (Some (hit_of (flat_range f ro nv um 0 (addrrange_make base (mr_size f))) a)).
Proof.
  rewrite window_at_u64. unfold window_at, clipped. destruct clip as [s n]. simpl.
  destruct (addrrange_contains _ a); [|done]. unfold hit_of. simpl. do 3 f_equal. lia.
Qed.

Lemma render_correct mr : region_ok mr = true -> renders mr.
Proof.
  induction mr as [f alias subs IHa IHs] using region_ind. intros Hok.
  simpl in Hok. apply andb_true_iff in Hok as [[Hsz Hal]%andb_true_iff Hsubs].
  apply Z.leb_le in Hsz. intros view base clip ro nv um lo hi Hv Hc.
  cbn [render_memory_region]. setoid_rewrite resolve_unfold. cbv zeta.
  destruct (mr_enabled f); cbn [negb andb]; cycle 1.
  { split; [done|]. intros a. unfold clipped. by destruct (addrrange_contains _ _), (view_at view a). }
  set (tmp := addrrange_make (base + mr_addr f) (mr_size f)).
  destruct (addrrange_intersects tmp clip) eqn:Hi; cbn [negb]; cycle 1.
  { split; [done|]. intros a. unfold clipped. destruct (addrrange_contains tmp a) eqn:E;
      [rewrite (intersects_false _ _ _ Hi E)|destruct (addrrange_contains clip a)];
      simpl; by rewrite or_else_none. }
  pose proof (intersection_ok lo hi tmp clip Hsz Hi Hc) as Hc'.
  set (clip' := addrrange_intersection tmp clip) in *.
  assert (Hcl : forall a o, clipped clip a (if addrrange_contains tmp a then o else None) =
    clipped clip' a o).
  { intros a o. unfold clipped, clip'. rewrite intersection_spec.
    by destruct (addrrange_contains tmp a), (addrrange_contains clip a). }
  setoid_rewrite Hcl. clearbody clip'. destruct alias as [t|].
  { apply (IHa t eq_refl Hal); done. }
  assert (Hall : Forall renders subs).
  { apply Forall_forall. intros s Hin. rewrite Forall_forall in IHs. apply (IHs s Hin).
    rewrite forallb_forall in Hsubs. by apply Hsubs. }
  destruct (render_subregions subs (base + mr_addr f) clip' (ro || mr_readonly f)
    (nv || mr_nonvolatile f) (um || mr_unmergeable f) lo hi view Hall Hv Hc') as [Hv1 Ha1].
  destruct (mr_terminates f); cbn [negb].
  - destruct Hc' as (C1 & C2 & C3). unfold addrrange_end in C3. split.
    + apply render_gaps_ok; [exact Hv1|lia|lia].
    + intros a. rewrite (render_gaps_at _ _ _ _ _ _ _ _ lo hi) by (exact Hv1 || lia).
      rewrite Ha1, or_else_assoc. f_equal. rewrite window_clip. unfold clipped.
      by destruct (addrrange_contains clip' a).
  - split; [done|]. intros a. by rewrite Ha1, or_else_none.
Qed.

(** ** Merging *)

(** No range can be merged with the next. *)
Fixpoint merged (view : FlatView R) : Prop :=
  match view with
  | [] => True
  | r :: rest => match rest with r' :: _ => can_merge r r' = false | [] => True end /\ merged rest
  end.

(** [r] ends where [last] ends and shows the same region there. *)
Record same_end (r last : FlatRange R) : Prop := {
  se_mr : fr_mr r = fr_mr last;
  se_end : addrrange_end (fr_addr r) = addrrange_end (fr_addr last);
  se_offset : fr_offset_in_region r + ar_size (fr_addr r) =
              fr_offset_in_region last + ar_size (fr_addr last);
  se_mask : fr_dirty_log_mask r = fr_dirty_log_mask last;
  se_romd : fr_romd_mode r = fr_romd_mode last;
  se_readonly : fr_readonly r = fr_readonly last;
  se_nonvolatile : fr_nonvolatile r = fr_nonvolatile last;
  se_unmergeable : fr_unmergeable r = fr_unmergeable last
}.

(** What [can_merge] asks for. *)
Record mergeable (r1 r2 : FlatRange R) : Prop := {
  mg_end : addrrange_end (fr_addr r1) = ar_start (fr_addr r2);
  mg_mr : fr_mr r1 = fr_mr r2;
  mg_offset : fr_offset_in_region r1 + ar_size (fr_addr r1) = fr_offset_in_region r2;
  mg_mask : fr_dirty_log_mask r1 = fr_dirty_log_mask r2;
  mg_romd : fr_romd_mode r1 = fr_romd_mode r2;
  mg_readonly : fr_readonly r1 = fr_readonly r2;
  mg_nonvolatile : fr_nonvolatile r1 = fr_nonvolatile r2;
  mg_unmergeable1 : fr_unmergeable r1 = false;
  mg_unmergeable2 : fr_unmergeable r2 = false
}.

Lemma can_merge_spec r1 r2 : can_merge r1 r2 = true <-> mergeable r1 r2.
Proof.
  unfold can_merge. rewrite !andb_true_iff, !Z.eqb_eq, bool_decide_eq_true, !eqb_true_iff,
    !negb_true_iff. split; [intros; destruct_and!; by constructor|by intros []].
Qed.

Lemma can_merge_same_end r last r' : same_end r last -> can_merge r r' = can_merge last r'.
Proof.
  intros []. unfold can_merge. by rewrite se_mr0, se_end0, se_offset0, se_mask0, se_romd0,
    se_readonly0, se_nonvolatile0, se_unmergeable0.
Qed.

Lemma same_end_grow r last r' :
  same_end r last -> mergeable last r' -> same_end (grow r (ar_size (fr_addr r'))) r'.
Proof.
  intros [] []. unfold addrrange_end in *. split; unfold addrrange_end; simpl; try congruence; lia.
Qed.

Lemma grow_at r last r' a :
  same_end r last -> mergeable last r' -> 0 < ar_size (fr_addr r') -> 0 < ar_size (fr_addr r) ->
  view_at [grow r (ar_size (fr_addr r'))] a = view_at [r; r'] a.
Proof.
  intros [] [] H1 H2. simpl. unfold addrrange_contains, addrrange_end in *. simpl.
  destruct (Z_lt_le_dec a (ar_start (fr_addr r) + ar_size (fr_addr r))) as [Ha|Ha].
  - replace (a <? ar_start (fr_addr r) + (ar_size (fr_addr r) + ar_size (fr_addr r'))) with true by lia.
    replace (a <? ar_start (fr_addr r) + ar_size (fr_addr r)) with true by lia.
    destruct (ar_start (fr_addr r) <=? a) eqn:E; simpl; [done|].
    by replace (ar_start (fr_addr r') <=? a) with false by lia.
  - replace (a <? ar_start (fr_addr r) + ar_size (fr_addr r)) with false by lia.
    rewrite andb_false_r.
    replace ((ar_start (fr_addr r) <=? a) &&
      (a <? ar_start (fr_addr r) + (ar_size (fr_addr r) + ar_size (fr_addr r')))) with
      ((ar_start (fr_addr r') <=? a) && (a <? ar_start (fr_addr r') + ar_size (fr_addr r'))) by lia.
    destruct (_ && _); [|done]. unfold hit_of. simpl. f_equal. f_equal; [congruence|f_equal; lia|congruence..].
Qed.

Lemma view_at_app v1 v2 a : view_at (v1 ++ v2) a = or_else (view_at v1 a) (view_at v2 a).
Proof. induction v1 as [|r v1 IH]; simpl; [done|]. by destruct (addrrange_contains _ a). Qed.

(** The head of what [simplify_from] returns starts like its first argument. *)
Lemma simplify_from_head (r last : FlatRange R) rest :
  exists n rest', simplify_from r last rest = grow r n :: rest'.
Proof.
  revert r last. induction rest as [|r' rest IH]; intros r last; simpl.
  - exists 0, []. unfold grow. rewrite Z.add_0_r. destruct r as [? ? []]. done.
  - destruct (can_merge last r').
    + destruct (IH (grow r (ar_size (fr_addr r'))) r') as (n & rest' & E).
      exists (ar_size (fr_addr r') + n), rest'. rewrite E. unfold grow. simpl. by rewrite Z.add_assoc.
    + exists 0, (simplify_from r' r' rest). unfold grow. rewrite Z.add_0_r. destruct r as [? ? []]. done.
Qed.

Lemma can_merge_grow (r r' : FlatRange R) n : can_merge r (grow r' n) = can_merge r r'.
Proof. reflexivity. Qed.

Lemma simplify_from_correct r last rest lo hi :
  same_end r last -> view_ok lo hi (r :: rest) ->
  view_ok lo hi (simplify_from r last rest) /\ merged (simplify_from r last rest) /\
  forall a, view_at (simplify_from r last rest) a = view_at (r :: rest) a.
Proof.
  revert r last lo. induction rest as [|r' rest IH]; intros r last lo Hs Hv; [simpl in *; tauto|].
  destruct Hv as (H1 & H2 & H3 & H4 & H5). cbn [simplify_from].
  destruct (can_merge last r') eqn:E.
  - apply can_merge_spec in E.
    assert (Hv' : view_ok lo hi (grow r (ar_size (fr_addr r')) :: rest)).
    { destruct Hs, E. unfold addrrange_end in *. simpl. split_and!; [lia|lia|].
      eapply view_ok_weaken; [exact H5|]. unfold addrrange_end. simpl. lia. }
    destruct (IH _ _ _ (same_end_grow _ _ _ Hs E) Hv') as (I1 & I2 & I3).
    split; [done|]. split; [done|]. intros a. rewrite I3.
    change (view_at ([grow r (ar_size (fr_addr r'))] ++ rest) a = view_at ([r; r'] ++ rest) a).
    rewrite !view_at_app. by rewrite (grow_at r last r' a Hs E H4 H2).
  - assert (Hr' : same_end r' r') by done.
    destruct (IH r' r' _ Hr' (conj H3 (conj H4 H5))) as (I1 & I2 & I3).
    split; [by split_and!|]. split; [|intros a; simpl; by rewrite I3].
    destruct (simplify_from_head r' r' rest) as (n & rest' & Eh). rewrite Eh in *.
    split; [|done]. by rewrite can_merge_grow, (can_merge_same_end _ _ _ Hs).
Qed.

Lemma simplify_correct view lo hi :
  view_ok lo hi view ->
  view_ok lo hi (flatview_simplify view) /\ merged (flatview_simplify view) /\
  forall a, view_at (flatview_simplify view) a = view_at view a.
Proof. destruct view as [|r rest]; [done|]. by apply simplify_from_correct. Qed.

Definition whole : AddrRange := addrrange_make 0 (2 ^ 64).

Lemma generate_at mr :
  region_ok mr = true ->
  view_ok 0 (2 ^ 64) (generate_memory_topology (Some mr)) /\
  merged (generate_memory_topology (Some mr)) /\
  forall a, view_at (generate_memory_topology (Some mr)) a =
    clipped whole a (resolve mr 0 a false false false).
Proof.
  intros Hok. unfold generate_memory_topology. fold whole.
  destruct (render_correct mr Hok [] 0 whole false false false 0 (2 ^ 64)) as [H1 H2];
    [done|unfold clip_ok, whole, addrrange_end; simpl; lia|].
  destruct (simplify_correct _ _ _ H1) as (S1 & S2 & S3). split; [done|]. split; [done|].
  intros a. by rewrite S3, H2.
Qed.

(** ** Binary search *)
Lemma bsearch_correct {A} (cmp : A -> Z) (base : list A) fuel lo hi :
  (forall i j x y, (i <= j)%nat -> base !! i = Some x -> base !! j = Some y -> 0 < cmp y -> 0 < cmp x) ->
  (forall i j x y, (i <= j)%nat -> base !! i = Some x -> base !! j = Some y -> cmp x < 0 -> cmp y < 0) ->
  (hi - lo < fuel)%nat -> (hi <= length base)%nat ->
  (forall i x, (i < lo)%nat -> base !! i = Some x -> 0 < cmp x) ->
  (forall i x, (hi <= i)%nat -> base !! i = Some x -> cmp x < 0) ->
  match bsearch fuel cmp base lo hi with
  | Some i => exists x, base !! i = Some x /\ cmp x = 0
  | None => forall i x, base !! i = Some x -> cmp x <> 0
  end.
Proof.
  intros Hup Hdown. revert lo hi.
  induction fuel as [|fuel IH]; intros lo hi Hf Hl Hlo Hhi; [lia|]. cbn [bsearch].
  destruct (Nat.leb_spec hi lo) as [Hle|Hlt].
  { intros i x Hx. destruct (Nat.lt_ge_cases i lo);
      [pose proof (Hlo i x ltac:(lia) Hx)|pose proof (Hhi i x ltac:(lia) Hx)]; lia. }
  set (mid := ((lo + hi) / 2)%nat).
  assert (Hm : (lo <= mid < hi)%nat).
  { subst mid. split; [apply Nat.div_le_lower_bound; lia|apply Nat.Div0.div_lt_upper_bound; lia]. }
  clearbody mid. destruct (lookup_lt_is_Some_2 base mid) as [x Hx]; [lia|]. rewrite Hx.
  destruct (Z.ltb_spec (cmp x) 0).
  { apply IH; [lia|lia|done|]. intros i y Hi Hy. apply (Hdown mid i x y); done || lia. }
  destruct (Z.ltb_spec 0 (cmp x)).
  { apply IH; [lia|lia| |done]. intros i y Hi Hy. apply (Hup i mid y x); done || lia. }
  exists x. split; [done|lia].
Qed.

(** Ranges at a lower position end below. *)
Lemma view_ok_lookup view lo hi i fr :
  view_ok lo hi view -> view !! i = Some fr ->
  lo <= ar_start (fr_addr fr) /\ 0 < ar_size (fr_addr fr) /\ addrrange_end (fr_addr fr) <= hi.
Proof.
  revert lo i. induction view as [|r rest IH]; intros lo [|i] Hv Hl; try done; simpl in Hl.
  - injection Hl as ->. destruct Hv as (? & ? & Hv). apply view_ok_bound in Hv. auto.
  - destruct Hv as (? & ? & Hv). destruct (IH _ _ Hv Hl) as (? & ? & ?).
    unfold addrrange_end in *. lia.
Qed.

Lemma view_ok_sorted view lo hi i j fi fj :
  view_ok lo hi view -> view !! i = Some fi -> view !! j = Some fj -> (i < j)%nat ->
  addrrange_end (fr_addr fi) <= ar_start (fr_addr fj).
Proof.
  revert lo i j. induction view as [|r rest IH]; intros lo i j Hv Hi Hj Hij; [done|].
  destruct Hv as (H1 & H2 & H3). destruct j as [|j]; [lia|]. simpl in Hj.
  destruct i as [|i]; simpl in Hi; [|apply (IH _ i j H3 Hi Hj); lia].
  injection Hi as ->. by apply (view_ok_lookup _ _ _ _ _ H3 Hj).
Qed.

Lemma view_at_lookup view lo hi i fr a :
  view_ok lo hi view -> view !! i = Some fr -> addrrange_contains (fr_addr fr) a = true ->
  view_at view a = Some (hit_of fr a).
Proof.
  revert lo i. induction view as [|r rest IH]; intros lo [|i] Hv Hl Ha; try done; simpl in Hl |- *.
  - injection Hl as ->. by rewrite Ha.
  - rewrite (proj2 (contains_false (fr_addr r) a)); [by destruct Hv as (_&_&Hv); apply (IH _ i Hv)|].
    pose proof (view_ok_sorted (r :: rest) lo hi 0 (S i) r fr Hv eq_refl Hl ltac:(lia)).
    apply contains_spec in Ha. lia.
Qed.

Lemma view_at_None view a :
  (forall i fr, view !! i = Some fr -> addrrange_contains (fr_addr fr) a = false) ->
  view_at view a = None.
Proof.
  induction view as [|r rest IH]; intros H; simpl; [done|]. rewrite (H O r eq_refl).
  apply IH. intros i fr Hi. by apply (H (S i)).
Qed.

Section Find.
Variables (view : FlatView R) (lo hi addr size : Z).
Hypothesis view_fine : view_ok lo hi view.
Hypothesis size_pos : 0 < size.
Let range := addrrange_make addr size.

Lemma cmp_zero fr : 0 < ar_size (fr_addr fr) ->
  cmp_flatrange_addr range fr = 0 <-> addrrange_intersects (fr_addr fr) range = true.
Proof.
  intros. unfold cmp_flatrange_addr, addrrange_intersects, addrrange_contains, addrrange_end, range.
  simpl. destruct (Z.leb_spec (addr + size) (ar_start (fr_addr fr))); [lia|].
  destruct (Z.leb_spec (ar_start (fr_addr fr) + ar_size (fr_addr fr)) addr); lia.
Qed.

Lemma lookup_correct :
  match flatview_lookup view range with
  | Some i => exists fr, view !! i = Some fr /\ addrrange_intersects (fr_addr fr) range = true
  | None => forall i fr, view !! i = Some fr -> addrrange_intersects (fr_addr fr) range = false
  end.
Proof using All.
  assert (Hmono : forall i j x y, (i <= j)%nat -> view !! i = Some x -> view !! j = Some y ->
    (0 < cmp_flatrange_addr range y -> 0 < cmp_flatrange_addr range x) /\
    (cmp_flatrange_addr range x < 0 -> cmp_flatrange_addr range y < 0)).
  { intros i j x y Hij Hx Hy.
    destruct (view_ok_lookup _ _ _ _ _ view_fine Hx) as (X1 & X2 & X3).
    destruct (view_ok_lookup _ _ _ _ _ view_fine Hy) as (Y1 & Y2 & Y3).
    assert (Hs : x = y \/ addrrange_end (fr_addr x) <= ar_start (fr_addr y)).
    { destruct (decide (i = j)) as [->|]; [left; congruence|right].
      apply (view_ok_sorted view lo hi i j); done || lia. }
    destruct Hs as [->|Hs]; [tauto|]. unfold cmp_flatrange_addr, addrrange_end, range in *. simpl in *.
    repeat case_match; lia. }
  pose proof (bsearch_correct (cmp_flatrange_addr range) view (S (length view)) 0 (length view)) as H.
  fold (flatview_lookup view range) in H. destruct (flatview_lookup view range) as [i|].
  - destruct H as (fr & Hfr & Hz);
      [intros; by eapply Hmono|intros; by eapply Hmono|lia|lia|lia| |].
    { intros i' x Hi' Hx. apply lookup_lt_Some in Hx. lia. }
    exists fr. split; [done|]. apply cmp_zero; [|done].
    by apply (view_ok_lookup _ _ _ _ _ view_fine Hfr).
  - intros i fr Hfr. apply not_true_is_false. rewrite <- cmp_zero
      by (by apply (view_ok_lookup _ _ _ _ _ view_fine Hfr)).
    apply (H ltac:(intros; by eapply Hmono) ltac:(intros; by eapply Hmono)
      ltac:(lia) ltac:(lia) ltac:(lia)) with i; [|done].
    intros i' x Hi' Hx. apply lookup_lt_Some in Hx. lia.
Qed.

(** The first range from [addr] on that meets [range]. *)
Lemma first_intersecting_correct i fr :
  view !! i = Some fr -> addrrange_intersects (fr_addr fr) range = true ->
  exists fr', view !! first_intersecting view range i = Some fr' /\
    addrrange_intersects (fr_addr fr') range = true /\
    forall j fj, (j < first_intersecting view range i)%nat -> view !! j = Some fj ->
      addrrange_intersects (fr_addr fj) range = false.
Proof using All.
  revert fr. induction i as [|i IH]; intros fr Hfr Hi; simpl; [exists fr; split_and!; [done..|lia]|].
  destruct (view !! i) as [fr1|] eqn:Hfr1;
    [|apply lookup_lt_Some in Hfr; apply lookup_ge_None in Hfr1; lia].
  destruct (addrrange_intersects (fr_addr fr1) range) eqn:E.
  { by apply (IH fr1). }
  exists fr. split_and!; [done..|]. intros j fj Hj Hfj.
  destruct (decide (j = i)) as [->|]; [congruence|].
  pose proof (view_ok_sorted _ _ _ j i fj fr1 view_fine Hfj Hfr1 ltac:(lia)) as S1.
  pose proof (view_ok_sorted _ _ _ i (S i) fr1 fr view_fine Hfr1 Hfr ltac:(lia)) as S2.
  destruct (view_ok_lookup _ _ _ _ _ view_fine Hfj) as (_ & F1 & _).
  destruct (view_ok_lookup _ _ _ _ _ view_fine Hfr1) as (_ & F2 & _).
  destruct (view_ok_lookup _ _ _ _ _ view_fine Hfr) as (_ & F3 & _).
  unfold addrrange_intersects, addrrange_contains, addrrange_end, range in *. simpl in *. lia.
Qed.

Lemma intersects_false_at fr a :
  addrrange_intersects (fr_addr fr) range = false -> addr <= a < addr + size ->
  addrrange_contains (fr_addr fr) a = false.
Proof.
  unfold addrrange_intersects, addrrange_contains, addrrange_end, range. simpl. lia.
Qed.

Lemma find_correct :
  match memory_region_find view addr size with
  | None => forall a, addr <= a < addr + size -> view_at view a = None
  | Some s =>
      let base := mrs_offset_within_address_space s in
      addr <= base /\ 0 < mrs_size s /\ base + mrs_size s <= addr + size /\
      (forall a, addr <= a < base -> view_at view a = None) /\
      (forall a, base <= a < base + mrs_size s -> exists h, view_at view a = Some h /\
         h_mr h = mrs_mr s /\ h_offset h = u64 (mrs_offset_within_region s + (a - base)) /\
         h_readonly h = mrs_readonly s /\ h_nonvolatile h = mrs_nonvolatile s)
  end.
Proof using All.
  unfold memory_region_find. fold range. pose proof lookup_correct as Hl.
  destruct (flatview_lookup view range) as [i|]; simpl; cycle 1.
  { intros a Ha. apply view_at_None. intros i fr Hfr. by apply intersects_false_at; [apply (Hl i)|]. }
  destruct Hl as (fr0 & Hfr0 & Hi0).
  destruct (first_intersecting_correct i fr0 Hfr0 Hi0) as (fr & Hfr & Hi & Hbefore).
  rewrite Hfr. simpl. destruct (view_ok_lookup _ _ _ _ _ view_fine Hfr) as (F1 & F2 & F3).
  assert (Hin : addrrange_intersects (fr_addr fr) range = true) by done.
  unfold addrrange_intersects, addrrange_contains, addrrange_end, range in Hin. simpl in Hin.
  unfold addrrange_end. simpl. split_and!; [lia|lia|lia| |].
  - intros a Ha. apply view_at_None. intros j fj Hj.
    destruct (Nat.lt_ge_cases j (first_intersecting view range i)) as [Hlt|Hge].
    { apply intersects_false_at; [by apply (Hbefore j)|lia]. }
    apply contains_false. left. destruct (decide (j = first_intersecting view range i)) as [->|].
    { rewrite Hfr in Hj. injection Hj as <-. lia. }
    pose proof (view_ok_sorted _ _ _ _ j fr fj view_fine Hfr Hj ltac:(lia)).
    unfold addrrange_end in *. lia.
  - intros a Ha. exists (hit_of fr a). split; [|split_and!; try done].
    { apply (view_at_lookup _ _ _ _ _ _ view_fine Hfr). apply contains_spec.
      unfold addrrange_end. lia. }
    simpl. unfold u64. rewrite Zplus_mod_idemp_l. f_equal. lia.
Qed.
End Find.

(** The lookup of a single byte. *)
Lemma find_byte view lo hi a :
  view_ok lo hi view ->
  (s ← memory_region_find view a 1; Some (mrs_mr s, mrs_offset_within_region s)) =
  (fun h => (h_mr h, h_offset h)) <$> view_at view a.
Proof.
  intros Hv. pose proof (find_correct view lo hi a 1 Hv ltac:(lia)) as H.
  destruct (memory_region_find view a 1) as [s|] eqn:E; simpl; [|by rewrite H by lia].
  destruct H as (H1 & H2 & H3 & _ & H5).
  assert (Ha : a = mrs_offset_within_address_space s) by lia.
  destruct (H5 a ltac:(lia)) as (h & -> & Hm & Ho & _). simpl. rewrite Hm, Ho, <- Ha, Z.sub_diag, Z.add_0_r.
  do 2 f_equal. unfold memory_region_find in E. cbv zeta in E.
  destruct (flatview_lookup _ _); [|done]. simpl in E. destruct (view !! _); [|done].
  simpl in E. injection E as <-. simpl. unfold u64. by rewrite Z.mod_mod.
Qed.

(** ** The root of a view *)

(** Nothing is lost or moved when a region of this kind is left out. *)
Definition plain (f : mr_fields R) : Prop :=
  mr_addr f = 0 /\ mr_readonly f = false /\ mr_nonvolatile f = false /\ mr_unmergeable f = false.

(** The regions that the search for the root may leave out are plain, and so are
    the places of the alias targets. *)
Fixpoint plain_chain (mr : MemoryRegion R) : Prop :=
  let '(mk_MemoryRegion f alias subregions) := mr in
  match alias with
  | Some target => plain f /\ mr_addr (fields_of target) = 0 /\ plain_chain target
  | None => mr_terminates f = true \/
            plain f /\ foldr (fun c P => (mr_addr (fields_of c) = 0 -> plain_chain c) /\ P) True subregions
  end.

Lemma resolve_disabled mr base a ro nv um :
  mr_enabled (fields_of mr) = false -> resolve mr base a ro nv um = None.
Proof. destruct mr as [f alias subs]. simpl. by intros ->. Qed.

Lemma resolve_window mr base a ro nv um :
  a < base + mr_addr (fields_of mr) \/ base + mr_addr (fields_of mr) + mr_size (fields_of mr) <= a ->
  resolve mr base a ro nv um = None.
Proof.
  destruct mr as [f alias subs]. intros Ha. rewrite resolve_unfold. cbv zeta. simpl in Ha.
  rewrite (proj2 (contains_false _ _)) by (unfold addrrange_end; simpl; lia). by rewrite andb_false_r.
Qed.

(** What the loop over the children finds. *)
Lemma scan_correct root size subs base a ro nv um :
  match scan_children root size false None subs with
  | (false, _) => resolve_first subs base a ro nv um = None
  | (true, None) => True
  | (true, Some r) => exists c, c ∈ subs /\ mr_addr (fields_of c) = 0 /\
      mr_size (fields_of c) <= size /\ r = root c /\
      resolve_first subs base a ro nv um = resolve c base a ro nv um
  end.
Proof.
  assert (Hrest : forall next l, match scan_children root size true next l with
    | (true, Some r) => next = Some r /\ resolve_first l base a ro nv um = None
    | (true, None) => True
    | (false, _) => False end).
  { intros next l. revert next. induction l as [|c l IH]; intros next; simpl; [by destruct next|].
    destruct (mr_enabled (fields_of c)) eqn:E; [done|].
    rewrite (resolve_disabled c) by done. apply IH. }
  induction subs as [|c subs IH]; [done|]. simpl.
  destruct (mr_enabled (fields_of c)) eqn:E; cycle 1.
  { rewrite (resolve_disabled c) by done. simpl.
    destruct (scan_children root size false None subs) as [[] [r|]]; try done.
    destruct IH as (c' & H1 & H2). exists c'. split; [by right|done]. }
  destruct ((_ =? 0) && _) eqn:Hc.
  - specialize (Hrest (Some (root c)) subs).
    destruct (scan_children root size true _ subs) as [[] [r|]]; try done.
    destruct Hrest as [[= <-] Hn]. exists c. rewrite Hn, or_else_none.
    split_and!; [by left|lia|lia|done|done].
  - specialize (Hrest None subs).
    destruct (scan_children root size true _ subs) as [[] [r|]]; try done.
    by destruct Hrest.
Qed.

Lemma plain_resolve f alias subs a :
  plain f ->
  resolve (mk_MemoryRegion f alias subs) 0 a false false false =
  if mr_enabled f && addrrange_contains (addrrange_make 0 (mr_size f)) a then
    match alias with
    | Some t => resolve t (0 - mr_addr (fields_of t) - mr_alias_offset f) a false false false
    | None =>
        or_else (resolve_first subs 0 a false false false)
          (if mr_terminates f
           then Some (hit_of (flat_range f false false false 0 (addrrange_make 0 (mr_size f))) a)
           else None)
    end
  else None.
Proof. intros (H1 & H2 & H3 & H4). rewrite resolve_unfold. cbv zeta. by rewrite H1, H2, H3, H4. Qed.

Lemma plain_child c subs :
  foldr (fun c P => (mr_addr (fields_of c) = 0 -> plain_chain c) /\ P) True subs -> c ∈ subs ->
  mr_addr (fields_of c) = 0 -> plain_chain c.
Proof.
  induction subs as [|s subs IH]; intros H Hin; [by apply not_elem_of_nil in Hin|].
  destruct H as [H1 H2]. apply elem_of_cons in Hin as [->|Hin]; [exact H1|exact (IH H2 Hin)].
Qed.

Lemma root_resolve mr a :
  plain_chain mr ->
  resolve mr 0 a false false false =
  match memory_region_get_flatview_root mr with
  | Some root => resolve root 0 a false false false
  | None => None
  end.
Proof.
  induction mr as [f alias subs IHa IHs] using region_ind. intros Hp.
  destruct (mr_enabled f) eqn:En; cycle 1.
  { rewrite resolve_disabled by done. simpl. by rewrite En. }
  cbn [memory_region_get_flatview_root]. rewrite En. cbn [negb]. destruct alias as [t|].
  - destruct Hp as (Hf & Ht & Hc). rewrite plain_resolve by done.
    destruct ((mr_alias_offset f =? 0) && _) eqn:Hcond; cycle 1.
    { by rewrite plain_resolve by done. }
    rewrite <- (IHa t eq_refl Hc), En, Ht. simpl.
    replace (mr_alias_offset f) with 0 by lia. change (0 - 0 - 0) with 0.
    destruct (addrrange_contains _ a) eqn:Ea; [done|]. apply contains_false in Ea.
    unfold addrrange_end in Ea. simpl in Ea. symmetry. apply resolve_window. lia.
  - destruct (mr_terminates f) eqn:Et; [done|]. destruct Hp as [Hp|[Hf Hc]]; [congruence|].
    rewrite plain_resolve by done. rewrite En, Et, or_else_none. cbn [andb].
    pose proof (scan_correct memory_region_get_flatview_root (mr_size f) subs 0 a false false false) as Hs.
    destruct (scan_children _ _ _ _ _) as [[] [r|]]; cbn [negb].
    + destruct Hs as (c & Hin & Hz & Hsz & -> & ->).
      rewrite Forall_forall in IHs. rewrite <- (IHs c (proj1 (list_elem_of_In _ _) Hin) (plain_child c subs Hc Hin Hz)).
      destruct (addrrange_contains _ a) eqn:Ea; [done|]. apply contains_false in Ea.
      unfold addrrange_end in Ea. simpl in Ea. symmetry. apply resolve_window. lia.
    + rewrite plain_resolve by done. by rewrite En, Et, or_else_none.
    + rewrite Hs. by destruct (addrrange_contains _ a).
    + rewrite Hs. by destruct (addrrange_contains _ a).
Qed.

(** The root of a well-formed region is well formed. *)
Lemma root_ok mr root :
  region_ok mr = true -> memory_region_get_flatview_root mr = Some root -> region_ok root = true.
Proof.
  induction mr as [f alias subs IHa IHs] using region_ind. intros Hok Hr.
  pose proof Hok as Hok'. simpl in Hok'. apply andb_true_iff in Hok' as [[_ Hal]%andb_true_iff Hsubs].
  cbn [memory_region_get_flatview_root] in Hr.
  destruct (mr_enabled f); [|done]. cbn [negb] in Hr. destruct alias as [t|].
  { destruct (_ && _) in Hr; [by apply (IHa t)|by injection Hr as <-]. }
  destruct (mr_terminates f); [by injection Hr as <-|].
  pose proof (scan_correct memory_region_get_flatview_root (mr_size f) subs 0 0 false false false) as Hs.
  destruct (scan_children _ _ _ _ _) as [[] [r|]]; cbn [negb] in Hr; try done; [|by injection Hr as <-].
  destruct Hs as (c & Hin & _ & _ & -> & _).
  apply list_elem_of_In in Hin. rewrite Forall_forall in IHs. apply (IHs c Hin); [|done].
  rewrite forallb_forall in Hsubs. by apply Hsubs.
Qed.

(** ** Main results *)

(** C12: the flat view of a tree of memory regions.  Its ranges are not empty, in
    ascending order, inside of the address space, and no two neighbours could be
    merged; at every address it shows exactly the region, the offset in it and
    the attributes that the tree resolves the address to. *)
Theorem flatview_correct (mr : MemoryRegion R) :
  region_ok mr = true ->
  view_ok 0 (2 ^ 64) (generate_memory_topology (Some mr)) /\
  merged (generate_memory_topology (Some mr)) /\
  forall a, view_at (generate_memory_topology (Some mr)) a =
    if (0 <=? a) && (a <? 2 ^ 64) then resolve mr 0 a false false false else None.
Proof. apply generate_at. Qed.

(** An address space whose root is replaced by the region that
    [memory_region_get_flatview_root] finds has the same view, provided that the
    regions left out are at address 0 and set no attributes. *)
Theorem flatview_root_correct (mr : MemoryRegion R) (a : Z) :
  region_ok mr = true -> plain_chain mr ->
  view_at (generate_memory_topology (memory_region_get_flatview_root mr)) a =
  view_at (generate_memory_topology (Some mr)) a.
Proof.
  intros Hok Hp. destruct (generate_at mr Hok) as (_ & _ & ->).
  unfold clipped. rewrite (root_resolve mr a Hp).
  destruct (memory_region_get_flatview_root mr) as [root|] eqn:E;
    [|by destruct (addrrange_contains _ _)].
  destruct (generate_at root (root_ok mr root Hok E)) as (_ & _ & ->). done.
Qed.

(** C39: [memory_region_find] on the view of a tree returns the first part of the
    address range that the tree maps somewhere: nothing is mapped below it in the
    range, all of it is mapped to the region, offset and attributes returned, and
    there is none only if nothing in the range is mapped. *)
Theorem memory_region_find_correct (mr : MemoryRegion R) (addr size : Z) :
  region_ok mr = true -> 0 <= addr -> 0 < size -> addr + size <= 2 ^ 64 ->
  match memory_region_find (generate_memory_topology (Some mr)) addr size with
  | None => forall a, addr <= a < addr + size -> resolve mr 0 a false false false = None
  | Some s =>
      let base := mrs_offset_within_address_space s in
      addr <= base /\ 0 < mrs_size s /\ base + mrs_size s <= addr + size /\
      (forall a, addr <= a < base -> resolve mr 0 a false false false = None) /\
      (forall a, base <= a < base + mrs_size s ->
         exists h, resolve mr 0 a false false false = Some h /\
           h_mr h = mrs_mr s /\ h_offset h = u64 (mrs_offset_within_region s + (a - base)) /\
           h_readonly h = mrs_readonly s /\ h_nonvolatile h = mrs_nonvolatile s)
  end.
Proof.
  intros Hok Ha Hs Hb. destruct (generate_at mr Hok) as (Hv & _ & Hat).
  assert (Hin : forall a, addr <= a < addr + size ->
    resolve mr 0 a false false false = view_at (generate_memory_topology (Some mr)) a).
  { intros a Hr. rewrite Hat. unfold clipped.
    by rewrite (proj2 (contains_spec _ _)) by (unfold addrrange_end, whole; simpl; lia). }
  pose proof (find_correct _ _ _ addr size Hv Hs) as H.
  destruct (memory_region_find _ addr size) as [s|].
  - destruct H as (H1 & H2 & H3 & H4 & H5). split_and!; [done..| |].
    + intros a Hr. rewrite Hin by lia. by apply H4.
    + intros a Hr. rewrite Hin by lia. by apply H5.
  - intros a Hr. rewrite Hin by lia. by apply H.
Qed.
End View.

(** An address space with memory of which a device covers a part, in a container
    that the search for the root leaves out. *)
Module MemoryExample.
Definition ram : MemoryRegion nat := memory_region_init_ram 1%nat 0x2000.
Definition io : MemoryRegion nat := memory_region_init_io 2%nat 0x100.
Definition inner : MemoryRegion nat :=
  memory_region_add_subregion_overlap
    (memory_region_add_subregion (memory_region_init 3%nat (2 ^ 64 - 1)) 0x1000 ram) 0x1800 io 1.
Definition tree : MemoryRegion nat :=
  memory_region_add_subregion (memory_region_init 0%nat (2 ^ 64 - 1)) 0 inner.

Lemma flatview_correct_witness :
  region_ok tree = true /\
  h_mr <$> view_at (generate_memory_topology (Some tree)) 0x1804 = Some 2%nat /\
  length (generate_memory_topology (Some tree)) = 3%nat.
Proof.
  split; [reflexivity|]. split; [|reflexivity].
  destruct (flatview_correct tree eq_refl) as (_ & _ & H). rewrite H. reflexivity.
Defined.

Lemma flatview_root_correct_witness :
  region_ok tree = true /\ plain_chain tree /\
  fields_of <$> memory_region_get_flatview_root tree = Some (fields_of inner) /\
  view_at (generate_memory_topology (memory_region_get_flatview_root tree)) 0x1000 =
  view_at (generate_memory_topology (Some tree)) 0x1000.
Proof.
  assert (Hp : plain_chain tree).
  { right. split; [repeat split|]. split; [|exact I]. intros _. right. split; [repeat split|].
    split; [discriminate|]. split; [discriminate|exact I]. }
  split; [reflexivity|]. split; [exact Hp|]. split; [reflexivity|].
  apply (flatview_root_correct tree 0x1000 eq_refl Hp).
Defined.

Lemma memory_region_find_correct_witness :
  region_ok tree = true /\
  exists s, memory_region_find (generate_memory_topology (Some tree)) 0x500 0x2000 = Some s /\
    mrs_mr s = 1%nat /\ (forall a, 0x500 <= a < 0x1000 -> resolve tree 0 a false false false = None).
Proof.
  split; [reflexivity|].
  pose proof (memory_region_find_correct tree 0x500 0x2000 eq_refl ltac:(lia) ltac:(lia) ltac:(lia)) as H.
  destruct (memory_region_find _ 0x500 0x2000) as [s|] eqn:E; [|vm_compute in E; discriminate].
  exists s. vm_compute in E. injection E as <-. split; [reflexivity|]. split; [reflexivity|].
  destruct H as (_ & _ & _ & H & _). exact H.
Defined.
End MemoryExample.
