(* ===== verification/Access.v ===== *)
(** * Accesses to the registers of a device

    [src/qemu/system/memory.c], from [memory_region_access_valid] to
    [memory_region_dispatch_write]: how an access of 1 to 8 bytes becomes calls of
    the handlers of a device.  The handlers act on a state [S]; [None] is an
    access outside of an object, as in the models of the devices.  The host is
    little-endian, and so is the target. *)
From stdpp Require Import base list numbers.
From S2P Require Import Prelude.

Inductive device_endian := DEVICE_NATIVE_ENDIAN | DEVICE_BIG_ENDIAN | DEVICE_LITTLE_ENDIAN.

(** [target_words_bigendian ()] is false on Arm. *)
Definition devend_big_endian (e : device_endian) : bool :=
  match e with
  | DEVICE_NATIVE_ENDIAN => false
  | DEVICE_BIG_ENDIAN => true
  | DEVICE_LITTLE_ENDIAN => false
  end.

Record MemoryRegionOps (S : Type) := mk_MemoryRegionOps {
  op_read : S -> Z -> Z -> option (Z * S);
  op_write : S -> Z -> Z -> Z -> option S;
  op_endianness : device_endian;
  valid_min_access_size : Z;
  valid_max_access_size : Z;
  valid_unaligned : bool;
  valid_accepts : option (S -> Z -> Z -> bool -> bool);
  impl_min_access_size : Z;
  impl_max_access_size : Z;
  impl_unaligned : bool
}.
Arguments op_read {S}. Arguments op_write {S}. Arguments op_endianness {S}.
Arguments valid_min_access_size {S}. Arguments valid_max_access_size {S}.
Arguments valid_unaligned {S}. Arguments valid_accepts {S}.
Arguments impl_min_access_size {S}. Arguments impl_max_access_size {S}.
Arguments impl_unaligned {S}.

Definition MEMTX_OK : Z := 0.
Definition MEMTX_DECODE_ERROR : Z := 2.
Definition MEMTX_ACCESS_ERROR : Z := 4.

(** The bytes of a value, the low one first, and back. *)
Fixpoint le_bytes (n : nat) (v : Z) : list Z :=
  match n with O => [] | S n => v mod 256 :: le_bytes n (v / 256) end.
Fixpoint le_value (bs : list Z) : Z :=
  match bs with [] => 0 | b :: bs => b + 256 * le_value bs end.

(** [bswap16], [bswap32] and [bswap64]. *)
Definition bswap (n : nat) (v : Z) : Z := le_value (rev (le_bytes n v)).

(** [op] has a size and says whether the access is big-endian. *)
Definition adjust_endianness (e : device_endian) (data size : Z) (op_be : bool) : Z :=
  if negb (eqb op_be (devend_big_endian e)) then
    if size =? 1 then data else bswap (Z.to_nat size) data
  else data.

Definition memory_region_shift_read_access (value shift mask tmp : Z) : Z :=
  if 0 <=? shift then Z.lor value (u64 (Z.shiftl (Z.land tmp mask) shift))
  else Z.lor value (Z.shiftr (Z.land tmp mask) (- shift)).
Definition memory_region_shift_write_access (value shift mask : Z) : Z :=
  if 0 <=? shift then Z.land (Z.shiftr value shift) mask
  else Z.land (u64 (Z.shiftl value (- shift))) mask.

Section Access.
Context {S : Type}.
Implicit Types (ops : MemoryRegionOps S).

Definition memory_region_access_valid ops (s : S) (addr size : Z) (is_write : bool) : bool :=
  if match valid_accepts ops with Some f => negb (f s addr size is_write) | None => false end
  then false
  else if negb (valid_unaligned ops) && negb (Z.land addr (size - 1) =? 0) then false
  else if valid_max_access_size ops =? 0 then true
  else if (valid_max_access_size ops <? size) || (size <? valid_min_access_size ops) then false
  else true.

(** The accessors return [MEMTX_OK], with the value and the state. *)
Definition memory_region_read_accessor ops (s : S) (addr value size shift mask : Z)
  : option (Z * S) :=
  let? (tmp, s) := op_read ops s addr size else None in
  Some (memory_region_shift_read_access value shift mask tmp, s).
Definition memory_region_write_accessor ops (s : S) (addr value size shift mask : Z)
  : option (Z * S) :=
  let tmp := memory_region_shift_write_access value shift mask in
  let? s := op_write ops s addr tmp size else None in
  Some (value, s).

(** The loop [for (i = 0; i < size; i += access_size)], for a piece of which the
    accessor gets the address and the shift; at most [size] rounds. *)
Fixpoint access_loop (fuel : nat) (access_fn : S -> Z -> Z -> Z -> option (Z * S))
    (big : bool) (s : S) (addr value size access_size i : Z) : option (Z * S) :=
  match fuel with
  | O => None
  | Datatypes.S fuel =>
      if i <? size then
        let shift := if big then s32 (u32 ((size - access_size - i) * 8)) else i * 8 in
        let? (value, s) := access_fn s (u64 (addr + i)) value shift else None in
        access_loop fuel access_fn big s addr value size access_size (i + access_size)
      else Some (value, s)
  end.

(** [engaged] is the reentrancy guard of the device: an access made while the
    device is in a handler is refused.  The handlers modelled make none. *)
Definition access_with_adjusted_size (engaged : bool) ops (s : S) (addr value size : Z)
    (access_size_min access_size_max : Z)
    (access_fn : MemoryRegionOps S -> S -> Z -> Z -> Z -> Z -> Z -> option (Z * S))
  : option (Z * Z * S) :=
  let access_size_min := if access_size_min =? 0 then 1 else access_size_min in
  let access_size_max := if access_size_max =? 0 then 4 else access_size_max in
  if engaged then Some (MEMTX_ACCESS_ERROR, value, s)
  else
  let access_size := Z.max (Z.min size access_size_max) access_size_min in
  let access_mask := Z.shiftr (2 ^ 64 - 1) (64 - access_size * 8) in
  let? (value, s) :=
    access_loop (Datatypes.S (Z.to_nat size))
      (fun s addr value shift => access_fn ops s addr value access_size shift access_mask)
      (devend_big_endian (op_endianness ops)) s addr value size access_size 0 else None in
  Some (MEMTX_OK, value, s).

(** The result of the transaction, the value read and the state. *)
Definition memory_region_dispatch_read (engaged : bool) ops (s : S) (addr size : Z) (op_be : bool)
  : option (Z * Z * S) :=
  if negb (memory_region_access_valid ops s addr size false)
  then Some (MEMTX_DECODE_ERROR, 0, s)
  else
  let? (r, val, s) :=
    access_with_adjusted_size engaged ops s addr 0 size (impl_min_access_size ops)
      (impl_max_access_size ops) memory_region_read_accessor else None in
  Some (r, adjust_endianness (op_endianness ops) val size op_be, s).

(** Without eventfds, which no region of the board has. *)
Definition memory_region_dispatch_write (engaged : bool) ops (s : S) (addr data size : Z) (op_be : bool)
  : option (Z * S) :=
  if negb (memory_region_access_valid ops s addr size true)
  then Some (MEMTX_DECODE_ERROR, s)
  else
  let data := adjust_endianness (op_endianness ops) data size op_be in
  let? (r, _, s) :=
    access_with_adjusted_size engaged ops s addr data size (impl_min_access_size ops)
      (impl_max_access_size ops) memory_region_write_accessor else None in
  Some (r, s).
End Access.

(** ** Bytes and values *)
Lemma le_bytes_length n v : length (le_bytes n v) = n.
Proof. revert v. induction n as [|n IH]; intros v; simpl; [done|]. by rewrite IH. Qed.
Lemma le_bytes_bytes n v : bytes (le_bytes n v).
Proof.
  revert v. induction n as [|n IH]; intros v; simpl; constructor; [|apply IH].
  unfold is_u8. pose proof (Z.mod_pos_bound v 256). lia.
Qed.

Lemma le_value_range bs : bytes bs -> 0 <= le_value bs < 256 ^ zlen bs.
Proof.
  induction 1 as [|b bs Hb _ IH]; simpl; [done|]. unfold is_u8 in Hb.
  replace (zlen (b :: bs)) with (Z.succ (zlen bs)) by (unfold zlen; simpl; lia).
  rewrite Z.pow_succ_r by apply zlen_nonneg. lia.
Qed.

Lemma le_value_bytes_app a b : le_value (a ++ b) = le_value a + 256 ^ zlen a * le_value b.
Proof.
  induction a as [|x a IH]; simpl; [change (256 ^ zlen []) with 1; lia|].
  replace (zlen (x :: a)) with (Z.succ (zlen a)) by (unfold zlen; simpl; lia).
  rewrite Z.pow_succ_r by apply zlen_nonneg. rewrite IH. lia.
Qed.

Lemma le_bytes_value bs : bytes bs -> le_bytes (length bs) (le_value bs) = bs.
Proof.
  induction 1 as [|b bs Hb _ IH]; simpl; [done|]. unfold is_u8 in Hb.
  rewrite (Z.mul_comm 256), Z.mod_add, Z.div_add, Z.mod_small, Z.div_small, Z.add_0_l by lia. by rewrite IH.
Qed.

Lemma le_value_bytes n v : le_value (le_bytes n v) = v mod 256 ^ Z.of_nat n.
Proof.
  revert v. induction n as [|n IH]; intros v; simpl; [by rewrite Z.mod_1_r|].
  rewrite IH, Nat2Z.inj_succ, Z.pow_succ_r by lia.
  by rewrite Z.rem_mul_r by lia.
Qed.

Lemma bswap_value bs : bytes bs -> bswap (length bs) (le_value bs) = le_value (rev bs).
Proof. intros H. unfold bswap. by rewrite le_bytes_value. Qed.

(** [n] bytes of a value from the [i]-th on. *)
Lemma le_bytes_piece n v i k :
  (i + k <= n)%nat -> take k (drop i (le_bytes n v)) = le_bytes k (v / 256 ^ Z.of_nat i).
Proof.
  revert v k i. induction n as [|n IH]; intros v k i Hn.
  { replace i with O by lia. by replace k with O by lia. }
  destruct i as [|i]; simpl drop.
  - rewrite Z.div_1_r. destruct k as [|k]; [done|]. simpl. f_equal.
    specialize (IH (v / 256) k O). rewrite Z.div_1_r in IH. apply IH. lia.
  - rewrite IH by lia. rewrite Nat2Z.inj_succ, Z.pow_succ_r by lia.
    by rewrite Z.div_div by lia.
Qed.

Lemma le_bytes_mod n v : le_bytes n (v mod 256 ^ Z.of_nat n) = le_bytes n v.
Proof.
  rewrite <- le_value_bytes. pose proof (le_bytes_value (le_bytes n v) (le_bytes_bytes n v)) as H.
  by rewrite le_bytes_length in H.
Qed.

(** A value and its bytes, in the order of the device or of the access. *)
Definition value_of (big : bool) (bs : list Z) : Z := le_value (if big then rev bs else bs).
Definition bytes_of (big : bool) (n : nat) (v : Z) : list Z :=
  if big then rev (le_bytes n v) else le_bytes n v.

Lemma bytes_rev bs : bytes bs -> bytes (rev bs).
Proof. apply Forall_rev. Qed.

Lemma value_of_range big bs : bytes bs -> 0 <= value_of big bs < 256 ^ zlen bs.
Proof.
  intros H. unfold value_of. destruct big; [|by apply le_value_range].
  pose proof (le_value_range _ (bytes_rev _ H)) as Hr. unfold zlen in *. by rewrite length_rev in Hr.
Qed.

Lemma bytes_of_length big n v : length (bytes_of big n v) = n.
Proof. unfold bytes_of. destruct big; rewrite ?length_rev; apply le_bytes_length. Qed.

(** ** A device that is a piece of memory

    Its handlers read and write values of any size in its byte order. *)
Definition mem_ops (e : device_endian) (impl_min impl_max : Z) : MemoryRegionOps (list Z) :=
  {| op_read m addr n := let? bs := load m addr n else None in
                         Some (value_of (devend_big_endian e) bs, m);
     op_write m addr v n := store m addr (bytes_of (devend_big_endian e) (Z.to_nat n) v);
     op_endianness := e;
     valid_min_access_size := 0; valid_max_access_size := 0; valid_unaligned := false;
     valid_accepts := None; impl_min_access_size := impl_min; impl_max_access_size := impl_max;
     impl_unaligned := false |}.

Lemma pow_256 n : 0 <= n -> 256 ^ n = 2 ^ (8 * n).
Proof. intros. by rewrite Z.pow_mul_r by lia. Qed.

(** The mask of a piece of [n] bytes. *)
Definition is_size (n : Z) : Prop := n = 1 \/ n = 2 \/ n = 4 \/ n = 8.
Lemma piece_mask n : is_size n -> Z.shiftr (2 ^ 64 - 1) (64 - n * 8) = Z.ones (8 * n).
Proof. by intros [->|[->|[->| ->]]]. Qed.

Lemma land_piece big bs n :
  bytes bs -> zlen bs = n -> Z.land (value_of big bs) (Z.ones (8 * n)) = value_of big bs.
Proof.
  intros H Hn. pose proof (zlen_nonneg bs). rewrite Z.land_ones, <- pow_256 by lia.
  apply Z.mod_small. subst n. by apply value_of_range.
Qed.

Section Split.
Variables (e : device_endian) (impl_min impl_max : Z).
Variables (addr size as_ : Z).
Hypothesis size_ok : is_size size.
Hypothesis as_ok : is_size as_.
Hypothesis addr_ok : 0 <= addr /\ addr + size <= 2 ^ 64.
Let big := devend_big_endian e.
Let ops := mem_ops e impl_min impl_max.
Let mask := Z.ones (8 * as_).

Lemma shift_ok i : 0 <= i -> i + as_ <= size ->
  (if big then s32 (u32 ((size - as_ - i) * 8)) else i * 8) =
  if big then 8 * (size - as_ - i) else 8 * i.
Proof using size_ok as_ok.
  intros. destruct big; [|lia]. unfold is_size in *.
  rewrite u32_id by (unfold is_u32; lia). rewrite s32_small by lia. lia.
Qed.

(** Placing the bytes of a piece into the value read so far. *)
Lemma place_big a q i : 0 <= q < 256 ^ as_ -> 0 <= i -> i + as_ <= size ->
  Z.lor (a * 256 ^ (size - i)) (u64 (Z.shiftl q (8 * (size - as_ - i)))) =
  (q + 256 ^ as_ * a) * 256 ^ (size - (i + as_)).
Proof using size_ok as_ok.
  intros Hq Hi Hs. unfold is_size in *.
  rewrite Z.shiftl_mul_pow2, <- pow_256 by lia.
  assert (Hp : 256 ^ (size - i) = 256 ^ as_ * 256 ^ (size - as_ - i))
    by (rewrite <- Z.pow_add_r by lia; f_equal; lia).
  assert (Hle : 256 ^ (size - i) <= 2 ^ 64) by (rewrite pow_256 by lia; apply Z.pow_le_mono_r; lia).
  assert (Hlt : 0 <= q * 256 ^ (size - as_ - i) < 256 ^ (size - i)) by (rewrite Hp; nia).
  unfold u64. rewrite Z.mod_small by lia.
  rewrite (pow_256 (size - i)) in * by lia. rewrite <- Z.shiftl_mul_pow2 by lia.
  rewrite lor_shift_add, Hp by lia. replace (size - (i + as_)) with (size - as_ - i) by lia. lia.
Qed.

Lemma place_little a q i : 0 <= a < 256 ^ i -> 0 <= q < 256 ^ as_ -> 0 <= i -> i + as_ <= size ->
  Z.lor a (u64 (Z.shiftl q (8 * i))) = a + 256 ^ i * q.
Proof using size_ok as_ok.
  intros Ha Hq Hi Hs. unfold is_size in *. rewrite (pow_256 i) in * by lia.
  assert (Hlt : 0 <= q * 2 ^ (8 * i) < 2 ^ 64).
  { split; [nia|]. rewrite <- pow_256 by lia.
    apply Z.lt_le_trans with (256 ^ (as_ + i)); [rewrite Z.pow_add_r by lia; nia|].
    rewrite pow_256 by lia. apply Z.pow_le_mono_r; lia. }
  unfold u64. rewrite Z.shiftl_mul_pow2, Z.mod_small by lia. rewrite <- Z.shiftl_mul_pow2 by lia.
  rewrite Z.lor_comm, lor_shift_add by lia. lia.
Qed.

(** The value after the first [i] bytes were read. *)
Definition part (bs : list Z) (i : Z) : Z :=
  let l := take (Z.to_nat i) bs in
  if big then le_value (rev l) * 256 ^ (size - i) else le_value l.

Lemma part_step m bs i :
  bytes m -> load m addr size = Some bs -> 0 <= i -> i + as_ <= size ->
  memory_region_read_accessor ops m (u64 (addr + i)) (part bs i) as_
    (if big then 8 * (size - as_ - i) else 8 * i) mask = Some (part bs (i + as_), m).
Proof using All.
  intros Hm L Hi Hs. pose proof (load_bytes _ _ _ _ Hm L) as Hb.
  pose proof (load_zlen _ _ _ _ L) as Hl.
  assert (Has : 1 <= as_ <= 8) by (unfold is_size in as_ok; lia).
  assert (Hsz : size <= 8) by (unfold is_size in size_ok; lia).
  unfold memory_region_read_accessor, ops, mem_ops. cbn [op_read].
  assert (Hu : u64 (addr + i) = addr + i) by (unfold u64; apply Z.mod_small; lia). rewrite Hu.
  rewrite <- (load_inside _ _ _ _ i as_ L) by lia. rewrite load_in by lia.
  set (piece := take (Z.to_nat as_) (drop (Z.to_nat i) bs)).
  assert (Hp : zlen piece = as_) by (unfold piece, zlen in *; rewrite length_take, length_drop; lia).
  assert (Hpb : bytes piece) by (by apply Forall_take, Forall_drop).
  assert (Hnext : take (Z.to_nat (i + as_)) bs = take (Z.to_nat i) bs ++ piece).
  { unfold piece. rewrite Z2Nat.inj_add by lia. by rewrite take_take_drop. }
  fold big. unfold mask, memory_region_shift_read_access. rewrite land_piece by done.
  replace (0 <=? (if big then 8 * (size - as_ - i) else 8 * i)) with true by (destruct big; lia).
  f_equal. f_equal.
  pose proof (value_of_range big piece Hpb) as Hv. rewrite Hp in Hv.
  assert (Hti : zlen (take (Z.to_nat i) bs) = i) by (unfold zlen in *; rewrite length_take; lia).
  assert (Htb : bytes (take (Z.to_nat i) bs)) by by apply Forall_take.
  unfold part. cbv zeta. rewrite Hnext. destruct big.
  - rewrite rev_app_distr, le_value_bytes_app. unfold zlen at 1. rewrite length_rev. fold (zlen piece).
    rewrite Hp. by apply place_big.
  - rewrite le_value_bytes_app, Hti. pose proof (le_value_range _ Htb) as Hr. rewrite Hti in Hr.
    by apply place_little.
Qed.

Lemma read_loop m bs k fuel i :
  bytes m -> load m addr size = Some bs -> 0 <= i -> size = i + Z.of_nat k * as_ -> (k < fuel)%nat ->
  access_loop fuel (fun s addr value shift =>
      memory_region_read_accessor ops s addr value as_ shift mask)
    big m addr (part bs i) size as_ i = Some (value_of big bs, m).
Proof using All.
  intros Hm L. revert fuel i. assert (1 <= as_) by (unfold is_size in *; lia).
  induction k as [|k IH]; intros [|fuel] i Hi Hs Hf; try lia; cbn [access_loop].
  - replace (i <? size) with false by lia. f_equal. f_equal. unfold part, value_of.
    pose proof (load_zlen _ _ _ _ L). rewrite take_ge by (unfold zlen in *; lia).
    destruct big; [|done]. replace (size - i) with 0 by lia. lia.
  - replace (i <? size) with true by lia. cbv zeta. rewrite shift_ok by lia.
    rewrite (part_step m bs i) by (done || lia). apply IH; lia.
Qed.

(** The next bytes are those of the piece that the accessor passes on. *)
Lemma write_piece data i :
  0 <= i -> i + as_ <= size ->
  bytes_of big (Z.to_nat as_)
    (memory_region_shift_write_access data (if big then 8 * (size - as_ - i) else 8 * i) mask) =
  take (Z.to_nat as_) (drop (Z.to_nat i) (bytes_of big (Z.to_nat size) data)).
Proof using size_ok as_ok.
  intros Hi Hs. unfold is_size in *. unfold memory_region_shift_write_access, mask.
  replace (0 <=? (if big then 8 * (size - as_ - i) else 8 * i)) with true by (destruct big; lia).
  replace (if big then 8 * (size - as_ - i) else 8 * i)
    with (8 * (if big then size - as_ - i else i)) by (destruct big; lia).
  rewrite Z.land_ones, Z.shiftr_div_pow2, <- !pow_256 by (destruct big; lia).
  assert (Hm : forall v, le_bytes (Z.to_nat as_) (v mod 256 ^ as_) = le_bytes (Z.to_nat as_) v).
  { intros v. rewrite <- (le_bytes_mod (Z.to_nat as_) v). by rewrite Z2Nat.id by lia. }
  unfold bytes_of. rewrite Hm. destruct big.
  - rewrite skipn_rev, firstn_rev, length_take, le_bytes_length, skipn_firstn_comm.
    f_equal. replace (Z.to_nat size - Z.to_nat i -
      ((Z.to_nat size - Z.to_nat i) `min` Z.to_nat size - Z.to_nat as_))%nat with (Z.to_nat as_) by lia.
    rewrite le_bytes_piece by lia. do 3 f_equal. lia.
  - rewrite le_bytes_piece by lia. by rewrite Z2Nat.id by lia.
Qed.

Lemma write_loop m data m' k fuel i si :
  store m addr (bytes_of big (Z.to_nat size) data) = Some m' ->
  store m addr (take (Z.to_nat i) (bytes_of big (Z.to_nat size) data)) = Some si ->
  0 <= i -> size = i + Z.of_nat k * as_ -> (k < fuel)%nat ->
  access_loop fuel (fun s addr value shift =>
      memory_region_write_accessor ops s addr value as_ shift mask)
    big si addr data size as_ i = Some (data, m').
Proof using All.
  set (B := bytes_of big (Z.to_nat size) data).
  assert (HB : length B = Z.to_nat size) by apply bytes_of_length.
  intros St. revert fuel i si. assert (1 <= as_) by (unfold is_size in *; lia).
  induction k as [|k IH]; intros [|fuel] i si Si Hi Hs Hf; try lia; cbn [access_loop].
  - replace (i <? size) with false by lia. rewrite take_ge in Si by lia. by rewrite St in Si; injection Si as ->.
  - replace (i <? size) with true by lia. cbv zeta. rewrite shift_ok by lia.
    unfold memory_region_write_accessor, ops, mem_ops. cbn [op_write].
    fold big. rewrite write_piece by lia. fold B.
    assert (Hu : u64 (addr + i) = addr + i) by (unfold u64; apply Z.mod_small; lia). rewrite Hu.
    set (piece := take (Z.to_nat as_) (drop (Z.to_nat i) B)).
    assert (Hnext : take (Z.to_nat (i + as_)) B = take (Z.to_nat i) B ++ piece).
    { unfold piece. rewrite Z2Nat.inj_add by lia. by rewrite take_take_drop. }
    assert (Hti : zlen (take (Z.to_nat i) B) = i) by (unfold zlen; rewrite length_take; lia).
    assert (Hp : zlen piece = as_) by (unfold piece, zlen; rewrite length_take, length_drop; lia).
    pose proof St as (S1 & S2 & _)%store_Some. unfold zlen in S2 at 1. rewrite HB in S2.
    pose proof (store_zlen _ _ _ _ Si) as Hz.
    destruct (store_in si (addr + i) piece) as [s2 E]; [lia|lia|]. rewrite E.
    apply IH; [|lia|lia|lia]. rewrite Hnext.
    eapply store_app; [exact Si|]. by rewrite Hti.
Qed.
End Split.

(** The size that [access_with_adjusted_size] settles on. *)
Definition adjusted_size (size impl_min impl_max : Z) : Z :=
  Z.max (Z.min size (if impl_max =? 0 then 4 else impl_max)) (if impl_min =? 0 then 1 else impl_min).

Definition impl_size (n : Z) : Prop := n = 0 \/ is_size n.

Lemma adjusted_size_ok size impl_min impl_max :
  is_size size -> impl_size impl_min -> impl_size impl_max -> impl_min <= size ->
  is_size (adjusted_size size impl_min impl_max) /\
  exists k, size = Z.of_nat k * adjusted_size size impl_min impl_max /\ (k <= Z.to_nat size)%nat.
Proof.
  intros Hs Hi Hm Hle. set (n := adjusted_size size impl_min impl_max).
  assert (H : is_size n /\ size mod n = 0).
  { subst n. destruct Hs as [->|[->|[->| ->]]], Hi as [->|[->|[->|[->| ->]]]],
      Hm as [->|[->|[->|[->| ->]]]]; try (exfalso; lia); vm_compute; tauto. }
  destruct H as [Hn Hd]. split; [done|]. exists (Z.to_nat (size / n)).
  assert (Hn1 : 1 <= n) by (unfold is_size in Hn; lia).
  assert (Hs1 : 0 <= size) by (unfold is_size in Hs; lia).
  pose proof (Z.div_pos size n Hs1 ltac:(lia)). pose proof (Z_div_exact_full_2 size n ltac:(lia) Hd).
  rewrite Z2Nat.id by lia. split; [lia|nia].
Qed.

Lemma aligned_mask addr size : is_size size -> addr mod size = 0 -> Z.land addr (size - 1) = 0.
Proof.
  intros [->|[->|[->| ->]]] H.
  - apply Z.land_0_r.
  - change (2 - 1) with (Z.ones 1). by rewrite Z.land_ones.
  - change (4 - 1) with (Z.ones 2). by rewrite Z.land_ones.
  - change (8 - 1) with (Z.ones 3). by rewrite Z.land_ones.
Qed.

Lemma rev_single (l : list Z) : length l = 1%nat -> rev l = l.
Proof. by destruct l as [|x [|y l]]. Qed.

Lemma adjust_value e size op_be bs :
  is_size size -> bytes bs -> zlen bs = size ->
  adjust_endianness e (value_of (devend_big_endian e) bs) size op_be = value_of op_be bs.
Proof.
  intros Hs Hb Hl. unfold adjust_endianness, value_of.
  assert (Hn : Z.to_nat size = length bs) by (unfold zlen in Hl; lia).
  destruct (Z.eqb_spec size 1) as [->|Hne].
  { rewrite rev_single by done. by destruct op_be, (devend_big_endian e). }
  rewrite Hn. destruct op_be, (devend_big_endian e); simpl; try done.
  - by rewrite bswap_value.
  - rewrite <- (length_rev bs), bswap_value by by apply bytes_rev. by rewrite rev_involutive.
Qed.

Lemma adjust_bytes e size op_be data :
  is_size size ->
  bytes_of (devend_big_endian e) (Z.to_nat size) (adjust_endianness e data size op_be) =
  bytes_of op_be (Z.to_nat size) data.
Proof.
  intros Hs. unfold adjust_endianness, bytes_of. destruct (Z.eqb_spec size 1) as [->|Hne].
  { rewrite !rev_single by apply le_bytes_length. by destruct op_be, (devend_big_endian e). }
  assert (Hsw : le_bytes (Z.to_nat size) (bswap (Z.to_nat size) data) = rev (le_bytes (Z.to_nat size) data)).
  { unfold bswap. pose proof (le_bytes_value (rev (le_bytes (Z.to_nat size) data))) as H.
    rewrite length_rev, le_bytes_length in H. apply H, bytes_rev, le_bytes_bytes. }
  destruct op_be, (devend_big_endian e); simpl; try done; by rewrite Hsw, ?rev_involutive.
Qed.

Lemma adjust_mod e v size op_be : is_size size ->
  adjust_endianness e v size op_be mod 256 ^ size =
  adjust_endianness e (v mod 256 ^ size) size op_be mod 256 ^ size.
Proof.
  intros Hs. assert (Hp : 256 ^ size <> 0) by (apply Z.pow_nonzero; unfold is_size in Hs; lia).
  unfold adjust_endianness. destruct (negb _), (size =? 1); try (by rewrite Z.mod_mod).
  unfold bswap. replace (256 ^ size) with (256 ^ Z.of_nat (Z.to_nat size))
    by (f_equal; unfold is_size in Hs; lia). by rewrite le_bytes_mod.
Qed.

Lemma le_bytes_app a b v :
  le_bytes (a + b) v = le_bytes a v ++ le_bytes b (v / 256 ^ Z.of_nat a).
Proof.
  rewrite <- (take_drop a (le_bytes (a + b) v)). f_equal.
  - pose proof (le_bytes_piece (a + b) v 0 a ltac:(lia)) as H. by rewrite Z.div_1_r in H.
  - rewrite <- (le_bytes_piece (a + b) v a b) by lia. symmetry. apply take_ge.
    rewrite length_drop, le_bytes_length. lia.
Qed.

Lemma le_bytes_zero k : le_bytes k 0 = replicate k 0.
Proof. induction k as [|k IH]; simpl; [done|]. by rewrite Zdiv_0_l, IH. Qed.

(** ** Accesses narrower than the handlers

    The handler is called once, with the size it implements. *)
Section Wide.
Variables (e : device_endian) (size wide : Z).
Hypothesis size_ok : is_size size.
Hypothesis wide_ok : is_size wide.
Hypothesis narrow : size < wide.
Let big := devend_big_endian e.
Let shift := if big then s32 (u32 ((size - wide - 0) * 8)) else 0 * 8.

Lemma wide_shift : shift = if big then - (8 * (wide - size)) else 0.
Proof using size_ok wide_ok narrow.
  subst shift. clearbody big. destruct big; [|done].
  destruct size_ok as [->|[->|[->| ->]]], wide_ok as [->|[->|[->| ->]]]; (lia || reflexivity).
Qed.

(** What is read has the bytes at the address in its low part. *)
Lemma wide_read bs : bytes bs -> zlen bs = wide ->
  memory_region_shift_read_access 0 shift (Z.ones (8 * wide)) (value_of big bs) mod 256 ^ size =
  value_of big (take (Z.to_nat size) bs).
Proof using size_ok wide_ok narrow.
  intros Hb Hl. assert (Hw : 1 <= size < wide /\ wide <= 8) by (unfold is_size in *; lia).
  pose proof (value_of_range big bs Hb) as Hr. rewrite Hl in Hr.
  assert (Hp : 256 ^ wide <= 2 ^ 64) by (rewrite pow_256 by lia; apply Z.pow_le_mono_r; lia).
  assert (Ht : bytes (take (Z.to_nat size) bs) /\ zlen (take (Z.to_nat size) bs) = size).
  { split; [by apply Forall_take|]. unfold zlen in *. rewrite length_take. lia. }
  assert (Hd : bytes (drop (Z.to_nat size) bs) /\ zlen (drop (Z.to_nat size) bs) = wide - size).
  { split; [by apply Forall_drop|]. unfold zlen in *. rewrite length_drop. lia. }
  pose proof (value_of_range big _ (proj1 Ht)) as Hrt. rewrite (proj2 Ht) in Hrt.
  unfold memory_region_shift_read_access. rewrite land_piece, wide_shift by done.
  clear shift. clearbody big. destruct big.
  - replace (0 <=? - _) with false by lia. rewrite Z.lor_0_l, Z.opp_involutive, Z.shiftr_div_pow2, <- pow_256 by lia.
    rewrite <- (Z.mod_small _ _ Hrt). f_equal. unfold value_of.
    rewrite <- (take_drop (Z.to_nat size) bs) at 1. rewrite rev_app_distr, le_value_bytes_app.
    pose proof (le_value_range _ (bytes_rev _ (proj1 Hd))) as Hrd.
    replace (zlen (rev (drop (Z.to_nat size) bs))) with (wide - size) in *
      by (unfold zlen in *; rewrite length_rev; lia).
    rewrite Z.mul_comm, Z.div_add, (Z.div_small (le_value _)) by lia. lia.
  - simpl. rewrite Z.lor_0_l, Z.shiftl_0_r. unfold u64. rewrite (Z.mod_small _ (2 ^ 64)) by lia.
    unfold value_of. rewrite <- (take_drop (Z.to_nat size) bs) at 1. rewrite le_value_bytes_app, (proj2 Ht).
    rewrite Z.mul_comm, Z.mod_add by lia. by apply Z.mod_small.
Qed.

(** What is written starts with the bytes of the value. *)
Lemma wide_write d : exists rest, zlen rest = wide - size /\
  bytes_of big (Z.to_nat wide) (memory_region_shift_write_access d shift (Z.ones (8 * wide))) =
  bytes_of big (Z.to_nat size) d ++ rest.
Proof using size_ok wide_ok narrow.
  assert (Hw : 1 <= size < wide /\ wide <= 8) by (unfold is_size in *; lia).
  assert (Hm : forall v, le_bytes (Z.to_nat wide) (Z.land v (Z.ones (8 * wide))) = le_bytes (Z.to_nat wide) v).
  { intros v. rewrite Z.land_ones, <- pow_256 by lia.
    pose proof (le_bytes_mod (Z.to_nat wide) v) as H. by rewrite Z2Nat.id in H by lia. }
  unfold memory_region_shift_write_access, bytes_of. rewrite wide_shift.
  clear shift. clearbody big. destruct big.
  - replace (0 <=? - _) with false by lia. rewrite Hm, Z.opp_involutive.
    set (k := Z.to_nat (wide - size)). exists (replicate k 0).
    split; [unfold zlen; rewrite length_replicate; lia|].
    assert (H64 : le_bytes (Z.to_nat wide) (u64 (Z.shiftl d (8 * (wide - size)))) =
                  le_bytes (Z.to_nat wide) (Z.shiftl d (8 * (wide - size)))).
    { rewrite <- (le_bytes_mod _ (u64 _)), <- (le_bytes_mod _ (Z.shiftl _ _)). f_equal.
      unfold u64. rewrite Z2Nat.id, pow_256 by lia. replace 64 with (8 * wide + (64 - 8 * wide)) by lia.
      rewrite Z.pow_add_r by lia.
      apply Z.mod_mod_divide, Z.divide_factor_l. }
    rewrite H64, Z.shiftl_mul_pow2, <- pow_256 by lia.
    replace (Z.to_nat wide) with (k + Z.to_nat size)%nat by lia. rewrite le_bytes_app, rev_app_distr.
    subst k. rewrite Z2Nat.id by lia. rewrite Z.div_mul by (apply Z.pow_nonzero; lia). f_equal.
    rewrite <- le_bytes_mod, Z2Nat.id by lia.
    rewrite Z.mod_mul, le_bytes_zero by (apply Z.pow_nonzero; lia). 
    rewrite rev_alt. apply reverse_replicate.
  - simpl. rewrite Z.shiftr_0_r, Hm. exists (le_bytes (Z.to_nat (wide - size)) (d / 256 ^ size)).
    split; [unfold zlen; rewrite le_bytes_length; lia|].
    replace (Z.to_nat wide) with (Z.to_nat size + Z.to_nat (wide - size))%nat by lia.
    rewrite le_bytes_app. by rewrite Z2Nat.id by lia.
Qed.
End Wide.

Lemma mem_access_valid e impl_min impl_max (m : list Z) addr size w :
  is_size size -> addr mod size = 0 ->
  memory_region_access_valid (mem_ops e impl_min impl_max) m addr size w = true.
Proof. intros. unfold memory_region_access_valid. cbn. by rewrite aligned_mask. Qed.

(** The pieces of an access are put together again. *)
Lemma split_access (e : device_endian) (impl_min impl_max addr size : Z) (op_be : bool)
    (m bs : list Z) (data : Z) :
  is_size size -> impl_size impl_min -> impl_size impl_max -> impl_min <= size ->
  addr mod size = 0 -> addr + size <= 2 ^ 64 -> bytes m -> load m addr size = Some bs ->
  memory_region_dispatch_read false (mem_ops e impl_min impl_max) m addr size op_be =
    Some (MEMTX_OK, value_of op_be bs, m) /\
  exists m', store m addr (bytes_of op_be (Z.to_nat size) data) = Some m' /\
    memory_region_dispatch_write false (mem_ops e impl_min impl_max) m addr data size op_be =
      Some (MEMTX_OK, m').
Proof.
  intros Hs Hi Hx Hle Ha Hb Hm L. pose proof L as (Hp & Hn & Hz & _)%load_Some.
  destruct (adjusted_size_ok size impl_min impl_max Hs Hi Hx Hle) as (Has & k & Hk & Hkn).
  unfold memory_region_dispatch_read, memory_region_dispatch_write, access_with_adjusted_size.
  rewrite !mem_access_valid by done. cbn [negb impl_min_access_size impl_max_access_size mem_ops op_endianness].
  fold (adjusted_size size impl_min impl_max). set (as_ := adjusted_size size impl_min impl_max) in *.
  rewrite piece_mask by done. split.
  - assert (H0 : part e size bs 0 = 0) by (unfold part; simpl; by destruct (devend_big_endian e)).
    pose proof (read_loop e impl_min impl_max addr size as_ Hs Has (conj Hp Hb) m bs k
      (Datatypes.S (Z.to_nat size)) 0 Hm L ltac:(lia) ltac:(lia) ltac:(lia)) as Hl.
    rewrite H0 in Hl. rewrite Hl.
    rewrite adjust_value; [done|done|by apply (load_bytes _ _ _ _ Hm L)|by apply (load_zlen _ _ _ _ L)].
  - set (d := adjust_endianness e data size op_be).
    rewrite <- (adjust_bytes e size op_be data Hs). fold d.
    destruct (store_in m addr (bytes_of (devend_big_endian e) (Z.to_nat size) d)) as [m' St];
      [lia|unfold zlen in *; rewrite bytes_of_length; lia|].
    exists m'. split; [done|].
    rewrite (write_loop e impl_min impl_max addr size as_ Hs Has (conj Hp Hb) m d m' k
      (Datatypes.S (Z.to_nat size)) 0 m St); [done| |lia|lia|lia].
    simpl. apply store_nil. lia.
Qed.

(** An access narrower than the handlers. *)
Lemma wide_access (e : device_endian) (impl_min impl_max addr size : Z) (op_be : bool)
    (m bs : list Z) (data : Z) :
  is_size size -> is_size impl_min -> impl_size impl_max -> size < impl_min ->
  addr mod size = 0 -> addr + impl_min <= 2 ^ 64 -> bytes m -> load m addr impl_min = Some bs ->
  (exists v,
    memory_region_dispatch_read false (mem_ops e impl_min impl_max) m addr size op_be =
      Some (MEMTX_OK, v, m) /\
    v mod 256 ^ size = value_of op_be (take (Z.to_nat size) bs)) /\
  exists rest m', zlen rest = impl_min - size /\
    store m addr (bytes_of op_be (Z.to_nat size) data ++ rest) = Some m' /\
    memory_region_dispatch_write false (mem_ops e impl_min impl_max) m addr data size op_be =
      Some (MEMTX_OK, m').
Proof.
  intros Hs Hi Hx Hlt Ha Hb Hm L. pose proof L as (Hp & Hn & Hz & _)%load_Some.
  pose proof (load_bytes _ _ _ _ Hm L) as Hbs. pose proof (load_zlen _ _ _ _ L) as Hl.
  assert (Hs1 : 1 <= size) by (unfold is_size in Hs; lia).
  unfold memory_region_dispatch_read, memory_region_dispatch_write, access_with_adjusted_size.
  rewrite !mem_access_valid by done. cbn [negb impl_min_access_size impl_max_access_size mem_ops op_endianness].
  fold (adjusted_size size impl_min impl_max).
  replace (adjusted_size size impl_min impl_max) with impl_min by (unfold adjusted_size; repeat case_match; lia).
  rewrite piece_mask by done. destruct (Z.to_nat size) as [|n] eqn:En; [lia|]. cbn [access_loop].
  replace (0 <? size) with true by lia. replace (0 + impl_min <? size) with false by lia.
  unfold memory_region_read_accessor, memory_region_write_accessor. cbn [op_read op_write mem_ops].
  replace (u64 (addr + 0)) with addr by (unfold u64; rewrite Z.mod_small; lia). rewrite L, <- En. split.
  - eexists. split; [reflexivity|]. rewrite adjust_mod, wide_read by done.
    assert (Ht : bytes (take (Z.to_nat size) bs) /\ zlen (take (Z.to_nat size) bs) = size).
    { split; [by apply Forall_take|]. unfold zlen in *. rewrite length_take. lia. }
    destruct Ht as [Htb Htl]. rewrite adjust_value by done. apply Z.mod_small.
    pose proof (value_of_range op_be _ Htb) as Hv. by rewrite Htl in Hv.
  - destruct (wide_write e size impl_min Hs Hi Hlt (adjust_endianness e data size op_be)) as (rest & Hr & E).
    rewrite E, adjust_bytes by done.
    destruct (store_in m addr (bytes_of op_be (Z.to_nat size) data ++ rest)) as [m' St];
      [lia|unfold zlen in *; rewrite length_app, bytes_of_length; lia|].
    exists rest, m'. by rewrite St.
Qed.

(** C36: an access of 1, 2, 4 or 8 bytes to a device that is a piece of memory,
    whatever the byte orders of the device and of the access and the sizes its
    handlers implement.  When the access is at least as wide as the smallest
    handler, it is split into pieces that are put together again: it reads and
    writes exactly the bytes at its address, in the byte order of the access.
    When it is narrower, the handler is called once with its own size: the low
    bytes of the value read are those at the address, above which others may
    be left, and a write stores its bytes at the address and overwrites those
    behind, up to the size of the handler. *)
Theorem split_access_correct (e : device_endian) (impl_min impl_max addr size : Z) (op_be : bool)
    (m bs : list Z) (data : Z) :
  is_size size -> impl_size impl_min -> impl_size impl_max ->
  addr mod size = 0 -> addr + Z.max size impl_min <= 2 ^ 64 -> bytes m ->
  load m addr (Z.max size impl_min) = Some bs ->
  if impl_min <=? size then
    memory_region_dispatch_read false (mem_ops e impl_min impl_max) m addr size op_be =
      Some (MEMTX_OK, value_of op_be bs, m) /\
    exists m', store m addr (bytes_of op_be (Z.to_nat size) data) = Some m' /\
      memory_region_dispatch_write false (mem_ops e impl_min impl_max) m addr data size op_be =
        Some (MEMTX_OK, m')
  else
    (exists v,
      memory_region_dispatch_read false (mem_ops e impl_min impl_max) m addr size op_be =
        Some (MEMTX_OK, v, m) /\
      v mod 256 ^ size = value_of op_be (take (Z.to_nat size) bs)) /\
    exists rest m', zlen rest = impl_min - size /\
      store m addr (bytes_of op_be (Z.to_nat size) data ++ rest) = Some m' /\
      memory_region_dispatch_write false (mem_ops e impl_min impl_max) m addr data size op_be =
        Some (MEMTX_OK, m').
Proof.
  intros Hs Hi Hx Ha Hb Hm L. destruct (Z.leb_spec impl_min size) as [Hle|Hlt].
  - rewrite Z.max_l in * by lia. by apply split_access.
  - rewrite Z.max_r in * by lia. apply (wide_access _ _ _ _ _ _ _ _ _ Hs); try done.
    destruct Hi as [->|Hi]; [unfold is_size in Hs; lia|done].
Qed.

(** ** Devices of 32-bit registers

    Both devices of the board are of this kind. *)
Record word_device {S : Type} (ops : MemoryRegionOps S) : Prop := {
  wd_endianness : devend_big_endian (op_endianness ops) = false;
  wd_valid_max : valid_max_access_size ops = 0;
  wd_unaligned : valid_unaligned ops = false;
  wd_accepts : valid_accepts ops = None;
  wd_impl_min : impl_min_access_size ops = 4;
  wd_impl_max : impl_max_access_size ops = 4
}.

Section Words.
Context {S : Type} (ops : MemoryRegionOps S).
Hypothesis word : word_device ops.

Lemma word_valid s addr size w : is_size size ->
  memory_region_access_valid ops s addr size w = (addr mod size =? 0).
Proof using word.
  intros Hs. unfold memory_region_access_valid. destruct word as [_ -> -> -> _ _]. cbn.
  assert (Hl : Z.land addr (size - 1) = addr mod size).
  { destruct Hs as [->|[->|[->| ->]]]; [by rewrite Z.land_0_r, Z.mod_1_r|..];
      [change (2 - 1) with (Z.ones 1)|change (4 - 1) with (Z.ones 2)|change (8 - 1) with (Z.ones 3)];
      by rewrite Z.land_ones. }
  rewrite Hl. by destruct (addr mod size =? 0).
Qed.

Lemma word_read_piece s addr i value :
  0 <= addr -> 0 <= i -> addr + i < 2 ^ 64 -> i = 0 \/ i = 4 -> 0 <= value < 2 ^ (8 * i) ->
  memory_region_read_accessor ops s (u64 (addr + i)) value 4 (i * 8) (Z.ones 32) =
  let? (v, s) := op_read ops s (addr + i) 4 else None in Some (value + 2 ^ (8 * i) * u32 v, s).
Proof.
  intros Ha Hi Hb Hc Hv. unfold memory_region_read_accessor.
  replace (u64 (addr + i)) with (addr + i) by (unfold u64; rewrite Z.mod_small; lia).
  destruct (op_read ops s (addr + i) 4) as [[v s']|]; [|done]. f_equal. f_equal.
  unfold memory_region_shift_read_access. replace (0 <=? i * 8) with true by lia.
  rewrite Z.land_ones by lia. fold (u32 v). pose proof (u32_range v) as Hu. unfold is_u32 in Hu.
  assert (Hp : 2 ^ (8 * i) <= 2 ^ 32) by (apply Z.pow_le_mono_r; lia).
  unfold u64. rewrite Z.shiftl_mul_pow2, Z.mul_comm with (n := i), Z.mod_small by nia.
  rewrite <- Z.shiftl_mul_pow2, Z.lor_comm, lor_shift_add by lia. lia.
Qed.

Lemma word_write_piece s addr i data :
  0 <= addr -> 0 <= i -> addr + i < 2 ^ 64 ->
  memory_region_write_accessor ops s (u64 (addr + i)) data 4 (i * 8) (Z.ones 32) =
  let? s := op_write ops s (addr + i) (u32 (data / 2 ^ (8 * i))) 4 else None in Some (data, s).
Proof.
  intros Ha Hi Hb. unfold memory_region_write_accessor, memory_region_shift_write_access.
  replace (u64 (addr + i)) with (addr + i) by (unfold u64; rewrite Z.mod_small; lia).
  replace (0 <=? i * 8) with true by lia.
  rewrite Z.land_ones, Z.shiftr_div_pow2, (Z.mul_comm i) by lia. done.
Qed.

(** The calls that an access makes. *)
Definition word_read (s : S) (addr size : Z) : option (Z * Z * S) :=
  if negb (addr mod size =? 0) then Some (MEMTX_DECODE_ERROR, 0, s)
  else
  let? (v0, s) := op_read ops s addr 4 else None in
  if size =? 8 then
    let? (v1, s) := op_read ops s (addr + 4) 4 else None in
    Some (MEMTX_OK, u32 v0 + 2 ^ 32 * u32 v1, s)
  else Some (MEMTX_OK, u32 v0, s).

Definition word_write (s : S) (addr data size : Z) : option (Z * S) :=
  if negb (addr mod size =? 0) then Some (MEMTX_DECODE_ERROR, s)
  else
  let? s := op_write ops s addr (u32 data) 4 else None in
  if size =? 8 then
    let? s := op_write ops s (addr + 4) (u32 (data / 2 ^ 32)) 4 else None in Some (MEMTX_OK, s)
  else Some (MEMTX_OK, s).

(** An aligned access of 1, 2 or 4 bytes to a device with 32-bit handlers is one
    call of the handler at the same address, with the whole register, so that
    a byte read sees and a byte write replaces all 32 bits; an access of 8 bytes
    is two calls, low word first; an access that is not aligned reaches no
    handler. *)
Lemma word_access_correct (s : S) (addr size data : Z) :
  is_size size -> 0 <= addr -> addr + 8 <= 2 ^ 64 ->
  memory_region_dispatch_read false ops s addr size false = word_read s addr size /\
  memory_region_dispatch_write false ops s addr data size false = word_write s addr data size.
Proof using word.
  intros Hs Ha Hb. unfold memory_region_dispatch_read, memory_region_dispatch_write.
  rewrite !word_valid by done. unfold word_read, word_write.
  destruct (addr mod size =? 0); [|done]. cbn [negb].
  assert (He : forall d, adjust_endianness (op_endianness ops) d size false = d).
  { intros d. unfold adjust_endianness. by rewrite (wd_endianness _ word). }
  rewrite He. unfold access_with_adjusted_size.
  rewrite (wd_endianness _ word), (wd_impl_min _ word), (wd_impl_max _ word).
  change (4 =? 0) with false. cbv iota.
  replace (Z.max (Z.min size 4) 4) with 4 by lia. change (Z.shiftr _ (64 - 4 * 8)) with (Z.ones 32).
  assert (Hfuel : exists f, Datatypes.S (Z.to_nat size) = Datatypes.S (Datatypes.S f) /\
    (size = 8 -> exists f', f = Datatypes.S f')).
  { destruct Hs as [->|[->|[->| ->]]]; eexists; (split; [reflexivity|]); (lia || by eexists). }
  destruct Hfuel as (f & -> & Hf8). assert (H0 : (0 <? size) = true) by (unfold is_size in Hs; lia).
  cbn [access_loop]. rewrite H0. change (0 + 4) with 4.
  rewrite word_read_piece, word_write_piece by lia.
  change (2 ^ (8 * 0)) with 1. rewrite Z.add_0_r, Z.div_1_r.
  destruct (Z.eqb_spec size 8) as [->|Hne].
  - destruct (Hf8 eq_refl) as [f' ->]. change (4 <? 8) with true. cbv iota. split.
    + destruct (op_read ops s addr 4) as [[v0 s1]|]; [|done].
      pose proof (u32_range v0) as Hu. unfold is_u32 in Hu.
      rewrite word_read_piece by lia. change (2 ^ (8 * 4)) with (2 ^ 32).
      destruct (op_read ops s1 (addr + 4) 4) as [[v1 s2]|]; [|done].
      cbn [access_loop]. change (4 + 4 <? 8) with false. cbv iota. by rewrite He, Z.add_0_l, Z.mul_1_l.
    + destruct (op_write ops s addr _ 4) as [s1|]; [|done].
      rewrite word_write_piece by lia. change (2 ^ (8 * 4)) with (2 ^ 32).
      by destruct (op_write ops s1 (addr + 4) _ 4).
  - replace (4 <? size) with false by (unfold is_size in Hs; lia). split.
    + destruct (op_read ops s addr 4) as [[v0 s1]|]; [|done].
      by rewrite He, Z.add_0_l, Z.mul_1_l.
    + by destruct (op_write ops s addr _ 4).
Qed.
End Words.

(** A read of two halfwords of a device that is big-endian, and a byte written through
    a handler of four. *)
Lemma split_access_correct_witness :
  memory_region_dispatch_read false (mem_ops DEVICE_BIG_ENDIAN 1 2) [0; 0; 0; 0; 0x11; 0x22; 0x33; 0x44]
    4 4 false = Some (MEMTX_OK, 0x44332211, [0; 0; 0; 0; 0x11; 0x22; 0x33; 0x44]) /\
  exists rest, zlen rest = 3 /\
    memory_region_dispatch_write false (mem_ops DEVICE_LITTLE_ENDIAN 4 4) [0x11; 0x22; 0x33; 0x44]
      0 0x55 1 false = Some (MEMTX_OK, 0x55 :: rest).
Proof.
  split.
  - refine (proj1 (split_access_correct DEVICE_BIG_ENDIAN 1 2 4 4 false [0; 0; 0; 0; 0x11; 0x22; 0x33; 0x44]
      [0x11; 0x22; 0x33; 0x44] 0 _ _ _ _ _ _ _)); try reflexivity; try lia; try (unfold impl_size, is_size; lia).
    repeat constructor; unfold is_u8; lia.
  - assert (H := split_access_correct DEVICE_LITTLE_ENDIAN 4 4 0 1 false [0x11; 0x22; 0x33; 0x44]
      [0x11; 0x22; 0x33; 0x44] 0x55). destruct H as (_ & rest & m' & Hr & St & Hw);
      try reflexivity; try lia; try (unfold impl_size, is_size; lia).
    { repeat constructor; unfold is_u8; lia. }
    exists rest. split; [exact Hr|]. rewrite Hw. do 2 f_equal.
    destruct rest as [|x [|y [|z [|]]]]; try (unfold zlen in Hr; simpl in Hr; lia).
    vm_compute in St. congruence.
Defined.
