(* ===== verification/PhysMap.v ===== *)
(** * Physical dispatch

    [src/qemu/system/physmem.c]: the radix tree of pages that the accesses of the
    CPU are resolved with.  [generate_memory_topology] adds the ranges of a flat
    view to it and compresses it.  Nodes are kept in one growing array and
    entries point into it; pages that several ranges share are subpages, with a
    table for each byte.  [None] is a failed assertion or an access outside of an
    array. *)
From stdpp Require Import base list numbers.
From S2P Require Import Prelude Memory.

(** Ten bits for a CPU of the M profile (in [arm_cpu_realizefn]). *)
Definition TARGET_PAGE_BITS : Z := 10.
Definition TARGET_PAGE_SIZE : Z := 2 ^ TARGET_PAGE_BITS.
Definition P_L2_BITS : Z := 9.
Definition P_L2_SIZE : nat := Z.to_nat (2 ^ P_L2_BITS).
Definition ADDR_SPACE_BITS : Z := 64.
Definition P_L2_LEVELS : nat :=
  Z.to_nat ((ADDR_SPACE_BITS - TARGET_PAGE_BITS - 1) / P_L2_BITS + 1).
Definition PHYS_MAP_NODE_NIL : Z := 2 ^ 26 - 1.
Definition PHYS_SECTION_UNASSIGNED : Z := 0.

(** [skip] has 6 bits, [ptr] 26. *)
Record PhysPageEntry := mk_PhysPageEntry { skip : Z; ptr : Z }.

Abbreviation Node := (list PhysPageEntry).

(** What a section maps: nothing, the subpage with that number, or a region. *)
Inductive section_mr (R : Type) := io_mem_unassigned | subpage_iomem (k : nat) | region (r : R).
Arguments io_mem_unassigned {R}. Arguments subpage_iomem {R} k. Arguments region {R} r.

(** The first address of the page, and the section of each of its bytes. *)
Record subpage_t := mk_subpage { sp_base : Z; sub_section : list Z }.

Abbreviation Sect R := (MemoryRegionSection (section_mr R)).

Section PhysMap.
Context {R : Type}.

(** [alloc_hint] is a static variable of [phys_map_node_reserve]. *)
Record AddressSpaceDispatch := mk_Dispatch {
  mru_section : option Z;
  phys_map : PhysPageEntry;
  nodes : list Node;
  nodes_nb_alloc : Z;
  alloc_hint : Z;
  sections : list (Sect R);
  subpages : list subpage_t
}.

(** ** The tree *)

(** The new node and its number. *)
Definition phys_map_node_alloc (nodes : list Node) (nodes_nb_alloc : Z) (leaf : bool)
  : option (list Node * Z) :=
  let ret := zlen nodes in
  if (ret =? PHYS_MAP_NODE_NIL) || (ret =? nodes_nb_alloc) then None
  else
  let e := {| skip := if leaf then 0 else 1;
              ptr := if leaf then PHYS_SECTION_UNASSIGNED else PHYS_MAP_NODE_NIL |} in
  Some (nodes ++ [replicate P_L2_SIZE e], ret).

(** [nodes[n][i] = e] *)
Definition set_entry (nodes : list Node) (n : Z) (i : nat) (e : PhysPageEntry) : list Node :=
  alter (fun p => <[i := e]> p) (Z.to_nat n) nodes.

(** The loop of [phys_page_set_level] over the entries of the node [p] from [i] on,
    of which [n] are left; [set_child] is the call for the level below. *)
Fixpoint set_entries (set_child : list Node -> PhysPageEntry -> Z -> Z -> option (list Node * PhysPageEntry * Z * Z))
    (step leaf p : Z) (n : nat) (nodes : list Node) (i : nat) (index nb : Z)
  : option (list Node * Z * Z) :=
  match n with
  | O => Some (nodes, index, nb)
  | S n =>
      if nb =? 0 then Some (nodes, index, nb)
      else if (Z.land index (step - 1) =? 0) && (step <=? nb) then
        set_entries set_child step leaf p n (set_entry nodes p i {| skip := 0; ptr := leaf |}) (S i)
          (u64 (index + step)) (nb - step)
      else
      let? node := nodes !! Z.to_nat p else None in
      let? lp := node !! i else None in
      let? (nodes, lp, index, nb) := set_child nodes lp index nb else None in
      set_entries set_child step leaf p n (set_entry nodes p i lp) (S i) index nb
  end.

(** The entry [lp] is passed by value and returned; the caller stores it.  The
    lowest level has no level below: its entries are single pages. *)
Fixpoint phys_page_set_level (level : nat) (alloc leaf : Z) (nodes : list Node) (lp : PhysPageEntry)
    (index nb : Z) : option (list Node * PhysPageEntry * Z * Z) :=
  let step := Z.shiftl 1 (Z.of_nat level * P_L2_BITS) in
  let? (nodes, lp) :=
    (if negb (skip lp =? 0) && (ptr lp =? PHYS_MAP_NODE_NIL) then
       let? (nodes, p) := phys_map_node_alloc nodes alloc (Nat.eqb level 0) else None in
       Some (nodes, {| skip := skip lp; ptr := p |})
     else Some (nodes, lp)) else None in
  let i := Z.to_nat (Z.land (Z.shiftr index (Z.of_nat level * P_L2_BITS)) (Z.of_nat P_L2_SIZE - 1)) in
  let? (nodes, index, nb) :=
    set_entries
      match level with
      | O => fun _ _ _ _ => None
      | S level => phys_page_set_level level alloc leaf
      end step leaf (ptr lp) (P_L2_SIZE - i) nodes i index nb else None in
  Some (nodes, lp, index, nb).

Definition phys_map_node_reserve (d : AddressSpaceDispatch) (n : Z) : AddressSpaceDispatch :=
  if nodes_nb_alloc d <? zlen (nodes d) + n then
    let nodes_nb_alloc := Z.max (alloc_hint d) (zlen (nodes d) + n) in
    mk_Dispatch (mru_section d) (phys_map d) (nodes d) nodes_nb_alloc nodes_nb_alloc
      (sections d) (subpages d)
  else d.

Definition phys_page_set (d : AddressSpaceDispatch) (index nb leaf : Z)
  : option AddressSpaceDispatch :=
  let d := phys_map_node_reserve d (3 * Z.of_nat P_L2_LEVELS) in
  let? (nodes, lp, _, _) :=
    phys_page_set_level (P_L2_LEVELS - 1) (nodes_nb_alloc d) leaf (nodes d) (phys_map d) index nb
    else None in
  Some (mk_Dispatch (mru_section d) lp nodes (nodes_nb_alloc d) (alloc_hint d) (sections d) (subpages d)).

(** The loop of [phys_page_compact] over the entries of the node [p]: [valid]
    counts the children that are there, [valid_ptr] is the last of them. *)
Fixpoint compact_entries (compact : list Node -> PhysPageEntry -> option (list Node * PhysPageEntry))
    (p : Z) (n : nat) (nodes : list Node) (i valid valid_ptr : nat) : option (list Node * nat * nat) :=
  match n with
  | O => Some (nodes, valid, valid_ptr)
  | S n =>
      let? node := nodes !! Z.to_nat p else None in
      let? e := node !! i else None in
      if ptr e =? PHYS_MAP_NODE_NIL then compact_entries compact p n nodes (S i) valid valid_ptr
      else if negb (skip e =? 0) then
        let? (nodes, e) := compact nodes e else None in
        compact_entries compact p n (set_entry nodes p i e) (S i) (S valid) i
      else compact_entries compact p n nodes (S i) (S valid) i
  end.

(** Compresses the entry [lp], and the entries below it; at most [fuel] levels. *)
Fixpoint phys_page_compact (fuel : nat) (nodes : list Node) (lp : PhysPageEntry)
  : option (list Node * PhysPageEntry) :=
  match fuel with
  | O => None
  | S fuel =>
      if ptr lp =? PHYS_MAP_NODE_NIL then Some (nodes, lp)
      else
      let? (nodes, valid, valid_ptr) :=
        compact_entries (phys_page_compact fuel) (ptr lp) P_L2_SIZE nodes 0 0 P_L2_SIZE else None in
      if negb (Nat.eqb valid 1) then Some (nodes, lp)
      else
      let? node := nodes !! Z.to_nat (ptr lp) else None in
      let? e := node !! valid_ptr else None in
      if (2 ^ 6 <=? Z.of_nat P_L2_LEVELS) && (2 ^ 6 <=? skip lp + skip e) then Some (nodes, lp)
      else if skip e =? 0 then Some (nodes, {| skip := 0; ptr := ptr e |})
      else Some (nodes, {| skip := (skip lp + skip e) mod 2 ^ 6; ptr := ptr e |})
  end.

Definition address_space_dispatch_compact (d : AddressSpaceDispatch) : option AddressSpaceDispatch :=
  if negb (skip (phys_map d) =? 0) then
    let? (nodes, lp) := phys_page_compact P_L2_LEVELS (nodes d) (phys_map d) else None in
    Some (mk_Dispatch (mru_section d) lp nodes (nodes_nb_alloc d) (alloc_hint d) (sections d) (subpages d))
  else Some d.

(** The loop of [phys_page_find]: the number of the section.  The level drops in
    each round. *)
Fixpoint phys_page_walk (fuel : nat) (nodes : list Node) (lp : PhysPageEntry) (i index : Z) : option Z :=
  match fuel with
  | O => None
  | S fuel =>
      if skip lp =? 0 then Some (ptr lp)
      else
      let i := i - skip lp in
      if i <? 0 then Some (ptr lp)
      else if ptr lp =? PHYS_MAP_NODE_NIL then Some PHYS_SECTION_UNASSIGNED
      else
      let? p := nodes !! Z.to_nat (ptr lp) else None in
      let? e := p !! Z.to_nat (Z.land (Z.shiftr index (i * P_L2_BITS)) (Z.of_nat P_L2_SIZE - 1)) else None in
      phys_page_walk fuel nodes e i index
  end.

Definition range_get_last (offset len : Z) : Z := u64 (offset + len - 1).

Definition range_covers_byte (offset len byte : Z) : bool :=
  (offset <=? byte) && (byte <=? range_get_last offset len).

(** [int128_gethi] and [int128_getlo] of the size. *)
Definition section_covers_addr (s : Sect R) (addr : Z) : bool :=
  negb (Z.shiftr (mrs_size s) 64 =? 0) ||
  range_covers_byte (mrs_offset_within_address_space s) (u64 (mrs_size s)) addr.

(** Asserts that the number has 64 bits. *)
Definition int128_get64 (n : Z) : option Z := if n =? u64 n then Some n else None.

(** The number of the section. *)
Definition phys_page_find (d : AddressSpaceDispatch) (addr : Z) : option Z :=
  let index := Z.shiftr addr TARGET_PAGE_BITS in
  let? n := phys_page_walk (S P_L2_LEVELS) (nodes d) (phys_map d) (Z.of_nat P_L2_LEVELS) index else None in
  let? s := sections d !! Z.to_nat n else None in
  Some (if section_covers_addr s addr then n else PHYS_SECTION_UNASSIGNED).

(** ** Sections *)
Definition phys_section_add (d : AddressSpaceDispatch) (s : Sect R)
  : option (Z * AddressSpaceDispatch) :=
  if negb (zlen (sections d) <? TARGET_PAGE_SIZE) then None
  else Some (zlen (sections d),
             mk_Dispatch (mru_section d) (phys_map d) (nodes d) (nodes_nb_alloc d) (alloc_hint d)
               (sections d ++ [s]) (subpages d)).

(** [sections[n].mr] *)
Definition section_mr_of (d : AddressSpaceDispatch) (n : Z) : option (section_mr R) :=
  mrs_mr <$> sections d !! Z.to_nat n.

(** A new table, of zeros ([g_malloc0]); its number. *)
Definition subpage_init (d : AddressSpaceDispatch) (base : Z) : nat * AddressSpaceDispatch :=
  (length (subpages d),
   mk_Dispatch (mru_section d) (phys_map d) (nodes d) (nodes_nb_alloc d) (alloc_hint d) (sections d)
     (subpages d ++ [{| sp_base := base;
                        sub_section := replicate (Z.to_nat TARGET_PAGE_SIZE) PHYS_SECTION_UNASSIGNED |}])).

(** [for (; idx <= eidx; idx++) mmio->sub_section[idx] = section;]  A range that is
    not inside of the page is ignored. *)
Definition subpage_register (d : AddressSpaceDispatch) (k : nat) (start end_ section : Z)
  : AddressSpaceDispatch :=
  if (TARGET_PAGE_SIZE <=? start) || (TARGET_PAGE_SIZE <=? end_) then d
  else
  mk_Dispatch (mru_section d) (phys_map d) (nodes d) (nodes_nb_alloc d) (alloc_hint d) (sections d)
    (alter (fun sp =>
       {| sp_base := sp_base sp;
          sub_section := list_inserts (Z.to_nat start)
            (replicate (Z.to_nat (end_ - start + 1)) section) (sub_section sp) |}) k (subpages d)).

Definition TARGET_PAGE_MASK : Z := - TARGET_PAGE_SIZE.

Definition TARGET_PAGE_ALIGN (addr : Z) : Z :=
  Z.land (u64 (addr + TARGET_PAGE_SIZE - 1)) TARGET_PAGE_MASK.

(** The first part of [register_subpage]: the table of the page at [base], a new one
    if it has none. *)
Definition subpage_for (d : AddressSpaceDispatch) (base : Z) : option (nat * AddressSpaceDispatch) :=
  let? existing := phys_page_find d base else None in
  let? mr := section_mr_of d existing else None in
  match mr with
  | region _ => None
  | subpage_iomem k => Some (k, d)
  | io_mem_unassigned =>
      let '(k, d) := subpage_init d base in
      let subsection :=
        {| mrs_mr := subpage_iomem k; mrs_offset_within_region := 0; mrs_size := TARGET_PAGE_SIZE;
           mrs_offset_within_address_space := base; mrs_readonly := false;
           mrs_nonvolatile := false; mrs_unmergeable := false |} in
      let? (n, d) := phys_section_add d subsection else None in
      let? d := phys_page_set d (Z.shiftr base TARGET_PAGE_BITS) 1 n else None in
      Some (k, d)
  end.

Definition register_subpage (d : AddressSpaceDispatch) (s : Sect R) : option AddressSpaceDispatch :=
  let base := Z.land (mrs_offset_within_address_space s) TARGET_PAGE_MASK in
  let? (k, d) := subpage_for d base else None in
  let start := Z.land (mrs_offset_within_address_space s) (Z.lnot TARGET_PAGE_MASK) in
  let? size := int128_get64 (mrs_size s) else None in
  let end_ := u64 (start + size - 1) in
  let? (n, d) := phys_section_add d s else None in
  Some (subpage_register d k (u32 start) (u32 end_) n).

Definition register_multipage (d : AddressSpaceDispatch) (s : Sect R) : option AddressSpaceDispatch :=
  let start_addr := mrs_offset_within_address_space s in
  let? (section_index, d) := phys_section_add d s else None in
  let? num_pages := int128_get64 (Z.shiftr (mrs_size s) TARGET_PAGE_BITS) else None in
  if num_pages =? 0 then None
  else phys_page_set d (Z.shiftr start_addr TARGET_PAGE_BITS) num_pages section_index.

Definition with_size (s : Sect R) (size : Z) : Sect R :=
  {| mrs_mr := mrs_mr s; mrs_offset_within_region := mrs_offset_within_region s;
     mrs_size := size; mrs_offset_within_address_space := mrs_offset_within_address_space s;
     mrs_readonly := mrs_readonly s; mrs_nonvolatile := mrs_nonvolatile s;
     mrs_unmergeable := mrs_unmergeable s |}.

(** What remains of a section after its first [size] bytes. *)
Definition advance (s : Sect R) (size : Z) : option (Sect R) :=
  let? n := int128_get64 size else None in
  Some {| mrs_mr := mrs_mr s; mrs_offset_within_region := u64 (mrs_offset_within_region s + n);
          mrs_size := mrs_size s - size;
          mrs_offset_within_address_space := u64 (mrs_offset_within_address_space s + n);
          mrs_readonly := mrs_readonly s; mrs_nonvolatile := mrs_nonvolatile s;
          mrs_unmergeable := mrs_unmergeable s |}.

(** The whole pages, and the last subpage. *)
Definition add_pages (d : AddressSpaceDispatch) (remain : Sect R) : option AddressSpaceDispatch :=
  if TARGET_PAGE_SIZE <=? mrs_size remain then
    let now := with_size remain (Z.land (mrs_size remain) (- TARGET_PAGE_SIZE)) in
    let? d := register_multipage d now else None in
    if mrs_size remain =? mrs_size now then Some d
    else
    let? remain := advance remain (mrs_size now) else None in
    register_subpage d remain
  else register_subpage d remain.

(** The first subpage, and the rest. *)
Definition flatview_add_to_dispatch (d : AddressSpaceDispatch) (remain : Sect R)
  : option AddressSpaceDispatch :=
  let addr := mrs_offset_within_address_space remain in
  if negb (Z.land addr (Z.lnot TARGET_PAGE_MASK) =? 0) then
    let left := u64 (TARGET_PAGE_ALIGN addr - addr) in
    let now := with_size remain (Z.min left (mrs_size remain)) in
    let? d := register_subpage d now else None in
    if mrs_size remain =? mrs_size now then Some d
    else
    let? remain := advance remain (mrs_size now) else None in
    add_pages d remain
  else add_pages d remain.

(** A dispatch with the section for unassigned addresses only. *)
Definition address_space_dispatch_new (alloc_hint : Z) : AddressSpaceDispatch :=
  mk_Dispatch None {| skip := 1; ptr := PHYS_MAP_NODE_NIL |} [] 0 alloc_hint
    [{| mrs_mr := io_mem_unassigned; mrs_offset_within_region := 0; mrs_size := 2 ^ 64;
        mrs_offset_within_address_space := 0; mrs_readonly := false; mrs_nonvolatile := false;
        mrs_unmergeable := false |}] [].

(** The section of a range of the view. *)
Definition section_of (fr : FlatRange R) : Sect R :=
  let s := section_from_flat_range fr in
  {| mrs_mr := region (mrs_mr s); mrs_offset_within_region := mrs_offset_within_region s;
     mrs_size := mrs_size s; mrs_offset_within_address_space := mrs_offset_within_address_space s;
     mrs_readonly := mrs_readonly s; mrs_nonvolatile := mrs_nonvolatile s;
     mrs_unmergeable := mrs_unmergeable s |}.

Fixpoint add_ranges (d : AddressSpaceDispatch) (view : FlatView R) : option AddressSpaceDispatch :=
  match view with
  | [] => Some d
  | fr :: view => let? d := flatview_add_to_dispatch d (section_of fr) else None in add_ranges d view
  end.

(** The dispatch of a view, as [generate_memory_topology] builds it. *)
Definition dispatch_of (alloc_hint : Z) (view : FlatView R) : option AddressSpaceDispatch :=
  let? d := add_ranges (address_space_dispatch_new alloc_hint) view else None in
  address_space_dispatch_compact d.

(** ** Lookup *)

(** The first part of [address_space_lookup_region]: the section of the page, and the
    dispatch that remembers it. *)
Definition lookup_page (d : AddressSpaceDispatch) (addr : Z) : option (Z * AddressSpaceDispatch) :=
  let? hit :=
    match mru_section d with
    | Some n =>
        let? s := sections d !! Z.to_nat n else None in
        Some (if negb (n =? PHYS_SECTION_UNASSIGNED) && section_covers_addr s addr
              then Some n else None)
    | None => Some None
    end else None in
  match hit with
  | Some n => Some (n, d)
  | None =>
      let? n := phys_page_find d addr else None in
      Some (n, mk_Dispatch (Some n) (phys_map d) (nodes d) (nodes_nb_alloc d) (alloc_hint d)
                 (sections d) (subpages d))
  end.

Definition address_space_lookup_region (d : AddressSpaceDispatch) (addr : Z) (resolve_subpage : bool)
  : option (Z * AddressSpaceDispatch) :=
  let? (n, d) := lookup_page d addr else None in
  let? mr := section_mr_of d n else None in
  match mr with
  | subpage_iomem k =>
      if resolve_subpage then
        let? sp := subpages d !! k else None in
        let? n := sub_section sp !! Z.to_nat (Z.land addr (Z.lnot TARGET_PAGE_MASK)) else None in
        Some (n, d)
      else Some (n, d)
  | _ => Some (n, d)
  end.

Variable memory_region_is_ram : section_mr R -> bool.

(** The section, the offset in its region ([*xlat]) and how many of the [plen]
    bytes the section holds. *)
Definition address_space_translate_internal (d : AddressSpaceDispatch) (addr plen : Z)
    (resolve_subpage : bool) : option (Sect R * Z * Z * AddressSpaceDispatch) :=
  let? (n, d) := address_space_lookup_region d addr resolve_subpage else None in
  let? s := sections d !! Z.to_nat n else None in
  let addr := u64 (addr - mrs_offset_within_address_space s) in
  let xlat := u64 (addr + mrs_offset_within_region s) in
  let? plen :=
    (if memory_region_is_ram (mrs_mr s) then int128_get64 (Z.min (mrs_size s - addr) plen)
     else Some plen) else None in
  Some (s, xlat, plen, d).
End PhysMap.
