(* ===== verification/PhysTree.v ===== *)
(** * The radix tree of the dispatch

    The nodes of [PhysMap] hold a tree: [owns] says that an entry is the root of a
    tree whose nodes are all different, and [tget] which section the tree has for a
    page.  [phys_page_set_level] sets the pages of its range and leaves all others,
    with at most two new nodes for each level; [phys_page_compact] keeps what the
    tree has for every page, except that a page that had no section may find one
    that does not cover it. *)
From stdpp Require Import base list numbers sets.
From S2P Require Import Prelude PhysMap.

Unset Elimination Schemes.
(** [n] is the number of the node. *)
Inductive ptree := TLeaf (s : Z) | TNil | TNode (k : Z) (n : nat) (ts : list ptree).
Set Elimination Schemes.

Definition entry (t : ptree) : PhysPageEntry :=
  match t with
  | TLeaf s => {| skip := 0; ptr := s |}
  | TNil => {| skip := 1; ptr := PHYS_MAP_NODE_NIL |}
  | TNode k n _ => {| skip := k; ptr := Z.of_nat n |}
  end.

Fixpoint ids (t : ptree) : list nat :=
  match t with TNode _ n ts => n :: flat_map ids ts | _ => [] end.

(** Every node of the tree is in the array. *)
Fixpoint stored (nodes : list Node) (t : ptree) : Prop :=
  match t with
  | TNode k n ts =>
      nodes !! n = Some (entry <$> ts) /\ foldr (fun t P => stored nodes t /\ P) True ts
  | _ => True
  end.

Definition owns (nodes : list Node) (t : ptree) : Prop := stored nodes t /\ NoDup (ids t).

Lemma stored_node nodes k n ts :
  stored nodes (TNode k n ts) <-> nodes !! n = Some (entry <$> ts) /\ Forall (stored nodes) ts.
Proof.
  simpl. assert (H : foldr (fun t P => stored nodes t /\ P) True ts <-> Forall (stored nodes) ts).
  { induction ts as [|t ts IH]; simpl; [by split|]. rewrite Forall_cons_iff. tauto. }
  tauto.
Qed.

(** Induction over a tree. *)
Lemma ptree_ind' (P : ptree -> Prop) :
  (forall s, P (TLeaf s)) -> P TNil -> (forall k n ts, Forall P ts -> P (TNode k n ts)) ->
  forall t, P t.
Proof.
  intros H1 H2 H3. fix IH 1. intros [s| |k n ts]; [apply H1|apply H2|].
  apply H3. induction ts as [|t ts IHts]; constructor; [apply IH|exact IHts].
Qed.

Lemma stored_ids nodes t n : stored nodes t -> n ∈ ids t -> (n < length nodes)%nat.
Proof.
  revert n. induction t as [s| |k m ts IH] using ptree_ind'; intros n; [by intros _ ?%elem_of_nil..|].
  rewrite stored_node. simpl. intros [Hm Hts] [->|Hn]%elem_of_cons.
  - by eapply lookup_lt_Some.
  - apply list_elem_of_In, in_flat_map in Hn as (t & Ht%list_elem_of_In & Hn).
    rewrite Forall_forall in IH, Hts.
    apply (IH _ Ht); [by apply Hts|by apply list_elem_of_In].
Qed.

(** Storage is local to the nodes of the tree. *)
Lemma stored_frame nodes nodes' t :
  stored nodes t -> (forall n, n ∈ ids t -> nodes' !! n = nodes !! n) -> stored nodes' t.
Proof.
  induction t as [s| |k m ts IH] using ptree_ind'; [done..|].
  rewrite !stored_node. intros [Hm Hts] Hf. split.
  - rewrite Hf; [done|]. simpl. set_solver.
  - rewrite Forall_forall in IH, Hts |- *. intros t Ht. apply IH; [done|by apply Hts|].
    intros n Hn. apply Hf. simpl. apply elem_of_cons. right.
    apply list_elem_of_In, in_flat_map. exists t. by rewrite <- !list_elem_of_In.
Qed.

(** ** Changes of a tree *)

(** The tree [t'] in [nodes'] comes from [t] in [nodes]: other trees are kept. *)
Record evolves (nodes : list Node) (t : ptree) (nodes' : list Node) (t' : ptree) : Prop := {
  ev_owns : owns nodes' t';
  ev_length : (length nodes <= length nodes')%nat;
  ev_ids : forall n, n ∈ ids t' -> n ∈ ids t \/ (length nodes <= n)%nat;
  ev_frame : forall n, (n < length nodes)%nat -> n ∉ ids t -> nodes' !! n = nodes !! n
}.

Lemma evolves_refl nodes t : owns nodes t -> evolves nodes t nodes t.
Proof. intros H. split; auto. Qed.

Lemma evolves_trans nodes t nodes1 t1 nodes2 t2 :
  evolves nodes t nodes1 t1 -> evolves nodes1 t1 nodes2 t2 -> evolves nodes t nodes2 t2.
Proof.
  intros [H1 H2 H3 H4] [H5 H6 H7 H8]. split; [done|lia| |].
  - intros n Hn. destruct (H7 n Hn) as [Hn1|]; [|right; lia]. by apply H3.
  - intros n Hlt Hn. rewrite H8; [by apply H4|lia|].
    intros Hn1. destruct (H3 n Hn1); [done|lia].
Qed.

Lemma evolves_leaf nodes t s : evolves nodes t nodes (TLeaf s).
Proof. split; [split; [done|constructor]|lia|by intros n ?%elem_of_nil|done]. Qed.

Lemma flat_map_ids_split ts i c :
  ts !! i = Some c ->
  flat_map ids ts ≡ₚ ids c ++ flat_map ids (take i ts ++ drop (S i) ts).
Proof.
  intros H. rewrite <- (take_drop_middle ts i c H) at 1. rewrite !flat_map_app. simpl.
  rewrite Permutation_app_swap_app. done.
Qed.

Lemma length_set_entry nodes p i e : length (set_entry nodes p i e) = length nodes.
Proof. apply length_alter. Qed.

Lemma set_entry_ne nodes p i e n :
  n <> p -> set_entry nodes (Z.of_nat p) i e !! n = nodes !! n.
Proof. intros H. unfold set_entry. rewrite Nat2Z.id. by apply list_lookup_alter_ne. Qed.

Lemma set_entry_eq nodes p i e node :
  nodes !! p = Some node -> set_entry nodes (Z.of_nat p) i e !! p = Some (<[i := e]> node).
Proof. intros H. unfold set_entry. by rewrite Nat2Z.id, list_lookup_alter_eq, H. Qed.

(** A child of an owned node. *)
Lemma owns_child nodes k n ts i c :
  owns nodes (TNode k n ts) -> ts !! i = Some c ->
  owns nodes c /\ nodes !! n = Some (entry <$> ts) /\ (n ∉ ids c) /\
  (n ∉ flat_map ids (take i ts ++ drop (S i) ts)) /\
  (forall m, m ∈ ids c -> m ∉ flat_map ids (take i ts ++ drop (S i) ts)) /\
  NoDup (flat_map ids (take i ts ++ drop (S i) ts)).
Proof.
  intros [Hst Hnd] Hi. rewrite stored_node in Hst. destruct Hst as [Hn Hts].
  simpl in Hnd. apply NoDup_cons in Hnd as [Hnn Hnd].
  rewrite (flat_map_ids_split _ _ _ Hi) in Hnn, Hnd. apply NoDup_app in Hnd as (Hndc & Hdis & Hndr).
  rewrite elem_of_app in Hnn. rewrite Forall_lookup in Hts.
  split_and!; [split; [by apply (Hts i)|done]|done|tauto|tauto|done|done].
Qed.

(** A sibling's nodes are among those of the others. *)
Lemma sibling_ids (ts : list ptree) i j c m :
  ts !! j = Some c -> j <> i -> m ∈ ids c -> m ∈ flat_map ids (take i ts ++ drop (S i) ts).
Proof.
  intros Hj Hne Hm. apply list_elem_of_In, in_flat_map. exists c.
  split; [|by apply list_elem_of_In]. apply list_elem_of_In, elem_of_app.
  destruct (decide (j < i)%nat) as [H|H].
  - left. apply list_elem_of_lookup. exists j. by rewrite lookup_take_lt.
  - right. apply list_elem_of_lookup. exists (j - S i)%nat. rewrite lookup_drop.
    by replace (S i + (j - S i))%nat with j by lia.
Qed.

(** The siblings of a child keep their nodes. *)
Lemma evolves_child nodes k n ts i c nodes1 c1 :
  owns nodes (TNode k n ts) -> ts !! i = Some c -> evolves nodes c nodes1 c1 ->
  evolves nodes (TNode k n ts) (set_entry nodes1 (Z.of_nat n) i (entry c1)) (TNode k n (<[i := c1]> ts)).
Proof.
  intros Ho Hi [[Hs1 Hn1] Hlen Hids Hfr].
  destruct (owns_child _ _ _ _ _ _ Ho Hi) as ([Hsc Hnc] & Hn & Hnotc & Hnotr & Hdis & Hndr).
  assert (Hi' := lookup_lt_Some _ _ _ Hi). assert (Hnlt : (n < length nodes)%nat) by exact (lookup_lt_Some _ _ _ Hn).
  assert (Hpermo := flat_map_ids_split _ _ _ Hi).
  assert (Hperm : flat_map ids (<[i := c1]> ts) ≡ₚ ids c1 ++ flat_map ids (take i ts ++ drop (S i) ts)).
  { rewrite (flat_map_ids_split _ i c1) by by apply list_lookup_insert_eq.
    by rewrite take_insert_ge, drop_insert_lt by lia. }
  assert (Hrlt : forall m, m ∈ flat_map ids (take i ts ++ drop (S i) ts) -> (m < length nodes)%nat).
  { intros m Hm. apply (stored_ids nodes (TNode k n ts)); [apply Ho|]. simpl. rewrite Hpermo. set_solver. }
  assert (Hsib := fun j c' m => sibling_ids ts i j c' m).
  set (rest := flat_map ids _) in *. clearbody rest.
  assert (Hnc1 : n ∉ ids c1) by (intros H; destruct (Hids _ H); [done|lia]).
  split.
  - split; [rewrite stored_node; split|].
    + rewrite (set_entry_eq _ _ _ _ (entry <$> ts)); [by rewrite list_fmap_insert|]. by rewrite Hfr.
    + rewrite Forall_lookup. intros j c' Hj. destruct (decide (j = i)) as [->|Hne].
      * rewrite list_lookup_insert_eq in Hj by done. injection Hj as <-.
        apply (stored_frame _ _ _ Hs1). intros m Hm. apply set_entry_ne. by intros ->.
      * rewrite list_lookup_insert_ne in Hj by done. destruct Ho as [[_ Hts]%stored_node _].
        rewrite Forall_lookup in Hts. apply (stored_frame _ _ _ (Hts _ _ Hj)). intros m Hm.
        assert (Hr := Hsib _ _ _ Hj Hne Hm). rewrite set_entry_ne by (by intros ->).
        apply Hfr; [by apply Hrlt|]. intros Hc. by apply (Hdis m Hc).
    + simpl. apply NoDup_cons. rewrite Hperm. split; [set_solver|].
      apply NoDup_app. split_and!; [done| |done].
      intros m Hm Hm'. destruct (Hids m Hm) as [Hc|]; [by apply (Hdis m Hc)|].
      apply Hrlt in Hm'. lia.
  - by rewrite length_set_entry.
  - simpl. intros m. rewrite Hperm, Hpermo. intros [->|[Hm|Hm]%elem_of_app]%elem_of_cons; [set_solver| |set_solver].
    destruct (Hids m Hm); [set_solver|auto].
  - intros m Hm. simpl. rewrite Hpermo. intros Hnot. rewrite set_entry_ne by set_solver.
    apply Hfr; [done|set_solver].
Qed.

(** ** The section of a page *)
Definition pages (h : nat) : Z := 2 ^ (9 * Z.of_nat h).

Lemma pages_S h : pages (S h) = 512 * pages h.
Proof. unfold pages. replace (9 * Z.of_nat (S h)) with (9 + 9 * Z.of_nat h) by lia. by rewrite Z.pow_add_r by lia. Qed.
Lemma pages_pos h : 0 < pages h.
Proof. unfold pages. apply Z.pow_pos_nonneg; lia. Qed.
Lemma pages_step h : Z.shiftl 1 (Z.of_nat h * P_L2_BITS) = pages h.
Proof.
  unfold P_L2_BITS, pages. rewrite Z.shiftl_mul_pow2 by lia.
  rewrite Z.mul_1_l. by rewrite (Z.mul_comm (Z.of_nat h)).
Qed.
Lemma pages_land h z : Z.land z (pages h - 1) = z mod pages h.
Proof.
  unfold pages. rewrite <- (Z.land_ones z (9 * Z.of_nat h)) by lia.
  by rewrite Z.ones_equiv.
Qed.
Lemma L2_size : Z.of_nat P_L2_SIZE = 512.
Proof. done. Qed.

(** The entry of a node for a page. *)
Definition digit (i index : Z) : nat :=
  Z.to_nat (Z.land (Z.shiftr index (i * P_L2_BITS)) (Z.of_nat P_L2_SIZE - 1)).

(** The page is in the block of the [j]th entry. *)
Lemma digit_block h base j p :
  (pages (S h) | base) -> 0 <= j < 512 ->
  base + j * pages h <= p < base + (j + 1) * pages h -> digit (Z.of_nat h) p = Z.to_nat j.
Proof.
  intros [q ->] Hj Hp. rewrite pages_S in Hp. assert (H0 := pages_pos h). unfold digit.
  rewrite L2_size. change (512 - 1) with (Z.ones 9). rewrite Z.land_ones by lia.
  rewrite Z.shiftr_div_pow2 by (unfold P_L2_BITS; lia).
  replace (2 ^ (Z.of_nat h * P_L2_BITS)) with (pages h)
    by (unfold pages, P_L2_BITS; by rewrite (Z.mul_comm (Z.of_nat h))).
  replace (p / pages h) with (j + q * 512)
    by (apply (Z.div_unique_pos _ _ _ (p - (j + q * 512) * pages h)); nia).
  change (2 ^ 9) with 512. rewrite Z.mod_add by lia. rewrite Z.mod_small by lia. done.
Qed.

(** Every page of a block is in the block of one of its entries. *)
Lemma digit_spec h base p :
  (pages (S h) | base) -> base <= p < base + pages (S h) ->
  exists j, 0 <= j < 512 /\ base + j * pages h <= p < base + (j + 1) * pages h /\
    digit (Z.of_nat h) p = Z.to_nat j.
Proof.
  intros Hd Hp. assert (H0 := pages_pos h). rewrite pages_S in Hp.
  assert (Hq := Z.div_mod (p - base) (pages h)). assert (Hr := Z.mod_pos_bound (p - base) (pages h) H0).
  exists ((p - base) / pages h).
  assert (0 <= (p - base) / pages h < 512) by (split; [apply Z.div_pos|apply Z.div_lt_upper_bound]; lia).
  assert (base + (p - base) / pages h * pages h <= p < base + ((p - base) / pages h + 1) * pages h) by nia.
  split_and!; [lia..|by apply (digit_block h base)].
Qed.

(** What the tree has for a page: [i] levels are left. *)
Fixpoint tget (fuel : nat) (t : ptree) (i index : Z) : Z :=
  match t with
  | TLeaf s => s
  | TNil => PHYS_SECTION_UNASSIGNED
  | TNode k _ ts =>
      match fuel with
      | O => PHYS_SECTION_UNASSIGNED
      | S fuel =>
          match ts !! digit (i - k) index with
          | Some c => tget fuel c (i - k) index
          | None => PHYS_SECTION_UNASSIGNED
          end
      end
  end.

Definition get (h : nat) (t : ptree) (p : Z) : Z := tget h t (Z.of_nat h) p.

Lemma get_node h n ts p :
  get (S h) (TNode 1 n ts) p =
  match ts !! digit (Z.of_nat h) p with Some c => get h c p | None => PHYS_SECTION_UNASSIGNED end.
Proof. unfold get. cbn [tget]. by replace (Z.of_nat (S h) - 1) with (Z.of_nat h) by lia. Qed.

(** A tree of [h] levels that is not compressed: leaves of the lowest level may be
    unassigned, above it there are none. *)
Fixpoint shaped (h : nat) (t : ptree) : Prop :=
  match t with
  | TLeaf s => 0 <= s < 2 ^ 16 /\ (h <> O -> s <> PHYS_SECTION_UNASSIGNED)
  | TNil => h <> O
  | TNode k n ts =>
      match h with
      | O => False
      | S h => k = 1 /\ length ts = P_L2_SIZE /\ Forall (shaped h) ts
      end
  end.

Lemma shaped_leaf h s :
  shaped h (TLeaf s) <-> 0 <= s < 2 ^ 16 /\ (h <> O -> s <> PHYS_SECTION_UNASSIGNED).
Proof. by destruct h. Qed.
Lemma shaped_nil h : shaped h TNil <-> h <> O.
Proof. by destruct h. Qed.
Lemma get_leaf h s p : get h (TLeaf s) p = s.
Proof. by destruct h. Qed.
Lemma get_nil h p : get h TNil p = PHYS_SECTION_UNASSIGNED.
Proof. by destruct h. Qed.

Lemma get_update h n ts i c base p :
  (pages (S h) | base) -> length ts = P_L2_SIZE -> (i < P_L2_SIZE)%nat ->
  base <= p < base + pages (S h) ->
  get (S h) (TNode 1 n (<[i := c]> ts)) p =
  if (base + Z.of_nat i * pages h <=? p) && (p <? base + Z.of_nat i * pages h + pages h)
  then get h c p else get (S h) (TNode 1 n ts) p.
Proof.
  intros Hd Hlen Hi Hp. rewrite !get_node.
  destruct (digit_spec h base p Hd Hp) as (j & Hj & Hb & ->). assert (H0 := pages_pos h).
  destruct (decide (Z.to_nat j = i)) as [<-|Hne].
  - rewrite list_lookup_insert_eq by (rewrite Hlen; assert (HS := L2_size); lia).
    rewrite Z2Nat.id by lia.
    destruct (_ && _) eqn:E; [done|]. lia.
  - rewrite list_lookup_insert_ne by done.
    destruct (_ && _) eqn:E; [|done]. exfalso. assert (j <> Z.of_nat i) by lia. nia.
Qed.

(** ** Setting pages *)
Lemma phys_page_set_level_eq level alloc leaf nodes lp index nb :
  phys_page_set_level level alloc leaf nodes lp index nb =
  let? (nodes, lp) :=
    (if negb (skip lp =? 0) && (ptr lp =? PHYS_MAP_NODE_NIL) then
       let? (nodes, p) := phys_map_node_alloc nodes alloc (Nat.eqb level 0) else None in
       Some (nodes, {| skip := skip lp; ptr := p |})
     else Some (nodes, lp)) else None in
  let i := digit (Z.of_nat level) index in
  let? (nodes, index, nb) :=
    set_entries match level with
                | O => fun _ _ _ _ => None
                | S level => phys_page_set_level level alloc leaf
                end (Z.shiftl 1 (Z.of_nat level * P_L2_BITS)) leaf (ptr lp) (P_L2_SIZE - i)%nat
      nodes i index nb else None in
  Some (nodes, lp, index, nb).
Proof. by destruct level. Qed.

Section Set_level.
Variables alloc limit leaf : Z.
Hypothesis leaf_range : 0 < leaf < 2 ^ 16.
Hypothesis limit_range : limit <= alloc /\ limit <= PHYS_MAP_NODE_NIL.

(** A block that does not start with the range, or does not end in it, costs up to
    one node for each level. *)
Definition cost (h : nat) (start : bool) (index nb end_ : Z) : Z :=
  (if start then 0 else Z.of_nat h) + (if index + nb <? end_ then Z.of_nat h else 0).

(** The pages of [t], a block at [base], after [nb] pages from [index] are set. *)
Definition set_get (h : nat) (t t' : ptree) (base index nb : Z) : Prop := forall p,
  base <= p < base + pages h ->
  get h t' p = if (index <=? p) && (p <? index + nb) then leaf else get h t p.

(** The pages to be set have no section yet. *)
Definition unset (h : nat) (t : ptree) (base index nb : Z) : Prop := forall p,
  index <= p < index + nb -> p < base + pages h -> get h t p = PHYS_SECTION_UNASSIGNED.

(** [f] sets the pages of a block at [base] of [h] levels. *)
Definition sets (h : nat)
    (f : list Node -> PhysPageEntry -> Z -> Z -> option (list Node * PhysPageEntry * Z * Z)) : Prop :=
  forall t nodes index nb base, h <> O ->
  shaped h t -> owns nodes t -> (pages h | base) -> 0 <= base <= index -> index < base + pages h ->
  0 < nb -> index + nb <= 2 ^ 62 ->
  zlen nodes + Z.max 1 (cost h (index =? base) index nb (base + pages h)) <= limit ->
  unset h t base index nb ->
  exists nodes' t',
    f nodes (entry t) index nb =
      Some (nodes', entry t', Z.min (index + nb) (base + pages h),
            index + nb - Z.min (index + nb) (base + pages h)) /\
    evolves nodes t nodes' t' /\ shaped h t' /\
    zlen nodes' <= zlen nodes + Z.max 1 (cost h (index =? base) index nb (base + pages h)) /\
    set_get h t t' base index nb.

(** The cost of the rest of the entries of a node. *)
Definition rest_cost (h i : nat) (base index nb : Z) : Z :=
  if nb =? 0 then 0
  else cost h (index =? base + Z.of_nat i * pages h) index nb (base + pages (S h)).

(** An entry that is set as a whole, or by the level below. *)
Lemma child_step h f nd ts nodes i index nb base c :
  sets h f -> shaped (S h) (TNode 1 nd ts) -> owns nodes (TNode 1 nd ts) -> ts !! i = Some c ->
  (pages (S h) | base) -> 0 <= base -> let ci := base + Z.of_nat i * pages h in
  ci <= index < ci + pages h -> 0 < nb -> index + nb <= 2 ^ 62 ->
  zlen nodes + rest_cost h i base index nb <= limit ->
  unset (S h) (TNode 1 nd ts) base index nb ->
  let index' := Z.min (index + nb) (ci + pages h) in
  exists nodes1 c1,
    (forall n, set_entries f (pages h) leaf (Z.of_nat nd) (S n) nodes i index nb =
       set_entries f (pages h) leaf (Z.of_nat nd) n (set_entry nodes1 (Z.of_nat nd) i (entry c1)) (S i)
         index' (index + nb - index')) /\
    evolves nodes c nodes1 c1 /\ shaped h c1 /\
    zlen nodes1 <= zlen nodes + (if index =? ci then 0 else Z.of_nat h)
                   + (if index + nb <? ci + pages h then Z.of_nat h else 0) /\
    forall p, ci <= p < ci + pages h ->
      get h c1 p = if (index <=? p) && (p <? index + nb) then leaf else get h c p.
Proof.
  intros Hf Hsh Ho Hc Hd Hb0 ci Hidx Hnb Hmax Halloc Hun index'.
  assert (HP := pages_pos h). assert (HS := pages_S h).
  destruct Hsh as (_ & Hlen & Hsh). assert (Hi := lookup_lt_Some _ _ _ Hc).
  rewrite Hlen in Hi. assert (HL := L2_size).
  assert (Hci : ci + pages h <= base + pages (S h)) by nia.
  assert (Hdc : (pages h | ci)).
  { apply Z.divide_add_r; [|by exists (Z.of_nat i)]. eapply Z.divide_trans; [|exact Hd]. rewrite HS. by exists 512. }
  assert (Hget : forall p, ci <= p < ci + pages h -> get (S h) (TNode 1 nd ts) p = get h c p).
  { intros p Hp. rewrite get_node, (digit_block h base (Z.of_nat i)) by (lia || nia || done).
    by rewrite Nat2Z.id, Hc. }
  assert (Hmod : (Z.land index (pages h - 1) =? 0) = (index =? ci)).
  { rewrite pages_land. destruct Hdc as [q Hq]. rewrite Hq in Hidx |- *.
    rewrite <- (Z.mod_unique_pos index (pages h) q (index - q * pages h)) by lia. lia. }
  cbn [set_entries]. rewrite Hmod. rewrite (proj2 (Z.eqb_neq nb 0)) by lia.
  destruct ((index =? ci) && (pages h <=? nb)) eqn:Ew.
  - exists nodes, (TLeaf leaf). split_and!.
    + intros n. cbn [entry]. replace (u64 (index + pages h)) with index'; [f_equal; lia|].
      unfold u64. rewrite Z.mod_small; lia.
    + apply evolves_leaf.
    + apply shaped_leaf. split; [lia|]. intros _. unfold PHYS_SECTION_UNASSIGNED. lia.
    + destruct (index =? ci), (index + nb <? ci + pages h); lia.
    + intros p Hp. rewrite get_leaf. by rewrite (proj2 (andb_true_iff _ _)) by lia.
  - destruct (owns_child _ _ _ _ _ _ Ho Hc) as (Hoc & Hnd & _).
    assert (Hh : h <> O) by (intros ->; change (pages 0) with 1 in *; lia).
    unfold rest_cost in Halloc. rewrite (proj2 (Z.eqb_neq nb 0)) in Halloc by lia.
    fold ci in Halloc. unfold cost in Halloc.
    destruct (Hf c nodes index nb ci) as (nodes1 & c1 & H1 & H2 & H3 & H4 & H5); [done| |done|done|lia|lia|done|done| | |].
    + rewrite Forall_lookup in Hsh. by apply (Hsh i).
    + unfold cost. destruct (index =? ci) eqn:?, (index + nb <? ci + pages h) eqn:?, (index + nb <? base + pages (S h)) eqn:?; lia.
    + intros p Hp1 Hp2. rewrite <- Hget by lia. apply Hun; lia.
    + exists nodes1, c1. split_and!; [|done|done| |done].
      * intros n. rewrite Nat2Z.id, Hnd. rewrite list_lookup_fmap, Hc. simpl.
        by rewrite H1.
      * unfold cost in H4. destruct (index =? ci) eqn:?, (index + nb <? ci + pages h) eqn:?; lia.
Qed.

Lemma rest_cost_nonneg h i base index nb : 0 <= rest_cost h i base index nb.
Proof.
  unfold rest_cost, cost. destruct (nb =? 0); [lia|].
  destruct (index =? _), (index + nb <? _); lia.
Qed.

(** Nothing is left to be set in the node. *)
Lemma set_nothing h nd ts nodes i base index nb :
  nb = 0 \/ index = base + pages (S h) ->
  shaped (S h) (TNode 1 nd ts) -> owns nodes (TNode 1 nd ts) ->
  evolves nodes (TNode 1 nd ts) nodes (TNode 1 nd ts) /\ shaped (S h) (TNode 1 nd ts) /\
  zlen nodes <= zlen nodes + rest_cost h i base index nb /\
  set_get (S h) (TNode 1 nd ts) (TNode 1 nd ts) base index nb.
Proof.
  intros Hor Hsh Ho. split_and!; [by apply evolves_refl|done| |].
  - assert (H := rest_cost_nonneg h i base index nb). lia.
  - intros p Hp. rewrite (proj2 (andb_false_iff _ _)); [done|]. lia.
Qed.

(** The cost of an entry and of the entries behind it. *)
Lemma rest_cost_step h i base index nb :
  0 < nb -> let ci := base + Z.of_nat i * pages h in
  ci + pages h <= base + pages (S h) -> ci <= index < ci + pages h ->
  let index1 := Z.min (index + nb) (ci + pages h) in
  (if index =? ci then 0 else Z.of_nat h) + (if index + nb <? ci + pages h then Z.of_nat h else 0)
  + rest_cost h (S i) base index1 (index + nb - index1) <= rest_cost h i base index nb.
Proof.
  intros Hnb ci Hci Hidx index1. unfold rest_cost, cost. fold ci.
  rewrite (proj2 (Z.eqb_neq nb 0)) by lia.
  replace (base + Z.of_nat (S i) * pages h) with (ci + pages h) by (unfold ci; lia).
  destruct (index =? ci) eqn:?, (index + nb <? ci + pages h) eqn:?, (index + nb - index1 =? 0) eqn:?,
    (index1 =? ci + pages h) eqn:?, (index + nb <? base + pages (S h)) eqn:?,
    (index1 + (index + nb - index1) <? base + pages (S h)) eqn:?; lia.
Qed.

(** The loop over the entries of a node. *)
Lemma set_entries_correct h f nd base :
  sets h f -> (pages (S h) | base) -> 0 <= base ->
  forall n i ts nodes index nb,
  (n + i)%nat = P_L2_SIZE -> shaped (S h) (TNode 1 nd ts) -> owns nodes (TNode 1 nd ts) ->
  0 <= nb -> index <= base + pages (S h) -> index + nb <= 2 ^ 62 ->
  nb = 0 \/ (base + Z.of_nat i * pages h <= index /\
             (n = O \/ index < base + Z.of_nat i * pages h + pages h)) ->
  zlen nodes + rest_cost h i base index nb <= limit ->
  unset (S h) (TNode 1 nd ts) base index nb ->
  let index' := Z.min (index + nb) (base + pages (S h)) in
  exists nodes' ts',
    set_entries f (pages h) leaf (Z.of_nat nd) n nodes i index nb =
      Some (nodes', index', index + nb - index') /\
    evolves nodes (TNode 1 nd ts) nodes' (TNode 1 nd ts') /\ shaped (S h) (TNode 1 nd ts') /\
    zlen nodes' <= zlen nodes + rest_cost h i base index nb /\
    set_get (S h) (TNode 1 nd ts) (TNode 1 nd ts') base index nb.
Proof.
  intros Hf Hd Hb0. assert (HP := pages_pos h). assert (HS := pages_S h). assert (HL := L2_size).
  induction n as [|n IH]; intros i ts nodes index nb Hn Hsh Ho Hnb Hie Hmax Hinv Halloc Hun index'.
  - exists nodes, ts. cbn [set_entries]. split; [repeat f_equal; nia|]. apply set_nothing; [nia|done..].
  - destruct (decide (nb = 0)) as [->|Hnb0].
    { exists nodes, ts. cbn [set_entries]. split; [repeat f_equal; lia|]. apply set_nothing; [by left|done..]. }
    destruct Hinv as [|[Hlo [|Hhi]]]; [done..|].
    destruct (lookup_lt_is_Some_2 ts i) as [c Hc]; [destruct Hsh as (_ & -> & _); lia|].
    destruct (child_step h f nd ts nodes i index nb base c) as (nodes1 & c1 & Heq & Hev & Hsc & Hcost & Hget);
      [done..|lia|lia|lia|done|done|].
    assert (Hev1 := evolves_child _ _ _ _ _ _ _ _ Ho Hc Hev).
    assert (Hstep := rest_cost_step h i base index nb). rewrite Heq. cbv zeta in Hstep.
    destruct Hsh as (_ & Hlen & Hsh). assert (Hi : (i < P_L2_SIZE)%nat) by lia.
    assert (Hup := fun p => get_update h nd ts i c1 base p Hd Hlen Hi).
    set (ci := base + Z.of_nat i * pages h) in *.
    assert (Hci : ci + pages h <= base + pages (S h)) by nia.
    assert (Hci' : base + Z.of_nat (S i) * pages h = ci + pages h) by (unfold ci; lia).
    set (index1 := Z.min (index + nb) (ci + pages h)) in *.
    destruct (IH (S i) (<[i := c1]> ts) (set_entry nodes1 (Z.of_nat nd) i (entry c1)) index1 (index + nb - index1))
      as (nodes' & ts' & Heq' & Hev' & Hsh' & Hcost' & Hget'); [lia| |apply Hev1|lia..| | | |].
    + split_and!; [done|by rewrite length_insert|by apply Forall_insert].
    + rewrite Hci'. lia.
    + unfold zlen in *. rewrite length_set_entry. lia.
    + intros p Hp1 Hp2. rewrite Hup by lia. rewrite (proj2 (andb_false_iff _ _)) by lia. apply Hun; lia.
    + exists nodes', ts'. split_and!; [|by eapply evolves_trans|done| |].
      * replace (index1 + (index + nb - index1)) with (index + nb) in Heq' by lia. exact Heq'.
      * unfold zlen in *. rewrite length_set_entry in Hcost'. lia.
      * intros p Hp. rewrite (Hget' p Hp), (Hup p Hp).
        destruct ((ci <=? p) && (p <? ci + pages h)) eqn:E1.
        -- rewrite (Hget p) by lia. rewrite get_node, (digit_block h base (Z.of_nat i)) by (lia || done).
           rewrite Nat2Z.id, Hc.
           destruct ((index1 <=? p) && _) eqn:E2, ((index <=? p) && _) eqn:E3; (done || lia).
        -- destruct ((index1 <=? p) && _) eqn:E2, ((index <=? p) && _) eqn:E3; (done || lia).
Qed.

(** A new node: no page has a section. *)
Definition fresh (level n : nat) : ptree :=
  TNode 1 n (replicate P_L2_SIZE (if Nat.eqb level 0 then TLeaf PHYS_SECTION_UNASSIGNED else TNil)).

Lemma get_fresh level n p : get (S level) (fresh level n) p = PHYS_SECTION_UNASSIGNED.
Proof.
  unfold fresh. rewrite get_node. destruct (replicate _ _ !! _) as [c|] eqn:E; [|done].
  apply lookup_replicate in E as [-> _]. destruct (Nat.eqb level 0); [apply get_leaf|apply get_nil].
Qed.

Lemma shaped_fresh level n : shaped (S level) (fresh level n).
Proof.
  split_and!; [done|apply length_replicate|]. apply Forall_replicate.
  destruct level; simpl; [split; [unfold PHYS_SECTION_UNASSIGNED; lia|done]|done].
Qed.

Lemma flat_map_replicate_nil {A B} (f : A -> list B) n x : f x = [] -> flat_map f (replicate n x) = [].
Proof. intros H. induction n as [|n IH]; simpl; [done|]. by rewrite H, IH. Qed.

Lemma evolves_fresh level nodes :
  evolves nodes TNil (nodes ++ [entry <$> replicate P_L2_SIZE (if Nat.eqb level 0 then TLeaf PHYS_SECTION_UNASSIGNED else TNil)])
    (fresh level (length nodes)).
Proof.
  assert (Hids : ids (fresh level (length nodes)) = [length nodes]).
  { unfold fresh. cbn [ids]. rewrite flat_map_replicate_nil; [done|]. by destruct (Nat.eqb level 0). }
  split.
  - split; [|rewrite Hids; apply NoDup_singleton]. unfold fresh. rewrite stored_node. split.
    + by rewrite lookup_app_r, Nat.sub_diag by lia.
    + apply Forall_replicate. by destruct (Nat.eqb level 0).
  - rewrite length_app. lia.
  - intros n. rewrite Hids. intros ->%list_elem_of_singleton. right. lia.
  - intros n Hn _. by rewrite lookup_app_l.
Qed.

Lemma entry_replicate level :
  entry <$> replicate P_L2_SIZE (if Nat.eqb level 0 then TLeaf PHYS_SECTION_UNASSIGNED else TNil) =
  replicate P_L2_SIZE {| skip := if Nat.eqb level 0 then 0 else 1;
                         ptr := if Nat.eqb level 0 then PHYS_SECTION_UNASSIGNED else PHYS_MAP_NODE_NIL |}.
Proof. rewrite fmap_replicate. by destruct (Nat.eqb level 0). Qed.

(** The node of the entry, if it has none, is allocated. *)
Lemma level_alloc level t nodes :
  shaped (S level) t -> owns nodes t -> zlen nodes + 1 <= limit ->
  (forall s, t <> TLeaf s) ->
  exists nodes1 n ts,
    (if negb (skip (entry t) =? 0) && (ptr (entry t) =? PHYS_MAP_NODE_NIL) then
       let? (nodes, p) := phys_map_node_alloc nodes alloc (Nat.eqb level 0) else None in
       Some (nodes, {| skip := skip (entry t); ptr := p |})
     else Some (nodes, entry t)) = Some (nodes1, entry (TNode 1 n ts)) /\
    evolves nodes t nodes1 (TNode 1 n ts) /\ shaped (S level) (TNode 1 n ts) /\
    zlen nodes1 <= zlen nodes + 1 /\
    forall p, get (S level) (TNode 1 n ts) p = get (S level) t p.
Proof.
  intros Hsh Ho Halloc Hnl. destruct t as [s| |k n ts]; [by destruct (Hnl s)| |].
  - assert (Hf := evolves_fresh level nodes).
    eexists _, _, _. split_and!; [|exact Hf|apply shaped_fresh| |].
    + cbn [entry skip ptr]. rewrite Z.eqb_refl. unfold phys_map_node_alloc. change (1 =? 0) with false.
      rewrite !(proj2 (Z.eqb_neq (zlen nodes) _)) by lia. cbn [orb negb andb].
      by rewrite entry_replicate.
    + rewrite zlen_app. done.
    + intros p. fold (fresh level (length nodes)). by rewrite get_fresh, get_nil.
  - assert (Hn : (n < length nodes)%nat) by (apply (stored_ids nodes (TNode k n ts)); [apply Ho|by left]).
    destruct Hsh as (-> & Hsh). exists nodes, n, ts. cbn [entry skip ptr]. unfold zlen in *.
    rewrite (proj2 (Z.eqb_neq (Z.of_nat n) _)) by lia. rewrite andb_false_r.
    split_and!; [done|by apply evolves_refl|by split|lia|done].
Qed.

Lemma cost_level level start index nb end_ :
  1 + cost level start index nb end_ <= Z.max 1 (cost (S level) start index nb end_).
Proof. unfold cost. destruct start, (index + nb <? end_); lia. Qed.

(** The entries of a node, from the one of the first page on. *)
Lemma level_entries level f n ts nodes index nb base :
  sets level f -> shaped (S level) (TNode 1 n ts) -> owns nodes (TNode 1 n ts) ->
  (pages (S level) | base) -> 0 <= base <= index -> index < base + pages (S level) ->
  0 < nb -> index + nb <= 2 ^ 62 ->
  let c := cost level (index =? base) index nb (base + pages (S level)) in
  zlen nodes + c <= limit -> unset (S level) (TNode 1 n ts) base index nb ->
  let i := digit (Z.of_nat level) index in
  let index' := Z.min (index + nb) (base + pages (S level)) in
  exists nodes' ts',
    set_entries f (pages level) leaf (Z.of_nat n) (P_L2_SIZE - i) nodes i index nb =
      Some (nodes', index', index + nb - index') /\
    evolves nodes (TNode 1 n ts) nodes' (TNode 1 n ts') /\ shaped (S level) (TNode 1 n ts') /\
    zlen nodes' <= zlen nodes + c /\
    set_get (S level) (TNode 1 n ts) (TNode 1 n ts') base index nb.
Proof.
  intros Hf Hsh Ho Hd Hb Hi Hnb Hmax c Halloc Hun i index'. assert (HL := L2_size).
  destruct (digit_spec level base index Hd) as (j & Hj & Hblk & Hdig); [lia|]. fold i in Hdig.
  assert (Hc : rest_cost level i base index nb <= c).
  { unfold rest_cost. rewrite (proj2 (Z.eqb_neq nb 0)) by lia. unfold c, cost.
    rewrite Hdig, Z2Nat.id by lia. assert (HP := pages_pos level).
    destruct (index =? base) eqn:E1, (index =? base + j * _) eqn:E2; [lia| |lia|lia].
    exfalso. assert (Hj0 : j = 0) by nia. rewrite Hj0 in E2. lia. }
  destruct (set_entries_correct level f n base Hf Hd ltac:(lia) (P_L2_SIZE - i) i ts nodes index nb)
    as (nodes' & ts' & H1 & H2 & H3 & H4 & H5); [lia|done|done|lia|lia|lia| |lia|done|].
  - right. rewrite Hdig, Z2Nat.id by lia. lia.
  - exists nodes', ts'. split_and!; [done..|lia|done].
Qed.

Lemma level_step level :
  sets level match level with
           | O => fun _ _ _ _ => None
           | S level => phys_page_set_level level alloc leaf
           end ->
  sets (S level) (phys_page_set_level level alloc leaf).
Proof.
  intros Hf t nodes index nb base _ Hsh Ho Hd Hb Hi Hnb Hmax Halloc Hun.
  assert (Hunf := phys_page_set_level_eq level alloc leaf nodes (entry t) index nb).
  assert (Hnl : forall s, t <> TLeaf s).
  { intros s ->. apply (proj2 (proj1 (shaped_leaf _ _) Hsh)); [done|].
    rewrite <- (get_leaf (S level) s index). apply Hun; lia. }
  assert (Hcost := cost_level level (index =? base) index nb (base + pages (S level))).
  destruct (level_alloc level t nodes Hsh Ho ltac:(lia) Hnl) as (nodes1 & n & ts & Ha & Hev & Hsh1 & Hc1 & Hg).
  destruct (level_entries level _ n ts nodes1 index nb base Hf) as (nodes' & ts' & H1 & H2 & H3 & H4 & H5);
    [done|apply Hev|done..|lia| |].
  - intros p Hp1 Hp2. rewrite Hg. by apply Hun.
  - exists nodes', (TNode 1 n ts'). split_and!; [|by eapply evolves_trans|done| |].
    + rewrite Hunf, Ha, pages_step. cbn [ptr entry]. fold (digit (Z.of_nat level) index). by rewrite H1.
    + lia.
    + intros p Hp. rewrite (H5 p Hp). by rewrite Hg.
Qed.

(** Setting pages, at any level. *)
Lemma set_level_correct level : sets (S level) (phys_page_set_level level alloc leaf).
Proof. induction level as [|level IH]; apply level_step; [by intros ??????|done]. Qed.
End Set_level.

(** ** Walking a tree *)

(** A tree below which [i] levels are left; entries may skip some of them. *)
Inductive loose : Z -> ptree -> Prop :=
  | loose_leaf i s : 0 <= i -> loose i (TLeaf s)
  | loose_nil i : 1 <= i -> loose i TNil
  | loose_node i k n ts :
      1 <= k <= i -> length ts = P_L2_SIZE -> (forall c, c ∈ ts -> loose (i - k) c) ->
      loose i (TNode k n ts).

Lemma digit_lt i index : (digit i index < P_L2_SIZE)%nat.
Proof.
  unfold digit. assert (HL := L2_size). rewrite L2_size. change (512 - 1) with (Z.ones 9).
  rewrite Z.land_ones by lia. assert (H := Z.mod_pos_bound (Z.shiftr index (i * P_L2_BITS)) (2 ^ 9)). lia.
Qed.

Lemma shaped_loose h t : shaped h t -> loose (Z.of_nat h) t.
Proof.
  revert t. induction h as [|h IH]; intros [s| |k n ts] H; [by constructor| |by destruct H|constructor; lia|constructor; lia|].
  - by destruct H.
  - destruct H as (-> & Hlen & Hts). constructor; [lia|done|]. intros c Hc.
    rewrite Forall_forall in Hts. replace (Z.of_nat (S h) - 1) with (Z.of_nat h) by lia. by apply IH, Hts.
Qed.

Lemma entry_ptr nodes t :
  owns nodes t -> zlen nodes <= PHYS_MAP_NODE_NIL ->
  match t with TNode _ n _ => (Z.of_nat n =? PHYS_MAP_NODE_NIL) = false | _ => True end.
Proof.
  intros [Ho _] Hlen. destruct t as [| |k n ts]; [done..|].
  assert (Hn : (n < length nodes)%nat) by (apply (stored_ids _ _ _ Ho); by left).
  unfold zlen in Hlen. lia.
Qed.

Lemma walk_correct nodes fuel t i index :
  loose i t -> owns nodes t -> zlen nodes <= PHYS_MAP_NODE_NIL -> i <= Z.of_nat fuel ->
  phys_page_walk (S fuel) nodes (entry t) i index = Some (tget fuel t i index).
Proof.
  intros Hl. revert fuel. induction Hl as [i s Hi|i Hi|i k n ts Hk Hlen Hts IH]; intros fuel Ho Hnodes Hf.
  - by destruct fuel.
  - cbn [phys_page_walk entry skip ptr]. change (1 =? 0) with false.
    rewrite (proj2 (Z.ltb_ge (i - 1) 0)) by lia. rewrite Z.eqb_refl. by destruct fuel.
  - assert (Hn := entry_ptr _ _ Ho Hnodes). simpl in Hn. destruct fuel as [|fuel]; [lia|].
    destruct (lookup_lt_is_Some_2 ts (digit (i - k) index)) as [c Hc]; [rewrite Hlen; apply digit_lt|].
    destruct (owns_child _ _ _ _ _ _ Ho Hc) as (Hoc & Hnd & _).
    cbn [tget]. rewrite Hc. rewrite <- (IH c) by (done || lia || by eapply list_elem_of_lookup_2).
    remember (S fuel) as fuel' eqn:E. cbn [phys_page_walk entry skip ptr].
    rewrite (proj2 (Z.eqb_neq k 0)), (proj2 (Z.ltb_ge (i - k) 0)) by lia. rewrite Hn, Nat2Z.id, Hnd.
    fold (digit (i - k) index). by rewrite list_lookup_fmap, Hc.
Qed.

(** ** Compressing a tree *)

(** Where the tree had a section for a page, it still has it; for the others it may
    have that of another page. *)
Definition compacts (h : nat) (t t' : ptree) : Prop :=
  loose (Z.of_nat h) t' /\ (t <> TNil -> t' <> TNil) /\
  forall index fuel, (h <= fuel)%nat ->
    (tget fuel t' (Z.of_nat h) index = get h t index \/ get h t index = PHYS_SECTION_UNASSIGNED) /\
    forall base, (pages h | base) ->
      exists p, base <= p < base + pages h /\ tget fuel t' (Z.of_nat h) index = get h t p.

Lemma compacts_refl h t : (forall k n ts, t <> TNode k n ts) -> shaped h t -> compacts h t t.
Proof.
  intros Hn Hsh. split_and!; [by apply shaped_loose|done|]. intros index fuel Hf.
  assert (HP := pages_pos h).
  assert (Hc : forall p, tget fuel t (Z.of_nat h) index = get h t p).
  { intros p. destruct t as [s| |k n ts]; [by destruct fuel, h..|by destruct (Hn k n ts)]. }
  split; [by left|]. intros base _. exists base. split; [lia|done].
Qed.

(** All the children are compressed. *)
Definition progress (h : nat) (ts0 ts : list ptree) (i : nat) : Prop :=
  length ts = P_L2_SIZE /\
  forall j c0, ts0 !! j = Some c0 ->
    exists c, ts !! j = Some c /\ if decide (j < i)%nat then compacts h c0 c else c = c0.

Lemma progress_all h ts0 ts j c0 :
  progress h ts0 ts P_L2_SIZE -> length ts0 = P_L2_SIZE -> ts0 !! j = Some c0 ->
  exists c, ts !! j = Some c /\ compacts h c0 c.
Proof.
  intros [_ H] Hlen Hj. destruct (H j c0 Hj) as (c & Hc & Hd). exists c.
  rewrite decide_True in Hd; [done|]. rewrite <- Hlen. by eapply lookup_lt_Some.
Qed.

(** A page of a child is a page of the node. *)
Lemma get_in_child h n ts base j c p :
  (pages (S h) | base) -> length ts = P_L2_SIZE -> ts !! j = Some c ->
  base + Z.of_nat j * pages h <= p < base + Z.of_nat j * pages h + pages h ->
  base <= p < base + pages (S h) /\ get (S h) (TNode 1 n ts) p = get h c p.
Proof.
  intros Hd Hlen Hj Hp. assert (HP := pages_pos h). assert (HS := pages_S h). assert (HL := L2_size).
  assert (Hlt := lookup_lt_Some _ _ _ Hj). split; [nia|].
  rewrite get_node, (digit_block h base (Z.of_nat j)) by (done || lia). by rewrite Nat2Z.id, Hj.
Qed.

Lemma child_base h base j : (pages (S h) | base) -> (pages h | base + j * pages h).
Proof.
  intros Hd. apply Z.divide_add_r; [|by exists j].
  eapply Z.divide_trans; [|exact Hd]. rewrite pages_S. by exists 512.
Qed.

Lemma compacts_node h n ts0 ts :
  length ts0 = P_L2_SIZE -> progress h ts0 ts P_L2_SIZE ->
  compacts (S h) (TNode 1 n ts0) (TNode 1 n ts).
Proof.
  intros Hlen Hpr. assert (Hall := fun j c0 => progress_all h ts0 ts j c0 Hpr Hlen). destruct Hpr as [Hlen' _].
  assert (Hh : Z.of_nat (S h) - 1 = Z.of_nat h) by lia.
  split_and!; [|done|].
  - constructor; [lia|done|]. intros c Hc. rewrite Hh.
    apply list_elem_of_lookup in Hc as [j Hj].
    destruct (lookup_lt_is_Some_2 ts0 j) as [c0 Hc0]; [rewrite Hlen, <- Hlen'; by eapply lookup_lt_Some|].
    destruct (Hall j c0 Hc0) as (c' & Hc' & Hcc). rewrite Hj in Hc'. injection Hc' as <-. apply Hcc.
  - intros index [|fuel] Hf; [lia|]. cbn [tget]. rewrite get_node, Hh.
    destruct (lookup_lt_is_Some_2 ts0 (digit (Z.of_nat h) index)) as [c0 Hc0]; [rewrite Hlen; apply digit_lt|].
    destruct (Hall _ _ Hc0) as (c & -> & _ & _ & Hc). rewrite Hc0.
    destruct (Hc index fuel) as [H1 H2]; [lia|]. split; [done|]. intros base Hd.
    destruct (H2 _ (child_base h base (Z.of_nat (digit (Z.of_nat h) index)) Hd)) as (p & Hp & ->).
    exists p. destruct (get_in_child h n ts0 base _ c0 p Hd Hlen Hc0 Hp) as [? ->]. done.
Qed.

(** The entry that skips a node whose only child is [c]. *)
Definition lift (c : ptree) : ptree :=
  match c with TNode k n ts => TNode (1 + k) n ts | _ => c end.

Lemma tget_lift fuel c h index :
  tget fuel (lift c) (1 + h) index = tget fuel c h index.
Proof.
  destruct c as [s| |k n ts]; [by destruct fuel..|]. destruct fuel as [|fuel]; [done|].
  cbn [tget lift]. by replace (1 + h - (1 + k)) with (h - k) by lia.
Qed.

Lemma loose_lift h c : loose h c -> loose (1 + h) (lift c).
Proof.
  intros H. destruct H as [i s Hi|i Hi|i k n ts Hk Hlen Hts]; [constructor; lia..|].
  constructor; [lia|done|]. intros c Hc. replace (1 + i - (1 + k)) with (i - k) by lia. by apply Hts.
Qed.

Lemma compacts_single h n ts0 ts j c :
  length ts0 = P_L2_SIZE -> progress h ts0 ts P_L2_SIZE -> ts !! j = Some c -> c <> TNil ->
  (forall j', (j' < P_L2_SIZE)%nat -> j' <> j -> ts0 !! j' = Some TNil) ->
  compacts (S h) (TNode 1 n ts0) (lift c).
Proof.
  intros Hlen Hpr Hj Hnil Hother.
  destruct (lookup_lt_is_Some_2 ts0 j) as [c0 Hc0].
  { destruct Hpr as [Hlen' _]. rewrite Hlen, <- Hlen'. by eapply lookup_lt_Some. }
  destruct (progress_all h ts0 ts j c0 Hpr Hlen Hc0) as (c' & Hc' & Hcc).
  rewrite Hj in Hc'. injection Hc' as <-. destruct Hcc as (Hl & _ & Hcc).
  replace (Z.of_nat (S h)) with (1 + Z.of_nat h) by lia. split_and!.
  - replace (Z.of_nat (S h)) with (1 + Z.of_nat h) by lia. by apply loose_lift.
  - by destruct c.
  - intros index fuel Hf. replace (Z.of_nat (S h)) with (1 + Z.of_nat h) by lia. rewrite tget_lift.
    destruct (Hcc index fuel ltac:(lia)) as [H1 H2]. split.
    + rewrite get_node. destruct (decide (digit (Z.of_nat h) index = j)) as [->|Hne].
      * by rewrite Hc0.
      * rewrite Hother by (done || apply digit_lt). right. apply get_nil.
    + intros base Hd. destruct (H2 _ (child_base h base (Z.of_nat j) Hd)) as (p & Hp & ->).
      exists p. destruct (get_in_child h n ts0 base j c0 p Hd Hlen Hc0 Hp) as [? ->]. done.
Qed.

(** [valid] of the first [i] children are there, [valid_ptr] is the last of them. *)
Definition counted (ts : list ptree) (i valid valid_ptr : nat) : Prop :=
  valid = O /\ (forall j, (j < i)%nat -> ts !! j = Some TNil) \/
  valid = 1%nat /\ (valid_ptr < i)%nat /\ ts !! valid_ptr <> Some TNil /\
    (forall j, (j < i)%nat -> j <> valid_ptr -> ts !! j = Some TNil) \/
  (2 <= valid)%nat.

Lemma counted_nil ts i valid vp :
  counted ts i valid vp -> ts !! i = Some TNil -> counted ts (S i) valid vp.
Proof.
  intros H Hi. assert (Hlt : forall j, (j < S i)%nat -> (j < i)%nat \/ j = i) by lia.
  destruct H as [[-> H]|[(-> & Hv & Hn & H)|H]].
  - left. split; [done|]. intros j Hj. destruct (Hlt j Hj) as [|Hji]; [auto|by subst j].
  - right. left. split_and!; [done|lia|done|]. intros j Hj ?. destruct (Hlt j Hj) as [|Hji]; [auto|by subst j].
  - by right; right.
Qed.

Lemma counted_valid ts i valid vp c :
  counted ts i valid vp -> ts !! i = Some c -> c <> TNil -> counted ts (S i) (S valid) i.
Proof.
  intros H Hi Hc. destruct H as [[-> H]|[(-> & Hv & Hn & H)|H]].
  - right. left. split_and!; [done|lia| |].
    + rewrite Hi. by intros [= ->].
    + intros j Hj Hne. apply H. lia.
  - right. right. lia.
  - right. right. lia.
Qed.

(** [g] compresses the entries of [h] levels that have a node. *)
Definition compressor (h : nat) (g : list Node -> PhysPageEntry -> option (list Node * PhysPageEntry)) : Prop :=
  forall t nodes, shaped h t -> owns nodes t -> zlen nodes <= PHYS_MAP_NODE_NIL ->
  (forall s, t <> TLeaf s) ->
  exists nodes' t', g nodes (entry t) = Some (nodes', entry t') /\ evolves nodes t nodes' t' /\
    zlen nodes' = zlen nodes /\ compacts h t t'.

Lemma progress_step h ts0 ts i c0 c :
  progress h ts0 ts i -> ts0 !! i = Some c0 -> compacts h c0 c -> (i < P_L2_SIZE)%nat ->
  progress h ts0 (<[i := c]> ts) (S i).
Proof.
  intros [Hlen H] Hi Hc Hlt. split; [by rewrite length_insert|]. intros j c' Hj.
  destruct (decide (j = i)) as [->|Hne].
  - rewrite Hi in Hj. injection Hj as <-. exists c. rewrite list_lookup_insert_eq by lia.
    by rewrite decide_True by lia.
  - rewrite list_lookup_insert_ne by done. destruct (H j c' Hj) as (c'' & Hc'' & Hd). exists c''.
    split; [done|]. destruct (decide (j < i)%nat); [rewrite decide_True by lia|rewrite decide_False by lia]; done.
Qed.

Lemma compact_entries_correct h g n ts0 :
  compressor h g -> shaped (S h) (TNode 1 n ts0) ->
  forall m i ts nodes valid vp,
  (m + i)%nat = P_L2_SIZE -> owns nodes (TNode 1 n ts) -> zlen nodes <= PHYS_MAP_NODE_NIL ->
  progress h ts0 ts i -> counted ts0 i valid vp ->
  exists nodes' ts' valid' vp',
    compact_entries g (Z.of_nat n) m nodes i valid vp = Some (nodes', valid', vp') /\
    evolves nodes (TNode 1 n ts) nodes' (TNode 1 n ts') /\ zlen nodes' = zlen nodes /\
    progress h ts0 ts' P_L2_SIZE /\ counted ts0 P_L2_SIZE valid' vp'.
Proof.
  intros Hg (_ & Hlen0 & Hsh). induction m as [|m IH]; intros i ts nodes valid vp Hm Ho Hnodes Hpr Hct.
  { simpl in Hm. subst i. exists nodes, ts, valid, vp. split_and!; [done|by apply evolves_refl|done..]. }
  destruct (lookup_lt_is_Some_2 ts0 i) as [c Hc0]; [rewrite Hlen0; lia|].
  assert (Hc : ts !! i = Some c).
  { destruct Hpr as [_ Hpr]. destruct (Hpr i c Hc0) as (c' & Hc' & E).
    rewrite decide_False in E by lia. by subst. }
  destruct (owns_child _ _ _ _ _ _ Ho Hc) as (Hoc & Hnd & _).
  rewrite Forall_lookup in Hsh. assert (Hshc := Hsh i c Hc0).
  cbn [compact_entries]. rewrite Nat2Z.id, Hnd, list_lookup_fmap, Hc. cbn [fmap option_fmap option_map].
  assert (Hins : <[i := c]> ts = ts) by by apply list_insert_id.
  destruct c as [s| |k nc tsc]; cbn [entry ptr skip].
  - apply shaped_leaf in Hshc as Hs. rewrite (proj2 (Z.eqb_neq s _)) by (unfold PHYS_MAP_NODE_NIL; lia).
    cbn [negb Z.eqb]. apply IH; [lia|done|done| |].
    + rewrite <- Hins. eapply progress_step; [done|done|by apply compacts_refl|lia].
    + by eapply counted_valid.
  - rewrite Z.eqb_refl. apply IH; [lia|done|done| |by apply counted_nil].
    rewrite <- Hins. eapply progress_step; [done|done|by apply compacts_refl|lia].
  - rewrite (entry_ptr _ _ Hoc Hnodes). destruct h as [|h]; [by destruct Hshc|].
    assert (Hk : k = 1) by apply Hshc. subst k.
    destruct (Hg (TNode 1 nc tsc) nodes) as (nodes1 & t1 & Hg1 & Hev & Hz & Hcp); [done..|].
    cbn [entry] in Hg1. change (1 =? 0) with false. cbn [negb]. rewrite Hg1.
    assert (Hev1 := evolves_child _ _ _ _ _ _ _ _ Ho Hc Hev).
    destruct (IH (S i) (<[i := t1]> ts) (set_entry nodes1 (Z.of_nat n) i (entry t1)) (S valid) i)
      as (nodes' & ts' & v' & vp' & H1 & H2 & H3 & H4 & H5); [lia|apply Hev1| | | |].
    + unfold zlen in *. rewrite length_set_entry. lia.
    + eapply progress_step; [done|done|done|lia].
    + by eapply counted_valid.
    + exists nodes', ts', v', vp'. split_and!; [done|by eapply evolves_trans| |done|done].
      rewrite H3. unfold zlen in *. rewrite length_set_entry. lia.
Qed.

(** A child takes the place of its parent. *)
Lemma evolves_lift nodes k n ts j c :
  owns nodes (TNode k n ts) -> ts !! j = Some c -> evolves nodes (TNode k n ts) nodes (lift c).
Proof.
  intros Ho Hj. destruct (owns_child _ _ _ _ _ _ Ho Hj) as (Hc & _).
  assert (Hids : ids (lift c) = ids c) by by destruct c.
  split; [|done| |done].
  - destruct Hc as [Hs Hn]. split; [by destruct c|by rewrite Hids].
  - rewrite Hids. intros m Hm. left. simpl. rewrite (flat_map_ids_split _ _ _ Hj). set_solver.
Qed.

Lemma compact_correct h fuel :
  (h <= fuel)%nat -> (h < 64)%nat -> h <> O -> compressor h (phys_page_compact fuel).
Proof.
  revert fuel. induction h as [|h IH]; [done|]. intros [|fuel] Hf Hh _ t nodes Hsh Ho Hnodes Hnl; [lia|].
  destruct t as [s| |k n ts]; [by destruct (Hnl s)| |].
  { exists nodes, TNil. cbn [phys_page_compact entry ptr]. rewrite Z.eqb_refl.
    split_and!; [done|by apply evolves_refl|done|by apply compacts_refl]. }
  assert (Hk : k = 1) by apply Hsh. subst k. assert (Hlen : length ts = P_L2_SIZE) by apply Hsh.
  assert (Hn := entry_ptr _ _ Ho Hnodes). simpl in Hn.
  assert (Hg : compressor h (phys_page_compact fuel)).
  { destruct h as [|h]; [|apply IH; lia]. intros [s| |k m tc] nodes' Hs' ? ? Hnl'; [by destruct (Hnl' s)|by destruct Hs'..]. }
  destruct (compact_entries_correct h _ n ts Hg Hsh P_L2_SIZE 0 ts nodes 0 P_L2_SIZE)
    as (nodes' & ts' & valid & vp & Heq & Hev & Hz & Hpr & Hct); [lia|done|done| | |].
  { split; [done|]. intros j c Hj. exists c. by rewrite decide_False by lia. }
  { left. split; [done|lia]. }
  cbn [phys_page_compact entry ptr skip]. rewrite Hn, Heq.
  destruct (Nat.eqb valid 1) eqn:E; cbn [negb].
  2:{ exists nodes', (TNode 1 n ts'). split_and!; [done..|by apply compacts_node]. }
  destruct Hct as [[-> _]|[(-> & Hvp & Hnn & Hoth)|Hv]]; [done| |destruct valid as [|[]]; [done|lia|done]].
  destruct (lookup_lt_is_Some_2 ts vp) as [c0 Hc0]; [lia|].
  destruct (progress_all h ts ts' vp c0 Hpr Hlen Hc0) as (c & Hc & Hcp).
  assert (Hcn : c <> TNil) by (apply (proj1 (proj2 Hcp)); intros ->; by rewrite Hc0 in Hnn).
  assert (Hloose := proj1 Hcp).
  destruct (owns_child _ _ _ _ _ _ (ev_owns _ _ _ _ Hev) Hc) as (_ & Hnd & _).
  exists nodes', (lift c). split_and!; [|by eapply evolves_trans, evolves_lift, Hc; [apply Hev|apply Hev]|done|by eapply compacts_single].
  rewrite Nat2Z.id, Hnd, list_lookup_fmap, Hc. cbn [fmap option_fmap option_map].
  change (2 ^ 6 <=? Z.of_nat P_L2_LEVELS) with false. cbn [andb].
  destruct c as [s| |kc nc tc]; [done|done|]. cbn [entry skip ptr lift].
  inversion Hloose; subst. rewrite (proj2 (Z.eqb_neq kc 0)) by lia.
  rewrite (Z.mod_small (1 + kc)) by lia. done.
Qed.
