(* ===== verification/PhysMapSpec.v ===== *)
(** * The dispatch finds what the view shows

    [mapped] says which byte of the address space lands where: the section of its
    page, or of the table of its page if that is shared.  Adding the ranges of a
    view, in ascending order, maps exactly their bytes; compressing the tree and
    remembering the last section change no lookup. *)
From stdpp Require Import base list numbers.
From S2P Require Import Prelude Memory MemoryView PhysMap PhysTree.

Section Dispatch.
Context {R : Type}.
Implicit Types (d : AddressSpaceDispatch (R := R)) (s : Sect R).

Lemma page_levels : pages P_L2_LEVELS = 2 ^ 54.
Proof. done. Qed.

(** ** Setting pages of a dispatch *)

(** The tree of a dispatch. *)
Record has_tree d (t : ptree) : Prop := {
  ht_entry : phys_map d = entry t;
  ht_owns : owns (nodes d) t;
  ht_shaped : shaped P_L2_LEVELS t
}.

Definition page (t : ptree) (p : Z) : Z := get P_L2_LEVELS t p.

(** A dispatch that differs in its tree only. *)
Definition with_tree d d' : Prop :=
  sections d' = sections d /\ subpages d' = subpages d /\ mru_section d' = mru_section d.

Lemma phys_page_set_correct d t index nb leaf :
  has_tree d t -> zlen (nodes d) + 12 <= PHYS_MAP_NODE_NIL -> 0 < leaf < 2 ^ 16 ->
  0 <= index -> 0 < nb -> index + nb <= 2 ^ 54 ->
  (forall p, index <= p < index + nb -> page t p = PHYS_SECTION_UNASSIGNED) ->
  exists d' t', phys_page_set d index nb leaf = Some d' /\ has_tree d' t' /\ with_tree d d' /\
    zlen (nodes d') <= zlen (nodes d) + 12 /\
    forall p, 0 <= p < 2 ^ 54 ->
      page t' p = if (index <=? p) && (p <? index + nb) then leaf else page t p.
Proof.
  intros [He Ho Hsh] Hnodes Hleaf Hi Hnb Hend Hun. unfold phys_page_set.
  set (d1 := phys_map_node_reserve d _).
  assert (Hd1 : nodes d1 = nodes d /\ phys_map d1 = phys_map d /\ with_tree d d1 /\
                zlen (nodes d) + 12 <= nodes_nb_alloc d1).
  { unfold d1, phys_map_node_reserve. change (Z.of_nat P_L2_LEVELS) with 6.
    destruct (_ <? _) eqn:E; simpl; (split_and!; [done|done|done|lia]). }
  destruct Hd1 as (-> & -> & (Hs & Hsp & Hm) & Halloc). rewrite He.
  assert (Hcost : Z.max 1 (cost 6 (index =? 0) index nb (0 + pages 6)) <= 12)
    by (unfold cost; destruct (index =? 0), (index + nb <? 0 + pages 6); lia).
  destruct (set_level_correct (nodes_nb_alloc d1) (zlen (nodes d) + 12) leaf Hleaf
              ltac:(lia) 5 t (nodes d) index nb 0)
    as (nodes' & t' & Heq & Hev & Hsh' & Hz & Hget);
    [done|done|done|by exists 0|lia|change (pages 6) with (2 ^ 54); lia|done|lia|lia| |].
  { intros p Hp _. by apply Hun. }
  change (P_L2_LEVELS - 1)%nat with 5%nat. rewrite Heq.
  eexists _, t'. split_and!; [done|split; [done|apply Hev|done]|done|simpl; lia|].
  intros p Hp. apply Hget. change (pages 6) with (2 ^ 54). lia.
Qed.

(** ** Where bytes land *)
Implicit Types (secs : list (Sect R)) (subs : list subpage_t) (pg : Z -> Z) (m : Z -> option (hit (R := R))).

(** The number of the section of a byte. *)
Definition byte_section secs subs pg (a : Z) : option Z :=
  let n := pg (a / 1024) in
  let? sec := secs !! Z.to_nat n else None in
  match mrs_mr sec with
  | subpage_iomem k =>
      let? sp := subs !! k else None in sub_section sp !! Z.to_nat (a mod 1024)
  | _ => Some n
  end.

(** The section [n], which is [s], is that of [h] for the address [a]. *)
Definition lands (n : Z) s (a : Z) (o : option (hit (R := R))) : Prop :=
  match o with
  | None => n = PHYS_SECTION_UNASSIGNED
  | Some h =>
      mrs_mr s = region (h_mr h) /\
      u64 (u64 (a - mrs_offset_within_address_space s) + mrs_offset_within_region s) = h_offset h /\
      mrs_readonly s = h_readonly h /\ mrs_nonvolatile s = h_nonvolatile h /\
      mrs_unmergeable s = h_unmergeable h /\
      0 <= mrs_offset_within_address_space s <= a /\
      a < mrs_offset_within_address_space s + mrs_size s
  end.

(** A section that a page has is that of exactly the pages it covers, and a table
    is that of one page. *)
Definition page_ok secs subs pg (p : Z) : Prop :=
  exists s, 0 < pg p /\ secs !! Z.to_nat (pg p) = Some s /\
    (forall a, 0 <= a < 2 ^ 64 -> section_covers_addr s a = true <-> pg (a / 1024) = pg p) /\
    match mrs_mr s with
    | io_mem_unassigned => False
    | subpage_iomem k =>
        exists sp, subs !! k = Some sp /\ sp_base sp = p * 1024 /\ zlen (sub_section sp) = 1024
    | region _ => True
    end.

Definition dummy : Sect R :=
  {| mrs_mr := io_mem_unassigned; mrs_offset_within_region := 0; mrs_size := 2 ^ 64;
     mrs_offset_within_address_space := 0; mrs_readonly := false; mrs_nonvolatile := false;
     mrs_unmergeable := false |}.

Record mapped secs subs pg m : Prop := {
  m_dummy : secs !! O = Some dummy;
  m_pages : forall p, 0 <= p < 2 ^ 54 -> pg p = PHYS_SECTION_UNASSIGNED \/ page_ok secs subs pg p;
  m_bytes : forall a, 0 <= a < 2 ^ 64 ->
    exists n s, byte_section secs subs pg a = Some n /\ secs !! Z.to_nat n = Some s /\ lands n s a (m a)
}.

Lemma page_range a : 0 <= a < 2 ^ 64 -> 0 <= a / 1024 < 2 ^ 54.
Proof. intros H. split; [apply Z.div_pos; lia|apply Z.div_lt_upper_bound; lia]. Qed.

Lemma page_bytes a start nb :
  start <= a / 1024 < start + nb <-> start * 1024 <= a < start * 1024 + nb * 1024.
Proof.
  assert (H := Z.div_mod a 1024). assert (H' := Z.mod_pos_bound a 1024). lia.
Qed.

Lemma page_section secs subs pg m p :
  mapped secs subs pg m -> 0 <= p < 2 ^ 54 ->
  exists s, secs !! Z.to_nat (pg p) = Some s /\ 0 <= pg p < zlen secs.
Proof.
  intros [H1 H2 _] Hp. unfold zlen. destruct (H2 p Hp) as [->|(s & H0 & Hs & _)].
  - exists dummy. split; [done|]. apply lookup_lt_Some in H1. unfold PHYS_SECTION_UNASSIGNED. lia.
  - exists s. split; [done|]. apply lookup_lt_Some in Hs. lia.
Qed.

(** The walk and the test of [phys_page_find]: if the walk can go wrong for pages
    without a section only, the result is the section of the page. *)
Lemma page_find_correct d pg m (w : Z -> Z) a :
  mapped (sections d) (subpages d) pg m -> 0 <= a < 2 ^ 64 ->
  phys_page_walk (S P_L2_LEVELS) (nodes d) (phys_map d) (Z.of_nat P_L2_LEVELS) (a / 1024) =
    Some (w (a / 1024)) ->
  w (a / 1024) = pg (a / 1024) \/ pg (a / 1024) = PHYS_SECTION_UNASSIGNED ->
  (exists p, 0 <= p < 2 ^ 54 /\ w (a / 1024) = pg p) ->
  phys_page_find d a = Some (pg (a / 1024)).
Proof.
  intros Hm Ha Hw Hor (p & Hp & Hwp). unfold phys_page_find, TARGET_PAGE_BITS.
  rewrite Z.shiftr_div_pow2 by lia. change (2 ^ 10) with 1024. rewrite Hw, Hwp.
  rewrite Hwp in Hor. destruct (m_pages _ _ _ _ Hm p Hp) as [Hz|(s & H0 & Hs & Hex & _)].
  - rewrite Hz in *. change (Z.to_nat PHYS_SECTION_UNASSIGNED) with O. rewrite (m_dummy _ _ _ _ Hm).
    f_equal. destruct (section_covers_addr dummy a); destruct Hor; congruence.
  - rewrite Hs. f_equal. destruct (section_covers_addr s a) eqn:E.
    + symmetry. by apply Hex.
    + destruct Hor as [Hor|]; [|done]. symmetry in Hor. apply Hex in Hor; [congruence|done].
Qed.

(** ** Adding sections *)

(** What is mapped after a range. *)
Definition upd m (start size : Z) (f : Z -> hit) (a : Z) : option hit :=
  if (start <=? a) && (a <? start + size) then Some (f a) else m a.

(** The section is a part of the range. *)
Definition piece (fr : FlatRange R) s : Prop :=
  mrs_mr s = region (fr_mr fr) /\ mrs_readonly s = fr_readonly fr /\
  mrs_nonvolatile s = fr_nonvolatile fr /\ mrs_unmergeable s = fr_unmergeable fr /\
  forall a, u64 (u64 (a - mrs_offset_within_address_space s) + mrs_offset_within_region s) =
            h_offset (hit_of fr a).

(** All the bytes of a section land in its region, one behind the other. *)
Definition extent secs m : Prop := forall n s r,
  secs !! n = Some s -> mrs_mr s = region r ->
  0 <= mrs_offset_within_address_space s /\
  mrs_offset_within_address_space s + mrs_size s <= 2 ^ 64 /\
  forall a, mrs_offset_within_address_space s <= a <
            mrs_offset_within_address_space s + mrs_size s ->
    exists h, m a = Some h /\ h_mr h = r /\
      h_offset h = u64 (u64 (a - mrs_offset_within_address_space s) + mrs_offset_within_region s).

(** The state in which the bytes from [lo] on are not mapped yet. *)
Record good d (t : ptree) m (lo : Z) : Prop := {
  g_tree : has_tree d t;
  g_nodes : zlen (nodes d) <= 12 * zlen (sections d);
  g_mapped : mapped (sections d) (subpages d) (page t) m;
  g_extent : extent (sections d) m;
  g_free : forall p, lo <= p * 1024 -> 0 <= p < 2 ^ 54 -> page t p = PHYS_SECTION_UNASSIGNED;
  g_whole : forall p s r, 0 <= p < 2 ^ 54 -> sections d !! Z.to_nat (page t p) = Some s ->
    mrs_mr s = region r -> (p + 1) * 1024 <= lo;
  g_above : forall a, lo <= a -> m a = None
}.

Lemma covers_spec s a :
  0 <= mrs_offset_within_address_space s -> 0 < mrs_size s ->
  mrs_offset_within_address_space s + mrs_size s <= 2 ^ 64 -> 0 <= a < 2 ^ 64 ->
  section_covers_addr s a = true <->
  mrs_offset_within_address_space s <= a < mrs_offset_within_address_space s + mrs_size s.
Proof.
  intros H0 Hs Hend Ha. unfold section_covers_addr, range_covers_byte, range_get_last.
  rewrite Z.shiftr_div_pow2 by lia. destruct (decide (mrs_size s = 2 ^ 64)) as [E|E].
  - rewrite E, Z.div_same by lia. simpl. lia.
  - rewrite Z.div_small by lia. unfold u64. rewrite (Z.mod_small (mrs_size s)) by lia.
    rewrite Z.mod_small by lia. change (negb (0 =? 0)) with false. rewrite orb_false_l. lia.
Qed.

Lemma phys_section_add_ok d s :
  zlen (sections d) < 1024 ->
  phys_section_add d s =
    Some (zlen (sections d),
          mk_Dispatch (mru_section d) (phys_map d) (nodes d) (nodes_nb_alloc d) (alloc_hint d)
            (sections d ++ [s]) (subpages d)).
Proof.
  intros H. unfold phys_section_add, TARGET_PAGE_SIZE, TARGET_PAGE_BITS. change (2 ^ 10) with 1024.
  by rewrite (proj2 (Z.ltb_lt _ _) H).
Qed.

(** A section more does not matter to those that are used. *)
Lemma lookup_more {A} (l : list A) x n y : l !! n = Some y -> (l ++ [x]) !! n = Some y.
Proof. intros H. rewrite lookup_app_l; [done|]. by eapply lookup_lt_Some. Qed.
Lemma lookup_last {A} (l : list A) x : (l ++ [x]) !! Z.to_nat (zlen l) = Some x.
Proof. unfold zlen. rewrite Nat2Z.id. by rewrite lookup_app_r, Nat.sub_diag by lia. Qed.

Lemma byte_section_more secs subs pg s a n :
  byte_section secs subs pg a = Some n -> byte_section (secs ++ [s]) subs pg a = Some n.
Proof.
  unfold byte_section. destruct (secs !! Z.to_nat (pg (a / 1024))) as [s'|] eqn:E; [|done].
  by rewrite (lookup_more _ _ _ _ E).
Qed.

Lemma extent_more secs m s fr :
  extent secs m -> piece fr s ->
  let start := mrs_offset_within_address_space s in let size := mrs_size s in
  0 <= start -> start + size <= 2 ^ 64 ->
  (forall a, start <= a < start + size -> m a = None) ->
  extent (secs ++ [s]) (upd m start size (hit_of fr)).
Proof.
  intros Hx (Hmr & _ & _ & _ & Hoff) start size H0 Hend Hfree n s' r Hn Hr.
  apply lookup_snoc_Some in Hn as [[Hlt Hn]|[_ <-]].
  - destruct (Hx n s' r Hn Hr) as (Hs & He & Hx'). split_and!; [done..|]. intros a Ha.
    destruct (Hx' a Ha) as (h & Hh & ?). exists h. split; [|done]. unfold upd.
    rewrite (proj2 (andb_false_iff _ _)); [done|].
    destruct (decide (start <= a < start + size)) as [Hin|]; [|lia].
    rewrite Hfree in Hh by done. done.
  - rewrite Hmr in Hr. injection Hr as <-. split_and!; [done..|]. intros a Ha. exists (hit_of fr a).
    unfold upd. fold start size in Ha. rewrite (proj2 (andb_true_iff _ _)) by lia. by rewrite Hoff.
Qed.

Lemma extent_other secs m s :
  extent secs m -> (forall r, mrs_mr s <> region r) -> extent (secs ++ [s]) m.
Proof.
  intros Hx Hs n s' r Hn Hr. apply lookup_snoc_Some in Hn as [[_ Hn]|[_ <-]]; [by apply (Hx n)|by destruct (Hs r)].
Qed.

Lemma good_sections d t m lo : good d t m lo -> 0 < zlen (sections d).
Proof.
  intros H. assert (Hd := m_dummy _ _ _ _ (g_mapped _ _ _ _ H)). apply lookup_lt_Some in Hd.
  unfold zlen. lia.
Qed.

(** Pages of a new section: those that were free. *)
Lemma mapped_pages secs subs pg pg' m s fr start nb :
  mapped secs subs pg m -> piece fr s -> 0 <= start -> 0 < nb -> start + nb <= 2 ^ 54 ->
  mrs_offset_within_address_space s = start * 1024 -> mrs_size s = nb * 1024 ->
  (forall p, start <= p < start + nb -> pg p = PHYS_SECTION_UNASSIGNED) ->
  (forall p, 0 <= p < 2 ^ 54 -> pg' p = if (start <=? p) && (p <? start + nb) then zlen secs else pg p) ->
  mapped (secs ++ [s]) subs pg' (upd m (start * 1024) (nb * 1024) (hit_of fr)).
Proof.
  intros Hm (Hmr & Hro & Hnv & Hum & Hoff) H0 Hnb Hend Hst Hsz Hfree Hpg.
  assert (Hsec := fun p => page_section secs subs pg m p Hm).
  assert (Hpos : 0 < zlen secs).
  { destruct (Hsec 0) as (? & _ & ?); lia. }
  split; [by apply lookup_more, Hm| |].
  - intros p Hp. rewrite Hpg by done. unfold page_ok. rewrite Hpg by done.
    destruct (_ && _) eqn:E.
    + right. exists s. rewrite lookup_last. split_and!; [done|done| |by rewrite Hmr].
      intros a Ha. assert (Hr := page_range a Ha). rewrite covers_spec by lia.
      rewrite Hpg by done. destruct ((start <=? a / 1024) && _) eqn:E'.
      * split; [done|]. intros _. assert (Hb := page_bytes a start nb). lia.
      * destruct (Hsec _ Hr) as (? & _ & ?). split; [|lia]. intros Hc.
        assert (Hb := page_bytes a start nb). lia.
    + destruct (m_pages _ _ _ _ Hm p Hp) as [|(s' & Hp0 & Hs' & Hex & Hk)]; [by left|right].
      exists s'. split_and!; [done|by apply lookup_more| |done].
      intros a Ha. assert (Hr := page_range a Ha). rewrite Hex by done. rewrite Hpg by done.
      destruct ((start <=? a / 1024) && _) eqn:E'; [|done].
      rewrite Hfree by lia. destruct (Hsec p Hp) as (? & _ & ?). unfold PHYS_SECTION_UNASSIGNED. lia.
  - intros a Ha. assert (Hr := page_range a Ha). unfold byte_section, upd. rewrite Hpg by done.
    destruct ((start <=? a / 1024) && _) eqn:E.
    + exists (zlen secs), s. rewrite lookup_last, Hmr.
      assert (Hin : start * 1024 <= a < start * 1024 + nb * 1024) by (apply page_bytes; lia).
      rewrite (proj2 (andb_true_iff _ _)) by lia. split; [done|]. split; [done|]. unfold lands. simpl.
      rewrite Hst, Hsz. rewrite <- Hst, Hoff. split_and!; try done; lia.
    + destruct (m_bytes _ _ _ _ Hm a Ha) as (n & s' & Hb & Hs' & Hl). exists n, s'.
      split_and!; [|by apply lookup_more|].
      * by apply byte_section_more.
      * rewrite (proj2 (andb_false_iff _ _)); [done|].
        assert (Hb' := page_bytes a start nb). lia.
Qed.

Lemma register_multipage_correct d t m lo fr s start nb :
  good d t m lo -> piece fr s -> 0 <= start -> 0 < nb -> start + nb <= 2 ^ 54 ->
  mrs_offset_within_address_space s = start * 1024 -> mrs_size s = nb * 1024 ->
  lo <= start * 1024 -> zlen (sections d) < 1024 ->
  exists d' t', register_multipage d s = Some d' /\
    good d' t' (upd m (start * 1024) (nb * 1024) (hit_of fr)) (start * 1024 + nb * 1024) /\
    zlen (sections d') = zlen (sections d) + 1 /\ mru_section d' = mru_section d.
Proof.
  intros Hg Hpc H0 Hnb Hend Hst Hsz Hlo Hsecs. assert (Hpos := good_sections _ _ _ _ Hg).
  destruct Hg as [[He Ho Hsh] Hnodes Hm Hx Hfree Hwhole Habove].
  unfold register_multipage. rewrite phys_section_add_ok by done. set (d1 := mk_Dispatch _ _ _ _ _ _ _).
  unfold TARGET_PAGE_BITS. rewrite !Z.shiftr_div_pow2 by lia. change (2 ^ 10) with 1024.
  rewrite Hst, Hsz, !Z.div_mul by lia. unfold int128_get64, u64.
  rewrite Z.mod_small, Z.eqb_refl, (proj2 (Z.eqb_neq nb 0)) by lia.
  destruct (phys_page_set_correct d1 t start nb (zlen (sections d)))
    as (d' & t' & -> & Ht' & (Hs' & Hsp' & Hmru') & Hn' & Hpg);
    [done|simpl; unfold PHYS_MAP_NODE_NIL; lia|lia|lia|lia|lia|intros p Hp; apply Hfree; lia|].
  assert (Hmap := mapped_pages _ _ _ (page t') m s fr start nb Hm Hpc H0 Hnb Hend Hst Hsz).
  change (sections d1) with (sections d ++ [s]) in Hs'. change (subpages d1) with (subpages d) in Hsp'.
  rewrite <- Hs', <- Hsp' in Hmap.
  eexists d', t'. split_and!; [done| |by rewrite Hs'; simpl; rewrite zlen_app|done]. split; [done| | | | | |].
  - rewrite Hs'. simpl in Hn' |- *. rewrite zlen_app, zlen_cons, zlen_nil. lia.
  - apply Hmap; [intros p Hp; apply Hfree; lia|done].
  - rewrite Hs'. rewrite <- Hst, <- Hsz. apply extent_more; [done|done|lia|lia|].
    intros a Ha. apply Habove. lia.
  - intros p Hp Hp'. rewrite Hpg by done. rewrite (proj2 (andb_false_iff _ _)) by lia. apply Hfree; lia.
  - intros p s' r Hp. rewrite Hpg, Hs' by done. destruct (_ && _) eqn:E; [lia|]. intros Hl Hr.
    destruct (page_section _ _ _ _ p Hm Hp) as (s'' & Hl' & _). simpl in Hl.
    rewrite (lookup_more _ _ _ _ Hl') in Hl. injection Hl as ->. specialize (Hwhole p s' r Hp Hl' Hr). lia.
  - intros a Ha. unfold upd. rewrite (proj2 (andb_false_iff _ _)) by lia. apply Habove. lia.
Qed.

(** A page without a section gets a table. *)
Lemma byte_section_tables secs subs pg sp a n :
  byte_section secs subs pg a = Some n -> byte_section secs (subs ++ [sp]) pg a = Some n.
Proof.
  unfold byte_section. destruct (secs !! _) as [s|]; [|done]. destruct (mrs_mr s); [done| |done].
  destruct (subs !! k) as [sp'|] eqn:E; [|done]. by rewrite (lookup_more _ _ _ _ E).
Qed.

Lemma mapped_table secs subs pg pg' m s p :
  mapped secs subs pg m -> 0 <= p < 2 ^ 54 -> pg p = PHYS_SECTION_UNASSIGNED ->
  mrs_mr s = subpage_iomem (length subs) -> mrs_offset_within_address_space s = p * 1024 ->
  mrs_size s = 1024 ->
  (forall q, 0 <= q < 2 ^ 54 -> pg' q = if (p <=? q) && (q <? p + 1) then zlen secs else pg q) ->
  mapped (secs ++ [s])
    (subs ++ [{| sp_base := p * 1024; sub_section := replicate (Z.to_nat 1024) PHYS_SECTION_UNASSIGNED |}])
    pg' m.
Proof.
  intros Hm Hp Hp0 Hmr Hst Hsz Hpg. assert (Hsec := fun p => page_section secs subs pg m p Hm).
  assert (Hpos : 0 < zlen secs) by (destruct (Hsec 0) as (? & _ & ?); lia).
  split; [by apply lookup_more, Hm| |].
  - intros q Hq. rewrite Hpg by done. unfold page_ok. rewrite Hpg by done. destruct (_ && _) eqn:E.
    + right. assert (Hqp : q = p) by lia. subst q. exists s. split; [done|]. split; [apply lookup_last|]. split.
      * intros a Ha. assert (Hr := page_range a Ha). rewrite covers_spec by lia. rewrite Hpg by done.
        assert (Hb := page_bytes a p 1). destruct (Hsec _ Hr) as (? & _ & ?).
        destruct ((p <=? a / 1024) && _) eqn:E'; lia.
      * rewrite Hmr. eexists. split; [by rewrite lookup_app_r, Nat.sub_diag by lia|].
        split; [done|]. unfold zlen. cbn [sub_section]. by rewrite length_replicate.
    + destruct (m_pages _ _ _ _ Hm q Hq) as [|(s' & Hq0 & Hs' & Hex & Hk)]; [by left|right].
      exists s'. split_and!; [done|by apply lookup_more| |].
      * intros a Ha. assert (Hr := page_range a Ha). rewrite Hex, Hpg by done.
        destruct ((p <=? a / 1024) && _) eqn:E'; [|done]. assert (Ea : a / 1024 = p) by lia.
        rewrite Ea, Hp0. destruct (Hsec q Hq) as (? & _ & ?). unfold PHYS_SECTION_UNASSIGNED. lia.
      * destruct (mrs_mr s') as [|k|]; [done| |done]. destruct Hk as (sp & Hk & ?). exists sp.
        by rewrite (lookup_more _ _ _ _ Hk).
  - intros a Ha. assert (Hr := page_range a Ha).
    destruct (m_bytes _ _ _ _ Hm a Ha) as (n & s' & Hb & Hs' & Hl).
    destruct ((p <=? a / 1024) && (a / 1024 <? p + 1)) eqn:E.
    + assert (Ea : a / 1024 = p) by lia. unfold byte_section in Hb. rewrite Ea, Hp0 in Hb.
      change (Z.to_nat PHYS_SECTION_UNASSIGNED) with O in Hb.
      rewrite (m_dummy _ _ _ _ Hm) in Hb. injection Hb as <-.
      change (Z.to_nat PHYS_SECTION_UNASSIGNED) with O in Hs'. rewrite (m_dummy _ _ _ _ Hm) in Hs'.
      injection Hs' as <-. exists PHYS_SECTION_UNASSIGNED, dummy. split; [|split; [|done]].
      * unfold byte_section. rewrite Hpg, E, lookup_last, Hmr by done.
        rewrite lookup_app_r, Nat.sub_diag by lia. cbn [lookup list_lookup sub_section].
        assert (Hmod := Z.mod_pos_bound a 1024). apply lookup_replicate. split; [done|lia].
      * by apply lookup_more, Hm.
    + exists n, s'. split; [|split; [by apply lookup_more|done]].
      assert (Hpg' : pg' (a / 1024) = pg (a / 1024)) by by rewrite Hpg, E.
      apply (byte_section_more _ _ _ s), (byte_section_tables _ _ _
        {| sp_base := p * 1024; sub_section := replicate (Z.to_nat 1024) PHYS_SECTION_UNASSIGNED |}) in Hb.
      unfold byte_section in *. by rewrite Hpg'.
Qed.

(** Before the tree is compressed. *)
Lemma good_find d t m lo a :
  good d t m lo -> zlen (sections d) <= 1024 -> 0 <= a < 2 ^ 64 ->
  phys_page_find d a = Some (page t (a / 1024)).
Proof.
  intros [[He Ho Hsh] Hnodes Hm _ _ _ _] Hs Ha. assert (Hr := page_range a Ha).
  apply (page_find_correct d (page t) m (page t)); [done|done| |by left|by eexists].
  rewrite He. apply walk_correct; [by apply shaped_loose|done| |done].
  unfold PHYS_MAP_NODE_NIL. lia.
Qed.

Lemma good_weaken d t m lo lo' : good d t m lo -> lo <= lo' -> good d t m lo'.
Proof.
  intros [H1 H2 H3 Hx H4 H5 H6] Hlo. split; [done..| | |].
  - intros p Hp Hr. apply H4; [lia|done].
  - intros p s r Hp Hs Hr. specialize (H5 p s r Hp Hs Hr). lia.
  - intros a Ha. apply H6. lia.
Qed.

Lemma subpage_for_correct d t m lo lo' p :
  good d t m lo -> 0 <= p < 2 ^ 54 -> lo < (p + 1) * 1024 -> lo <= lo' -> p * 1024 < lo' ->
  zlen (sections d) < 1024 ->
  exists k d1 t1 s, subpage_for d (p * 1024) = Some (k, d1) /\ good d1 t1 m lo' /\
    sections d1 !! Z.to_nat (page t1 p) = Some s /\ mrs_mr s = subpage_iomem k /\
    zlen (sections d1) <= zlen (sections d) + 1 /\ mru_section d1 = mru_section d.
Proof.
  intros Hg Hp Hlo Hlo' Hpl Hsecs. assert (Hpos := good_sections _ _ _ _ Hg).
  unfold subpage_for. rewrite (good_find _ _ _ _ _ Hg), Z.div_mul by lia. unfold section_mr_of.
  assert (Hm := g_mapped _ _ _ _ Hg).
  destruct (m_pages _ _ _ _ Hm p Hp) as [Hp0|(s & Hp0 & Hs & Hex & Hk)].
  2:{ rewrite Hs. cbn [fmap option_fmap option_map]. destruct (mrs_mr s) as [|k|r] eqn:Hmr; [done| |].
      - exists k, d, t, s. split_and!; [done|by eapply good_weaken|done|done|lia|done].
      - assert (Hw := g_whole _ _ _ _ Hg p s r Hp Hs Hmr). lia. }
  rewrite Hp0. change (Z.to_nat PHYS_SECTION_UNASSIGNED) with O. rewrite (m_dummy _ _ _ _ Hm).
  cbn [fmap option_fmap option_map dummy mrs_mr subpage_init].
  rewrite phys_section_add_ok by done. set (sub := mk_MemoryRegionSection _ _ _ _ _ _ _).
  cbn [sections subpages phys_map nodes nodes_nb_alloc alloc_hint mru_section].
  set (d1 := mk_Dispatch _ _ _ _ _ _ _).
  unfold TARGET_PAGE_BITS. rewrite Z.shiftr_div_pow2 by lia. change (2 ^ 10) with 1024. rewrite Z.div_mul by lia.
  destruct Hg as [[He Ho Hsh] Hnodes _ Hx Hfree Hwhole Habove].
  destruct (phys_page_set_correct d1 t p 1 (zlen (sections d)))
    as (d' & t' & -> & Ht' & (Hs' & Hsp' & Hmru') & Hn' & Hpg);
    [done|simpl; unfold PHYS_MAP_NODE_NIL; lia|lia|lia|lia|lia|by intros q Hq; replace q with p by lia|].
  assert (Hmap := mapped_table _ _ _ (page t') m sub p Hm Hp Hp0 eq_refl eq_refl eq_refl Hpg).
  change (sections d1) with (sections d ++ [sub]) in Hs'.
  change (subpages d1) with (subpages d ++ [{| sp_base := p * 1024; sub_section :=
    replicate (Z.to_nat 1024) PHYS_SECTION_UNASSIGNED |}]) in Hsp'.
  assert (Hp' : page t' p = zlen (sections d)) by (rewrite Hpg by done; by rewrite (proj2 (andb_true_iff _ _)) by lia).
  eexists _, d', t', sub. split_and!; [done| |by rewrite Hp', Hs'; apply lookup_last|done|
    rewrite Hs', zlen_app; done|done]. split; [done| | | | | |].
  - rewrite Hs', zlen_app, zlen_cons, zlen_nil. simpl in Hn'. lia.
  - by rewrite Hs', Hsp'.
  - rewrite Hs'. by apply extent_other.
  - intros q Hq Hr. rewrite Hpg by done. rewrite (proj2 (andb_false_iff _ _)) by lia. apply Hfree; lia.
  - intros q s r Hq. rewrite Hpg, Hs' by done. destruct (_ && _) eqn:E.
    { rewrite lookup_last. by intros [= <-]. }
    intros Hl Hr. destruct (page_section _ _ _ _ q Hm Hq) as (s'' & Hl' & _).
    rewrite (lookup_more _ _ _ _ Hl') in Hl. injection Hl as ->. specialize (Hwhole q s r Hq Hl' Hr). lia.
  - intros a Ha. apply Habove. lia.
Qed.

(** The bytes [from, from + size) of a table. *)
Definition fill (from size n : Z) (sp : subpage_t) : subpage_t :=
  {| sp_base := sp_base sp;
     sub_section := list_inserts (Z.to_nat from) (replicate (Z.to_nat size) n) (sub_section sp) |}.

Lemma fill_lookup from size n sp j :
  0 <= from -> 0 <= size -> from + size <= zlen (sub_section sp) -> 0 <= j ->
  sub_section (fill from size n sp) !! Z.to_nat j =
  if (from <=? j) && (j <? from + size) then Some n else sub_section sp !! Z.to_nat j.
Proof.
  unfold zlen. intros Hf Hs Hlen Hj. cbn [fill sub_section]. destruct (_ && _) eqn:E.
  - rewrite list_lookup_inserts by (rewrite ?length_replicate; lia).
    apply lookup_replicate. split; [done|lia].
  - assert (Hor : j < from \/ from + size <= j) by lia. destruct Hor.
    + apply list_lookup_inserts_lt. lia.
    + apply list_lookup_inserts_ge. rewrite length_replicate. lia.
Qed.

(** The table of a page. *)
Lemma page_table secs subs pg m p s k :
  mapped secs subs pg m -> 0 <= p < 2 ^ 54 -> secs !! Z.to_nat (pg p) = Some s ->
  mrs_mr s = subpage_iomem k ->
  exists sp, subs !! k = Some sp /\ sp_base sp = p * 1024 /\ zlen (sub_section sp) = 1024.
Proof.
  intros Hm Hp Hs Hmr. destruct (m_pages _ _ _ _ Hm p Hp) as [Hz|(s' & _ & Hs' & _ & Hk)].
  - rewrite Hz in Hs. change (Z.to_nat PHYS_SECTION_UNASSIGNED) with O in Hs.
    rewrite (m_dummy _ _ _ _ Hm) in Hs. injection Hs as <-. done.
  - rewrite Hs in Hs'. injection Hs' as <-. by rewrite Hmr in Hk.
Qed.

Lemma alter_fill subs k k' from size n sp :
  subs !! k' = Some sp ->
  exists sp', alter (fill from size n) k subs !! k' = Some sp' /\ sp_base sp' = sp_base sp /\
    zlen (sub_section sp') = zlen (sub_section sp) /\ (k' <> k -> sp' = sp) /\
    (k' = k -> sp' = fill from size n sp).
Proof.
  intros H. destruct (decide (k' = k)) as [->|Hne].
  - exists (fill from size n sp). rewrite list_lookup_alter_eq, H.
    split_and!; [done|done| |done|done]. unfold zlen. cbn [fill sub_section]. by rewrite length_inserts.
  - exists sp. rewrite list_lookup_alter_ne by done. done.
Qed.

Lemma mapped_fill secs subs pg m s s0 fr p k :
  mapped secs subs pg m -> piece fr s -> 0 <= p < 2 ^ 54 ->
  secs !! Z.to_nat (pg p) = Some s0 -> mrs_mr s0 = subpage_iomem k ->
  let start := mrs_offset_within_address_space s in let size := mrs_size s in
  p * 1024 <= start -> 0 < size -> start + size <= (p + 1) * 1024 ->
  mapped (secs ++ [s]) (alter (fill (start - p * 1024) size (zlen secs)) k subs) pg
    (upd m start size (hit_of fr)).
Proof.
  intros Hm (Hmr & Hro & Hnv & Hum & Hoff) Hp Hs0 Hk start size Hst Hsz Hend.
  destruct (page_table _ _ _ _ _ _ _ Hm Hp Hs0 Hk) as (sp & Hsp & Hbase & Hlen).
  split; [by apply lookup_more, Hm| |].
  - intros q Hq. destruct (m_pages _ _ _ _ Hm q Hq) as [|(s' & Hq0 & Hs' & Hex & Hk')]; [by left|right].
    exists s'. split_and!; [done|by apply lookup_more|done|].
    destruct (mrs_mr s') as [|k'|]; [done| |done]. destruct Hk' as (sp' & Hsp' & Hb' & Hl').
    destruct (alter_fill subs k k' (start - p * 1024) size (zlen secs) sp' Hsp') as (sp'' & H1 & H2 & H3 & _).
    exists sp''. split_and!; [done|congruence|congruence].
  - intros a Ha. assert (Hr := page_range a Ha). assert (Hmod := Z.mod_pos_bound a 1024).
    assert (Hdm := Z.div_mod a 1024). destruct (m_bytes _ _ _ _ Hm a Ha) as (n & s' & Hb & Hs' & Hl).
    destruct (page_section _ _ _ _ _ Hm Hr) as (sa & Hsa & _). unfold byte_section, upd in *.
    rewrite (lookup_more _ _ _ _ Hsa). rewrite Hsa in Hb. destruct (mrs_mr sa) as [|k'|r] eqn:Hka.
    1,3: exists n, s'; split; [done|]; split; [by apply lookup_more|];
      rewrite (proj2 (andb_false_iff _ _)); [done|];
      assert (a / 1024 <> p); [|lia]; intros E; rewrite E in Hsa; congruence.
    destruct (page_table _ _ _ _ _ _ _ Hm Hr Hsa Hka) as (spa & Hspa & Hba & Hla).
    destruct (alter_fill subs k k' (start - p * 1024) size (zlen secs) spa Hspa)
      as (sp' & -> & _ & _ & Hne & He). rewrite Hspa in Hb.
    destruct (decide (k' = k)) as [->|Hkk].
    + rewrite Hsp in Hspa. injection Hspa as ->. assert (Hap : a / 1024 = p) by lia.
      rewrite (He eq_refl), fill_lookup by lia.
      replace ((start - p * 1024 <=? a mod 1024) && (a mod 1024 <? start - p * 1024 + size))
        with ((start <=? a) && (a <? start + size)) by (apply eq_true_iff_eq; lia).
      destruct (_ && _) eqn:E.
      * exists (zlen secs), s. split; [done|]. split; [apply lookup_last|].
        unfold lands. rewrite Hoff. fold start size. split_and!; try done; lia.
      * exists n, s'. split; [done|]. split; [by apply lookup_more|done].
    + rewrite (Hne Hkk). exists n, s'. split; [done|]. split; [by apply lookup_more|].
      rewrite (proj2 (andb_false_iff _ _)); [done|]. assert (a / 1024 <> p); [|lia].
      intros E. rewrite E in Hsa. rewrite Hs0 in Hsa. congruence.
Qed.

Lemma page_mask a : Z.land a TARGET_PAGE_MASK = a / 1024 * 1024.
Proof.
  change TARGET_PAGE_MASK with (Z.lnot (Z.ones 10)). rewrite <- Z.ldiff_land, Z.ldiff_ones_r by lia.
  rewrite Z.shiftr_div_pow2, Z.shiftl_mul_pow2 by lia. done.
Qed.
Lemma page_offset a : Z.land a (Z.lnot TARGET_PAGE_MASK) = a mod 1024.
Proof. change (Z.lnot TARGET_PAGE_MASK) with (Z.ones 10). by rewrite Z.land_ones by lia. Qed.

Lemma int128_get64_ok n : 0 <= n < 2 ^ 64 -> int128_get64 n = Some n.
Proof. intros H. unfold int128_get64, u64. by rewrite Z.mod_small, Z.eqb_refl. Qed.

Lemma register_subpage_correct d t m lo fr s :
  let start := mrs_offset_within_address_space s in let size := mrs_size s in
  good d t m lo -> piece fr s -> 0 <= start < 2 ^ 64 -> 0 < size -> start mod 1024 + size <= 1024 ->
  lo <= start -> zlen (sections d) < 1023 ->
  exists d' t', register_subpage d s = Some d' /\
    good d' t' (upd m start size (hit_of fr)) (start + size) /\
    zlen (sections d') <= zlen (sections d) + 2 /\ mru_section d' = mru_section d.
Proof.
  intros start size Hg Hpc Hst Hsz Hfit Hlo Hsecs. unfold register_subpage. rewrite page_mask, page_offset.
  fold start size. assert (Hr := page_range start Hst). assert (Hdm := Z.div_mod start 1024).
  assert (Hmod := Z.mod_pos_bound start 1024).
  destruct (subpage_for_correct d t m lo (start + size) (start / 1024) Hg Hr)
    as (k & d1 & t1 & s0 & -> & Hg1 & Hs0 & Hk & Hlen & Hmru); [lia..|].
  rewrite int128_get64_ok by lia. rewrite phys_section_add_ok by lia.
  unfold u64, u32, subpage_register, TARGET_PAGE_SIZE, TARGET_PAGE_BITS. change (2 ^ 10) with 1024.
  rewrite (Z.mod_small (start mod 1024) (2 ^ 32)) by lia.
  rewrite (Z.mod_small _ (2 ^ 64)), (Z.mod_small (start mod 1024 + size - 1)) by lia.
  rewrite (proj2 (Z.leb_gt 1024 (start mod 1024))), (proj2 (Z.leb_gt 1024 (start mod 1024 + size - 1))) by lia.
  assert (Hmap := mapped_fill _ _ _ _ s s0 fr _ k (g_mapped _ _ _ _ Hg1) Hpc Hr Hs0 Hk).
  fold start size in Hmap. specialize (Hmap ltac:(lia) Hsz ltac:(lia)).
  replace (start - start / 1024 * 1024) with (start mod 1024) in Hmap by lia.
  destruct Hg1 as [[He Ho Hsh] Hnodes Hm Hx Hfree Hwhole Habove].
  eexists _, t1. split; [done|]. cbn [orb sections mru_section]. split; [|split; [rewrite zlen_app, zlen_cons, zlen_nil; lia|done]].
  split; cbn [sections subpages nodes].
  - done.
  - rewrite zlen_app, zlen_cons, zlen_nil. lia.
  - replace (start mod 1024 + size - 1 - start mod 1024 + 1) with size by lia. exact Hmap.
  - apply extent_more; [done|done|fold start; lia|fold start size; lia|]. fold start size. intros a Ha.
    apply (g_above _ _ _ _ Hg). lia.
  - done.
  - intros q s' r Hq Hl Hrr. destruct (page_section _ _ _ _ q Hm Hq) as (s'' & Hl' & _).
    rewrite (lookup_more _ _ _ _ Hl') in Hl. injection Hl as ->. by apply (Hwhole q s' r).
  - intros a Ha. unfold upd. rewrite (proj2 (andb_false_iff _ _)) by lia. by apply Habove.
Qed.

(** ** Adding a range *)
Lemma good_ext d t m m' lo : good d t m lo -> (forall a, m a = m' a) -> good d t m' lo.
Proof.
  intros [H1 H2 [Ha Hb Hc] Hx H4 H5 H6] E. split; [done|done| | |done|done|].
  - split; [done|done|]. intros a Hr. rewrite <- E. by apply Hc.
  - intros n s r Hn Hr. destruct (Hx n s r Hn Hr) as (? & ? & Hx'). split_and!; [done..|].
    intros a Hin. rewrite <- E. by apply Hx'.
  - intros a Hr. rewrite <- E. by apply H6.
Qed.

Lemma upd_upd m start n size f a :
  0 <= n <= size -> upd (upd m start n f) (start + n) (size - n) f a = upd m start size f a.
Proof.
  intros H. unfold upd. destruct (_ && _) eqn:E1, ((start <=? a) && (a <? start + n)) eqn:E2,
    ((start <=? a) && (a <? start + size)) eqn:E3; (done || lia).
Qed.

(** [advance] keeps the part of the range. *)
Lemma advance_ok fr s size :
  piece fr s -> 0 <= mrs_offset_within_address_space s -> 0 <= size < mrs_size s ->
  mrs_offset_within_address_space s + mrs_size s <= 2 ^ 64 ->
  exists s', advance s size = Some s' /\ piece fr s' /\ mrs_size s' = mrs_size s - size /\
    mrs_offset_within_address_space s' = mrs_offset_within_address_space s + size.
Proof.
  intros (Hmr & Hro & Hnv & Hum & Hoff) H0 Hsz Hend. unfold advance. rewrite int128_get64_ok by lia.
  eexists. split; [done|]. split; [|split; [done|]]; simpl.
  - split_and!; [done..|]. intros a. etransitivity; [|exact (Hoff a)]. unfold u64. cbn [mrs_offset_within_address_space mrs_offset_within_region].
    rewrite !Zplus_mod_idemp_l, !Zplus_mod_idemp_r, Zplus_mod, Zminus_mod_idemp_r, <- Zplus_mod. f_equal. lia.
  - unfold u64. rewrite Z.mod_small; lia.
Qed.

Lemma piece_with_size fr s size : piece fr s -> piece fr (with_size s size).
Proof. done. Qed.

(** The state after a part of a range, with [n] sections more. *)
Definition added d m (fr : FlatRange R) (start size n : Z) (o : option (AddressSpaceDispatch (R := R))) : Prop :=
  exists d' t', o = Some d' /\ good d' t' (upd m start size (hit_of fr)) (start + size) /\
    zlen (sections d') <= zlen (sections d) + n /\ mru_section d' = mru_section d.

(** A part and what follows it. *)
Lemma added_then d m fr start size1 size n1 n2 o (rest : _ -> option AddressSpaceDispatch) :
  added d m fr start size1 n1 o -> 0 <= size1 <= size ->
  (forall d' t', good d' t' (upd m start size1 (hit_of fr)) (start + size1) ->
     zlen (sections d') <= zlen (sections d) + n1 ->
     added d' (upd m start size1 (hit_of fr)) fr (start + size1) (size - size1) n2 (rest d')) ->
  added d m fr start size (n1 + n2) (let? x := o else None in rest x).
Proof.
  intros (d1 & t1 & -> & Hg & Hn & Hmru) Hsz Hrest.
  destruct (Hrest d1 t1 Hg Hn) as (d2 & t2 & Hr & Hg2 & Hn2 & Hmru2). exists d2, t2.
  split_and!; [done| |lia|congruence].
  replace (start + size1 + (size - size1)) with (start + size) in Hg2 by lia.
  eapply good_ext; [exact Hg2|]. intros a. by apply upd_upd.
Qed.

Lemma added_done d t m fr start size n :
  good d t (upd m start size (hit_of fr)) (start + size) -> 0 <= n ->
  added d (upd m start size (hit_of fr)) fr (start + size) 0 n (Some d).
Proof.
  intros Hg Hn. exists d, t. split_and!; [done| |lia|done]. rewrite Z.add_0_r.
  eapply good_ext; [exact Hg|]. intros a. unfold upd. by rewrite (proj2 (andb_false_iff (_ + _ <=? a) _)) by lia.
Qed.

Lemma add_pages_correct d t m lo fr s :
  let start := mrs_offset_within_address_space s in let size := mrs_size s in
  good d t m lo -> piece fr s -> 0 <= start -> 0 < size -> start + size <= 2 ^ 64 ->
  start mod 1024 = 0 -> lo <= start -> zlen (sections d) + 3 <= 1024 ->
  added d m fr start size 3 (add_pages d s).
Proof.
  intros start size Hg Hpc H0 Hsz Hend Hal Hlo Hsecs. unfold add_pages. fold size.
  assert (Hdm := Z.div_mod start 1024). assert (Hdz := Z.div_mod size 1024).
  assert (Hmz := Z.mod_pos_bound size 1024). unfold TARGET_PAGE_SIZE, TARGET_PAGE_BITS. change (2 ^ 10) with 1024.
  destruct (1024 <=? size) eqn:E.
  - change (- (1024)) with TARGET_PAGE_MASK. rewrite page_mask. cbn [with_size mrs_size].
    apply (added_then d m fr start (size / 1024 * 1024) size 1 2); [|lia|].
    + destruct (register_multipage_correct d t m lo fr (with_size s (size / 1024 * 1024)) (start / 1024) (size / 1024))
        as (d1 & t1 & H1 & H2 & H3 & H4); [done|done|lia..|cbn [with_size mrs_offset_within_address_space]; fold start; lia|done|lia|lia|].
      replace (start / 1024 * 1024) with start in H2 by lia. exists d1, t1. split_and!; [done|done|lia|done].
    + intros d1 t1 Hg1 Hn1. fold size. destruct (size =? size / 1024 * 1024) eqn:E'.
      * replace (size - size / 1024 * 1024) with 0 by lia. by eapply added_done.
      * destruct (advance_ok fr s (size / 1024 * 1024) Hpc H0) as (s' & -> & Hp' & Hs' & Ho'); [lia|done|].
        fold size in Hs'. fold start in Ho'. rewrite <- Hs', <- Ho'.
        apply (register_subpage_correct d1 t1 _ (start + size / 1024 * 1024)); [done|done|lia|lia| |lia|lia].
        rewrite Ho', Hs', Z.mod_add by lia. lia.
  - destruct (register_subpage_correct d t m lo fr s) as (d1 & t1 & H1 & H2 & H3 & H4);
      [done|done|lia|done|fold start size; lia|done|lia|].
    exists d1, t1. split_and!; [done|done|lia|done].
Qed.

(** The rest of the page, also of the last one. *)
Lemma align_left start :
  0 <= start < 2 ^ 64 -> start mod 1024 <> 0 ->
  u64 (TARGET_PAGE_ALIGN start - start) = 1024 - start mod 1024.
Proof.
  intros H0 Hm. assert (Hdm := Z.div_mod start 1024). assert (Hmod := Z.mod_pos_bound start 1024).
  unfold TARGET_PAGE_ALIGN, TARGET_PAGE_SIZE, TARGET_PAGE_BITS. change (2 ^ 10) with 1024.
  rewrite page_mask. unfold u64. destruct (decide (start + 1024 - 1 < 2 ^ 64)) as [Hlt|Hge].
  - rewrite (Z.mod_small (start + 1024 - 1)) by lia.
    rewrite <- (Z.div_unique (start + 1024 - 1) 1024 (start / 1024 + 1) (start mod 1024 - 1)) by lia.
    rewrite Z.mod_small; lia.
  - rewrite <- (Z.mod_unique (start + 1024 - 1) (2 ^ 64) 1 (start + 1024 - 1 - 2 ^ 64)) by lia.
    rewrite Z.div_small by lia. symmetry. apply (Z.mod_unique _ _ (-1)); [lia|].
    assert (start / 1024 = 2 ^ 54 - 1) by (symmetry; apply (Z.div_unique _ _ _ (start - (2 ^ 54 - 1) * 1024)); lia). lia.
Qed.

Lemma flatview_add_correct d t m lo fr s :
  let start := mrs_offset_within_address_space s in let size := mrs_size s in
  good d t m lo -> piece fr s -> 0 <= start -> 0 < size -> start + size <= 2 ^ 64 ->
  lo <= start -> zlen (sections d) + 5 <= 1024 ->
  added d m fr start size 5 (flatview_add_to_dispatch d s).
Proof.
  intros start size Hg Hpc H0 Hsz Hend Hlo Hsecs. unfold flatview_add_to_dispatch. rewrite page_offset. fold start size.
  destruct (start mod 1024 =? 0) eqn:E; cbn [negb].
  { destruct (add_pages_correct d t m lo fr s) as (d1 & t1 & H1 & H2 & H3 & H4);
      [done|done|done|done|done|fold start; lia|done|lia|]. exists d1, t1. split_and!; [done|done|lia|done]. }
  assert (Hdm := Z.div_mod start 1024). assert (Hmod := Z.mod_pos_bound start 1024).
  assert (Hleft : u64 (TARGET_PAGE_ALIGN start - start) = 1024 - start mod 1024).
  { apply align_left; lia. }
  rewrite Hleft. cbn [with_size mrs_size]. set (size1 := Z.min _ _).
  apply (added_then d m fr start size1 size 2 3); [|lia|].
  - destruct (register_subpage_correct d t m lo fr (with_size s size1)) as (d1 & t1 & H1 & H2 & H3 & H4);
      [done|done|cbn [with_size mrs_offset_within_address_space mrs_size]; fold start; lia..|].
    exists d1, t1. done.
  - intros d1 t1 Hg1 Hn1. destruct (size =? size1) eqn:E'.
    + replace (size - size1) with 0 by lia. by eapply added_done.
    + destruct (advance_ok fr s size1 Hpc H0) as (s' & -> & Hp' & Hs' & Ho'); [lia|done|].
      fold size in Hs'. fold start in Ho'. rewrite <- Hs', <- Ho'.
      apply (add_pages_correct d1 t1 _ (start + size1)); [done|done|lia|lia|lia| |lia|lia].
      rewrite Ho'. replace (start + size1) with ((start / 1024 + 1) * 1024) by lia. by apply Z.mod_mul.
Qed.

(** ** The whole view *)
Lemma section_of_piece fr :
  0 <= ar_start (fr_addr fr) < 2 ^ 64 ->
  piece fr (section_of fr) /\ mrs_size (section_of fr) = ar_size (fr_addr fr) /\
  mrs_offset_within_address_space (section_of fr) = ar_start (fr_addr fr).
Proof.
  intros H. assert (E : u64 (ar_start (fr_addr fr)) = ar_start (fr_addr fr)) by (apply Z.mod_small; lia).
  unfold section_of, section_from_flat_range, piece. simpl. rewrite E. split_and!; try done.
  intros a. unfold u64. rewrite Zplus_mod_idemp_l. f_equal. lia.
Qed.

Lemma good_new hint : good (address_space_dispatch_new hint) TNil (fun _ => None) 0.
Proof.
  split; simpl.
  - split; [done| |done]. split; [done|constructor].
  - done.
  - split; [done|by left|]. intros a Ha. exists PHYS_SECTION_UNASSIGNED, dummy. done.
  - intros [|n] s r Hs Hr; simpl in Hs; [by injection Hs as <-|by rewrite lookup_nil in Hs].
  - done.
  - intros p s r Hp Hs Hr. change (Z.to_nat (page TNil p)) with O in Hs. simpl in Hs. injection Hs as <-. done.
  - done.
Qed.

Lemma add_ranges_correct view : forall d t m lo,
  good d t m lo -> 0 <= lo -> view_ok lo (2 ^ 64) view -> zlen (sections d) + 5 * zlen view <= 1024 ->
  exists d' t' lo', add_ranges d view = Some d' /\ mru_section d' = mru_section d /\
    zlen (sections d') <= 1024 /\ good d' t' (fun a => or_else (view_at view a) (m a)) lo'.
Proof.
  induction view as [|fr view IH]; intros d t m lo Hg Hlo Hok Hz; cbn [add_ranges].
  - exists d, t, lo. split_and!; [done|done|unfold zlen in *; simpl in Hz; lia|done].
  - destruct Hok as (H1 & H2 & H3). assert (Hb := view_ok_bound _ _ _ H3). rewrite (zlen_cons (A := FlatRange R)) in Hz.
    unfold addrrange_end in *. destruct (section_of_piece fr) as (Hp & Hsz & Hst); [lia|].
    destruct (flatview_add_correct d t m lo fr (section_of fr) Hg Hp) as (d1 & t1 & -> & Hg1 & Hn & Hmru);
      [unfold zlen in *; lia..|]. rewrite Hst, Hsz in Hg1.
    destruct (IH d1 t1 _ _ Hg1) as (d' & t' & lo' & -> & Hmru' & Hz' & Hg'); [lia|done|lia|].
    exists d', t', lo'. split_and!; [done|congruence|done|]. eapply good_ext; [exact Hg'|].
    intros a. cbn [view_at]. unfold upd, addrrange_contains, addrrange_end.
    destruct ((ar_start (fr_addr fr) <=? a) && _) eqn:E; [|done].
    rewrite (view_at_below _ _ _ a H3) by lia. done.
Qed.

(** ** Lookups *)

(** A dispatch that finds the pages [pg], whatever it remembers. *)
Record serves d pg m : Prop := {
  sv_mapped : mapped (sections d) (subpages d) pg m;
  sv_extent : extent (sections d) m;
  sv_find : forall a, 0 <= a < 2 ^ 64 -> phys_page_find d a = Some (pg (a / 1024));
  sv_mru : mru_section d = None \/ exists p, 0 <= p < 2 ^ 54 /\ mru_section d = Some (pg p)
}.

Lemma compact_serves d t m lo :
  good d t m lo -> zlen (sections d) <= 1024 -> mru_section d = None ->
  exists d', address_space_dispatch_compact d = Some d' /\ serves d' (page t) m.
Proof.
  intros Hg Hs Hmru. assert (Hfind := fun a => good_find d t m lo a Hg Hs).
  destruct Hg as [[He Ho Hsh] Hnodes Hm Hx _ _ _]. unfold address_space_dispatch_compact. rewrite He.
  destruct (skip (entry t) =? 0) eqn:E; cbn [negb].
  { exists d. split; [done|]. split; [done|done|done|by left]. }
  destruct (compact_correct P_L2_LEVELS P_L2_LEVELS ltac:(done) ltac:(apply Nat.ltb_lt; done) ltac:(done) t (nodes d))
    as (nodes' & t' & -> & Hev & Hz & Hl & _ & Hc); [done|done|unfold PHYS_MAP_NODE_NIL; lia|by intros s ->|].
  eexists. split; [done|]. split; [done|done| |by left].
  intros a Ha. assert (Hr := page_range a Ha).
  destruct (Hc (a / 1024) P_L2_LEVELS ltac:(done)) as [Hor Hp].
  apply (page_find_correct _ (page t) m (fun p => tget P_L2_LEVELS t' (Z.of_nat P_L2_LEVELS) p)); [done|done| |done|].
  - apply walk_correct; [done|apply Hev| |done]. simpl. unfold PHYS_MAP_NODE_NIL. lia.
  - destruct (Hp 0) as (p & Hp1 & Hp2); [by exists 0|]. exists p. split; [|done].
    rewrite page_levels in Hp1. lia.
Qed.

Lemma serves_ext d pg m m' :
  serves d pg m -> (forall a, 0 <= a < 2 ^ 64 -> m a = m' a) -> serves d pg m'.
Proof.
  intros [[H1 H2 H3] Hx H4 H5] E. split; [| |done|done].
  - split; [done|done|]. intros a Ha. rewrite <- E by done. by apply H3.
  - intros n s r Hn Hr. destruct (Hx n s r Hn Hr) as (? & ? & Hx'). split_and!; [done..|].
    intros a Hin. rewrite <- E by lia. by apply Hx'.
Qed.

Lemma dispatch_of_serves hint (view : FlatView R) :
  view_ok 0 (2 ^ 64) view -> 1 + 5 * zlen view <= 1024 ->
  exists d pg, dispatch_of hint view = Some d /\ serves d pg (view_at view).
Proof.
  intros Hok Hz. unfold dispatch_of.
  destruct (add_ranges_correct view _ _ _ 0 (good_new hint)) as (d & t & lo & -> & Hmru & Hs & Hg); [done|done|done|].
  destruct (compact_serves d t _ lo Hg Hs Hmru) as (d' & -> & Hsv).
  exists d', (page t). split; [done|]. eapply serves_ext; [exact Hsv|]. intros a _. apply or_else_none.
Qed.

(** What is remembered is used for the pages it has only. *)
Lemma lookup_page_correct d pg m a :
  serves d pg m -> 0 <= a < 2 ^ 64 ->
  exists d', lookup_page d a = Some (pg (a / 1024), d') /\ serves d' pg m /\
    sections d' = sections d /\ subpages d' = subpages d.
Proof.
  intros Hsv Ha. assert (Hr := page_range a Ha). assert (Hm := sv_mapped _ _ _ Hsv).
  unfold lookup_page. rewrite (sv_find _ _ _ Hsv) by done.
  assert (Hnew : serves (mk_Dispatch (Some (pg (a / 1024))) (phys_map d) (nodes d) (nodes_nb_alloc d)
                           (alloc_hint d) (sections d) (subpages d)) pg m).
  { split; [done|apply Hsv|apply Hsv|]. right. by eexists. }
  destruct (sv_mru _ _ _ Hsv) as [->|(p & Hp & ->)]; [by eexists|].
  destruct (page_section _ _ _ _ p Hm Hp) as (x & Hx & _). rewrite Hx.
  destruct (_ && _) eqn:E; [|by eexists]. exists d. split; [|done].
  destruct (m_pages _ _ _ _ Hm p Hp) as [Hz|(x' & _ & Hx' & Hex & _)]; [rewrite Hz in E; done|].
  rewrite Hx in Hx'. injection Hx' as <-. apply andb_true_iff in E as [_ E]. apply Hex in E; [|done].
  by rewrite E.
Qed.

Lemma lookup_region_correct d pg m a :
  serves d pg m -> 0 <= a < 2 ^ 64 ->
  exists n s d', address_space_lookup_region d a true = Some (n, d') /\ serves d' pg m /\
    sections d' !! Z.to_nat n = Some s /\ lands n s a (m a).
Proof.
  intros Hsv Ha. destruct (lookup_page_correct d pg m a Hsv Ha) as (d' & Hd' & Hsv' & _ & _).
  destruct (m_bytes _ _ _ _ (sv_mapped _ _ _ Hsv') a Ha) as (n & s & Hb & Hn & Hl).
  unfold address_space_lookup_region, section_mr_of. rewrite Hd', page_offset. unfold byte_section in Hb.
  destruct (sections d' !! Z.to_nat (pg (a / 1024))) as [x|]; [|done]. cbn [fmap option_fmap option_map].
  exists n, s, d'. split; [|done]. destruct (mrs_mr x) as [|k|r]; [by injection Hb as ->| |by injection Hb as ->].
  destruct (subpages d' !! k) as [sp|]; [|done]. by rewrite Hb.
Qed.

(** ** Translations *)
Variable memory_region_is_ram : section_mr R -> bool.

(** Accesses one after the other, each of an address and a length. *)
Fixpoint translate_all d (accesses : list (Z * Z)) : option (list (Sect R * Z * Z)) :=
  match accesses with
  | [] => Some []
  | (addr, plen) :: accesses =>
      let? (x, xlat, plen, d1) := address_space_translate_internal memory_region_is_ram d addr plen true else None in
      let? rest := translate_all d1 accesses else None in
      Some ((x, xlat, plen) :: rest)
  end.

(** The translation of an access: the section of the region that has the address,
    with its attributes, and the offset in the region; all bytes up to the end of
    the section follow in the same region.  RAM may shorten the length to them. *)
Definition translated m (access : Z * Z) (result : Sect R * Z * Z) : Prop :=
  let '(s, xlat, plen) := result in
  let left := mrs_offset_within_address_space s + mrs_size s - access.1 in
  match m access.1 with
  | None => s = dummy
  | Some h =>
      mrs_mr s = region (h_mr h) /\ xlat = h_offset h /\ mrs_readonly s = h_readonly h /\
      mrs_nonvolatile s = h_nonvolatile h /\ mrs_unmergeable s = h_unmergeable h /\
      forall i, 0 <= i < left ->
        exists h', m (access.1 + i) = Some h' /\ h_mr h' = h_mr h /\ h_offset h' = u64 (xlat + i)
  end /\
  0 < left /\
  plen = if memory_region_is_ram (mrs_mr s) then Z.min left access.2 else access.2.

Lemma translate_correct d pg m addr plen :
  serves d pg m -> 0 <= addr < 2 ^ 64 -> 0 <= plen < 2 ^ 64 ->
  exists r d', address_space_translate_internal memory_region_is_ram d addr plen true = Some (r, d') /\
    serves d' pg m /\ translated m (addr, plen) r.
Proof.
  intros Hsv Ha Hp. destruct (lookup_region_correct d pg m addr Hsv Ha) as (n & s & d' & Hl & Hsv' & Hn & Hla).
  unfold address_space_translate_internal. rewrite Hl, Hn. set (oas := mrs_offset_within_address_space s).
  assert (Hin : 0 <= oas <= addr /\ addr < oas + mrs_size s).
  { unfold lands in Hla. destruct (m addr) as [h|]; [by destruct Hla as (?&?&?&?&?&?&?)|].
    subst n. change (Z.to_nat PHYS_SECTION_UNASSIGNED) with O in Hn.
    rewrite (m_dummy _ _ _ _ (sv_mapped _ _ _ Hsv')) in Hn. injection Hn as <-. unfold oas. simpl. lia. }
  assert (Hu : u64 (addr - oas) = addr - oas) by (apply Z.mod_small; lia).
  assert (Hres : translated m (addr, plen) (s, u64 (u64 (addr - oas) + mrs_offset_within_region s),
    if memory_region_is_ram (mrs_mr s) then Z.min (oas + mrs_size s - addr) plen else plen)).
  { unfold translated. fold oas. cbn [fst snd]. split; [|split; [lia|done]]. unfold lands in Hla.
    destruct (m addr) as [h|].
    - destruct Hla as (Hmr & Ho & Hro & Hnv & Hum & _). fold oas in Ho. split_and!; [done..|].
      destruct (sv_extent _ _ _ Hsv' _ _ _ Hn Hmr) as (_ & _ & Hx). fold oas in Hx. intros i Hi.
      destruct (Hx (addr + i) ltac:(lia)) as (h' & Hh' & Hm' & Ho'). exists h'. split_and!; [done..|].
      rewrite Ho', Hu. unfold u64. rewrite !Zplus_mod_idemp_l. f_equal. lia.
    - subst n. change (Z.to_nat PHYS_SECTION_UNASSIGNED) with O in Hn.
      rewrite (m_dummy _ _ _ _ (sv_mapped _ _ _ Hsv')) in Hn. by injection Hn as <-. }
  destruct (memory_region_is_ram (mrs_mr s)).
  - rewrite int128_get64_ok by (rewrite Hu; lia). eexists _, d'. split; [done|]. split; [done|].
    replace (mrs_size s - u64 (addr - oas)) with (oas + mrs_size s - addr) by (rewrite Hu; lia). exact Hres.
  - eexists _, d'. done.
Qed.

Lemma translate_all_correct pg m accesses : forall d,
  serves d pg m ->
  Forall (fun '(addr, plen) => 0 <= addr < 2 ^ 64 /\ 0 <= plen < 2 ^ 64) accesses ->
  exists results, translate_all d accesses = Some results /\
    Forall2 (translated m) accesses results.
Proof.
  induction accesses as [|[addr plen] accesses IH]; intros d Hsv Hall; [by exists []|].
  apply Forall_cons_iff in Hall as [[Ha Hp] Hall].
  destruct (translate_correct d pg m addr plen Hsv Ha Hp) as ([[s xlat] plen'] & d' & Ht & Hsv' & Hr).
  destruct (IH d' Hsv' Hall) as (rest & Hrest & Hf). cbn [translate_all]. rewrite Ht, Hrest.
  eexists. split; [done|]. by constructor.
Qed.

(** C7: accesses of the CPU through the dispatch.  For a tree of regions whose view
    has few enough ranges for the sections of a dispatch, the radix tree is built
    without a failed assertion, and whatever addresses are accessed, in whatever
    order, each of them is translated to the region, the offset in it and the
    attributes that the tree of regions resolves it to, or to the unassigned
    region, and the bytes that RAM is said to have from there on are in that
    region one behind the other.  Compression and the section remembered change
    nothing. *)
Theorem dispatch_correct `{!EqDecision R} (hint : Z) (mr : MemoryRegion R) (accesses : list (Z * Z)) :
  region_ok mr = true ->
  1 + 5 * zlen (generate_memory_topology (Some mr)) <= 1024 ->
  Forall (fun '(addr, plen) => 0 <= addr < 2 ^ 64 /\ 0 <= plen < 2 ^ 64) accesses ->
  exists d results,
    dispatch_of hint (generate_memory_topology (Some mr)) = Some d /\
    translate_all d accesses = Some results /\
    Forall2 (translated (fun a => resolve mr 0 a false false false)) accesses results.
Proof.
  intros Hok Hz Hall. destruct (generate_at mr Hok) as (Hv & _ & Hat).
  destruct (dispatch_of_serves hint _ Hv Hz) as (d & pg & Hd & Hsv).
  apply (serves_ext _ _ _ (fun a => resolve mr 0 a false false false)) in Hsv.
  - destruct (translate_all_correct pg _ accesses d Hsv Hall) as (results & Hr & Hf). by exists d, results.
  - intros a Ha. rewrite Hat. unfold clipped.
    by rewrite (proj2 (contains_spec _ _)) by (unfold addrrange_end, whole; simpl; lia).
Qed.
End Dispatch.

(** The example of [MemoryView]: the device starts in the middle of a page. *)
Lemma dispatch_correct_witness :
  exists d results,
    dispatch_of 16 (generate_memory_topology (Some MemoryExample.tree)) = Some d /\
    translate_all (fun _ => false) d [(0x1804, 4); (0x1704, 4); (0x1000000, 4)] = Some results /\
    Forall2 (translated (fun _ => false) (fun a => resolve MemoryExample.tree 0 a false false false))
      [(0x1804, 4); (0x1704, 4); (0x1000000, 4)] results.
Proof.
  apply (dispatch_correct (fun _ => false) 16 MemoryExample.tree [(0x1804, 4); (0x1704, 4); (0x1000000, 4)]);
    [reflexivity|vm_compute; discriminate|repeat constructor; discriminate].
Defined.
