(* ===== verification/PhysIO.v ===== *)
(** * Reading and writing an address space

    [src/qemu/system/physmem.c], from [memory_access_size] to
    [address_space_write_rom]: a transfer of any length is cut into pieces, each of
    them translated by the dispatch; memory is copied, devices get accesses of a
    size they support.  A region is memory, read-only memory or a device; there are
    no IOMMUs, ROM devices and RAM devices, and no attribute of the transfer is set,
    so that every access is allowed.  The loops run as long as bytes are
    left, and every round transfers one at least. *)
From stdpp Require Import base list numbers functions.
From S2P Require Import Prelude Memory MemoryView Access PhysMap PhysTree PhysMapSpec.

Inductive region_kind (S : Type) := KRam | KRom | KIo (ops : MemoryRegionOps S).
Arguments KRam {S}. Arguments KRom {S}. Arguments KIo {S} ops.

Section PhysIO.
Context {R S : Type} `{!EqDecision R}.
Variable kind : R -> region_kind S.

(** The dispatch, the contents of the memory blocks and the state of the devices. *)
Record AddressSpace := mk_AddressSpace {
  as_dispatch : AddressSpaceDispatch (R := R);
  as_ram : R -> list Z;
  as_dev : S
}.

Definition unassigned_mem_ops : MemoryRegionOps S :=
  {| op_read s _ _ := Some (0, s); op_write s _ _ _ := Some s;
     op_endianness := DEVICE_NATIVE_ENDIAN; valid_min_access_size := 0; valid_max_access_size := 0;
     valid_unaligned := false; valid_accepts := Some (fun _ _ _ _ => false);
     impl_min_access_size := 0; impl_max_access_size := 0; impl_unaligned := false |}.

(** [mr->ops]: that of the initialization, unless the region is a device. *)
Definition ops_of (mr : section_mr R) : MemoryRegionOps S :=
  match mr with
  | region r => match kind r with KIo ops => ops | _ => unassigned_mem_ops end
  | _ => unassigned_mem_ops
  end.

(** Read-only memory is memory too. *)
Definition is_ram (mr : section_mr R) : bool :=
  match mr with
  | region r => match kind r with KIo _ => false | _ => true end
  | _ => false
  end.

(** Without the attribute [debug]. *)
Definition memory_access_is_direct (mr : section_mr R) (is_write : bool) : bool :=
  match mr with
  | region r => match kind r with KRam => true | KRom => negb is_write | KIo _ => false end
  | _ => false
  end.

(** The largest power of two that is not larger. *)
Definition pow2floor (n : Z) : Z := if n =? 0 then 0 else 2 ^ Z.log2 n.

(** [l] is an [unsigned], the length given is not. *)
Definition memory_access_size (ops : MemoryRegionOps S) (l addr : Z) : Z :=
  let access_size_max := if valid_max_access_size ops =? 0 then 4 else valid_max_access_size ops in
  let access_size_max :=
    if negb (impl_unaligned ops) then
      let align_size_max := u32 (Z.land addr (u64 (- addr))) in
      if negb (align_size_max =? 0) && (align_size_max <? access_size_max)
      then align_size_max else access_size_max
    else access_size_max in
  pow2floor (if access_size_max <? u32 l then access_size_max else u32 l).

(** [ldn_he_p] and [stn_he_p] know these sizes; anything else is not reached. *)
Definition host_size (l : Z) : bool := (l =? 1) || (l =? 2) || (l =? 4) || (l =? 8).

Definition flatview_translate (d : AddressSpaceDispatch) (addr plen : Z)
  : option (section_mr R * Z * Z * AddressSpaceDispatch) :=
  let? (s, xlat, plen, d) := address_space_translate_internal is_ram d addr plen true else None in
  Some (mrs_mr s, xlat, plen, d).

(** [qemu_ram_ptr_length] shortens the piece to what the block has. *)
Definition ram_length (block : list Z) (addr l : Z) : Z := Z.min l (u64 (zlen block - addr)).

(** One piece: the result, how many bytes it had, and the state. *)
Definition flatview_write_continue_step (st : AddressSpace) (buf : list Z) (mr_addr l : Z)
    (mr : section_mr R) : option (Z * Z * AddressSpace) :=
  if negb (memory_access_is_direct mr true) then
    let l := memory_access_size (ops_of mr) l mr_addr in
    if negb (host_size l) then None
    else
    let val := le_value (take (Z.to_nat l) buf) in
    let? (result, dev) :=
      memory_region_dispatch_write false (ops_of mr) (as_dev st) mr_addr val l false else None in
    Some (result, l, mk_AddressSpace (as_dispatch st) (as_ram st) dev)
  else
  match mr with
  | region r =>
      let l := ram_length (as_ram st r) mr_addr l in
      let? block := store (as_ram st r) mr_addr (take (Z.to_nat l) buf) else None in
      Some (MEMTX_OK, l, mk_AddressSpace (as_dispatch st) (<[r := block]> (as_ram st)) (as_dev st))
  | _ => None
  end.

(** [l] and [mr_addr] are those of the first piece; then each is translated. *)
Fixpoint flatview_write_continue (fuel : nat) (st : AddressSpace) (addr : Z) (buf : list Z)
    (mr_addr l : Z) (mr : section_mr R) (result : Z) : option (Z * AddressSpace) :=
  match fuel with
  | O => None
  | Datatypes.S fuel =>
      let? (r, l, st) := flatview_write_continue_step st buf mr_addr l mr else None in
      let result := Z.lor result r in
      let buf := drop (Z.to_nat l) buf in
      let addr := u64 (addr + l) in
      match buf with
      | [] => Some (result, st)
      | _ =>
          let? (mr, mr_addr, l, d) := flatview_translate (as_dispatch st) addr (zlen buf) else None in
          flatview_write_continue fuel (mk_AddressSpace d (as_ram st) (as_dev st)) addr buf mr_addr l mr result
      end
  end.

Definition flatview_write (st : AddressSpace) (addr : Z) (buf : list Z) : option (Z * AddressSpace) :=
  let? (mr, mr_addr, l, d) := flatview_translate (as_dispatch st) addr (zlen buf) else None in
  flatview_write_continue (length buf) (mk_AddressSpace d (as_ram st) (as_dev st)) addr buf mr_addr l mr MEMTX_OK.

Definition address_space_write (st : AddressSpace) (addr : Z) (buf : list Z) : option (Z * AddressSpace) :=
  if 0 <? zlen buf then flatview_write st addr buf else Some (MEMTX_OK, st).

(** One piece: the result, its bytes, and the state. *)
Definition flatview_read_continue_step (st : AddressSpace) (mr_addr l : Z) (mr : section_mr R)
  : option (Z * list Z * AddressSpace) :=
  if negb (memory_access_is_direct mr false) then
    let l := memory_access_size (ops_of mr) l mr_addr in
    if negb (host_size l) then None
    else
    let? (result, val, dev) :=
      memory_region_dispatch_read false (ops_of mr) (as_dev st) mr_addr l false else None in
    Some (result, le_bytes (Z.to_nat l) val, mk_AddressSpace (as_dispatch st) (as_ram st) dev)
  else
  match mr with
  | region r =>
      let l := ram_length (as_ram st r) mr_addr l in
      let? bs := load (as_ram st r) mr_addr l else None in
      Some (MEMTX_OK, bs, st)
  | _ => None
  end.

Fixpoint flatview_read_continue (fuel : nat) (st : AddressSpace) (addr len mr_addr l : Z)
    (mr : section_mr R) (result : Z) (buf : list Z) : option (Z * list Z * AddressSpace) :=
  match fuel with
  | O => None
  | Datatypes.S fuel =>
      let? (r, bs, st) := flatview_read_continue_step st mr_addr l mr else None in
      let result := Z.lor result r in
      let len := u64 (len - zlen bs) in
      let buf := buf ++ bs in
      let addr := u64 (addr + zlen bs) in
      if len =? 0 then Some (result, buf, st)
      else
      let? (mr, mr_addr, l, d) := flatview_translate (as_dispatch st) addr len else None in
      flatview_read_continue fuel (mk_AddressSpace d (as_ram st) (as_dev st)) addr len mr_addr l mr result buf
  end.

Definition flatview_read (st : AddressSpace) (addr len : Z) : option (Z * list Z * AddressSpace) :=
  let? (mr, mr_addr, l, d) := flatview_translate (as_dispatch st) addr len else None in
  flatview_read_continue (Z.to_nat len) (mk_AddressSpace d (as_ram st) (as_dev st)) addr len mr_addr l mr
    MEMTX_OK [].

Definition address_space_read_full (st : AddressSpace) (addr len : Z)
  : option (Z * list Z * AddressSpace) :=
  if 0 <? len then flatview_read st addr len else Some (MEMTX_OK, [], st).

(** Memory of either kind is written, the rest is skipped in accesses of its size. *)
Fixpoint address_space_write_rom_internal (fuel : nat) (st : AddressSpace) (addr : Z) (buf : list Z)
  : option (Z * AddressSpace) :=
  match buf, fuel with
  | [], _ => Some (MEMTX_OK, st)
  | _, O => None
  | _, Datatypes.S fuel =>
      let? (mr, addr1, l, d) := flatview_translate (as_dispatch st) addr (zlen buf) else None in
      let? (l, ram) :=
        (if negb (is_ram mr) then Some (memory_access_size (ops_of mr) l addr1, as_ram st)
         else
         match mr with
         | region r =>
             let? block := store (as_ram st r) addr1 (take (Z.to_nat l) buf) else None in
             Some (l, <[r := block]> (as_ram st))
         | _ => None
         end) else None in
      address_space_write_rom_internal fuel (mk_AddressSpace d ram (as_dev st)) (u64 (addr + l)) (drop (Z.to_nat l) buf)
  end.

Definition address_space_write_rom (st : AddressSpace) (addr : Z) (buf : list Z) : option (Z * AddressSpace) :=
  address_space_write_rom_internal (length buf) st addr buf.

(** The loop of [address_space_set]. *)
Definition FILLBUF_SIZE : Z := 512.
Fixpoint set_loop (fuel : nat) (st : AddressSpace) (addr c len error : Z) : option (Z * AddressSpace) :=
  match fuel with
  | O => None
  | Datatypes.S fuel =>
      if 0 <? len then
        let l := if len <? FILLBUF_SIZE then len else FILLBUF_SIZE in
        let? (r, st) := address_space_write st addr (replicate (Z.to_nat l) c) else None in
        set_loop fuel st (u64 (addr + l)) c (len - l) (Z.lor error r)
      else Some (error, st)
  end.
Definition address_space_set (st : AddressSpace) (addr c len : Z) : option (Z * AddressSpace) :=
  set_loop (Datatypes.S (Z.to_nat len)) st addr c len MEMTX_OK.

(** [address_space_ldl] of [memory_ldst.c.inc]: a word in the order of the CPU, which
    is little-endian.  The result of the access is not looked at. *)
Definition address_space_ldl (st : AddressSpace) (addr : Z) : option (Z * AddressSpace) :=
  let? (mr, addr1, l, d) := flatview_translate (as_dispatch st) addr 4 else None in
  if (l <? 4) || negb (memory_access_is_direct mr false) then
    let? (_, val, dev) := memory_region_dispatch_read false (ops_of mr) (as_dev st) addr1 4 false else None in
    Some (u32 val, mk_AddressSpace d (as_ram st) dev)
  else
  match mr with
  | region r =>
      let? bs := load (as_ram st r) addr1 4 else None in
      Some (le_value bs, mk_AddressSpace d (as_ram st) (as_dev st))
  | _ => None
  end.
End PhysIO.
