(* ===== verification/PhysIOSpec.v ===== *)
(** * Memory keeps what is written

    For addresses that the view maps to memory, a transfer of any length works as on
    one array of bytes, across the borders of sections and blocks. *)
From stdpp Require Import base list numbers functions.
From S2P Require Import Prelude Memory MemoryView Access PhysMap PhysTree PhysMapSpec PhysIO.

Section Spec.
Context {R S : Type} `{!EqDecision R}.
Variable kind : R -> region_kind S.
Implicit Types (st : AddressSpace (R := R) (S := S)) (ram : R -> list Z).

(** The region is memory, and can be written if [w]. *)
Abbreviation memory w r := (@eq bool (memory_access_is_direct kind (region r) w) true).

Lemma memory_is_ram r w : memory w r -> is_ram kind (region r) = true.
Proof. simpl. by destruct (kind r). Qed.

Lemma memory_readable r w : memory w r -> memory false r.
Proof. simpl. by destruct (kind r). Qed.

Section Map.
(** What the address space maps, and the pages of its dispatch. *)
Variable m : Z -> option (hit (R := R)).
Variable pg : Z -> Z.

(** The address is in memory, inside of the block. *)
Definition ram_at (w : bool) ram (a : Z) : Prop :=
  exists h, m a = Some h /\ memory w (h_mr h) /\ 0 <= h_offset h < zlen (ram (h_mr h)) /\ zlen (ram (h_mr h)) < 2 ^ 64.

(** The byte of an address. *)
Definition content ram (a : Z) : option Z :=
  h ← m a; ram (h_mr h) !! Z.to_nat (h_offset h).

(** No two addresses have the same byte of memory. *)
Definition no_alias : Prop := forall x y hx hy,
  m x = Some hx -> m y = Some hy -> memory false (h_mr hx) ->
  h_mr hx = h_mr hy -> h_offset hx = h_offset hy -> x = y.

(** The piece at the start of a range in memory. *)
Lemma ram_piece w ram a len s xlat plen :
  0 < len -> translated (is_ram kind) m (a, len) (s, xlat, plen) ->
  (forall i, 0 <= i < len -> ram_at w ram (a + i)) ->
  exists r, mrs_mr s = region r /\ memory w r /\ 0 < plen <= len /\
    0 <= xlat /\ xlat + plen <= zlen (ram r) /\ zlen (ram r) < 2 ^ 64 /\
    forall i, 0 <= i < plen ->
      exists h, m (a + i) = Some h /\ h_mr h = r /\ h_offset h = xlat + i.
Proof.
  intros Hlen Ht Hram. unfold translated in Ht. cbn [fst snd] in Ht.
  destruct (Hram 0 ltac:(lia)) as (h0 & Hm & Hk & Ho). rewrite Z.add_0_r in Hm. rewrite Hm in Ht.
  destruct Ht as ((Hmr & Hx & _ & _ & _ & Hall) & Hleft & Hplen).
  set (left := mrs_offset_within_address_space s + mrs_size s - a) in *.
  rewrite Hmr, (memory_is_ram _ _ Hk) in Hplen.
  assert (Hx0 : 0 <= xlat).
  { destruct (Hall 0 ltac:(lia)) as (h & Hm' & _ & Hoff). rewrite Z.add_0_r in Hm'. rewrite Hm in Hm'.
    injection Hm' as <-. rewrite Hx, Hoff. apply Z.mod_pos_bound. lia. }
  assert (Hfit : forall i, 0 <= i < plen -> xlat + i < zlen (ram (h_mr h0)) /\
    exists h, m (a + i) = Some h /\ h_mr h = h_mr h0 /\ h_offset h = u64 (xlat + i)).
  { intros i Hi. split; [|apply Hall; lia].
    destruct (decide (xlat + i < zlen (ram (h_mr h0)))) as [|Hge]; [done|exfalso].
    destruct (Hall (zlen (ram (h_mr h0)) - xlat) ltac:(lia)) as (h & Hm' & Hr & Hoff).
    destruct (Hram (zlen (ram (h_mr h0)) - xlat) ltac:(lia)) as (h' & Hm'' & _ & Hlt).
    rewrite Hm' in Hm''. injection Hm'' as <-. rewrite Hoff, Hr in Hlt. unfold u64 in Hlt.
    rewrite Z.mod_small in Hlt; lia. }
  exists (h_mr h0). split_and!; [done|done|lia|lia|done| |lia|].
  - destruct (Hfit (plen - 1) ltac:(lia)). lia.
  - intros i Hi. destruct (Hfit i Hi) as (Hlt & h & Hm' & Hr & Hoff). exists h. split_and!; [done..|].
    rewrite Hoff. apply Z.mod_small. lia.
Qed.

Lemma ram_length_ok (block : list Z) a l :
  0 <= a -> 0 <= l -> a + l <= zlen block -> zlen block < 2 ^ 64 -> ram_length block a l = l.
Proof. intros. unfold ram_length, u64. rewrite Z.mod_small; lia. Qed.

(** The contents after a piece is stored. *)
Lemma content_store ram r xlat bs block a x :
  no_alias -> memory false r ->
  (forall i, 0 <= i < zlen bs -> exists h, m (a + i) = Some h /\ h_mr h = r /\ h_offset h = xlat + i) ->
  store (ram r) xlat bs = Some block -> ram_at false ram x ->
  content (<[r := block]> ram) x =
    if (a <=? x) && (x <? a + zlen bs) then bs !! Z.to_nat (x - a) else content ram x.
Proof.
  intros Hna Hk Hall Hst (hx & Hmx & Hkx & Hox). unfold content. rewrite Hmx. simpl.
  pose proof Hst as (Hp & Hb & _)%store_Some.
  destruct ((a <=? x) && (x <? a + zlen bs)) eqn:E.
  - destruct (Hall (x - a) ltac:(lia)) as (h & Hm' & Hr & Hoff).
    replace (a + (x - a)) with x in Hm' by lia. rewrite Hmx in Hm'. injection Hm' as <-.
    rewrite Hr, fn_lookup_insert, (store_lookup _ _ _ _ _ Hst), Hoff.
    rewrite bool_decide_eq_true_2 by lia. f_equal. lia.
  - destruct (decide (h_mr hx = r)) as [Hr|Hr]; [|by rewrite fn_lookup_insert_ne by done].
    rewrite Hr, fn_lookup_insert, (store_lookup _ _ _ _ _ Hst), bool_decide_eq_false_2; [done|].
    intros Hin. rewrite Z2Nat.id in Hin by lia.
    destruct (Hall (h_offset hx - xlat) ltac:(lia)) as (h & Hm' & Hr' & Hoff).
    assert (Hxy := Hna _ _ _ _ Hmx Hm' ltac:(congruence) ltac:(congruence) ltac:(lia)). lia.
Qed.

(** What a write does: the bytes of the range are the new ones, every other byte of
    memory, the devices and the sizes of the blocks are as before. *)
Record wrote (st st' : AddressSpace (R := R) (S := S)) (a : Z) (buf : list Z) : Prop := {
  wr_serves : serves (as_dispatch st') pg m;
  wr_dev : as_dev st' = as_dev st;
  wr_size r : zlen (as_ram st' r) = zlen (as_ram st r);
  wr_content x : ram_at false (as_ram st) x ->
    content (as_ram st') x =
    if (a <=? x) && (x <? a + zlen buf) then buf !! Z.to_nat (x - a) else content (as_ram st) x
}.

Lemma ram_at_size w ram ram' x : (forall r, zlen (ram' r) = zlen (ram r)) -> ram_at w ram x -> ram_at w ram' x.
Proof. intros Hs (h & ?). exists h. by rewrite Hs. Qed.

Lemma wrote_nil st a : serves (as_dispatch st) pg m -> wrote st st a [].
Proof. intros Hs. split; [done..|]. intros x _. rewrite zlen_nil. case_match; [lia|done]. Qed.

Lemma wrote_app st st1 st2 a buf buf' :
  wrote st st1 a buf -> wrote st1 st2 (a + zlen buf) buf' -> wrote st st2 a (buf ++ buf').
Proof.
  intros H1 H2. split.
  - apply H2.
  - rewrite (wr_dev _ _ _ _ H2). apply H1.
  - intros r. rewrite (wr_size _ _ _ _ H2). apply H1.
  - intros x Hx. rewrite (wr_content _ _ _ _ H2) by (eapply ram_at_size; [apply H1|done]).
    rewrite (wr_content _ _ _ _ H1 x Hx), zlen_app.
    assert (0 <= zlen buf) by apply zlen_nonneg. assert (0 <= zlen buf') by apply zlen_nonneg.
    unfold zlen in *. repeat case_match; try lia; try done.
    + rewrite lookup_app_r by lia. f_equal. lia.
    + by rewrite lookup_app_l by lia.
Qed.

Lemma store_wrote st d r xlat bs block a :
  serves d pg m -> no_alias -> memory false r ->
  (forall i, 0 <= i < zlen bs -> exists h, m (a + i) = Some h /\ h_mr h = r /\ h_offset h = xlat + i) ->
  store (as_ram st r) xlat bs = Some block ->
  wrote st (mk_AddressSpace d (<[r := block]> (as_ram st)) (as_dev st)) a bs.
Proof.
  intros Hs Hna Hk Hall St. split; [done|done| |].
  - intros r'. simpl. destruct (decide (r' = r)) as [->|]; [|by rewrite fn_lookup_insert_ne].
    rewrite fn_lookup_insert. by eapply store_zlen.
  - intros x Hx'. simpl. by eapply content_store.
Qed.

(** The first piece of a write: where it goes. *)
Lemma stored_piece w st a buf s xlat plen :
  no_alias -> buf <> [] ->
  translated (is_ram kind) m (a, zlen buf) (s, xlat, plen) ->
  (forall i, 0 <= i < zlen buf -> ram_at w (as_ram st) (a + i)) ->
  exists r block, mrs_mr s = region r /\ memory w r /\ 0 < plen <= zlen buf /\
    ram_length (as_ram st r) xlat plen = plen /\
    store (as_ram st r) xlat (take (Z.to_nat plen) buf) = Some block /\
    forall d, serves d pg m ->
      wrote st (mk_AddressSpace d (<[r := block]> (as_ram st)) (as_dev st)) a (take (Z.to_nat plen) buf).
Proof.
  intros Hna Hne Ht Hram.
  assert (Hlen : 0 < zlen buf) by (destruct buf; [done|unfold zlen; simpl; lia]).
  destruct (ram_piece _ _ _ _ _ _ _ Hlen Ht Hram) as (r & Hr & Hk & Hp & Hx & Hfit & Hlt & Hall).
  assert (Hl : zlen (take (Z.to_nat plen) buf) = plen) by (unfold zlen in *; rewrite length_take; lia).
  destruct (store_in (as_ram st r) xlat (take (Z.to_nat plen) buf)) as [block St]; [lia..|].
  exists r, block. split_and!; [done|done|lia|lia|apply ram_length_ok; lia|done|].
  intros d Hs. eapply store_wrote; [done|done|by eapply memory_readable|by rewrite Hl|done].
Qed.

Lemma write_step st a buf s xlat plen :
  serves (as_dispatch st) pg m -> no_alias -> buf <> [] ->
  translated (is_ram kind) m (a, zlen buf) (s, xlat, plen) ->
  (forall i, 0 <= i < zlen buf -> ram_at true (as_ram st) (a + i)) ->
  exists st', flatview_write_continue_step kind st buf xlat plen (mrs_mr s) = Some (MEMTX_OK, plen, st') /\
    0 < plen <= zlen buf /\ wrote st st' a (take (Z.to_nat plen) buf).
Proof.
  intros Hs Hna Hne Ht Hram.
  destruct (stored_piece _ _ _ _ _ _ _ Hna Hne Ht Hram) as (r & block & Hr & Hk & Hp & Hl & St & Hw).
  unfold flatview_write_continue_step. rewrite Hr, Hk. cbn [negb]. rewrite Hl, St.
  eexists. split; [done|]. split; [done|]. by apply Hw.
Qed.

Lemma translate_serves d a len : serves d pg m -> 0 <= a -> a + len <= 2 ^ 64 -> 0 < len < 2 ^ 64 ->
  exists s xlat plen d', flatview_translate kind d a len = Some (mrs_mr s, xlat, plen, d') /\
    serves d' pg m /\ translated (is_ram kind) m (a, len) (s, xlat, plen).
Proof.
  intros Hs Ha Hal Hl.
  destruct (translate_correct (is_ram kind) d pg m a len Hs) as ([[s xlat] plen] & d' & Ht & Hs' & Htr); [lia..|].
  exists s, xlat, plen, d'. unfold flatview_translate. by rewrite Ht.
Qed.

Lemma flatview_write_loop fuel : forall st a buf s xlat plen result,
  (length buf <= fuel)%nat -> zlen buf < 2 ^ 64 -> 0 <= a -> a + zlen buf <= 2 ^ 64 ->
  serves (as_dispatch st) pg m -> no_alias -> buf <> [] ->
  translated (is_ram kind) m (a, zlen buf) (s, xlat, plen) ->
  (forall i, 0 <= i < zlen buf -> ram_at true (as_ram st) (a + i)) ->
  exists st', flatview_write_continue kind fuel st a buf xlat plen (mrs_mr s) result = Some (result, st') /\
    wrote st st' a buf.
Proof.
  induction fuel as [|fuel IH]; intros st a buf s xlat plen result Hf Hl Ha Hal Hs Hna Hne Ht Hram;
    [by destruct buf; simpl in Hf; [|lia]|].
  destruct (write_step st a buf s xlat plen Hs Hna Hne Ht Hram) as (st1 & Hstep & Hp & Hw).
  cbn [flatview_write_continue]. rewrite Hstep.
  change MEMTX_OK with 0. rewrite Z.lor_0_r.
  destruct (drop (Z.to_nat plen) buf) as [|b rest] eqn:Hd.
  - exists st1. split; [done|]. by rewrite <- (take_drop (Z.to_nat plen) buf), Hd, app_nil_r.
  - assert (Hdl : zlen (b :: rest) = zlen buf - plen) by (rewrite <- Hd; unfold zlen in *; rewrite length_drop; lia).
    assert (Hb : 0 < zlen (b :: rest)) by (unfold zlen; simpl; lia).
    assert (Htl : zlen (take (Z.to_nat plen) buf) = plen) by (unfold zlen in *; rewrite length_take; lia).
    rewrite (u64_small (a + plen)) by lia.
    destruct (translate_serves (as_dispatch st1) (a + plen) (zlen (b :: rest)))
      as (s' & xlat' & plen' & d' & Htr & Hs' & Htd); [apply Hw|lia..|].
    rewrite Htr.
    destruct (IH (mk_AddressSpace d' (as_ram st1) (as_dev st1)) (a + plen) (b :: rest) s' xlat' plen' result)
      as (st2 & Hgo & Hw2); try done; try lia.
    + unfold zlen in *. lia.
    + intros i Hi. rewrite <- Z.add_assoc. eapply ram_at_size; [apply Hw|]. apply Hram. lia.
    + exists st2. split; [done|]. rewrite <- (take_drop (Z.to_nat plen) buf), Hd.
      eapply wrote_app; [done|]. rewrite Htl. split; apply Hw2.
Qed.

(** A write to memory. *)
Lemma write_correct st a buf :
  serves (as_dispatch st) pg m -> no_alias -> 0 <= a -> a + zlen buf <= 2 ^ 64 -> zlen buf < 2 ^ 64 ->
  (forall x, a <= x < a + zlen buf -> ram_at true (as_ram st) x) ->
  exists st', address_space_write kind st a buf = Some (MEMTX_OK, st') /\ wrote st st' a buf.
Proof.
  intros Hs Hna Ha Hal Hl Hram. destruct (decide (buf = [])) as [->|Hne].
  - exists st. split; [done|]. by apply wrote_nil.
  - assert (0 < zlen buf) by (destruct buf; [done|unfold zlen; simpl; lia]).
    destruct (translate_serves (as_dispatch st) a (zlen buf)) as (s & xlat & plen & d & Htr & Hs' & Htd); [done|lia..|].
    destruct (flatview_write_loop (length buf) (mk_AddressSpace d (as_ram st) (as_dev st)) a buf s xlat plen MEMTX_OK)
      as (st' & Hgo & Hw); try done; [intros; apply Hram; lia|].
    exists st'. split; [|split; apply Hw]. unfold address_space_write, flatview_write. replace (0 <? zlen buf) with true by lia. by rewrite Htr.
Qed.

(** The image of a program is written to memory of any kind. *)
Lemma rom_loop fuel : forall st a buf,
  (length buf <= fuel)%nat -> serves (as_dispatch st) pg m -> no_alias ->
  0 <= a -> a + zlen buf <= 2 ^ 64 -> zlen buf < 2 ^ 64 ->
  (forall x, a <= x < a + zlen buf -> ram_at false (as_ram st) x) ->
  exists st', address_space_write_rom_internal kind fuel st a buf = Some (MEMTX_OK, st') /\ wrote st st' a buf.
Proof.
  induction fuel as [|fuel IH]; intros st a buf Hf Hs Hna Ha Hal Hl Hram;
    (destruct (decide (buf = [])) as [->|Hne]; [exists st; split; [done|by apply wrote_nil]|]);
    [by destruct buf; simpl in Hf; [|lia]|].
  assert (0 < zlen buf) by (destruct buf; [done|unfold zlen; simpl; lia]).
  destruct (translate_serves (as_dispatch st) a (zlen buf)) as (s & xlat & plen & d & Htr & Hs' & Htd); [done|lia..|].
  destruct (stored_piece false st a buf s xlat plen Hna Hne Htd) as (r & block & Hr & Hk & Hp & _ & St & Hw);
    [intros; apply Hram; lia|].
  cbn [address_space_write_rom_internal]. destruct buf as [|b0 buf0] eqn:Eb; [done|]. rewrite <- Eb in *.
  rewrite Htr, Hr, (memory_is_ram _ _ Hk). cbn [negb]. rewrite St. specialize (Hw d Hs').
  assert (Hdl : zlen (drop (Z.to_nat plen) buf) = zlen buf - plen) by (unfold zlen in *; rewrite length_drop; lia).
  assert (Htl : zlen (take (Z.to_nat plen) buf) = plen) by (unfold zlen in *; rewrite length_take; lia).
  destruct (decide (plen = zlen buf)) as [E|E].
  - rewrite E in Hw |- *. unfold zlen in Hw |- * at 2. rewrite Nat2Z.id in Hw |- *.
    rewrite firstn_all in Hw. rewrite drop_all. eexists. split; [by destruct fuel|]. done.
  - rewrite (u64_small (a + plen)) by lia.
    destruct (IH (mk_AddressSpace d (<[r:=block]> (as_ram st)) (as_dev st)) (a + plen) (drop (Z.to_nat plen) buf))
      as (st' & Hgo & Hw'); try done; try lia.
    + unfold zlen in *. lia.
    + intros x Hx. eapply ram_at_size; [apply (wr_size _ _ _ _ Hw)|]. apply Hram. lia.
    + exists st'. split; [done|]. rewrite <- (take_drop (Z.to_nat plen) buf).
      eapply wrote_app; [done|]. by rewrite Htl.
Qed.

Lemma rom_correct st a buf :
  serves (as_dispatch st) pg m -> no_alias -> 0 <= a -> a + zlen buf <= 2 ^ 64 -> zlen buf < 2 ^ 64 ->
  (forall x, a <= x < a + zlen buf -> ram_at false (as_ram st) x) ->
  exists st', address_space_write_rom kind st a buf = Some (MEMTX_OK, st') /\ wrote st st' a buf.
Proof. intros. by apply rom_loop. Qed.

Lemma set_loop_correct c fuel : forall st a len,
  len < Z.of_nat fuel -> serves (as_dispatch st) pg m -> no_alias ->
  0 <= a -> a + len <= 2 ^ 64 -> 0 <= len < 2 ^ 64 ->
  (forall x, a <= x < a + len -> ram_at true (as_ram st) x) ->
  exists st', set_loop kind fuel st a c len MEMTX_OK = Some (MEMTX_OK, st') /\
    wrote st st' a (replicate (Z.to_nat len) c).
Proof.
  induction fuel as [|fuel IH]; intros st a len Hf Hs Hna Ha Hal Hl Hram; [lia|].
  cbn [set_loop]. destruct (0 <? len) eqn:E; cycle 1.
  { exists st. split; [done|]. replace len with 0 by lia. by apply wrote_nil. }
  set (l := if len <? FILLBUF_SIZE then len else FILLBUF_SIZE).
  assert (Hlb : 0 < l <= len) by (unfold l, FILLBUF_SIZE; case_match; lia).
  pose proof (zlen_replicate l c ltac:(lia)) as Hz.
  destruct (write_correct st a (replicate (Z.to_nat l) c)) as (st1 & Hw1 & Hw); try done; try lia.
  { intros; apply Hram; lia. }
  rewrite Hw1. change (Z.lor MEMTX_OK MEMTX_OK) with MEMTX_OK.
  assert (Hrep : replicate (Z.to_nat len) c = replicate (Z.to_nat l) c ++ replicate (Z.to_nat (len - l)) c)
    by (rewrite <- replicate_add; f_equal; lia).
  destruct (decide (l = len)) as [Eq|Ne].
  - rewrite Eq in *. exists st1. rewrite Z.sub_diag. split; [|done]. by destruct fuel; [lia|].
  - rewrite (u64_small (a + l)) by lia.
    destruct (IH st1 (a + l) (len - l)) as (st' & Hgo & Hw'); try done; try lia.
    + apply Hw.
    + intros x Hx. eapply ram_at_size; [apply (wr_size _ _ _ _ Hw)|]. apply Hram. lia.
    + exists st'. split; [done|]. rewrite Hrep. eapply wrote_app; [done|]. by rewrite Hz.
Qed.

Lemma set_correct st a c len :
  serves (as_dispatch st) pg m -> no_alias -> 0 <= a -> a + len <= 2 ^ 64 -> 0 <= len < 2 ^ 64 ->
  (forall x, a <= x < a + len -> ram_at true (as_ram st) x) ->
  exists st', address_space_set kind st a c len = Some (MEMTX_OK, st') /\
    wrote st st' a (replicate (Z.to_nat len) c).
Proof. intros. apply set_loop_correct; try done. lia. Qed.

(** The bytes of a range. *)
Definition reads ram (a : Z) (bs : list Z) : Prop :=
  forall i, 0 <= i < zlen bs -> bs !! Z.to_nat i = content ram (a + i).

Lemma reads_app ram a bs bs' : reads ram a bs -> reads ram (a + zlen bs) bs' -> reads ram a (bs ++ bs').
Proof.
  intros H1 H2 i Hi. rewrite zlen_app in Hi. destruct (decide (i < zlen bs)).
  - rewrite lookup_app_l by (unfold zlen in *; lia). apply H1. lia.
  - rewrite lookup_app_r by (unfold zlen in *; lia).
    replace (Z.to_nat i - length bs)%nat with (Z.to_nat (i - zlen bs)) by (unfold zlen in *; lia).
    rewrite H2 by lia. f_equal. lia.
Qed.

Lemma read_step st a len s xlat plen :
  0 < len -> translated (is_ram kind) m (a, len) (s, xlat, plen) ->
  (forall i, 0 <= i < len -> ram_at false (as_ram st) (a + i)) ->
  exists bs, flatview_read_continue_step kind st xlat plen (mrs_mr s) = Some (MEMTX_OK, bs, st) /\
    zlen bs = plen /\ 0 < plen <= len /\ reads (as_ram st) a bs.
Proof.
  intros Hlen Ht Hram.
  destruct (ram_piece _ _ _ _ _ _ _ Hlen Ht Hram) as (r & Hr & Hk & Hp & Hx & Hfit & Hlt & Hall).
  unfold flatview_read_continue_step. rewrite Hr, Hk. cbn [negb]. rewrite ram_length_ok by lia.
  pose proof (load_in (as_ram st r) xlat plen ltac:(lia) ltac:(lia) ltac:(lia)) as Hb. rewrite Hb.
  pose proof (load_zlen _ _ _ _ Hb) as Hz. eexists. split_and!; [done|done|lia|lia|].
  intros i Hi. destruct (Hall i ltac:(lia)) as (h & Hm & Hmr & Hoff). unfold content. rewrite Hm. simpl.
  rewrite Hmr, Hoff, lookup_take_lt, lookup_drop by lia. f_equal. lia.
Qed.

Lemma flatview_read_loop fuel : forall st a len s xlat plen result buf,
  len <= Z.of_nat fuel -> 0 < len < 2 ^ 64 -> 0 <= a -> a + len <= 2 ^ 64 ->
  serves (as_dispatch st) pg m ->
  translated (is_ram kind) m (a, len) (s, xlat, plen) ->
  (forall i, 0 <= i < len -> ram_at false (as_ram st) (a + i)) ->
  exists bs d, flatview_read_continue kind fuel st a len xlat plen (mrs_mr s) result buf =
      Some (result, buf ++ bs, mk_AddressSpace d (as_ram st) (as_dev st)) /\
    serves d pg m /\ zlen bs = len /\ reads (as_ram st) a bs.
Proof.
  induction fuel as [|fuel IH]; intros st a len s xlat plen result buf Hf Hl Ha Hal Hs Ht Hram; [lia|].
  destruct (read_step st a len s xlat plen) as (bs & Hstep & Hz & Hp & Hrd); [lia|done..|].
  cbn [flatview_read_continue]. rewrite Hstep, Hz. change MEMTX_OK with 0. rewrite Z.lor_0_r.
  rewrite (u64_small (len - plen)) by lia.
  destruct (len - plen =? 0) eqn:E.
  - exists bs, (as_dispatch st). destruct st. split_and!; [done|done|lia|done].
  - rewrite (u64_small (a + plen)) by lia.
    destruct (translate_serves (as_dispatch st) (a + plen) (len - plen))
      as (s' & xlat' & plen' & d' & Htr & Hs' & Htd); [done|lia..|].
    rewrite Htr.
    destruct (IH (mk_AddressSpace d' (as_ram st) (as_dev st)) (a + plen) (len - plen) s' xlat' plen' result (buf ++ bs))
      as (bs' & d & Hgo & Hsv & Hz' & Hrd'); try done; try lia.
    + intros i Hi. rewrite <- Z.add_assoc. apply Hram. lia.
    + exists (bs ++ bs'), d. rewrite Hgo, <- app_assoc. split_and!; [done|done|rewrite zlen_app; lia|].
      apply reads_app; [done|]. by rewrite Hz.
Qed.

(** A read of memory. *)
Lemma read_correct st a len :
  serves (as_dispatch st) pg m -> 0 <= a -> a + len <= 2 ^ 64 -> 0 <= len < 2 ^ 64 ->
  (forall x, a <= x < a + len -> ram_at false (as_ram st) x) ->
  exists bs d, address_space_read_full kind st a len =
      Some (MEMTX_OK, bs, mk_AddressSpace d (as_ram st) (as_dev st)) /\
    serves d pg m /\ zlen bs = len /\ reads (as_ram st) a bs.
Proof.
  intros Hs Ha Hal Hl Hram. unfold address_space_read_full, flatview_read. destruct (0 <? len) eqn:E.
  - destruct (translate_serves (as_dispatch st) a len) as (s & xlat & plen & d & Htr & Hs' & Htd); [done|lia..|].
    rewrite Htr.
    destruct (flatview_read_loop (Z.to_nat len) (mk_AddressSpace d (as_ram st) (as_dev st)) a len s xlat plen MEMTX_OK [])
      as (bs & d' & Hgo & Hrest); try done; try lia.
    + intros; apply Hram; lia.
    + by exists bs, d'.
  - exists [], (as_dispatch st). destruct st. split_and!; [done|done|unfold zlen; simpl; lia|].
    intros i Hi. unfold zlen in Hi. simpl in Hi. lia.
Qed.

(** ** Devices *)

(** A transfer that a device can take at once is one access to it. *)
Lemma io_translate d a len h ops :
  serves d pg m -> m a = Some h -> kind (h_mr h) = KIo ops ->
  0 <= a -> a + len <= 2 ^ 64 -> 0 < len < 2 ^ 64 ->
  exists d', flatview_translate kind d a len = Some (region (h_mr h), h_offset h, len, d') /\ serves d' pg m.
Proof.
  intros Hs Hm Hk Ha Hal Hl.
  destruct (translate_serves d a len) as (s & xlat & plen & d' & Htr & Hs' & Htd); [done..|].
  unfold translated in Htd. cbn [fst snd] in Htd. rewrite Hm in Htd.
  destruct Htd as ((Hmr & Hx & _) & _ & Hp). rewrite Hmr in *. simpl in Hp. rewrite Hk in Hp.
  exists d'. by rewrite Htr, Hx, Hp.
Qed.

Lemma io_read st a len h ops :
  serves (as_dispatch st) pg m -> m a = Some h -> kind (h_mr h) = KIo ops ->
  0 <= a -> a + len <= 2 ^ 64 -> 0 < len < 2 ^ 64 ->
  memory_access_size ops len (h_offset h) = len -> host_size len = true ->
  exists d, serves d pg m /\
    address_space_read_full kind st a len =
      (let? (r, v, dev) := memory_region_dispatch_read false ops (as_dev st) (h_offset h) len false else None in
       Some (r, le_bytes (Z.to_nat len) v, mk_AddressSpace d (as_ram st) dev)).
Proof.
  intros Hs Hm Hk Ha Hal Hl Hsize Hhost.
  destruct (io_translate _ _ _ _ _ Hs Hm Hk Ha Hal Hl) as (d & Htr & Hs'). exists d. split; [done|].
  unfold address_space_read_full, flatview_read. replace (0 <? len) with true by lia. rewrite Htr.
  destruct (Z.to_nat len) as [|n] eqn:En; [lia|]. cbn [flatview_read_continue].
  unfold flatview_read_continue_step. simpl memory_access_is_direct. simpl ops_of. rewrite Hk. cbn [negb].
  rewrite Hsize, Hhost, En. cbn [negb as_dev].
  destruct (memory_region_dispatch_read _ _ _ _ _ _) as [[[r v] dev]|]; [|done].
  assert (Hz : zlen (le_bytes (Datatypes.S n) v) = len) by (unfold zlen; rewrite le_bytes_length; lia).
  rewrite Hz, Z.sub_diag. done.
Qed.

Lemma io_write st a buf h ops :
  serves (as_dispatch st) pg m -> m a = Some h -> kind (h_mr h) = KIo ops ->
  0 <= a -> a + zlen buf <= 2 ^ 64 -> 0 < zlen buf < 2 ^ 64 ->
  memory_access_size ops (zlen buf) (h_offset h) = zlen buf -> host_size (zlen buf) = true ->
  exists d, serves d pg m /\
    address_space_write kind st a buf =
      (let? (r, dev) := memory_region_dispatch_write false ops (as_dev st) (h_offset h) (le_value buf) (zlen buf) false
       else None in
       Some (r, mk_AddressSpace d (as_ram st) dev)).
Proof.
  intros Hs Hm Hk Ha Hal Hl Hsize Hhost.
  destruct (io_translate _ _ _ _ _ Hs Hm Hk Ha Hal Hl) as (d & Htr & Hs'). exists d. split; [done|].
  unfold address_space_write, flatview_write. replace (0 <? zlen buf) with true by lia. rewrite Htr.
  destruct (length buf) as [|n] eqn:En; [unfold zlen in Hl; lia|]. cbn [flatview_write_continue].
  unfold flatview_write_continue_step. simpl memory_access_is_direct. simpl ops_of. rewrite Hk. cbn [negb].
  rewrite Hsize, Hhost. cbn [negb as_dev].
  rewrite (firstn_all2 buf) by (unfold zlen; lia).
  destruct (memory_region_dispatch_write _ _ _ _ _ _ _) as [[r dev]|]; [|done].
  rewrite (drop_ge buf) by (unfold zlen; lia). done.
Qed.
End Map.

(** ** Views *)

(** Every block of memory is mapped once, and is large enough. *)
Record backed (view : FlatView R) ram : Prop := {
  bk_once : NoDup (map fr_mr (List.filter (fun fr => memory_access_is_direct kind (region (fr_mr fr)) false) view));
  bk_fits : Forall (fun fr => memory false (fr_mr fr) ->
    0 <= fr_offset_in_region fr /\
    fr_offset_in_region fr + ar_size (fr_addr fr) <= zlen (ram (fr_mr fr)) < 2 ^ 64) view
}.

Definition in_memory (view : FlatView R) (w : bool) (a : Z) : bool :=
  match view_at view a with
  | Some h => memory_access_is_direct kind (region (h_mr h)) w
  | None => false
  end.

Lemma view_at_range (view : FlatView R) a h : view_at view a = Some h ->
  exists fr, In fr view /\ h_mr h = fr_mr fr /\
    0 <= a - ar_start (fr_addr fr) < ar_size (fr_addr fr) /\
    h_offset h = u64 (fr_offset_in_region fr + (a - ar_start (fr_addr fr))).
Proof.
  induction view as [|fr view IH]; simpl; [done|].
  destruct (addrrange_contains (fr_addr fr) a) eqn:E.
  - intros [= <-]. exists fr. unfold addrrange_contains, addrrange_end in E. simpl. split_and!; [by left|done|lia|lia|done].
  - intros H. destruct (IH H) as (fr' & ? & ?). exists fr'. split; [by right|done].
Qed.

Lemma NoDup_map_inj {A B} (f : A -> B) l x y :
  NoDup (map f l) -> In x l -> In y l -> f x = f y -> x = y.
Proof.
  induction l as [|z l IH]; simpl; [done|].
  inversion 1 as [|? ? Hz Hl]; subst. intros [->|Hx] [->|Hy] E; [done| | |by apply IH].
  - destruct Hz. rewrite E. apply list_elem_of_In. by apply in_map.
  - destruct Hz. rewrite <- E. apply list_elem_of_In. by apply in_map.
Qed.

Lemma backed_at (view : FlatView R) ram a h : backed view ram -> view_at view a = Some h -> memory false (h_mr h) ->
  exists fr, In fr (List.filter (fun fr => memory_access_is_direct kind (region (fr_mr fr)) false) view) /\
    h_mr h = fr_mr fr /\ h_offset h = fr_offset_in_region fr + (a - ar_start (fr_addr fr)) /\
    0 <= h_offset h < zlen (ram (h_mr h)) /\ zlen (ram (h_mr h)) < 2 ^ 64.
Proof.
  intros Hb Hv Hm. destruct (view_at_range _ _ _ Hv) as (fr & Hin & Hr & Hd & Ho). rewrite Hr in *.
  pose proof (proj1 (List.Forall_forall _ _) (bk_fits _ _ Hb) fr Hin Hm) as (H0 & Hs).
  rewrite u64_small in Ho by lia. exists fr. split; [by apply filter_In|]. split_and!; [done|done|lia..].
Qed.

Lemma backed_no_alias view ram : backed view ram -> no_alias (view_at view).
Proof.
  intros Hb x y hx hy Hx Hy Hm Hr Ho.
  destruct (backed_at _ _ _ _ Hb Hx Hm) as (fx & Hfx & Hrx & Hox & _).
  destruct (backed_at _ _ _ _ Hb Hy) as (fy & Hfy & Hry & Hoy & _); [by rewrite <- Hr|].
  assert (fx = fy) as -> by (eapply NoDup_map_inj; [apply (bk_once _ _ Hb)|done|done|congruence]). lia.
Qed.

Lemma backed_ram_at view ram w a : backed view ram -> in_memory view w a = true -> ram_at (view_at view) w ram a.
Proof.
  unfold in_memory. intros Hb Hin. destruct (view_at view a) as [h|] eqn:E; [|done]. exists h. split; [done|].
  split; [done|]. by destruct (backed_at _ _ _ _ Hb E) as (fr & _ & _ & _ & ?); [by eapply memory_readable|].
Qed.

(** ** Sequences of transfers *)
Inductive transfer :=
| TWrite (addr : Z) (buf : list Z)
| TLoad (addr : Z) (buf : list Z)
| TSet (addr c len : Z)
| TRead (addr len : Z).

(** The result of the transfer, and what was read. *)
Definition run_transfer st (t : transfer) : option (Z * list Z * AddressSpace) :=
  match t with
  | TWrite a buf => let? (r, st) := address_space_write kind st a buf else None in Some (r, [], st)
  | TLoad a buf => let? (r, st) := address_space_write_rom kind st a buf else None in Some (r, [], st)
  | TSet a c len => let? (r, st) := address_space_set kind st a c len else None in Some (r, [], st)
  | TRead a len => address_space_read_full kind st a len
  end.
Fixpoint run_transfers st (ts : list transfer) : option (list (Z * list Z) * AddressSpace) :=
  match ts with
  | [] => Some ([], st)
  | t :: ts =>
      let? (r, bs, st) := run_transfer st t else None in
      let? (rs, st) := run_transfers st ts else None in
      Some ((r, bs) :: rs, st)
  end.

(** One array of bytes. *)
Definition flat_write (mem : Z -> option Z) (a : Z) (buf : list Z) (x : Z) : option Z :=
  if (a <=? x) && (x <? a + zlen buf) then buf !! Z.to_nat (x - a) else mem x.
Definition flat_read (mem : Z -> option Z) (a len : Z) : list Z :=
  map (fun i => default 0 (mem (a + Z.of_nat i))) (seq 0 (Z.to_nat len)).
Definition flat_transfer (mem : Z -> option Z) (t : transfer) : list Z * (Z -> option Z) :=
  match t with
  | TWrite a buf | TLoad a buf => ([], flat_write mem a buf)
  | TSet a c len => ([], flat_write mem a (replicate (Z.to_nat len) c))
  | TRead a len => (flat_read mem a len, mem)
  end.
Fixpoint flat_transfers (mem : Z -> option Z) (ts : list transfer) : list (Z * list Z) :=
  match ts with
  | [] => []
  | t :: ts => let '(bs, mem) := flat_transfer mem t in (MEMTX_OK, bs) :: flat_transfers mem ts
  end.

(** Where a transfer goes, and whether it needs memory that can be written. *)
Definition target (t : transfer) : Z * Z * bool :=
  match t with
  | TWrite a buf => (a, zlen buf, true)
  | TLoad a buf => (a, zlen buf, false)
  | TSet a _ len => (a, len, true)
  | TRead a len => (a, len, false)
  end.
Definition transfer_ok (view : FlatView R) (t : transfer) : Prop :=
  let '(a, len, w) := target t in
  0 <= a /\ 0 <= len < 2 ^ 64 /\ a + len <= 2 ^ 64 /\
  forall x, a <= x < a + len -> in_memory view w x = true.

Section Simulation.
Variables (view : FlatView R) (pg : Z -> Z) (dev : S).

(** The address space keeps the bytes of the array. *)
Record holds st (mem : Z -> option Z) : Prop := {
  ho_serves : serves (as_dispatch st) pg (view_at view);
  ho_backed : backed view (as_ram st);
  ho_dev : as_dev st = dev;
  ho_content x : in_memory view false x = true -> content (view_at view) (as_ram st) x = mem x
}.

Lemma holds_initial d ram : serves d pg (view_at view) -> backed view ram ->
  holds (mk_AddressSpace d ram dev) (content (view_at view) ram).
Proof. by split. Qed.

Lemma backed_size ram ram' : (forall r, zlen (ram' r) = zlen (ram r)) -> backed view ram -> backed view ram'.
Proof.
  intros Hs [H1 H2]. split; [done|]. eapply List.Forall_impl; [|exact H2]. intros fr H Hm. by rewrite Hs; apply H.
Qed.

Lemma wrote_holds st st' mem a buf :
  holds st mem -> wrote (view_at view) pg st st' a buf -> holds st' (flat_write mem a buf).
Proof.
  intros H Hw. split; [apply Hw| | |].
  - eapply backed_size; [apply Hw|apply H].
  - rewrite (wr_dev _ _ _ _ _ _ Hw). apply H.
  - intros x Hx. rewrite (wr_content _ _ _ _ _ _ Hw) by (apply backed_ram_at; [apply H|done]).
    unfold flat_write. by rewrite (ho_content _ _ H x Hx).
Qed.

Lemma reads_flat ram mem a bs :
  backed view ram -> (forall x, in_memory view false x = true -> content (view_at view) ram x = mem x) ->
  (forall x, a <= x < a + zlen bs -> in_memory view false x = true) ->
  reads (view_at view) ram a bs -> bs = flat_read mem a (zlen bs).
Proof.
  intros Hb Hc Hin Hr. apply list_eq. intros i. unfold flat_read, zlen at 1. rewrite Nat2Z.id.
  destruct (decide (i < length bs)%nat) as [Hi|Hi].
  - destruct (lookup_lt_is_Some_2 bs i Hi) as [v Hv]. rewrite Hv. symmetry.
    rewrite list_lookup_fmap, lookup_seq_lt by done. simpl. f_equal.
    rewrite <- Hc by (apply Hin; unfold zlen; lia).
    rewrite <- (Hr (Z.of_nat i)) by (unfold zlen; lia). by rewrite Nat2Z.id, Hv.
  - rewrite !lookup_ge_None_2; [done| |lia]. rewrite length_map, length_seq. lia.
Qed.

Lemma transfer_correct st mem t : holds st mem -> transfer_ok view t ->
  exists st', run_transfer st t = Some (MEMTX_OK, (flat_transfer mem t).1, st') /\
    holds st' (flat_transfer mem t).2.
Proof.
  intros H Hok. pose proof (backed_no_alias _ _ (ho_backed _ _ H)) as Hna.
  destruct t as [a buf|a buf|a c len|a len]; unfold transfer_ok in Hok; cbn [target] in Hok;
    destruct Hok as (Ha & Hl & Hal & Hin);
    pose proof (fun x Hx => backed_ram_at _ _ _ x (ho_backed _ _ H) (Hin x Hx)) as Hram; simpl.
  - destruct (write_correct (view_at view) pg st a buf) as (st' & -> & Hw); [apply H|done|lia..|done|].
    exists st'. split; [done|]. by eapply wrote_holds.
  - destruct (rom_correct (view_at view) pg st a buf) as (st' & -> & Hw); [apply H|done|lia..|done|].
    exists st'. split; [done|]. by eapply wrote_holds.
  - destruct (set_correct (view_at view) pg st a c len) as (st' & -> & Hw); [apply H|done|lia..|done|].
    exists st'. split; [done|]. by eapply wrote_holds.
  - destruct (read_correct (view_at view) pg st a len) as (bs & d & -> & Hs & Hz & Hr); [apply H|lia..|done|].
    exists (mk_AddressSpace d (as_ram st) (as_dev st)). split; [|split; [done|apply H|apply H|apply H]].
    rewrite <- Hz in Hin |- *. by erewrite <- (reads_flat _ _ _ bs (ho_backed _ _ H) (ho_content _ _ H)).
Qed.

Lemma transfers_correct ts : forall st mem, holds st mem -> Forall (transfer_ok view) ts ->
  exists st', run_transfers st ts = Some (flat_transfers mem ts, st') /\ as_dev st' = dev.
Proof.
  induction ts as [|t ts IH]; intros st mem H Hall; [exists st; split; [done|apply H]|].
  apply Forall_cons_iff in Hall as [Ht Hall].
  destruct (transfer_correct st mem t H Ht) as (st1 & Hrun & H1). cbn [run_transfers flat_transfers].
  rewrite Hrun. destruct (flat_transfer mem t) as [bs mem1]. cbn [fst snd] in *.
  destruct (IH st1 mem1 H1 Hall) as (st' & -> & Hd). by exists st'.
Qed.
End Simulation.

(** C8: memory behind the dispatch is an array of bytes.  For a view with few
    enough ranges, in which every block of memory is mapped once, the dispatch is
    built, and every sequence of writes, loads of an image, fills and reads of
    addresses in memory, of any length and across the borders of blocks and pages,
    runs to its end with good results, reads what one array of bytes would give,
    and leaves the devices alone. *)
Theorem transfers_refine_memory (hint : Z) (view : FlatView R) (ram : R -> list Z) (dev : S)
    (ts : list transfer) :
  view_ok 0 (2 ^ 64) view -> 1 + 5 * zlen view <= 1024 -> backed view ram ->
  Forall (transfer_ok view) ts ->
  exists d st',
    dispatch_of hint view = Some d /\
    run_transfers (mk_AddressSpace d ram dev) ts =
      Some (flat_transfers (content (view_at view) ram) ts, st') /\
    as_dev st' = dev.
Proof.
  intros Hok Hz Hb Hall. destruct (dispatch_of_serves hint view Hok Hz) as (d & pg & Hd & Hsv).
  destruct (transfers_correct view pg dev ts (mk_AddressSpace d ram dev) (content (view_at view) ram))
    as (st' & Hrun & Hdev); [by apply holds_initial|done|].
  by exists d, st'.
Qed.
End Spec.

(** ** Example *)
Module PhysIOExample.
(** Two blocks of 16 bytes, one behind the other; the second is mapped from its
    fifth byte on. *)
Definition range (r : nat) (offset start size : Z) : FlatRange nat :=
  mk_FlatRange r offset (addrrange_make start size) 0 false false false false.
Definition view : FlatView nat := [range 0 0 0x1000 16; range 1 4 0x1010 12].
Definition kind (_ : nat) : region_kind unit := KRam.
Definition ram (r : nat) : list Z := replicate 16 (Z.of_nat r).
Definition transfers : list transfer :=
  [TSet 0x1002 9 4; TLoad 0x100e [1; 2; 3; 4]; TWrite 0x100f [5; 6]; TRead 0x100c 8].

Lemma transfers_refine_memory_witness :
  exists d st', dispatch_of 16 view = Some d /\
    run_transfers kind (mk_AddressSpace d ram tt) transfers =
      Some ([(MEMTX_OK, []); (MEMTX_OK, []); (MEMTX_OK, []); (MEMTX_OK, [0; 0; 1; 5; 6; 4; 1; 1])], st').
Proof.
  destruct (transfers_refine_memory kind 16 view ram tt transfers) as (d & st' & Hd & Hr & _).
  - vm_compute. intuition discriminate.
  - vm_compute. discriminate.
  - split; [apply (bool_decide_unpack _); vm_compute; exact I|].
    repeat (apply List.Forall_cons; [intros _; vm_compute; intuition discriminate|]). apply List.Forall_nil.
  - assert (Hin : forall w x, 0x1000 <= x < 0x101c -> in_memory kind view w x = true).
    { intros w x Hx. unfold in_memory, view, range, view_at, addrrange_contains, addrrange_end.
      cbn [fr_addr ar_start ar_size].
      destruct ((4096 <=? x) && (x <? 4096 + 16)) eqn:E1; [done|].
      by replace ((4112 <=? x) && (x <? 4112 + 12)) with true by lia. }
    unfold transfers, transfer_ok. repeat (apply List.Forall_cons;
      [split_and!; [cbv; intuition discriminate..|]; intros x Hx; apply Hin; unfold zlen in Hx; simpl in Hx; lia|]).
    apply List.Forall_nil.
  - exists d, st'. split; [exact Hd|]. rewrite Hr. reflexivity.
Defined.
End PhysIOExample.
