(* ===== verification/Loader.v ===== *)
(** * Loading the firmware

    [src/qemu/hw/core/loader.c]: the list of ROM images that are written to memory at
    every reset, with [src/qemu/include/hw/elf_ops.h.inc], which makes them from an
    ELF file, and [armv7m_load_kernel] of [src/qemu/hw/arm/armv7m.c].  Images with a
    memory region or a [fw_cfg] file of their own, notes, relocations and symbols do
    not occur for the kernel of this board and are left out, and the host is
    little-endian.  A file is the list of its bytes; [None] is the end of the
    program or an access that leaves an array. *)
From stdpp Require Import base list numbers functions.
From S2P Require Import Prelude Memory MemoryView Access PhysMap PhysTree PhysMapSpec PhysIO.

Section Loader.
Context {R S : Type} `{!EqDecision R}.
Variable kind : R -> region_kind S.
(** Address spaces are compared as pointers; this is that of the system. *)
Variable address_space_memory : Z.

(** ** Images *)

(** [data] is what can be read from the pointer on. *)
Record Rom := mk_Rom {
  romsize : Z;
  datasize : Z;
  rom_data : option (list Z);
  rom_as : Z;
  isrom : bool;
  committed : bool;
  rom_addr : Z
}.

(** The variables of the file. *)
Record Roms := mk_Roms { roms : list Rom; roms_loaded : bool }.

Definition rom_free_data (rom : Rom) : Rom :=
  mk_Rom (romsize rom) (datasize rom) None (rom_as rom) (isrom rom) (committed rom) (rom_addr rom).

Definition rom_order_compare (rom item : Rom) : bool :=
  (rom_as item <? rom_as rom) || ((rom_as rom =? rom_as item) && (rom_addr item <=? rom_addr rom)).

Fixpoint insert_ordered (rom : Rom) (l : list Rom) : list Rom :=
  match l with
  | [] => [rom]
  | item :: rest => if rom_order_compare rom item then item :: insert_ordered rom rest else rom :: l
  end.

Definition rom_insert (rom : Rom) (rs : Roms) : option Roms :=
  if roms_loaded rs then None
  else
  let as_ := if rom_as rom =? 0 then address_space_memory else rom_as rom in
  let rom := mk_Rom (romsize rom) (datasize rom) (rom_data rom) as_ (isrom rom) false (rom_addr rom) in
  Some (mk_Roms (insert_ordered rom (roms rs)) false).

Definition rom_add_elf_program (data : option (list Z)) (datasize romsize addr as_ : Z) (rs : Roms)
  : option Roms :=
  rom_insert (mk_Rom romsize datasize data as_ false false addr) rs.

(** Without a directory for [fw_cfg]. *)
Definition rom_add_file (file : list Z) (addr as_ : Z) (rs : Roms) : option Roms :=
  rom_insert (mk_Rom (zlen file) (zlen file) (Some file) as_ false false addr) rs.

Definition rom_transaction_begin (rs : Roms) : Roms :=
  mk_Roms (map (fun rom => mk_Rom (romsize rom) (datasize rom) (rom_data rom) (rom_as rom) (isrom rom) true
                             (rom_addr rom)) (roms rs)) (roms_loaded rs).
Definition rom_transaction_end (commit : bool) (rs : Roms) : Roms :=
  if commit then rom_transaction_begin rs
  else mk_Roms (List.filter committed (roms rs)) (roms_loaded rs).

(** ** Reset *)

(** The address spaces, which share the blocks of memory and the devices. *)
Record Guest := mk_Guest {
  g_spaces : Z -> AddressSpaceDispatch (R := R);
  g_ram : R -> list Z;
  g_dev : S
}.
Definition space (g : Guest) (as_ : Z) : AddressSpace (R := R) (S := S) :=
  mk_AddressSpace (g_spaces g as_) (g_ram g) (g_dev g).
Definition set_space (g : Guest) (as_ : Z) (st : AddressSpace (R := R) (S := S)) : Guest :=
  mk_Guest (<[as_ := as_dispatch st]> (g_spaces g)) (as_ram st) (as_dev st).

(** One round of the loop of [rom_reset]; the results of the writes are not looked
    at. *)
Definition rom_reset_one (inmigrate : bool) (rom : Rom) (g : Guest) : option (Rom * Guest) :=
  if inmigrate then Some (if isrom rom then rom_free_data rom else rom, g)
  else
  match rom_data rom with
  | None => Some (rom, g)
  | Some data =>
      let? buf := load data 0 (datasize rom) else None in
      let? (_, st) := address_space_write_rom kind (space g (rom_as rom)) (rom_addr rom) buf else None in
      let? (_, st) := address_space_set kind st (u64 (rom_addr rom + datasize rom)) 0
                        (u64 (romsize rom - datasize rom)) else None in
      Some (if isrom rom then rom_free_data rom else rom, set_space g (rom_as rom) st)
  end.

Fixpoint reset_loop (inmigrate : bool) (l : list Rom) (g : Guest) : option (list Rom * Guest) :=
  match l with
  | [] => Some ([], g)
  | rom :: l =>
      let? (rom, g) := rom_reset_one inmigrate rom g else None in
      let? (l, g) := reset_loop inmigrate l g else None in
      Some (rom :: l, g)
  end.
Definition rom_reset (inmigrate : bool) (rs : Roms) (g : Guest) : option (Roms * Guest) :=
  let? (l, g) := reset_loop inmigrate (roms rs) g else None in
  Some (mk_Roms l (roms_loaded rs), g).

(** ** The check before the machine runs *)
Definition roms_overlap (last_rom : option Rom) (this_rom : Rom) : bool :=
  match last_rom with
  | None => false
  | Some last => (rom_as last =? rom_as this_rom) && (rom_addr this_rom <? u64 (rom_addr last + romsize last))
  end.

Definition memory_region_is_rom (r : R) : bool := match kind r with KRom => true | _ => false end.

(** [system] is the view of [get_system_memory]. *)
Fixpoint check_loop (system : FlatView R) (last : option Rom) (l : list Rom) : bool * list Rom :=
  match l with
  | [] => (false, [])
  | rom :: l =>
      let is_rom := match memory_region_find system (rom_addr rom) 1 with
                    | Some section => memory_region_is_rom (mrs_mr section)
                    | None => false
                    end in
      let rom' := mk_Rom (romsize rom) (datasize rom) (rom_data rom) (rom_as rom) is_rom (committed rom)
                    (rom_addr rom) in
      let '(found, rest) := check_loop system (Some rom) l in
      (roms_overlap last rom || found, rom' :: rest)
  end.
Definition rom_check_and_register_reset (system : FlatView R) (rs : Roms) : Z * Roms :=
  let '(found_overlap, l) := check_loop system None (roms rs) in
  if found_overlap then (-1, mk_Roms l (roms_loaded rs)) else (0, mk_Roms l true).

(** ** Looking for an image *)
Fixpoint find_rom (addr size : Z) (l : list Rom) : option Rom :=
  match l with
  | [] => None
  | rom :: l =>
      if addr <? rom_addr rom then find_rom addr size l
      else if u64 (rom_addr rom + romsize rom) <? u64 (addr + size) then find_rom addr size l
      else Some rom
  end.

(** What can be read at the pointer; [None] is NULL. *)
Definition rom_ptr (rs : Roms) (addr size : Z) : option (list Z) :=
  rom ← find_rom addr size (roms rs);
  data ← rom_data rom;
  Some (drop (Z.to_nat (addr - rom_addr rom)) data).

Fixpoint find_alias (rs : Roms) (r : R) (xlat size : Z) (view : FlatView R) : option (list Z) :=
  match view with
  | [] => None
  | fr :: view =>
      if decide (fr_mr fr = r) then
        match rom_ptr rs (u64 (ar_start (fr_addr fr) + xlat - fr_offset_in_region fr)) size with
        | Some p => Some p
        | None => find_alias rs r xlat size view
        end
      else find_alias rs r xlat size view
  end.

(** [len_unused] has any value. *)
Definition rom_ptr_for_as (rs : Roms) (view : FlatView R) (d : AddressSpaceDispatch (R := R)) (len_unused : Z)
    (addr size : Z) : option (option (list Z) * AddressSpaceDispatch) :=
  match rom_ptr rs addr size with
  | Some p => Some (Some p, d)
  | None =>
      let? (mr, xlat, _, d) := flatview_translate kind d addr len_unused else None in
      match mr with
      | region r => Some (find_alias rs r xlat size view, d)
      | _ => Some (None, d)
      end
  end.
End Loader.

(** ** ELF files *)
Abbreviation ELF_LOAD_FAILED := (-1).
Abbreviation ELF_LOAD_NOT_ELF := (-2).
Abbreviation ELF_LOAD_WRONG_ARCH := (-3).
Abbreviation ELF_LOAD_WRONG_ENDIAN := (-4).
Abbreviation ELF_LOAD_TOO_BIG := (-5).
Abbreviation PT_LOAD := 1.
Abbreviation PF_X := 1.
Abbreviation EM_ARM := 40.
Abbreviation ELFDATA2LSB := 1.
Abbreviation ELFCLASS64 := 2.
Abbreviation SSIZE_MAX := (2 ^ 63 - 1).

(** The fields that the loader reads. *)
Record elfhdr := mk_elfhdr { e_machine : Z; e_entry : Z; e_phoff : Z; e_phnum : Z }.
Record elf_phdr := mk_elf_phdr {
  p_type : Z; p_flags : Z; p_offset : Z; p_vaddr : Z; p_paddr : Z; p_filesz : Z; p_memsz : Z }.

Section Elf.
(** The file is included once for each of the two sizes of a word. *)
Variable is64 : bool.
Definition elf_word (z : Z) : Z := if is64 then u64 z else u32 z.
Abbreviation word_size := (if is64 then 8 else 4).

Abbreviation field file off n := (le_value <$> load file off n).

Abbreviation ehdr_size := (if is64 then 64 else 52).
Definition read_ehdr (file : list Z) : option elfhdr :=
  let? _ := load file 0 ehdr_size else None in
  let? machine := field file 18 2 else None in
  let? entry := field file 24 word_size else None in
  let? phoff := field file (24 + word_size) word_size else None in
  let? phnum := field file (ehdr_size - 8) 2 else None in
  Some (mk_elfhdr machine entry phoff phnum).

Abbreviation phdr_size := (if is64 then 56 else 32).
Definition read_phdr (file : list Z) (p : Z) : option elf_phdr :=
  let? _ := load file p phdr_size else None in
  let? type := field file p 4 else None in
  let? flags := field file (p + if is64 then 4 else 24) 4 else None in
  let w := word_size in
  let? offset := field file (p + w) w else None in
  let? vaddr := field file (p + 2 * w) w else None in
  let? paddr := field file (p + 3 * w) w else None in
  let? filesz := field file (p + 4 * w) w else None in
  let? memsz := field file (p + 5 * w) w else None in
  Some (mk_elf_phdr type flags offset vaddr paddr filesz memsz).
Fixpoint read_phdrs (file : list Z) (p : Z) (n : nat) : option (list elf_phdr) :=
  match n with
  | O => Some []
  | Datatypes.S n =>
      let? ph := read_phdr file p else None in
      let? phs := read_phdrs file (p + phdr_size) n else None in
      Some (ph :: phs)
  end.

(** Some machines run the files of others. *)
Definition machine_accepts (elf_machine machine : Z) : bool :=
  if elf_machine =? 21 then (machine =? 21) || (machine =? 20)
  else if elf_machine =? 62 then (machine =? 62) || (machine =? 3)
  else if elf_machine =? 189 then (machine =? 189) || (machine =? 0xBAAB)
  else if (elf_machine =? 8) || (elf_machine =? 249) then (machine =? 8) || (machine =? 249)
  else elf_machine =? machine.

(** The part of a segment that is not in the file is left out if it overlaps
    another segment. *)
Definition segment_size (phdrs : list elf_phdr) (i : nat) (ph : elf_phdr) : Z :=
  if p_filesz ph <? p_memsz ph then
    let zero_start := elf_word (p_paddr ph + p_filesz ph) in
    let zero_end := elf_word (p_paddr ph + p_memsz ph) in
    if existsb (fun '(j, jph) =>
         negb (Nat.eqb i j) && (p_type jph =? PT_LOAD) &&
         negb ((zero_end <=? p_paddr jph) || (elf_word (p_paddr jph + p_memsz jph) <=? zero_start)))
         (imap pair phdrs)
    then p_filesz ph else p_memsz ph
  else p_memsz ph.

Section Load.
Variables (address_space_memory : Z) (as_ : Z).

Definition adjust_entry (h : elfhdr) (ph : elf_phdr) (entry : Z) : Z :=
  if negb (p_vaddr ph =? p_paddr ph) && (p_vaddr ph <=? e_entry h) &&
     (e_entry h <? elf_word (p_vaddr ph + p_filesz ph)) && negb (Z.land (p_flags ph) PF_X =? 0)
  then elf_word (e_entry h - p_vaddr ph + p_paddr ph) else entry.

(** The result, the entry point and the images; images that were added before a
    failure stay. *)
Fixpoint load_segments (h : elfhdr) (phdrs : list elf_phdr) (file : list Z) (todo : list (nat * elf_phdr))
    (total_size entry : Z) (rs : Roms) : option (Z * Z * Roms) :=
  match todo with
  | [] => Some (total_size, entry, rs)
  | (i, ph) :: todo =>
      if negb (p_type ph =? PT_LOAD) then load_segments h phdrs file todo total_size entry rs
      else
      let file_size := p_filesz ph in
      if (0 <? file_size) && (zlen file <? elf_word (file_size + p_offset ph))
      then Some (ELF_LOAD_FAILED, entry, rs)
      else
      let data := if 0 <? file_size then Some (drop (Z.to_nat (p_offset ph)) file) else None in
      let mem_size := segment_size phdrs i ph in
      if SSIZE_MAX - total_size <? mem_size then Some (ELF_LOAD_TOO_BIG, entry, rs)
      else
      let entry := adjust_entry h ph entry in
      let? rs := (if negb (mem_size =? 0)
                  then rom_add_elf_program address_space_memory data file_size mem_size (p_paddr ph) as_ rs
                  else Some rs) else None in
      load_segments h phdrs file todo (total_size + mem_size) entry rs
  end.

Definition load_elf_sz (elf_machine : Z) (file : list Z) (rs : Roms) : option (Z * Z * Roms) :=
  match read_ehdr file with
  | None => Some (ELF_LOAD_FAILED, 0, rs)
  | Some h =>
      let elf_machine := if elf_machine <=? 0 then e_machine h else elf_machine in
      if negb (machine_accepts elf_machine (e_machine h)) then Some (ELF_LOAD_WRONG_ARCH, 0, rs)
      else if e_phnum h =? 0 then Some (ELF_LOAD_FAILED, e_entry h, rs)
      else
      match read_phdrs file (e_phoff h) (Z.to_nat (e_phnum h)) with
      | None => Some (ELF_LOAD_FAILED, e_entry h, rs)
      | Some phdrs => load_segments h phdrs file (imap pair phdrs) 0 (e_entry h) rs
      end
  end.
End Load.
End Elf.

Section Kernel.
Variables (address_space_memory : Z) (as_ : Z).

(** With [ELFDATA2LSB] as the order asked for. *)
Definition load_elf_ram_sym (file : list Z) (elf_machine : Z) (rs : Roms)
  : option (Z * Z * Roms) :=
  match load file 0 16 with
  | None => Some (ELF_LOAD_FAILED, 0, rs)
  | Some e_ident =>
      if negb (bool_decide (take 4 e_ident = [0x7f; 0x45; 0x4c; 0x46])) then Some (ELF_LOAD_NOT_ELF, 0, rs)
      else
      let? data := e_ident !! 5%nat else None in
      if negb (data =? ELFDATA2LSB) then Some (ELF_LOAD_WRONG_ENDIAN, 0, rs)
      else
      let? class := e_ident !! 4%nat else None in
      load_elf_sz (class =? ELFCLASS64) address_space_memory as_ elf_machine file rs
  end.

(** The size, or -1. *)
Definition load_image_targphys_as (file : list Z) (addr max_sz : Z) (rs : Roms) : option (Z * Roms) :=
  let size := zlen file in
  if max_sz <? size then Some (-1, rs)
  else
  let? rs := (if 0 <? size then rom_add_file address_space_memory file addr as_ rs else Some rs) else None in
  Some (size, rs).

Definition armv7m_load_kernel (file : list Z) (mem_base mem_size : Z) (rs : Roms) : option Roms :=
  let? (image_size, _, rs) := load_elf_ram_sym file EM_ARM rs else None in
  let? (image_size, rs) :=
    (if image_size <? 0 then load_image_targphys_as file mem_base mem_size rs else Some (image_size, rs))
    else None in
  if image_size <? 0 then None else Some rs.
End Kernel.
