(* ===== verification/LoaderSpec.v ===== *)
(** * Images end up in memory

    The list of images is kept in order, the check before the machine runs finds
    every overlap, a reset writes each image to its place and nothing else, and the
    pointer into the data of an image shows what the reset writes.  A transaction
    that is not committed takes back the images inserted since it began. *)
From stdpp Require Import base list numbers functions sorting.
From S2P Require Import Prelude Memory MemoryView Access PhysMap PhysTree PhysMapSpec PhysIO PhysIOSpec Loader.

(** ** The order of the list *)
Definition rom_le (a b : Rom) : Prop :=
  rom_as a < rom_as b \/ rom_as a = rom_as b /\ rom_addr a <= rom_addr b.

Lemma rom_order_compare_spec rom item :
  if rom_order_compare rom item then rom_le item rom else rom_le rom item.
Proof. unfold rom_order_compare, rom_le. case_match; lia. Qed.

#[export] Instance rom_le_trans : Transitive rom_le.
Proof. intros a b c. unfold rom_le. lia. Qed.

Lemma insert_ordered_in rom l x : In x (insert_ordered rom l) <-> x = rom \/ In x l.
Proof.
  induction l as [|item l IH]; simpl; [naive_solver|]. case_match; simpl; rewrite ?IH; naive_solver.
Qed.

Lemma insert_ordered_sorted rom l :
  StronglySorted rom_le l -> StronglySorted rom_le (insert_ordered rom l).
Proof.
  induction 1 as [|item l Hl IH Hall]; simpl; [by repeat constructor|].
  pose proof (rom_order_compare_spec rom item) as Hc. case_match.
  - constructor; [done|]. apply List.Forall_forall. intros x [->|Hx]%insert_ordered_in; [done|].
    by apply (proj1 (List.Forall_forall _ _) Hall).
  - constructor; [by constructor|]. constructor; [done|].
    eapply List.Forall_impl; [|exact Hall]. intros x Hx. by etrans.
Qed.

Lemma insert_ordered_Permutation rom l : insert_ordered rom l ≡ₚ rom :: l.
Proof.
  induction l as [|item l IH]; simpl; [done|]. case_match; [|done]. rewrite IH. constructor.
Qed.

(** ** Loading *)

(** Images have been added to the list, which is still in order. *)
Record added (images : list Rom) (rs rs' : Roms) : Prop := {
  ad_images : roms rs' ≡ₚ images ++ roms rs;
  ad_sorted : StronglySorted rom_le (roms rs) -> StronglySorted rom_le (roms rs');
  ad_loaded : roms_loaded rs' = roms_loaded rs
}.

Lemma added_none rs : added [] rs rs.
Proof. by split. Qed.

Lemma added_app is1 is2 rs rs1 rs2 : added is1 rs rs1 -> added is2 rs1 rs2 -> added (is2 ++ is1) rs rs2.
Proof.
  intros [P1 S1 L1] [P2 S2 L2]. split; [by rewrite P2, P1, app_assoc|auto|congruence].
Qed.

(** The image with the address space it is for. *)
Definition placed (asm : Z) (rom : Rom) : Rom :=
  mk_Rom (romsize rom) (datasize rom) (rom_data rom) (if rom_as rom =? 0 then asm else rom_as rom) (isrom rom) false
    (rom_addr rom).

Lemma rom_insert_added asm rom rs rs' :
  rom_insert asm rom rs = Some rs' -> added [placed asm rom] rs rs'.
Proof.
  unfold rom_insert. destruct (roms_loaded rs) eqn:E; [done|]. intros [= <-].
  split; [apply insert_ordered_Permutation|apply insert_ordered_sorted|by rewrite E].
Qed.

(** A transaction that is not committed takes back the images inserted since it
    began, and those only. *)
Lemma insert_ordered_uncommitted rom l :
  committed rom = false -> List.filter committed (insert_ordered rom l) = List.filter committed l.
Proof.
  intros Hc. induction l as [|item l IH]; simpl; [by rewrite Hc|].
  destruct (rom_order_compare rom item); simpl; [by rewrite IH|by rewrite Hc].
Qed.

Inductive inserts (asm : Z) : Roms -> Roms -> Prop :=
  | inserts_none rs : inserts asm rs rs
  | inserts_one rom rs rs1 rs2 :
      rom_insert asm rom rs = Some rs1 -> inserts asm rs1 rs2 -> inserts asm rs rs2.

Lemma rom_transaction_rollback asm rs rs' :
  inserts asm (rom_transaction_begin rs) rs' ->
  rom_transaction_end false rs' = rom_transaction_begin rs.
Proof.
  intros H.
  assert (Hall : List.filter committed (roms (rom_transaction_begin rs)) = roms (rom_transaction_begin rs)).
  { simpl. induction (roms rs) as [|r l IH]; simpl; [done|by rewrite IH]. }
  assert (rom_transaction_end false rs' = rom_transaction_end false (rom_transaction_begin rs)) as ->.
  { clear Hall. induction H as [|rom rs1 rs2 rs3 E _ IH]; [done|]. rewrite IH.
    unfold rom_insert in E. destruct (roms_loaded rs1) eqn:El; [done|]. injection E as <-.
    unfold rom_transaction_end. simpl. by rewrite insert_ordered_uncommitted, El by done. }
  unfold rom_transaction_end. by rewrite Hall.
Qed.

Section Files.
Variables (asm as_ : Z).

(** The image of a segment: what the file has of it, or nothing. *)
Definition segment_rom (is64 : bool) (phdrs : list elf_phdr) (file : list Z) (i : nat) (ph : elf_phdr) : Rom :=
  placed asm (mk_Rom (segment_size is64 phdrs i ph) (p_filesz ph)
    (if 0 <? p_filesz ph then Some (drop (Z.to_nat (p_offset ph)) file) else None) as_ false false (p_paddr ph)).

(** The segments that become images, the last one first. *)
Definition loaded_segment (is64 : bool) (phdrs : list elf_phdr) (iph : nat * elf_phdr) : bool :=
  (p_type iph.2 =? PT_LOAD) && negb (segment_size is64 phdrs iph.1 iph.2 =? 0).
Definition segment_roms (is64 : bool) (phdrs : list elf_phdr) (file : list Z) (l : list (nat * elf_phdr)) : list Rom :=
  rev (map (fun iph => segment_rom is64 phdrs file iph.1 iph.2) (List.filter (loaded_segment is64 phdrs) l)).

Lemma segment_roms_cons is64 phdrs file iph l :
  segment_roms is64 phdrs file (iph :: l) =
    segment_roms is64 phdrs file l ++
    if loaded_segment is64 phdrs iph then [segment_rom is64 phdrs file iph.1 iph.2] else [].
Proof. unfold segment_roms. simpl. case_match; simpl; [done|by rewrite app_nil_r]. Qed.

(** A success has made an image of every segment, a failure of those before it. *)
Lemma load_segments_added is64 h phdrs file todo : forall total entry rs ret entry' rs',
  load_segments is64 asm as_ h phdrs file todo total entry rs = Some (ret, entry', rs') ->
  exists fin rest, todo = fin ++ rest /\ (0 <= ret -> rest = []) /\
    added (segment_roms is64 phdrs file fin) rs rs'.
Proof.
  induction todo as [|[i ph] todo IH]; intros total entry rs ret entry' rs' E; cbn [load_segments] in E.
  { injection E as <- <- <-. exists [], []. split_and!; [done|done|apply added_none]. }
  assert (Hfail : forall c, c < 0 -> Some (c, entry, rs) = Some (ret, entry', rs') ->
    exists fin rest, (i, ph) :: todo = fin ++ rest /\ (0 <= ret -> rest = []) /\
      added (segment_roms is64 phdrs file fin) rs rs').
  { intros c Hc [= <- <- <-]. exists [], ((i, ph) :: todo). split_and!; [done|lia|apply added_none]. }
  assert (Hstep : forall rs1, added (if loaded_segment is64 phdrs (i, ph) then [segment_rom is64 phdrs file i ph] else []) rs rs1 ->
    (exists fin rest, todo = fin ++ rest /\ (0 <= ret -> rest = []) /\ added (segment_roms is64 phdrs file fin) rs1 rs') ->
    exists fin rest, (i, ph) :: todo = fin ++ rest /\ (0 <= ret -> rest = []) /\
      added (segment_roms is64 phdrs file fin) rs rs').
  { intros rs1 H1 (fin & rest & -> & Hr & H2). exists ((i, ph) :: fin), rest. split_and!; [done|done|].
    rewrite segment_roms_cons. by eapply added_app. }
  unfold loaded_segment in Hstep. cbn [fst snd] in Hstep.
  destruct (p_type ph =? PT_LOAD); cbn [negb andb] in *; [|by eapply Hstep; [apply added_none|eapply IH]].
  destruct ((0 <? p_filesz ph) && _); [by eapply Hfail; [|exact E]|].
  destruct (SSIZE_MAX - total <? _); [by eapply Hfail; [|exact E]|].
  destruct (segment_size is64 phdrs i ph =? 0); cbn [negb] in *; [by eapply Hstep; [apply added_none|eapply IH]|].
  destruct (rom_add_elf_program _ _ _ _ _ _ _) as [rs1|] eqn:Er; [|done].
  eapply Hstep; [|eapply IH, E]. apply rom_insert_added in Er. exact Er.
Qed.

(** The images that a file can become: those of its segments, as far as it is an
    ELF file, or the file as a whole. *)
Definition file_rom (file : list Z) (base : Z) (rom : Rom) : Prop :=
  rom = placed asm (mk_Rom (zlen file) (zlen file) (Some file) as_ false false base) \/
  exists is64 h phdrs i ph, read_ehdr is64 file = Some h /\
    read_phdrs is64 file (e_phoff h) (Z.to_nat (e_phnum h)) = Some phdrs /\
    phdrs !! i = Some ph /\ loaded_segment is64 phdrs (i, ph) = true /\
    rom = segment_rom is64 phdrs file i ph.

Lemma segment_roms_file is64 h phdrs file base fin rest rom :
  read_ehdr is64 file = Some h -> read_phdrs is64 file (e_phoff h) (Z.to_nat (e_phnum h)) = Some phdrs ->
  imap pair phdrs = fin ++ rest -> In rom (segment_roms is64 phdrs file fin) -> file_rom file base rom.
Proof.
  intros Hh Hp E Hin. unfold segment_roms in Hin. apply in_rev, in_map_iff in Hin as ([i ph] & <- & Hin).
  apply filter_In in Hin as [Hin Hl]. right. exists is64, h, phdrs, i, ph. split_and!; [done|done| |done|done].
  assert (In (i, ph) (imap pair phdrs)) as Hi by (rewrite E; apply in_or_app; by left).
  apply list_elem_of_In, elem_of_lookup_imap in Hi as (j & x & [= -> ->] & Hx). exact Hx.
Qed.

Lemma load_elf_added file machine rs ret entry rs' base :
  load_elf_ram_sym asm as_ file machine rs = Some (ret, entry, rs') ->
  exists images, added images rs rs' /\ Forall (file_rom file base) images.
Proof.
  assert (Hnone : forall c e, Some (c, e, rs) = Some (ret, entry, rs') ->
    exists images, added images rs rs' /\ Forall (file_rom file base) images).
  { intros c e [= _ _ <-]. exists []. split; [apply added_none|done]. }
  unfold load_elf_ram_sym. destruct (load file 0 16) as [ident|]; [|apply Hnone].
  case_match; [apply Hnone|]. destruct (ident !! 5%nat) as [data|]; [|done]. case_match; [apply Hnone|].
  destruct (ident !! 4%nat) as [class|]; [|done]. unfold load_elf_sz.
  destruct (read_ehdr _ file) as [h|] eqn:Hh; [|apply Hnone].
  destruct (negb (machine_accepts _ _)); [apply Hnone|]. destruct (e_phnum h =? 0); [apply Hnone|].
  destruct (read_phdrs _ file _ _) as [phdrs|] eqn:Hp; [|apply Hnone]. intros E.
  apply load_segments_added in E as (fin & rest & E & _ & Ha). eexists. split; [exact Ha|].
  apply List.Forall_forall. intros rom Hin. by eapply segment_roms_file.
Qed.

(** C11: what the loader makes of any file.  Whatever bytes the file has, loading it
    either ends the program or adds images to the list: of segments of the file as
    an ELF file, or of the file as a whole.  All images of before stay, and the
    list stays in the order that the check for overlaps relies on; the images of a
    file that turns out to be broken stay, too. *)
Theorem load_kernel_images (file : list Z) (base size : Z) (rs rs' : Roms) :
  armv7m_load_kernel asm as_ file base size rs = Some rs' ->
  StronglySorted rom_le (roms rs) ->
  StronglySorted rom_le (roms rs') /\ roms_loaded rs' = roms_loaded rs /\
  exists images, roms rs' ≡ₚ images ++ roms rs /\ Forall (file_rom file base) images.
Proof.
  unfold armv7m_load_kernel. intros E Hs.
  destruct (load_elf_ram_sym asm as_ file EM_ARM rs) as [[[ret entry] rs1]|] eqn:El; [|done].
  destruct (load_elf_added _ _ _ _ _ _ base El) as (is1 & [P1 S1 L1] & F1).
  assert (Hkeep : Some rs1 = Some rs' -> StronglySorted rom_le (roms rs') /\ roms_loaded rs' = roms_loaded rs /\
    exists images, roms rs' ≡ₚ images ++ roms rs /\ Forall (file_rom file base) images).
  { intros [= <-]. split_and!; [auto|done|]. by exists is1. }
  destruct (ret <? 0) eqn:Er; [|rewrite Er in E; by apply Hkeep]. unfold load_image_targphys_as in E.
  destruct (size <? zlen file); [done|]. pose proof (zlen_nonneg file) as Hz.
  destruct (0 <? zlen file); [|replace (zlen file <? 0) with false in E by lia; by apply Hkeep].
  destruct (rom_add_file asm file base as_ rs1) as [rs2|] eqn:Ea; [|done].
  replace (zlen file <? 0) with false in E by lia. injection E as <-.
  apply rom_insert_added in Ea as [P2 S2 L2]. split_and!; [auto|congruence|].
  eexists. split; [rewrite P2, P1, app_assoc; reflexivity|]. apply List.Forall_cons; [by left|exact F1].
Qed.
End Files.

(** ** The check *)
Definition rom_ok (rom : Rom) : Prop :=
  0 <= rom_addr rom /\ 0 <= romsize rom /\ rom_addr rom + romsize rom < 2 ^ 64.

Lemma sorted_related {A} (R : A -> A -> Prop) l a b :
  StronglySorted R l -> In a l -> In b l -> a = b \/ R a b \/ R b a.
Proof.
  induction 1 as [|x l _ IH Hx]; [done|]. rewrite List.Forall_forall in Hx.
  intros [<-|Ha] [<-|Hb]; auto.
Qed.

Definition apart (a b : Rom) : Prop := rom_as a = rom_as b -> rom_addr a + romsize a <= rom_addr b.

Lemma roms_overlap_spec last rom : rom_ok last -> roms_overlap (Some last) rom = false <-> apart last rom.
Proof.
  intros (H1 & H2 & H3). unfold roms_overlap, apart. rewrite u64_small by lia. lia.
Qed.

#[local] Arguments roms_overlap : simpl never.

Section Check.
Context {R S : Type} `{!EqDecision R}.
Variable kind : R -> region_kind S.
Variable system : FlatView R.

Lemma check_loop_apart l : forall last,
  StronglySorted rom_le l -> Forall rom_ok l ->
  (check_loop kind system last l).1 = false <->
  StronglySorted apart l /\ match l with [] => True | rom :: _ => roms_overlap last rom = false end.
Proof.
  induction l as [|rom l IH]; intros last Hs Hok; simpl; [split; [by repeat constructor|done]|].
  apply Forall_cons_iff in Hok as [Hr Hok]. inversion Hs as [|? ? Hs' Hle]; subst.
  specialize (IH (Some rom) Hs' Hok). destruct (check_loop kind system (Some rom) l) as [found rest]. simpl in *.
  rewrite orb_false_iff, IH. split.
  - intros (Hov & Ha & Hnext). split; [|done]. constructor; [done|]. destruct l as [|n l]; [done|].
    rewrite roms_overlap_spec in Hnext by done. inversion Hs' as [|? ? _ Hn]; subst. inversion Hle as [|? ? Hrn _]; subst.
    constructor; [done|]. apply List.Forall_forall. intros b Hb.
    pose proof (proj1 (List.Forall_forall _ _) Hn b Hb) as Hnb. unfold apart, rom_le in *. lia.
  - intros (Ha & Hov). inversion Ha as [|? ? Ha' Hall]; subst. split; [done|]. split; [done|].
    destruct l as [|n l]; [done|]. rewrite roms_overlap_spec by done. by inversion Hall.
Qed.

(** The check sets [isrom], and nothing else. *)
Lemma check_loop_Forall (P : Rom -> Prop) l : forall last,
  (forall rom b, P rom -> P (mk_Rom (romsize rom) (datasize rom) (rom_data rom) (rom_as rom) b (committed rom) (rom_addr rom))) ->
  Forall P l -> Forall P (check_loop kind system last l).2.
Proof.
  induction l as [|rom l IH]; intros last HP Hl; simpl; [done|]. apply Forall_cons_iff in Hl as [Hr Hl].
  specialize (IH (Some rom) HP Hl). destruct (check_loop kind system (Some rom) l) as [found rest].
  constructor; [by apply HP|done].
Qed.

Lemma check_loop_sorted l : forall last,
  StronglySorted apart l -> StronglySorted apart (check_loop kind system last l).2.
Proof.
  induction l as [|rom l IH]; intros last Hs; simpl; [done|]. inversion Hs as [|? ? Hs' Hall]; subst.
  specialize (IH (Some rom) Hs').
  pose proof (check_loop_Forall (apart rom) l (Some rom) ltac:(done) Hall) as Hf.
  destruct (check_loop kind system (Some rom) l) as [found rest]. by constructor.
Qed.
End Check.

(** ** Reset *)

(** The bytes of an image that a reset writes. *)
Definition rom_image (rom : Rom) : list Z :=
  match rom_data rom with
  | None => []
  | Some data => take (Z.to_nat (datasize rom)) data ++ replicate (Z.to_nat (romsize rom - datasize rom)) 0
  end.

Section Reset.
Context {R S : Type} `{!EqDecision R}.
Variable kind : R -> region_kind S.
Variables (view : FlatView R) (pg : Z -> Z) (dev : S) (as_ : Z).

(** An image for the address space whose place is memory. *)
Record loadable (rom : Rom) : Prop := {
  lo_as : rom_as rom = as_;
  lo_ok : rom_ok rom;
  lo_data data : rom_data rom = Some data -> 0 <= datasize rom <= romsize rom /\ datasize rom <= zlen data;
  lo_memory x : rom_addr rom <= x < rom_addr rom + romsize rom -> in_memory kind view (bool_decide (rom_addr rom + datasize rom <= x)) x = true
}.

Lemma image_zlen rom : loadable rom -> rom_data rom <> None -> zlen (rom_image rom) = romsize rom.
Proof.
  intros H Hd. unfold rom_image. destruct (rom_data rom) as [data|] eqn:E; [|done].
  destruct (lo_data _ H _ E). rewrite zlen_app, zlen_replicate by lia.
  unfold zlen in *. rewrite length_take. lia.
Qed.

Lemma in_memory_readable w x : in_memory kind view w x = true -> in_memory kind view false x = true.
Proof. unfold in_memory. destruct (view_at view x); [|done]. apply memory_readable. Qed.

Definition reset_rom (rom : Rom) : Rom :=
  match rom_data rom with None => rom | Some _ => if isrom rom then rom_free_data rom else rom end.

Lemma reset_one_correct rom g mem :
  loadable rom -> holds kind view pg dev (space g as_) mem ->
  exists g', rom_reset_one kind false rom g = Some (reset_rom rom, g') /\
    holds kind view pg dev (space g' as_) (flat_write mem (rom_addr rom) (rom_image rom)) /\
    forall r, zlen (g_ram g' r) = zlen (g_ram g r).
Proof.
  intros Hl H. destruct Hl as [Has (Ha & Hrs & Hend) Hdata Hmem].
  unfold rom_reset_one, reset_rom, rom_image. destruct (rom_data rom) as [data|] eqn:Ed; cycle 1.
  { exists g. split; [done|]. split; [|done]. eapply wrote_holds; [done|apply wrote_nil, H]. }
  destruct (Hdata _ eq_refl) as [Hds Hz].
  pose proof (load_in data 0 (datasize rom) ltac:(lia) ltac:(lia) ltac:(lia)) as Hload. rewrite Hload, Has.
  rewrite drop_0. set (buf := take (Z.to_nat (datasize rom)) data).
  assert (Hbuf : zlen buf = datasize rom) by (unfold buf, zlen in *; rewrite length_take; lia).
  pose proof (backed_no_alias _ _ _ (ho_backed _ _ _ _ _ _ H)) as Hna.
  assert (Hin : forall w x, rom_addr rom <= x < rom_addr rom + romsize rom ->
    (w = true -> rom_addr rom + datasize rom <= x) -> ram_at kind (view_at view) w (g_ram g) x).
  { intros w x Hx Hw. apply backed_ram_at; [apply H|]. specialize (Hmem x Hx).
    destruct w; [by rewrite bool_decide_eq_true_2 in Hmem by auto|]. by eapply in_memory_readable. }
  destruct (rom_correct kind (view_at view) pg (space g as_) (rom_addr rom) buf) as (st1 & -> & Hw1);
    [apply H|done|lia..|intros; apply Hin; [lia|done]|].
  rewrite !u64_small by lia.
  destruct (set_correct kind (view_at view) pg st1 (rom_addr rom + datasize rom) 0 (romsize rom - datasize rom))
    as (st2 & -> & Hw2); [apply Hw1|done|lia..| |].
  { intros x Hx. eapply ram_at_size; [apply Hw1|]. apply Hin; lia. }
  eexists. split; [done|]. rewrite <- Hbuf in Hw2 at 1.
  assert (Hw := wrote_app kind (view_at view) pg _ _ _ _ _ _ Hw1 Hw2).
  assert (H' := wrote_holds kind view pg dev _ _ _ _ _ H Hw).
  unfold space, set_space. cbn [g_spaces g_ram g_dev]. rewrite fn_lookup_insert. split; [by destruct st2|apply Hw].
Qed.

Definition flat_roms (mem : Z -> option Z) (l : list Rom) : Z -> option Z :=
  fold_left (fun mem rom => flat_write mem (rom_addr rom) (rom_image rom)) l mem.

Lemma reset_loop_correct l : forall g mem,
  Forall loadable l -> holds kind view pg dev (space g as_) mem ->
  exists g', reset_loop kind false l g = Some (map reset_rom l, g') /\
    holds kind view pg dev (space g' as_) (flat_roms mem l) /\
    forall r, zlen (g_ram g' r) = zlen (g_ram g r).
Proof.
  induction l as [|rom l IH]; intros g mem Hl H; [by exists g|]. apply Forall_cons_iff in Hl as [Hr Hl].
  destruct (reset_one_correct rom g mem Hr H) as (g1 & Hone & H1 & Hs1). cbn [reset_loop]. rewrite Hone.
  destruct (IH g1 _ Hl H1) as (g' & -> & H' & Hs'). exists g'. split_and!; [done|done|].
  intros r. by rewrite Hs'.
Qed.

(** The place of an image. *)
Definition covers (rom : Rom) (x : Z) : Prop :=
  rom_data rom <> None /\ rom_addr rom <= x < rom_addr rom + romsize rom.

Lemma flat_write_outside mem rom x : loadable rom -> ~ covers rom x ->
  flat_write mem (rom_addr rom) (rom_image rom) x = mem x.
Proof.
  intros Hl Hx. unfold flat_write. destruct (rom_data rom) as [data|] eqn:E.
  - rewrite image_zlen by (by rewrite ?E). unfold covers in Hx. rewrite E in Hx. case_match; [|done].
    destruct Hx. split; [done|lia].
  - unfold rom_image. rewrite E, zlen_nil. case_match; [lia|done].
Qed.

Lemma flat_roms_outside l : forall mem x,
  Forall loadable l -> (forall rom, In rom l -> ~ covers rom x) -> flat_roms mem l x = mem x.
Proof.
  induction l as [|rom l IH]; intros mem x Hl Hx; [done|]. apply Forall_cons_iff in Hl as [Hr Hl]. simpl.
  etrans; [apply IH; [done|intros; apply Hx; by right]|]. apply flat_write_outside; [done|]. apply Hx. by left.
Qed.

Lemma flat_roms_inside l : forall mem rom x,
  Forall loadable l -> StronglySorted apart l -> In rom l -> covers rom x ->
  flat_roms mem l x = rom_image rom !! Z.to_nat (x - rom_addr rom).
Proof.
  induction l as [|r l IH]; intros mem rom x Hl Hs Hin Hx; [done|]. apply Forall_cons_iff in Hl as [Hr Hl].
  inversion Hs as [|? ? Hs' Hall]; subst. simpl. destruct Hin as [->|Hin]; [|by apply IH].
  rewrite flat_roms_outside; [|done|].
  - unfold flat_write. rewrite image_zlen by (done || apply Hx). unfold covers in Hx. by replace (_ && _) with true by lia.
  - intros r' Hr' Hx'. pose proof (proj1 (List.Forall_forall _ _) Hall r' Hr') as Hap.
    pose proof (proj1 (List.Forall_forall _ _) Hl r' Hr') as Hl'. unfold apart, covers in *.
    rewrite (lo_as _ Hr), (lo_as _ Hl') in Hap. lia.
Qed.

(** ** Pointers into images *)
Lemma find_rom_correct l rom addr size :
  Forall loadable l -> StronglySorted apart l -> In rom l -> 0 < size ->
  rom_addr rom <= addr -> addr + size <= rom_addr rom + romsize rom ->
  find_rom addr size l = Some rom.
Proof.
  induction l as [|r l IH]; intros Hl Hs Hin Hz Ha He; [done|]. apply Forall_cons_iff in Hl as [Hr Hl].
  inversion Hs as [|? ? Hs' Hall]; subst. simpl. destruct Hin as [->|Hin].
  - destruct (lo_ok _ Hr) as (? & ? & ?). rewrite !u64_small by lia.
    replace (addr <? rom_addr rom) with false by lia. by replace (_ <? addr + size) with false by lia.
  - pose proof (proj1 (List.Forall_forall _ _) Hall rom Hin) as Hap.
    pose proof (proj1 (List.Forall_forall _ _) Hl rom Hin) as Hl'. unfold apart in Hap.
    rewrite (lo_as _ Hr), (lo_as _ Hl') in Hap. specialize (Hap eq_refl).
    destruct (lo_ok _ Hr) as (? & ? & ?), (lo_ok _ Hl') as (? & ? & ?). rewrite !u64_small by lia.
    case_match; [by apply IH|]. case_match; [by apply IH|lia].
Qed.

Lemma check_apart system rs rs' :
  StronglySorted rom_le (roms rs) -> Forall loadable (roms rs) ->
  rom_check_and_register_reset kind system rs = (0, rs') ->
  StronglySorted apart (roms rs) /\ roms rs' = (check_loop kind system None (roms rs)).2 /\
  StronglySorted apart (roms rs') /\ Forall loadable (roms rs').
Proof.
  intros Hs Hl Hc. unfold rom_check_and_register_reset in Hc.
  pose proof (check_loop_apart kind system (roms rs) None Hs) as Ha.
  pose proof (check_loop_sorted kind system (roms rs) None) as Hs'.
  pose proof (check_loop_Forall kind system loadable (roms rs) None) as Hl'.
  destruct (check_loop kind system None (roms rs)) as [[] l]; [done|]. injection Hc as <-. simpl in *.
  destruct Ha as [Ha _]; [eapply List.Forall_impl; [|exact Hl]; apply lo_ok|]. destruct (Ha eq_refl) as [Hap _].
  split_and!; [done|done|by apply Hs'|]. apply Hl'; [|done]. intros rom b []. by split.
Qed.

(** An image without data is passed over, and no other one reaches into its place. *)
Lemma flat_roms_skipped mem l rom x :
  Forall loadable l -> StronglySorted apart l -> In rom l -> rom_data rom = None ->
  rom_addr rom <= x < rom_addr rom + romsize rom -> flat_roms mem l x = mem x.
Proof.
  intros Hl Ha Hin Hn Hx. apply flat_roms_outside; [done|]. intros rom' Hin' [Hd Hx'].
  assert (Has : rom_as rom = rom_as rom').
  { rewrite List.Forall_forall in Hl. by rewrite (lo_as _ (Hl _ Hin)), (lo_as _ (Hl _ Hin')). }
  destruct (sorted_related apart l rom rom' Ha Hin Hin') as [<-|[H|H]]; [done|..]; unfold apart in H;
    specialize (H ltac:(done)); lia.
Qed.

(** C10: images and resets.  If the check before the machine runs accepts a list of
    images, a reset copies every image that has data to its place, with zeros behind
    the data up to its size.  An image without data, such as a segment with no bytes in
    the file, is passed over: all of its place keeps what was there.  No other byte
    of memory and no device changes.  A pointer into an image that the loader
    hands out, to an address with data there, shows the bytes that the reset
    writes. *)
Theorem rom_reset_correct (system : FlatView R) (rs rs' : Roms) (g : Guest) (mem : Z -> option Z) :
  StronglySorted rom_le (roms rs) -> Forall loadable (roms rs) ->
  rom_check_and_register_reset kind system rs = (0, rs') ->
  holds kind view pg dev (space g as_) mem ->
  exists rs'' g' mem',
    rom_reset kind false rs' g = Some (rs'', g') /\ holds kind view pg dev (space g' as_) mem' /\
    (forall rom x, In rom (roms rs') -> covers rom x ->
       mem' x = rom_image rom !! Z.to_nat (x - rom_addr rom)) /\
    (forall rom x, In rom (roms rs') -> rom_data rom = None ->
       rom_addr rom <= x < rom_addr rom + romsize rom -> mem' x = mem x) /\
    (forall x, (forall rom, In rom (roms rs') -> ~ covers rom x) -> mem' x = mem x) /\
    (forall rom addr size, In rom (roms rs') -> rom_data rom <> None -> 0 < size ->
       rom_addr rom <= addr -> addr + size <= rom_addr rom + datasize rom ->
       exists p, rom_ptr rs' addr size = Some p /\
         forall i, 0 <= i < size -> p !! Z.to_nat i = mem' (addr + i)).
Proof.
  intros Hs Hl Hc H. destruct (check_apart system rs rs' Hs Hl Hc) as (_ & _ & Ha & Hl').
  destruct (reset_loop_correct (roms rs') g mem Hl' H) as (g' & Hg & H' & _).
  eexists _, g', (flat_roms mem (roms rs')). unfold rom_reset. rewrite Hg. split; [done|]. split; [done|]. split; [|split; [|split]].
  - intros rom x Hin Hx. by apply flat_roms_inside.
  - intros rom x Hin Hn Hx. by apply (flat_roms_skipped _ _ rom).
  - intros x Hx. by apply flat_roms_outside.
  - intros rom addr size Hin Hd Hz Hb He. pose proof (proj1 (List.Forall_forall _ _) Hl' rom Hin) as Hr.
    destruct (rom_data rom) as [data|] eqn:Ed; [|done]. destruct (lo_data _ Hr _ Ed) as [Hds Hdl].
    unfold rom_ptr. rewrite (find_rom_correct (roms rs') rom addr size) by (done || lia). simpl. rewrite Ed. simpl.
    eexists. split; [done|]. intros i Hi.
    rewrite (flat_roms_inside _ _ rom) by (done || (split; [by rewrite Ed|lia])).
    unfold rom_image. rewrite Ed, lookup_app_l by (rewrite length_take; unfold zlen in *; lia).
    rewrite lookup_take_lt, lookup_drop by lia. f_equal. lia.
Qed.
End Reset.

(** ** Example *)
Module LoaderExample.
Import PhysIOExample.
(** Two images in the blocks of [PhysIOExample], the second across their border. *)
Definition first : Rom := mk_Rom 4 2 (Some [7; 8]) 1 false false 0x1002.
Definition second : Rom := mk_Rom 6 6 (Some [1; 2; 3; 4; 5; 6]) 1 false false 0x100c.
Definition images : Roms := mk_Roms [first; second] false.

Lemma view_memory w x : 0x1000 <= x < 0x101c -> in_memory kind view w x = true.
Proof.
  intros Hx. unfold in_memory, view, range, view_at, addrrange_contains, addrrange_end.
  cbn [fr_addr ar_start ar_size]. destruct ((4096 <=? x) && (x <? 4096 + 16)) eqn:E1; [done|].
  by replace ((4112 <=? x) && (x <? 4112 + 12)) with true by lia.
Qed.

Lemma first_loadable : loadable kind view 1 first.
Proof.
  split; unfold rom_ok, first; cbn [rom_as rom_addr romsize datasize rom_data]; [done|lia| |].
  - intros data [= <-]. unfold zlen. simpl. lia.
  - intros x Hx. apply view_memory. lia.
Qed.
Lemma second_loadable : loadable kind view 1 second.
Proof.
  split; unfold rom_ok, second; cbn [rom_as rom_addr romsize datasize rom_data]; [done|lia| |].
  - intros data [= <-]. unfold zlen. simpl. lia.
  - intros x Hx. apply view_memory. lia.
Qed.

Lemma rom_reset_correct_witness :
  exists d rs'' g' mem', dispatch_of 16 view = Some d /\
    rom_reset kind false (mk_Roms [first; second] true) (mk_Guest (fun _ => d) ram tt) = Some (rs'', g') /\
    mem' 0x1003 = Some 8 /\ mem' 0x1004 = Some 0 /\ mem' 0x1011 = Some 6.
Proof.
  destruct (dispatch_of_serves 16 view) as (d & pg & Hd & Hsv);
    [vm_compute; intuition discriminate|vm_compute; discriminate|].
  destruct (rom_reset_correct kind view pg tt 1 view images (mk_Roms [first; second] true)
    (mk_Guest (fun _ => d) ram tt) (content (view_at view) ram)) as (rs'' & g' & mem' & Hr & _ & Hin & _).
  - repeat constructor; cbn; lia.
  - apply List.Forall_cons; [exact first_loadable|]. apply List.Forall_cons; [exact second_loadable|apply List.Forall_nil].
  - reflexivity.
  - apply holds_initial; [exact Hsv|]. split; [apply (bool_decide_unpack _); vm_compute; exact I|].
    repeat (apply List.Forall_cons; [intros _; vm_compute; intuition discriminate|]). apply List.Forall_nil.
  - exists d, rs'', g', mem'. split; [exact Hd|]. split; [exact Hr|].
    assert (H1 : forall x, 0x1002 <= x < 0x1006 -> covers first x) by (intros x Hx; split; [discriminate|exact Hx]).
    assert (H2 : covers second 0x1011) by (split; [discriminate|cbn; lia]).
    split; [rewrite (Hin first 0x1003 (or_introl eq_refl) (H1 0x1003 ltac:(lia))); reflexivity|].
    split; [rewrite (Hin first 0x1004 (or_introl eq_refl) (H1 0x1004 ltac:(lia))); reflexivity|].
    rewrite (Hin second 0x1011 (or_intror (or_introl eq_refl)) H2). reflexivity.
Defined.

(** A file of nine bytes is no ELF file, and is loaded as it is. *)
Lemma load_kernel_images_witness :
  exists images,
    roms (mk_Roms [placed 1 (mk_Rom 9 9 (Some (replicate 9 5)) 0 false false 0x1000); second] false) ≡ₚ
      images ++ [second] /\
    Forall (file_rom 1 0 (replicate 9 5) 0x1000) images.
Proof.
  destruct (load_kernel_images 1 0 (replicate 9 5) 0x1000 100 (mk_Roms [second] false)
    (mk_Roms [placed 1 (mk_Rom 9 9 (Some (replicate 9 5)) 0 false false 0x1000); second] false))
    as (_ & _ & images & Hp & Hf); [vm_compute; reflexivity|repeat constructor|].
  exists images. split; [exact Hp|exact Hf].
Defined.

(** An ELF file of 116 bytes whose only segment claims to have nearly 4 GiB of them:
    the end of the segment is computed modulo 2^32, the file is accepted, and the
    reset reads behind it. *)
Definition wrapping : list Z :=
  [0x7f; 0x45; 0x4c; 0x46; 1; 1; 1] ++ replicate 9 0 ++
  le_bytes 2 2 ++ le_bytes 2 EM_ARM ++ flat_map (le_bytes 4) [1; 9; 52; 0; 0] ++
  flat_map (le_bytes 2) [52; 32; 1; 40; 0; 0] ++
  flat_map (le_bytes 4) [PT_LOAD; 0x60; 0; 0; 0xFFFFFFF0; 0xFFFFFFF0; 5; 4] ++ replicate 32 0.

Lemma wrapping_accepted :
  exists rom, armv7m_load_kernel 1 1 wrapping 0 0 (mk_Roms [] false) = Some (mk_Roms [rom] false) /\
    forall g : Guest (R := nat) (S := unit), rom_reset_one kind false rom g = None.
Proof. eexists. split; [vm_compute; reflexivity|]. intros g. reflexivity. Qed.

(** The zeros of an image are not behind the pointer that is handed out for them. *)
Lemma zeros_not_there : rom_ptr images 0x1004 2 = Some [].
Proof. reflexivity. Qed.
End LoaderExample.
