(* ===== verification/Uart.v ===== *)
(** * The UART of the board

    [src/qemu/hw/char/nxps32k3x8evb_uart.c], a PL011: registers, the receive
    FIFO (an array used as a ring), interrupts and the loopback mode.  The
    character backend is the list of the bytes sent; the bytes it delivers come
    in through [nxp_uart_receive].  Tracing and the guest-error log have no
    model, the access to [id] outside of its 8 bytes is [None].

    [int] arithmetic wraps: QEMU is compiled with [-fwrapv]. *)
From stdpp Require Import base list numbers.
From S2P Require Import Prelude.

(** ** Constants *)
Definition NXP_UART_FIFO_DEPTH : Z := 16.
Definition NXP_UART_FLAG_RI : Z := 0x100.
Definition NXP_UART_FLAG_TXFE : Z := 0x80.
Definition NXP_UART_FLAG_RXFF : Z := 0x40.
Definition NXP_UART_FLAG_TXFF : Z := 0x20.
Definition NXP_UART_FLAG_RXFE : Z := 0x10.
Definition NXP_UART_FLAG_DCD : Z := 0x04.
Definition NXP_UART_FLAG_DSR : Z := 0x02.
Definition NXP_UART_FLAG_CTS : Z := 0x01.
Definition DR_BE : Z := Z.shiftl 1 10.
Definition INT_OE : Z := Z.shiftl 1 10.
Definition INT_BE : Z := Z.shiftl 1 9.
Definition INT_PE : Z := Z.shiftl 1 8.
Definition INT_FE : Z := Z.shiftl 1 7.
Definition INT_RT : Z := Z.shiftl 1 6.
Definition INT_TX : Z := Z.shiftl 1 5.
Definition INT_RX : Z := Z.shiftl 1 4.
Definition INT_DSR : Z := Z.shiftl 1 3.
Definition INT_DCD : Z := Z.shiftl 1 2.
Definition INT_CTS : Z := Z.shiftl 1 1.
Definition INT_RI : Z := Z.shiftl 1 0.
Definition INT_E : Z := Z.lor (Z.lor (Z.lor INT_OE INT_BE) INT_PE) INT_FE.
Definition INT_MS : Z := Z.lor (Z.lor (Z.lor INT_RI INT_DSR) INT_DCD) INT_CTS.
Definition LCR_FEN : Z := Z.shiftl 1 4.
Definition LCR_BRK : Z := Z.shiftl 1 0.
Definition CR_OUT2 : Z := Z.shiftl 1 13.
Definition CR_OUT1 : Z := Z.shiftl 1 12.
Definition CR_RTS : Z := Z.shiftl 1 11.
Definition CR_DTR : Z := Z.shiftl 1 10.
Definition CR_LBE : Z := Z.shiftl 1 7.
Definition IBRD_MASK : Z := 0xffff.
Definition FBRD_MASK : Z := 0x3f.
Definition nxp_uart_id_arm : list Z := [0x11; 0x10; 0x14; 0x00; 0x0d; 0xf0; 0x05; 0xb1].

(** Which bits of the interrupt status matter for each outbound line. *)
Definition irqmask : list Z :=
  [Z.lor (Z.lor (Z.lor (Z.lor INT_E INT_MS) INT_RT) INT_TX) INT_RX;
   INT_RX; INT_TX; INT_RT; INT_MS; INT_E].

(** ** State *)
Record NXP_UART_STATE := mk_NXP_UART_STATE {
  flags : Z; lcr : Z; rsr : Z; cr : Z; dmacr : Z; int_enabled : Z; int_level : Z;
  read_fifo : list Z; ilpr : Z; ibrd : Z; fbrd : Z; ifl : Z;
  read_pos : Z; read_count : Z; read_trigger : Z;
  irq : list bool;
  (* the character backend: what was sent *)
  chr_out : list Z
}.

Definition eta_uart (s : NXP_UART_STATE) : NXP_UART_STATE :=
  mk_NXP_UART_STATE (flags s) (lcr s) (rsr s) (cr s) (dmacr s) (int_enabled s)
    (int_level s) (read_fifo s) (ilpr s) (ibrd s) (fbrd s) (ifl s) (read_pos s)
    (read_count s) (read_trigger s) (irq s) (chr_out s).
#[export] Instance set_flags : Setter flags := ltac:(setter eta_uart flags).
#[export] Instance set_lcr : Setter lcr := ltac:(setter eta_uart lcr).
#[export] Instance set_rsr : Setter rsr := ltac:(setter eta_uart rsr).
#[export] Instance set_cr : Setter cr := ltac:(setter eta_uart cr).
#[export] Instance set_dmacr : Setter dmacr := ltac:(setter eta_uart dmacr).
#[export] Instance set_int_enabled : Setter int_enabled := ltac:(setter eta_uart int_enabled).
#[export] Instance set_int_level : Setter int_level := ltac:(setter eta_uart int_level).
#[export] Instance set_read_fifo : Setter read_fifo := ltac:(setter eta_uart read_fifo).
#[export] Instance set_ilpr : Setter ilpr := ltac:(setter eta_uart ilpr).
#[export] Instance set_ibrd : Setter ibrd := ltac:(setter eta_uart ibrd).
#[export] Instance set_fbrd : Setter fbrd := ltac:(setter eta_uart fbrd).
#[export] Instance set_ifl : Setter ifl := ltac:(setter eta_uart ifl).
#[export] Instance set_read_pos : Setter read_pos := ltac:(setter eta_uart read_pos).
#[export] Instance set_read_count : Setter read_count := ltac:(setter eta_uart read_count).
#[export] Instance set_read_trigger : Setter read_trigger := ltac:(setter eta_uart read_trigger).
#[export] Instance set_irq : Setter irq := ltac:(setter eta_uart irq).
#[export] Instance set_chr_out : Setter chr_out := ltac:(setter eta_uart chr_out).

(** ** Bits *)
Definition clear_bits (x m : Z) : Z := Z.land x (u32 (Z.lnot m)).
Definition set_bits (x m : Z) : Z := Z.lor x m.

(** ** Helpers *)
Definition nxp_uart_update (s : NXP_UART_STATE) : NXP_UART_STATE :=
  let flags := Z.land (int_level s) (int_enabled s) in
  s <| irq := (fun m => negb (Z.land flags m =? 0)) <$> irqmask |>.

Definition nxp_uart_loopback_enabled (s : NXP_UART_STATE) : bool :=
  negb (Z.land (cr s) CR_LBE =? 0).

Definition nxp_uart_is_fifo_enabled (s : NXP_UART_STATE) : bool :=
  negb (Z.land (lcr s) LCR_FEN =? 0).

Definition nxp_uart_get_fifo_depth (s : NXP_UART_STATE) : Z :=
  if nxp_uart_is_fifo_enabled s then NXP_UART_FIFO_DEPTH else 1.

Definition nxp_uart_reset_rx_fifo (s : NXP_UART_STATE) : NXP_UART_STATE :=
  let s := s <| read_count := 0 |> <| read_pos := 0 |> in
  let s := s <| flags := clear_bits (flags s) NXP_UART_FLAG_RXFF |> in
  s <| flags := set_bits (flags s) NXP_UART_FLAG_RXFE |>.

Definition nxp_uart_reset_tx_fifo (s : NXP_UART_STATE) : NXP_UART_STATE :=
  let s := s <| flags := clear_bits (flags s) NXP_UART_FLAG_TXFF |> in
  s <| flags := set_bits (flags s) NXP_UART_FLAG_TXFE |>.

(** [read_fifo[slot] = value] *)
Definition nxp_uart_fifo_rx_put (s : NXP_UART_STATE) (value : Z) : option NXP_UART_STATE :=
  let pipe_depth := nxp_uart_get_fifo_depth s in
  let slot := Z.land (u32 (read_pos s + read_count s)) (pipe_depth - 1) in
  let? _ := read_fifo s !! Z.to_nat slot else None in
  let s := s <| read_fifo := <[Z.to_nat slot := value]> (read_fifo s) |> in
  let s := s <| read_count := s32 (read_count s + 1) |> in
  let s := s <| flags := clear_bits (flags s) NXP_UART_FLAG_RXFE |> in
  let s := if u32 (read_count s) =? pipe_depth
           then s <| flags := set_bits (flags s) NXP_UART_FLAG_RXFF |> else s in
  Some (if read_count s =? read_trigger s
        then nxp_uart_update (s <| int_level := set_bits (int_level s) INT_RX |>) else s).

Definition nxp_uart_loopback_tx (s : NXP_UART_STATE) (value : Z) : option NXP_UART_STATE :=
  if negb (nxp_uart_loopback_enabled s) then Some s else nxp_uart_fifo_rx_put s value.

(** The enable bits are only checked for a log message. *)
Definition nxp_uart_write_txdata (s : NXP_UART_STATE) (data : Z) : option NXP_UART_STATE :=
  let s := s <| chr_out := chr_out s ++ [data] |> in
  let? s := nxp_uart_loopback_tx s data else None in
  let s := s <| int_level := set_bits (int_level s) INT_TX |> in
  Some (nxp_uart_update s).

Definition nxp_uart_read_rxdata (s : NXP_UART_STATE) : option (Z * NXP_UART_STATE) :=
  let fifo_depth := nxp_uart_get_fifo_depth s in
  let s := s <| flags := clear_bits (flags s) NXP_UART_FLAG_RXFF |> in
  let? c := (if 0 <=? read_pos s then read_fifo s !! Z.to_nat (read_pos s) else None)
    else None in
  let s := if 0 <? read_count s
           then s <| read_count := read_count s - 1 |>
                  <| read_pos := Z.land (u32 (read_pos s + 1)) (fifo_depth - 1) |>
           else s in
  let s := if read_count s =? 0
           then s <| flags := set_bits (flags s) NXP_UART_FLAG_RXFE |> else s in
  let s := if read_count s =? s32 (read_trigger s - 1)
           then s <| int_level := clear_bits (int_level s) INT_RX |> else s in
  let s := s <| rsr := Z.shiftr c 8 |> in
  Some (c, nxp_uart_update s).

(** ** Registers *)
Definition nxp_uart_read (s : NXP_UART_STATE) (offset : Z) : option (Z * NXP_UART_STATE) :=
  let idx := Z.shiftr offset 2 in
  if idx =? 0 then nxp_uart_read_rxdata s
  else if idx =? 1 then Some (rsr s, s)
  else if idx =? 6 then Some (flags s, s)
  else if idx =? 8 then Some (ilpr s, s)
  else if idx =? 9 then Some (ibrd s, s)
  else if idx =? 10 then Some (fbrd s, s)
  else if idx =? 11 then Some (lcr s, s)
  else if idx =? 12 then Some (cr s, s)
  else if idx =? 13 then Some (ifl s, s)
  else if idx =? 14 then Some (int_enabled s, s)
  else if idx =? 15 then Some (int_level s, s)
  else if idx =? 16 then Some (Z.land (int_level s) (int_enabled s), s)
  else if idx =? 18 then Some (dmacr s, s)
  else if (0x3f8 <=? idx) && (idx <=? 0x400) then
    let? r := nxp_uart_id_arm !! Z.to_nat (Z.shiftr (offset - 0xfe0) 2) else None in
    Some (r, s)
  else Some (0, s).

Definition nxp_uart_set_read_trigger (s : NXP_UART_STATE) : NXP_UART_STATE :=
  s <| read_trigger := 1 |>.

(** The baud rate for a clock of [clk] Hz, reported in a trace. *)
Definition nxp_uart_get_baudrate (clk : Z) (s : NXP_UART_STATE) : Z :=
  if ibrd s =? 0 then 0
  else u32 (Z.shiftl (clk / u32 (u32 (Z.shiftl (ibrd s) 6) + fbrd s)) 2).

Definition nxp_uart_loopback_mdmctrl (s : NXP_UART_STATE) : NXP_UART_STATE :=
  if negb (nxp_uart_loopback_enabled s) then s
  else
  let cr := cr s in
  let on (w b r : Z) : Z := if negb (Z.land w b =? 0) then r else 0 in
  let fr := clear_bits (flags s)
              (Z.lor (Z.lor (Z.lor NXP_UART_FLAG_RI NXP_UART_FLAG_DCD) NXP_UART_FLAG_DSR)
                 NXP_UART_FLAG_CTS) in
  let fr := Z.lor fr (on cr CR_OUT2 NXP_UART_FLAG_RI) in
  let fr := Z.lor fr (on cr CR_OUT1 NXP_UART_FLAG_DCD) in
  let fr := Z.lor fr (on cr CR_RTS NXP_UART_FLAG_CTS) in
  let fr := Z.lor fr (on cr CR_DTR NXP_UART_FLAG_DSR) in
  let il := clear_bits (int_level s) (Z.lor (Z.lor (Z.lor INT_DSR INT_DCD) INT_CTS) INT_RI) in
  let il := Z.lor il (on fr NXP_UART_FLAG_DSR INT_DSR) in
  let il := Z.lor il (on fr NXP_UART_FLAG_DCD INT_DCD) in
  let il := Z.lor il (on fr NXP_UART_FLAG_CTS INT_CTS) in
  let il := Z.lor il (on fr NXP_UART_FLAG_RI INT_RI) in
  nxp_uart_update (s <| flags := fr |> <| int_level := il |>).

Definition nxp_uart_loopback_break (s : NXP_UART_STATE) (brk_enable : Z)
  : option NXP_UART_STATE :=
  if negb (brk_enable =? 0) then nxp_uart_loopback_tx s DR_BE else Some s.

(** The line control register; the break condition is forwarded to the
    backend, which has no effect here. *)
Definition nxp_uart_write_lcr (s : NXP_UART_STATE) (value : Z) : option NXP_UART_STATE :=
  let s := if negb (Z.land (Z.lxor (lcr s) value) LCR_FEN =? 0)
           then nxp_uart_reset_tx_fifo (nxp_uart_reset_rx_fifo s) else s in
  let? s := (if negb (Z.land (Z.lxor (lcr s) value) LCR_BRK =? 0)
             then nxp_uart_loopback_break s (Z.land value LCR_BRK) else Some s) else None in
  let s := s <| lcr := u32 value |> in
  Some (nxp_uart_set_read_trigger s).

Definition nxp_uart_write (s : NXP_UART_STATE) (offset value : Z) : option NXP_UART_STATE :=
  let idx := Z.shiftr offset 2 in
  if idx =? 0 then nxp_uart_write_txdata s (u8 value)
  else if idx =? 1 then Some (s <| rsr := 0 |>)
  else if idx =? 6 then Some s
  else if idx =? 8 then Some (s <| ilpr := u32 value |>)
  else if idx =? 9 then Some (s <| ibrd := Z.land value IBRD_MASK |>)
  else if idx =? 10 then Some (s <| fbrd := Z.land value FBRD_MASK |>)
  else if idx =? 11 then nxp_uart_write_lcr s value
  else if idx =? 12 then Some (nxp_uart_loopback_mdmctrl (s <| cr := u32 value |>))
  else if idx =? 13 then Some (nxp_uart_set_read_trigger (s <| ifl := u32 value |>))
  else if idx =? 14 then Some (nxp_uart_update (s <| int_enabled := u32 value |>))
  else if idx =? 17 then
    Some (nxp_uart_update (s <| int_level := Z.land (int_level s) (u64 (Z.lnot value)) |>))
  else if idx =? 18 then Some (s <| dmacr := u32 value |>)
  else Some s.

(** ** The character backend *)

(** [unsigned] arithmetic, returned as an [int]. *)
Definition nxp_uart_can_receive (s : NXP_UART_STATE) : Z :=
  s32 (u32 (nxp_uart_get_fifo_depth s - u32 (read_count s))).

Fixpoint nxp_uart_rx_put_all (s : NXP_UART_STATE) (buf : list Z) : option NXP_UART_STATE :=
  match buf with
  | [] => Some s
  | b :: buf => let? s := nxp_uart_fifo_rx_put s b else None in nxp_uart_rx_put_all s buf
  end.

Definition nxp_uart_receive (s : NXP_UART_STATE) (buf : list Z) : option NXP_UART_STATE :=
  if nxp_uart_loopback_enabled s then Some s else nxp_uart_rx_put_all s buf.

(** The event for a break on the line. *)
Definition nxp_uart_event_break (s : NXP_UART_STATE) : option NXP_UART_STATE :=
  if negb (nxp_uart_loopback_enabled s) then nxp_uart_fifo_rx_put s DR_BE else Some s.

(** ** Migration and reset *)
Definition nxp_uart_post_load (s : NXP_UART_STATE) : option NXP_UART_STATE :=
  if (16 <=? u64 (read_pos s)) || (16 <? u64 (read_count s)) then None
  else
  let s := if negb (nxp_uart_is_fifo_enabled s) && (0 <? read_count s) && (0 <? read_pos s)
           then let c := default 0 (read_fifo s !! Z.to_nat (read_pos s)) in
                s <| read_fifo := <[0%nat := c]> (read_fifo s) |> <| read_pos := 0 |>
           else s in
  Some (s <| ibrd := Z.land (ibrd s) IBRD_MASK |> <| fbrd := Z.land (fbrd s) FBRD_MASK |>).

Definition nxp_uart_reset (s : NXP_UART_STATE) : NXP_UART_STATE :=
  let s := s <| lcr := 0 |> <| rsr := 0 |> <| dmacr := 0 |> <| int_enabled := 0 |>
             <| int_level := 0 |> <| ilpr := 0 |> <| ibrd := 0 |> <| fbrd := 0 |>
             <| read_trigger := 1 |> <| ifl := 0x12 |> <| cr := 0x300 |> <| flags := 0 |> in
  nxp_uart_reset_tx_fifo (nxp_uart_reset_rx_fifo s).

(** The instance as QEMU allocates it: all zeros, lines low, nothing sent. *)
Definition NXP_UART_zero : NXP_UART_STATE :=
  {| flags := 0; lcr := 0; rsr := 0; cr := 0; dmacr := 0; int_enabled := 0; int_level := 0;
     read_fifo := replicate 16 0; ilpr := 0; ibrd := 0; fbrd := 0; ifl := 0;
     read_pos := 0; read_count := 0; read_trigger := 0; irq := replicate 6 false;
     chr_out := [] |}.
