(* ===== verification/UartInv.v ===== *)
(** * The receive FIFO of the UART is a bounded queue

    [rx_queue] reads the queue off the ring; under [uart_ok] (cursor and count
    within the depth of the FIFO, the two receive flags telling empty and full)
    putting a byte appends it and reading the data register takes the first.
    [uart_safe] is the weaker invariant that every operation keeps, the loopback
    ones included, and under which no array is left; [divisors_ok] gives the widths
    of the two divisors, with which the baud rate is computed exactly. *)
From stdpp Require Import base list numbers.
From S2P Require Import Prelude Uart.

(** ** Queue and invariants *)
Definition depth := nxp_uart_get_fifo_depth.

Definition rx_queue (s : NXP_UART_STATE) : list Z :=
  (fun i => default 0 (read_fifo s !! Z.to_nat ((read_pos s + Z.of_nat i) mod depth s)))
    <$> seq 0 (Z.to_nat (read_count s)).

Record uart_safe (s : NXP_UART_STATE) : Prop := {
  us_fifo : length (read_fifo s) = 16%nat;
  us_pos : 0 <= read_pos s < 16
}.

Record uart_ok (s : NXP_UART_STATE) : Prop := {
  uo_fifo : length (read_fifo s) = 16%nat;
  uo_pos : 0 <= read_pos s < depth s;
  uo_count : 0 <= read_count s <= depth s;
  uo_trigger : read_trigger s = 1;
  uo_empty : Z.testbit (flags s) 4 = bool_decide (read_count s = 0);
  uo_full : Z.testbit (flags s) 6 = bool_decide (read_count s = depth s)
}.

(** The lines show the enabled interrupts. *)
Definition irq_ok (s : NXP_UART_STATE) : Prop :=
  irq s = irq (nxp_uart_update s).

Lemma irq_ok_update s : irq_ok (nxp_uart_update s).
Proof. unfold irq_ok, nxp_uart_update. cbv zeta. by fields. Qed.

Lemma irq_ok_same s s' :
  int_level s' = int_level s -> int_enabled s' = int_enabled s -> irq s' = irq s ->
  irq_ok s -> irq_ok s'.
Proof. intros H1 H2 H3. unfold irq_ok, nxp_uart_update. cbv zeta. fields. by rewrite H1, H2, H3. Qed.

(** An operation brings the lines up to date, or touches neither them nor the two
    registers they depend on. *)
Definition lines_kept (s s' : NXP_UART_STATE) : Prop :=
  irq_ok s' \/ int_level s' = int_level s /\ int_enabled s' = int_enabled s /\ irq s' = irq s.

Lemma lines_kept_irq s s' : lines_kept s s' -> irq_ok s -> irq_ok s'.
Proof. intros [|(? & ? & ?)]; [done|by apply irq_ok_same]. Qed.
Lemma lines_kept_refl s : lines_kept s s.
Proof. by right. Qed.
Lemma lines_kept_trans s1 s2 s3 : lines_kept s1 s2 -> lines_kept s2 s3 -> lines_kept s1 s3.
Proof.
  intros H12 [H|(E1 & E2 & E3)]; [by left|]. destruct H12 as [H|(F1 & F2 & F3)].
  - left. by apply (irq_ok_same s2).
  - right. split_and!; congruence.
Qed.

Lemma depth_cases s : depth s = 16 \/ depth s = 1.
Proof. unfold depth, nxp_uart_get_fifo_depth. destruct (nxp_uart_is_fifo_enabled s); auto. Qed.

Lemma mask_mod s z : 0 <= z < 2 ^ 32 -> Z.land (u32 z) (depth s - 1) = z mod depth s.
Proof.
  intros Hz. rewrite u32_id by exact Hz. destruct (depth_cases s) as [-> | ->].
  - change (16 - 1) with (Z.ones 4). by rewrite Z.land_ones by done.
  - change (1 - 1) with (Z.ones 0). by rewrite Z.land_ones by done.
Qed.

Lemma mask_range s z : 0 <= Z.land z (depth s - 1) < depth s.
Proof.
  destruct (depth_cases s) as [-> | ->].
  - change (16 - 1) with (Z.ones 4). rewrite Z.land_ones by done. by apply Z.mod_pos_bound.
  - change (1 - 1) with 0. by rewrite Z.land_0_r.
Qed.

Lemma clear_bits_spec x m i :
  0 <= i < 32 -> Z.testbit (clear_bits x m) i = Z.testbit x i && negb (Z.testbit m i).
Proof.
  intros Hi. unfold clear_bits, u32. rewrite Z.land_spec, Z.mod_pow2_bits_low by lia.
  by rewrite Z.lnot_spec by lia.
Qed.
Lemma set_bits_spec x m i : Z.testbit (set_bits x m) i = Z.testbit x i || Z.testbit m i.
Proof. apply Z.lor_spec. Qed.

Lemma uart_ok_safe s : uart_ok s -> uart_safe s.
Proof. intros []. destruct (depth_cases s); split; lia. Qed.

(** ** The ring *)

(** The elements of the ring from [pos] on. *)
Definition ring (d : Z) (fifo : list Z) (pos : Z) (n : nat) : list Z :=
  (fun i => default 0 (fifo !! Z.to_nat ((pos + Z.of_nat i) mod d))) <$> seq 0 n.

Lemma ring_length d fifo pos n : length (ring d fifo pos n) = n.
Proof. unfold ring. by rewrite length_fmap, length_seq. Qed.

Lemma ring_tail d fifo pos n :
  0 < d -> ring d fifo pos (S n) =
    default 0 (fifo !! Z.to_nat (pos mod d)) :: ring d fifo ((pos + 1) mod d) n.
Proof.
  intros Hd. unfold ring. change (seq 0 (S n)) with (0%nat :: seq 1 n). rewrite fmap_cons.
  f_equal; [by rewrite Z.add_0_r|].
  rewrite <- (fmap_S_seq 0 n). rewrite <- list_fmap_compose.
  apply list_fmap_ext. intros i x _. unfold compose.
  rewrite Zplus_mod_idemp_l. by replace (pos + 1 + Z.of_nat x) with (pos + Z.of_nat (S x)) by lia.
Qed.

(** Two indices of the window below the depth do not share a slot. *)
Lemma ring_slots d pos i j :
  0 < d -> 0 <= i < d -> 0 <= j < d -> (pos + i) mod d = (pos + j) mod d -> i = j.
Proof.
  intros Hd Hi Hj E.
  assert (H : (i - j) mod d = 0).
  { replace (i - j) with ((pos + i) - (pos + j)) by lia.
    rewrite Zminus_mod, E, Z.sub_diag. apply Z.mod_0_l. lia. }
  apply Z.mod_divide in H as [k Hk]; [|lia].
  destruct (Z.lt_trichotomy k 0) as [?|[->|?]]; nia.
Qed.

Lemma ring_put d fifo pos n v :
  0 < d -> d <= Z.of_nat (length fifo) -> Z.of_nat n < d ->
  ring d (<[Z.to_nat ((pos + Z.of_nat n) mod d) := v]> fifo) pos (S n) =
    ring d fifo pos n ++ [v].
Proof.
  intros Hd Hl Hn. unfold ring. rewrite seq_S, fmap_app. f_equal.
  - apply list_fmap_ext. intros i x Hx. apply lookup_seq in Hx as [-> Hx].
    rewrite list_lookup_insert_ne; [done|]. intros E.
    apply Z2Nat.inj in E; [|apply Z.mod_pos_bound; lia..].
    apply ring_slots in E; lia.
  - simpl. f_equal. rewrite list_lookup_insert_eq; [done|].
    pose proof (Z.mod_pos_bound (pos + Z.of_nat n) d ltac:(lia)). lia.
Qed.

Lemma rx_queue_ring s :
  rx_queue s = ring (depth s) (read_fifo s) (read_pos s) (Z.to_nat (read_count s)).
Proof. reflexivity. Qed.

Lemma depth_lcr s s' : lcr s' = lcr s -> depth s' = depth s.
Proof. intros H. unfold depth, nxp_uart_get_fifo_depth, nxp_uart_is_fifo_enabled. by rewrite H. Qed.

(** ** Frame of the receive operations *)
Record rx_frame (s s' : NXP_UART_STATE) : Prop := {
  rf_lcr : lcr s' = lcr s;
  rf_cr : cr s' = cr s;
  rf_trigger : read_trigger s' = read_trigger s;
  rf_enabled : int_enabled s' = int_enabled s;
  rf_out : chr_out s' = chr_out s
}.
Lemma rx_frame_trans s1 s2 s3 : rx_frame s1 s2 -> rx_frame s2 s3 -> rx_frame s1 s3.
Proof. intros [] []. split; congruence. Qed.

Definition put_slot (s : NXP_UART_STATE) : nat :=
  Z.to_nat (Z.land (u32 (read_pos s + read_count s)) (depth s - 1)).

Lemma put_spec s v s' :
  nxp_uart_fifo_rx_put s v = Some s' ->
  rx_frame s s' /\ read_fifo s' = <[put_slot s := v]> (read_fifo s) /\
  read_pos s' = read_pos s /\ read_count s' = s32 (read_count s + 1) /\
  flags s' = (let f := clear_bits (flags s) NXP_UART_FLAG_RXFE in
              if u32 (read_count s') =? depth s then set_bits f NXP_UART_FLAG_RXFF else f) /\
  lines_kept s s'.
Proof.
  unfold nxp_uart_fifo_rx_put. fold (depth s) (put_slot s). cbv zeta.
  destruct (read_fifo s !! put_slot s); [|done]. intros [= <-]. fields.
  destruct (u32 (s32 (read_count s + 1)) =? depth s) eqn:E; fields;
    destruct (s32 (read_count s + 1) =? read_trigger s);
    unfold lines_kept, irq_ok, nxp_uart_update; cbv zeta; fields;
    (split; [split; by fields|rewrite ?E; split_and!; try done; first [by left|by right]]).
Qed.

Lemma put_total s v : uart_safe s -> exists s', nxp_uart_fifo_rx_put s v = Some s' /\ uart_safe s'.
Proof.
  intros [Hf Hp]. pose proof (mask_range s (u32 (read_pos s + read_count s))).
  destruct (nxp_uart_fifo_rx_put s v) as [s'|] eqn:E.
  - destruct (put_spec _ _ _ E) as (_ & E1 & E2 & _). exists s'. split; [done|].
    split; [by rewrite E1, length_insert|by rewrite E2].
  - exfalso. unfold nxp_uart_fifo_rx_put in E. fold (depth s) (put_slot s) in E.
    destruct (lookup_lt_is_Some_2 (read_fifo s) (put_slot s)) as [x Hx].
    + rewrite Hf. unfold put_slot. destruct (depth_cases s); lia.
    + by rewrite Hx in E.
Qed.

Lemma put_queue s v :
  uart_ok s -> read_count s < depth s ->
  exists s', nxp_uart_fifo_rx_put s v = Some s' /\ uart_ok s' /\ rx_frame s s' /\
    rx_queue s' = rx_queue s ++ [v] /\ read_count s' = read_count s + 1.
Proof.
  intros Hok Hc. destruct (put_total s v (uart_ok_safe s Hok)) as (s' & E & _).
  exists s'. split; [done|]. destruct (put_spec _ _ _ E) as (Hf & E1 & E2 & E3 & E4 & _).
  pose proof Hf as []. pose proof Hok as []. pose proof (depth_lcr s s' rf_lcr0) as Hd.
  rewrite s32_small in E3 by (destruct (depth_cases s); lia).
  assert (Hs : put_slot s = Z.to_nat ((read_pos s + read_count s) mod depth s)).
  { unfold put_slot. rewrite mask_mod; [done|destruct (depth_cases s); lia]. }
  rewrite E3 in E4. rewrite u32_id in E4 by (destruct (depth_cases s); unfold is_u32; lia).
  split_and!; [|done| |done].
  - split; rewrite ?Hd, ?E1, ?E2, ?E3, ?rf_trigger0, ?length_insert; try done; try lia.
    + rewrite E4, (bool_decide_eq_false_2 (_ = 0)) by lia. cbv zeta.
      destruct (_ =? _); rewrite ?set_bits_spec, clear_bits_spec by lia;
        (by rewrite andb_false_r).
    + rewrite E4. cbv zeta. destruct (Z.eqb_spec (read_count s + 1) (depth s)) as [Heq|Hne].
      * rewrite bool_decide_eq_true_2, set_bits_spec by lia. apply orb_true_r.
      * rewrite bool_decide_eq_false_2, clear_bits_spec, uo_full0 by lia.
        by rewrite bool_decide_eq_false_2 by lia.
  - rewrite !rx_queue_ring, Hd, E1, E2, E3, Hs.
    replace (Z.to_nat (read_count s + 1)) with (S (Z.to_nat (read_count s))) by lia.
    replace (read_count s) with (Z.of_nat (Z.to_nat (read_count s))) at 1 by lia.
    apply ring_put; destruct (depth_cases s); lia.
Qed.

(** Reading the data register. *)
Lemma rxdata_spec s :
  uart_safe s ->
  exists s', nxp_uart_read_rxdata s =
      Some (default 0 (read_fifo s !! Z.to_nat (read_pos s)), s') /\
    rx_frame s s' /\ irq_ok s' /\ read_fifo s' = read_fifo s /\
    read_count s' = (if 0 <? read_count s then read_count s - 1 else read_count s) /\
    read_pos s' = (if 0 <? read_count s then Z.land (u32 (read_pos s + 1)) (depth s - 1)
                   else read_pos s) /\
    flags s' = (let f := clear_bits (flags s) NXP_UART_FLAG_RXFF in
                if read_count s' =? 0 then set_bits f NXP_UART_FLAG_RXFE else f).
Proof.
  intros [Hf Hp]. unfold nxp_uart_read_rxdata. fold (depth s). cbv zeta. fields.
  replace (0 <=? read_pos s) with true by lia.
  destruct (lookup_lt_is_Some_2 (read_fifo s) (Z.to_nat (read_pos s))) as [c Hc]; [lia|].
  rewrite Hc. eexists. split; [reflexivity|].
  destruct (0 <? read_count s); fields.
  - destruct (read_count s - 1 =? 0) eqn:E; fields;
      destruct (_ =? s32 _); unfold irq_ok, nxp_uart_update; cbv zeta; fields;
      (split; [split; by fields|rewrite ?E; by repeat split]).
  - destruct (read_count s =? 0) eqn:E; fields;
      destruct (_ =? s32 _); unfold irq_ok, nxp_uart_update; cbv zeta; fields;
      (split; [split; by fields|rewrite ?E; by repeat split]).
Qed.

Lemma rxdata_safe s c s' :
  uart_safe s -> nxp_uart_read_rxdata s = Some (c, s') -> uart_safe s' /\ irq_ok s'.
Proof.
  intros Hs E. destruct (rxdata_spec s Hs) as (s2 & E2 & Hf & Hi & E3 & _ & E4 & _).
  assert (s2 = s') as -> by congruence. split; [|done]. destruct Hs as [Hl Hp].
  split; [by rewrite E3|]. rewrite E4. destruct (_ <? _); [|done].
  pose proof (mask_range s (u32 (read_pos s + 1))). destruct (depth_cases s); lia.
Qed.

Lemma rxdata_queue s :
  uart_ok s ->
  exists c s', nxp_uart_read_rxdata s = Some (c, s') /\ uart_ok s' /\ rx_frame s s' /\
    match rx_queue s with
    | [] => rx_queue s' = []
    | v :: q => c = v /\ rx_queue s' = q
    end.
Proof.
  intros Hok. pose proof Hok as [].
  destruct (rxdata_spec s (uart_ok_safe s Hok)) as (s' & E & Hf & _ & E1 & E2 & E3 & E4).
  eexists _, s'. split; [exact E|]. pose proof Hf as [].
  pose proof (depth_lcr s s' rf_lcr0) as Hd. pose proof (depth_cases s) as Hdc.
  assert (H4 : forall b, Z.testbit (flags s') b = (Z.testbit (clear_bits (flags s) NXP_UART_FLAG_RXFF) b
    || (if read_count s' =? 0 then Z.testbit NXP_UART_FLAG_RXFE b else false))).
  { intros b. rewrite E4. cbv zeta. destruct (_ =? 0); [by rewrite set_bits_spec|].
    by rewrite orb_false_r. }
  destruct (Z.ltb_spec 0 (read_count s)) as [Hc|Hc].
  - rewrite mask_mod in E3 by lia. split; [|split; [done|]].
    + split; rewrite ?Hd, ?E1, ?E2, ?E3, ?rf_trigger0; try done; try lia.
      * apply Z.mod_pos_bound. lia.
      * rewrite H4, clear_bits_spec, uo_empty0, (bool_decide_eq_false_2 (read_count s = 0)), E2 by lia.
        simpl. destruct (Z.eqb_spec (read_count s - 1) 0);
          [by rewrite bool_decide_eq_true_2|by rewrite bool_decide_eq_false_2].
      * rewrite H4, clear_bits_spec by lia. rewrite andb_false_r. simpl.
        rewrite bool_decide_eq_false_2 by lia. by destruct (_ =? 0).
    + rewrite !rx_queue_ring, Hd, E1, E2, E3.
      replace (Z.to_nat (read_count s)) with (S (Z.to_nat (read_count s - 1))) by lia.
      rewrite ring_tail by lia. by rewrite (Z.mod_small (read_pos s)) by lia.
  - assert (Hz : read_count s = 0) by lia. split; [|split; [done|]].
    + split; rewrite ?Hd, ?E1, ?E2, ?E3, ?rf_trigger0; try done; try lia.
      * rewrite H4, clear_bits_spec, uo_empty0, Hz by lia. done.
      * rewrite H4, clear_bits_spec, andb_false_r, E2 by lia. simpl.
        rewrite bool_decide_eq_false_2 by lia. by destruct (read_count s =? 0).
    + rewrite !rx_queue_ring, E2, Hz. done.
Qed.

(** ** Registers *)
Lemma loopback_tx_safe s v :
  uart_safe s ->
  exists s', nxp_uart_loopback_tx s v = Some s' /\ uart_safe s' /\ rx_frame s s' /\
    lines_kept s s' /\ (read_pos s' = read_pos s).
Proof.
  intros Hs. unfold nxp_uart_loopback_tx. destruct (negb _).
  { exists s. split_and!; try done; apply lines_kept_refl. }
  destruct (put_total s v Hs) as (s' & E & Hs'). exists s'.
  by destruct (put_spec _ _ _ E) as (Hf & _ & Hp & _ & _ & Hi).
Qed.

Lemma write_lcr_safe s v :
  uart_safe s ->
  exists s', nxp_uart_write_lcr s v = Some s' /\ uart_safe s' /\ lines_kept s s' /\
    chr_out s' = chr_out s.
Proof.
  intros Hs. unfold nxp_uart_write_lcr.
  set (s1 := if negb (Z.land (Z.lxor (lcr s) v) LCR_FEN =? 0) then _ else s).
  assert (H1 : uart_safe s1 /\ lines_kept s s1 /\ chr_out s1 = chr_out s).
  { unfold s1. destruct (negb _); [|split_and!; try done; apply lines_kept_refl].
    unfold nxp_uart_reset_tx_fifo, nxp_uart_reset_rx_fifo. cbv zeta.
    destruct Hs. split; [split; fields; done|]. split; [right|]; by fields. }
  clearbody s1. destruct H1 as (Hs1 & Hi1 & Ho1). cbv zeta.
  assert (H2 : exists s2, (if negb (Z.land (Z.lxor (lcr s1) v) LCR_BRK =? 0)
      then nxp_uart_loopback_break s1 (Z.land v LCR_BRK) else Some s1) = Some s2 /\
    uart_safe s2 /\ rx_frame s1 s2 /\ lines_kept s1 s2).
  { pose proof (lines_kept_refl s1).
    unfold nxp_uart_loopback_break. destruct (negb _); [|by exists s1].
    destruct (negb _); [|by exists s1].
    destruct (loopback_tx_safe s1 DR_BE Hs1) as (s2 & E & ? & ? & ? & _). by exists s2. }
  destruct H2 as (s2 & -> & Hs2 & Hf2 & Hi2). eexists. split; [reflexivity|].
  unfold nxp_uart_set_read_trigger. split_and!.
  - destruct Hs2. by split; fields.
  - apply (lines_kept_trans s s1); [done|]. apply (lines_kept_trans s1 s2); [done|]. right. by fields.
  - fields. destruct Hf2. congruence.
Qed.

Lemma mdmctrl_safe s :
  uart_safe s ->
  uart_safe (nxp_uart_loopback_mdmctrl s) /\ lines_kept s (nxp_uart_loopback_mdmctrl s) /\
  chr_out (nxp_uart_loopback_mdmctrl s) = chr_out s.
Proof.
  intros [Hf Hp]. unfold nxp_uart_loopback_mdmctrl. destruct (negb _).
  { split_and!; try done; apply lines_kept_refl. }
  cbv zeta. split_and!; [|left; apply irq_ok_update|unfold nxp_uart_update; cbv zeta; by fields].
  unfold nxp_uart_update. cbv zeta. split; by fields.
Qed.

Definition is_data (offset : Z) : bool := Z.shiftr offset 2 =? 0.

Lemma txdata_safe s v :
  uart_safe s ->
  exists s', nxp_uart_write_txdata s v = Some s' /\ uart_safe s' /\ irq_ok s' /\
    chr_out s' = chr_out s ++ [v].
Proof.
  intros Hs. unfold nxp_uart_write_txdata. cbv zeta.
  destruct (loopback_tx_safe (s <| chr_out := chr_out s ++ [v] |>) v) as (s1 & E & H1 & Hf & _).
  { destruct Hs. by split; fields. }
  rewrite E. eexists. split; [reflexivity|]. split_and!; [|apply irq_ok_update|].
  - destruct H1. unfold nxp_uart_update. cbv zeta. by split; fields.
  - unfold nxp_uart_update. cbv zeta. fields. destruct Hf. rewrite rf_out0. by fields.
Qed.

Lemma uart_write_safe s offset v :
  uart_safe s ->
  exists s', nxp_uart_write s offset v = Some s' /\ uart_safe s' /\ lines_kept s s' /\
    chr_out s' = chr_out s ++ (if is_data offset then [u8 v] else []).
Proof.
  intros Hs. unfold nxp_uart_write, is_data. cbv zeta.
  assert (Hsame : forall s', uart_safe s' -> lines_kept s s' -> chr_out s' = chr_out s ->
    exists s2, Some s' = Some s2 /\ uart_safe s2 /\ lines_kept s s2 /\ chr_out s2 = chr_out s ++ []).
  { intros s' H1 H2 H3. exists s'. by rewrite app_nil_r. }
  destruct (_ =? 0) eqn:E0; [destruct (txdata_safe s (u8 v) Hs) as (s' & ? & ? & ? & ?); exists s'; split_and!; try done; by left|].
  clear E0. pose proof Hs as [].
  assert (Hset : forall s', read_fifo s' = read_fifo s -> read_pos s' = read_pos s -> uart_safe s')
    by (intros s' E1 E2; split; by rewrite ?E1, ?E2).
  assert (Hplain : forall s', read_fifo s' = read_fifo s -> read_pos s' = read_pos s ->
    int_level s' = int_level s -> int_enabled s' = int_enabled s -> irq s' = irq s ->
    chr_out s' = chr_out s ->
    exists s2, Some s' = Some s2 /\ uart_safe s2 /\ lines_kept s s2 /\ chr_out s2 = chr_out s ++ []).
  { intros s' E1 E2 E3 E4 E5 E6. apply Hsame; [by apply Hset|by right|done]. }
  assert (Hup : forall s', read_fifo s' = read_fifo s -> read_pos s' = read_pos s ->
    chr_out s' = chr_out s -> exists s2, Some (nxp_uart_update s') = Some s2 /\ uart_safe s2 /\
      lines_kept s s2 /\ chr_out s2 = chr_out s ++ []).
  { intros s' E1 E2 E3. apply Hsame; [|left; apply irq_ok_update|].
    - apply Hset; unfold nxp_uart_update; cbv zeta; by fields.
    - unfold nxp_uart_update; cbv zeta; by fields. }
  do 5 (destruct (_ =? _); [apply Hplain; by fields|]).
  destruct (_ =? _).
  { destruct (write_lcr_safe s v Hs) as (s' & -> & H1 & H2 & H3). apply Hsame; auto. }
  destruct (_ =? _).
  { destruct (mdmctrl_safe (s <| cr := u32 v |>)) as (H1 & H2 & H3).
    - apply Hset; by fields.
    - apply Hsame; [done| |rewrite H3; by fields].
      eapply lines_kept_trans; [|exact H2]. right. by fields. }
  destruct (_ =? _); [unfold nxp_uart_set_read_trigger; apply Hplain; by fields|].
  do 2 (destruct (_ =? _); [apply Hup; by fields|]).
  destruct (_ =? _); apply Hplain; by fields.
Qed.

(** [id] has 8 bytes, register 0x1000 reads a ninth. *)
Definition is_bad_id (offset : Z) : bool := Z.shiftr offset 2 =? 0x400.

Lemma uart_read_safe s offset :
  uart_safe s ->
  match nxp_uart_read s offset with
  | Some (_, s') => is_bad_id offset = false /\ uart_safe s' /\ lines_kept s s' /\ chr_out s' = chr_out s
  | None => is_bad_id offset = true
  end.
Proof.
  intros Hs. unfold nxp_uart_read, is_bad_id. cbv zeta. pose proof (lines_kept_refl s) as Hi.
  destruct (_ =? 0) eqn:E0.
  { destruct (rxdata_spec s Hs) as (s' & E & Hf & _). rewrite E.
    destruct (rxdata_safe _ _ _ Hs E). destruct Hf. split_and!; try done; [lia|by left]. }
  set (idx := Z.shiftr offset 2) in *.
  assert (Hk : forall k, (idx =? k) = true -> k <> 0x400 ->
    (idx =? 0x400) = false /\ uart_safe s /\ lines_kept s s /\ chr_out s = chr_out s)
    by (intros; split_and!; [lia|done..]).
  do 12 (match goal with
         | |- context [if idx =? ?k then _ else _] =>
             destruct (idx =? k) eqn:E; [by apply (Hk k)|clear E]
         end).
  destruct (_ && _) eqn:E; [|split_and!; [lia|done..]].
  assert (Hidx : Z.shiftr (offset - 0xfe0) 2 = idx - 0x3f8).
  { unfold idx. rewrite !(Z.shiftr_div_pow2 _ 2) by done. change (2 ^ 2) with 4.
    replace (offset - 0xfe0) with (offset + (- 0x3f8) * 4) by lia. by rewrite Z.div_add by done. }
  rewrite Hidx. destruct (idx =? 0x400) eqn:Eb.
  - by replace idx with 0x400 by lia.
  - destruct (lookup_lt_is_Some_2 nxp_uart_id_arm (Z.to_nat (idx - 0x3f8))) as [x ->];
      [simpl; lia|done].
Qed.

(** ** The queue under the other operations *)
Lemma uart_ok_same s s' :
  depth s' = depth s -> read_fifo s' = read_fifo s -> read_pos s' = read_pos s ->
  read_count s' = read_count s -> read_trigger s' = 1 ->
  Z.testbit (flags s') 4 = Z.testbit (flags s) 4 ->
  Z.testbit (flags s') 6 = Z.testbit (flags s) 6 ->
  uart_ok s -> uart_ok s' /\ rx_queue s' = rx_queue s.
Proof.
  intros Hd E2 E3 E4 E5 E6 E7 []. split.
  - split; by rewrite ?Hd, ?E2, ?E3, ?E4, ?E6, ?E7.
  - by rewrite !rx_queue_ring, Hd, E2, E3, E4.
Qed.

Lemma fifo_enabled_bit s : nxp_uart_is_fifo_enabled s = Z.testbit (lcr s) 4.
Proof. exact (land_bit (lcr s) 4 ltac:(lia)). Qed.

Lemma write_lcr_queue s v :
  uart_ok s -> nxp_uart_loopback_enabled s = false ->
  exists s', nxp_uart_write_lcr s v = Some s' /\ uart_ok s' /\
    rx_queue s' = (if xorb (Z.testbit (lcr s) 4) (Z.testbit v 4) then [] else rx_queue s).
Proof.
  intros Hok Hlb. unfold nxp_uart_write_lcr. rewrite (land_bit _ 4), Z.lxor_spec by lia.
  set (b := xorb _ _). cbv zeta.
  set (s1 := if b then _ else s).
  assert (Hlb1 : nxp_uart_loopback_enabled s1 = false).
  { unfold s1. destruct b; [|done]. rewrite <- Hlb. unfold nxp_uart_loopback_enabled,
      nxp_uart_reset_tx_fifo, nxp_uart_reset_rx_fifo. cbv zeta. by fields. }
  eexists. split.
  { unfold nxp_uart_loopback_break, nxp_uart_loopback_tx. rewrite Hlb1. simpl negb at 3.
    destruct (negb _); [destruct (negb _)|]; reflexivity. }
  assert (Hu : Z.testbit (u32 v) 4 = Z.testbit v 4) by (apply Z.mod_pow2_bits_low; lia).
  unfold s1, nxp_uart_set_read_trigger. destruct b eqn:Hb.
  - unfold nxp_uart_reset_tx_fifo, nxp_uart_reset_rx_fifo. cbv zeta. split; [|done].
    destruct Hok. split; fields; try done.
    + destruct (depth_cases (s <| lcr := u32 v |>)) as [H|H]; unfold depth,
        nxp_uart_get_fifo_depth, nxp_uart_is_fifo_enabled in *; fields; fields_in H; lia.
    + unfold depth, nxp_uart_get_fifo_depth. by destruct (nxp_uart_is_fifo_enabled _).
    + rewrite !set_bits_spec, clear_bits_spec, set_bits_spec by lia. simpl.
      by rewrite !orb_true_r.
    + rewrite !set_bits_spec, !clear_bits_spec, set_bits_spec, clear_bits_spec by lia.
      rewrite andb_false_r. symmetry. apply bool_decide_eq_false_2.
      unfold depth, nxp_uart_get_fifo_depth. by destruct (nxp_uart_is_fifo_enabled _).
  - apply (uart_ok_same s); fields; try done.
    unfold depth, nxp_uart_get_fifo_depth. rewrite !fifo_enabled_bit. fields. rewrite Hu.
    by apply xorb_eq in Hb as ->.
Qed.

(** The modem bits are not those of the FIFO. *)
Lemma mdmctrl_queue s :
  uart_ok s -> uart_ok (nxp_uart_loopback_mdmctrl s) /\
  rx_queue (nxp_uart_loopback_mdmctrl s) = rx_queue s.
Proof.
  intros Hok. unfold nxp_uart_loopback_mdmctrl. destruct (negb _); [done|]. cbv zeta.
  unfold nxp_uart_update. cbv zeta. pose proof Hok as [].
  assert (Hon : forall (b : bool) m i, Z.testbit m i = false ->
    Z.testbit (if b then m else 0) i = false) by (by intros [] m i; rewrite ?Z.bits_0).
  apply (uart_ok_same s); fields; try done;
    rewrite !Z.lor_spec, clear_bits_spec, !Hon by (lia || done);
    by rewrite !orb_false_r, andb_true_r.
Qed.

Lemma uart_write_queue s offset v :
  uart_ok s -> nxp_uart_loopback_enabled s = false ->
  exists s', nxp_uart_write s offset v = Some s' /\ uart_ok s' /\
    rx_queue s' = (if (Z.shiftr offset 2 =? 11) && xorb (Z.testbit (lcr s) 4) (Z.testbit v 4)
                   then [] else rx_queue s).
Proof.
  intros Hok Hlb. unfold nxp_uart_write. cbv zeta. set (idx := Z.shiftr offset 2).
  pose proof Hok as [].
  assert (Hsame : forall s', read_fifo s' = read_fifo s -> read_pos s' = read_pos s ->
    read_count s' = read_count s -> read_trigger s' = 1 -> flags s' = flags s -> lcr s' = lcr s ->
    (idx =? 11) = false -> exists s2, Some s' = Some s2 /\ uart_ok s2 /\ rx_queue s2 =
      (if (idx =? 11) && xorb (Z.testbit (lcr s) 4) (Z.testbit v 4) then [] else rx_queue s)).
  { intros s' E1 E2 E3 E4 E5 E6 ->. exists s'. split; [done|]. simpl.
    apply (uart_ok_same s); rewrite ?E5; try done. by apply depth_lcr. }
  destruct (idx =? 0) eqn:E0.
  { unfold nxp_uart_write_txdata, nxp_uart_loopback_tx. cbv zeta.
    replace (nxp_uart_loopback_enabled (s <| chr_out := _ |>)) with false.
    simpl negb. cbv iota. unfold nxp_uart_update. cbv zeta. apply Hsame; fields; done || lia. }
  do 5 (match goal with |- context [if idx =? ?k then Some _ else _] =>
    destruct (idx =? k) eqn:E; [apply Hsame; fields; done || lia|clear E] end).
  destruct (idx =? 11) eqn:E11.
  { simpl. by apply write_lcr_queue. }
  destruct (idx =? 12).
  { eexists. split; [reflexivity|]. simpl.
    destruct (uart_ok_same s (s <| cr := u32 v |>)) as [H1 H2]; fields; try done.
    destruct (mdmctrl_queue _ H1) as [H3 H4]. split; [done|congruence]. }
  do 4 (match goal with |- context [if idx =? ?k then Some _ else _] =>
    destruct (idx =? k); [apply Hsame; unfold nxp_uart_set_read_trigger, nxp_uart_update;
      cbv zeta; fields; done|] end).
  by apply Hsame.
Qed.

Lemma can_receive_room s : uart_ok s -> nxp_uart_can_receive s = depth s - read_count s.
Proof.
  intros []. unfold nxp_uart_can_receive. fold (depth s). pose proof (depth_cases s).
  rewrite (u32_id (read_count s)) by (unfold is_u32; lia). rewrite u32_id by (unfold is_u32; lia).
  apply s32_small. lia.
Qed.

Lemma put_all_queue s buf :
  uart_ok s -> zlen buf <= depth s - read_count s ->
  exists s', nxp_uart_rx_put_all s buf = Some s' /\ uart_ok s' /\ rx_frame s s' /\
    rx_queue s' = rx_queue s ++ buf.
Proof.
  revert s. induction buf as [|b buf IH]; intros s Hok Hl.
  - exists s. rewrite app_nil_r. split_and!; [done|done|by split|done].
  - rewrite zlen_cons in Hl. pose proof (zlen_nonneg buf).
    destruct (put_queue s b Hok) as (s1 & E & Hok1 & Hf & Hq & Hc); [lia|].
    pose proof Hf as []. destruct (IH s1 Hok1) as (s2 & E2 & Hok2 & Hf2 & Hq2).
    { rewrite (depth_lcr s s1 rf_lcr0), Hc. lia. }
    exists s2. simpl. rewrite E. split_and!; [done|done|by eapply rx_frame_trans|].
    by rewrite Hq2, Hq, <- app_assoc.
Qed.

Lemma put_all_safe s buf :
  uart_safe s ->
  exists s', nxp_uart_rx_put_all s buf = Some s' /\ uart_safe s' /\ lines_kept s s'.
Proof.
  revert s. induction buf as [|b buf IH]; intros s Hs; simpl; [exists s; split_and!; try done; apply lines_kept_refl|].
  destruct (put_total s b Hs) as (s1 & E & Hs1). rewrite E.
  destruct (put_spec _ _ _ E) as (_ & _ & _ & _ & _ & Hi1).
  destruct (IH s1 Hs1) as (s2 & E2 & Hs2 & Hi2). exists s2. split_and!; try done. by eapply lines_kept_trans.
Qed.

(** ** Steps: register accesses of the guest, bytes and breaks on the line, resets *)
Inductive uart_step (s : NXP_UART_STATE) : NXP_UART_STATE -> Prop :=
| ustep_read offset v s' : nxp_uart_read s offset = Some (v, s') -> uart_step s s'
| ustep_write offset v s' : nxp_uart_write s offset v = Some s' -> uart_step s s'
| ustep_receive buf s' : nxp_uart_receive s buf = Some s' -> uart_step s s'
| ustep_break s' : nxp_uart_event_break s = Some s' -> uart_step s s'
| ustep_reset : uart_step s (nxp_uart_reset s).

Inductive uart_reachable : NXP_UART_STATE -> Prop :=
| ureach_reset : uart_reachable (nxp_uart_reset NXP_UART_zero)
| ureach_step s s' : uart_reachable s -> uart_step s s' -> uart_reachable s'.

Lemma uart_reset_ok : uart_ok (nxp_uart_reset NXP_UART_zero) /\ irq_ok (nxp_uart_reset NXP_UART_zero).
Proof.
  split; [split|unfold irq_ok]; vm_compute; try reflexivity; split; first [done|discriminate].
Qed.

Lemma uart_reset_safe s : uart_safe s -> uart_safe (nxp_uart_reset s).
Proof.
  intros []. unfold nxp_uart_reset, nxp_uart_reset_tx_fifo, nxp_uart_reset_rx_fifo. cbv zeta.
  by split; fields.
Qed.

(** A reset clears the two registers and leaves the lines alone. *)
Lemma uart_reset_lines s :
  int_level (nxp_uart_reset s) = 0 /\ int_enabled (nxp_uart_reset s) = 0 /\
  irq (nxp_uart_reset s) = irq s.
Proof. unfold nxp_uart_reset, nxp_uart_reset_tx_fifo, nxp_uart_reset_rx_fifo. cbv zeta. by fields. Qed.

Lemma uart_step_safe s s' :
  uart_safe s -> uart_step s s' -> uart_safe s' /\ (lines_kept s s' \/ s' = nxp_uart_reset s).
Proof.
  intros Hs [off v s2 E|off v s2 E|buf s2 E|s2 E|].
  - pose proof (uart_read_safe s off Hs) as H. rewrite E in H. tauto.
  - destruct (uart_write_safe s off v Hs) as (s3 & E2 & H1 & H2 & _).
    replace s2 with s3 by congruence. auto.
  - unfold nxp_uart_receive in E. destruct (nxp_uart_loopback_enabled s).
    { simplify_eq. split; [done|left; apply lines_kept_refl]. }
    destruct (put_all_safe s buf Hs) as (s3 & E2 & H1 & H2). replace s2 with s3 by congruence. auto.
  - unfold nxp_uart_event_break in E. destruct (negb _).
    2:{ simplify_eq. split; [done|left; apply lines_kept_refl]. }
    destruct (put_total s DR_BE Hs) as (s3 & E2 & H1).
    destruct (put_spec _ _ _ E2) as (_ & _ & _ & _ & _ & H2).
    replace s2 with s3 by congruence. auto.
  - split; [by apply uart_reset_safe|by right].
Qed.

(** The lines are up to date, or both registers are clear, as a reset left them. *)
Definition lines_settled (s : NXP_UART_STATE) : Prop :=
  irq_ok s \/ int_level s = 0 /\ int_enabled s = 0.

Lemma uart_reachable_safe s : uart_reachable s -> uart_safe s /\ lines_settled s.
Proof.
  induction 1 as [|s s' _ [Hs Hi] Hstep].
  - destruct uart_reset_ok as [H1 H2]. split; [by apply uart_ok_safe|by left].
  - destruct (uart_step_safe s s' Hs Hstep) as [Hs' [[H|(E1 & E2 & E3)]| ->]]; (split; [done|]).
    + by left.
    + destruct Hi as [Hi|[H1 H2]]; [left; by apply (irq_ok_same s)|right; by rewrite E1, E2].
    + right. destruct (uart_reset_lines s) as (H1 & H2 & _). done.
Qed.

(** Reading the data register [n] times. *)
Fixpoint uart_drain (n : nat) (s : NXP_UART_STATE) : option (list Z * NXP_UART_STATE) :=
  match n with
  | O => Some ([], s)
  | S n => let? (c, s) := nxp_uart_read s 0 else None in
           let? (l, s) := uart_drain n s else None in Some (c :: l, s)
  end.

Lemma drain_queue n s :
  uart_ok s -> (n <= length (rx_queue s))%nat ->
  exists s', uart_drain n s = Some (take n (rx_queue s), s') /\ uart_ok s' /\
    rx_queue s' = drop n (rx_queue s).
Proof.
  revert s. induction n as [|n IH]; intros s Hok Hn; [by exists s|]. simpl.
  change (nxp_uart_read s 0) with (nxp_uart_read_rxdata s).
  destruct (rxdata_queue s Hok) as (c & s1 & -> & Hok1 & _ & Hq).
  destruct (rx_queue s) as [|v q]; [simpl in Hn; lia|]. destruct Hq as [-> Hq]. simpl in *.
  destruct (IH s1 Hok1) as (s2 & -> & Hok2 & Hq2); [rewrite Hq; lia|].
  exists s2. by rewrite Hq2, Hq.
Qed.

(** ** The divisors of the baud rate *)

(** The widths of the two registers. *)
Definition divisors_ok (s : NXP_UART_STATE) : Prop := 0 <= ibrd s < 2 ^ 16 /\ 0 <= fbrd s < 2 ^ 6.

Definition same_divisors (s s' : NXP_UART_STATE) : Prop := ibrd s' = ibrd s /\ fbrd s' = fbrd s.

Lemma rx_put_divisors s v s' : nxp_uart_fifo_rx_put s v = Some s' -> same_divisors s s'.
Proof.
  unfold nxp_uart_fifo_rx_put. destruct (read_fifo s !! _); [|done]. intros [= <-].
  by repeat case_match.
Qed.

Lemma put_all_divisors buf : forall s s', nxp_uart_rx_put_all s buf = Some s' -> same_divisors s s'.
Proof.
  induction buf as [|b buf IH]; intros s s' E; simpl in E; [by injection E as <-|].
  destruct (nxp_uart_fifo_rx_put s b) as [s1|] eqn:E1; [|done].
  destruct (rx_put_divisors _ _ _ E1) as [H1 H2], (IH _ _ E) as [H3 H4]. split; congruence.
Qed.

Lemma loopback_tx_divisors s v s' : nxp_uart_loopback_tx s v = Some s' -> same_divisors s s'.
Proof.
  unfold nxp_uart_loopback_tx. case_match; [by intros [= <-]|apply rx_put_divisors].
Qed.

Lemma read_divisors s offset v s' : nxp_uart_read s offset = Some (v, s') -> same_divisors s s'.
Proof.
  unfold nxp_uart_read. intros E. repeat (case_match; [simplify_eq; try done|]); simplify_eq; try done.
  unfold nxp_uart_read_rxdata in E. case_match; [|done]. injection E as <- <-. by repeat case_match.
Qed.

Lemma write_lcr_divisors s value s' : nxp_uart_write_lcr s value = Some s' -> same_divisors s s'.
Proof.
  unfold nxp_uart_write_lcr. set (s1 := if negb _ then _ else s).
  assert (H1 : same_divisors s s1) by (unfold s1; by case_match). clearbody s1.
  destruct (if negb (Z.land (Z.lxor (lcr s1) value) LCR_BRK =? 0) then _ else _) as [s2|] eqn:E; [|done].
  intros [= <-]. assert (H2 : same_divisors s1 s2).
  { case_match; [|by injection E as <-]. unfold nxp_uart_loopback_break in E.
    case_match; [by eapply loopback_tx_divisors|by injection E as <-]. }
  destruct H1, H2. split; simpl; congruence.
Qed.

Lemma write_divisors s offset value s' :
  nxp_uart_write s offset value = Some s' -> divisors_ok s -> divisors_ok s'.
Proof.
  assert (Hsame : forall s1, same_divisors s s1 -> divisors_ok s -> divisors_ok s1).
  { intros s1 [H1 H2] [H3 H4]. split; by rewrite ?H1, ?H2. }
  assert (Hland : forall k, 0 <= k -> 0 <= Z.land value (Z.ones k) < 2 ^ k).
  { intros k Hk. rewrite Z.land_ones by done. apply Z.mod_pos_bound. lia. }
  unfold nxp_uart_write. intros E Hd. repeat (case_match; [simplify_eq|]); simplify_eq; try done.
  - apply Hsame; [|done]. unfold nxp_uart_write_txdata in E. destruct (nxp_uart_loopback_tx _ _) as [s1|] eqn:E1; [|done].
    injection E as <-. by apply loopback_tx_divisors in E1.
  - split; [exact (Hland 16 ltac:(lia))|apply Hd].
  - split; [apply Hd|exact (Hland 6 ltac:(lia))].
  - apply Hsame; [|done]. by eapply write_lcr_divisors.
  - apply Hsame; [|done]. unfold nxp_uart_loopback_mdmctrl. by case_match.
Qed.

Lemma uart_reachable_divisors s : uart_reachable s -> divisors_ok s.
Proof.
  induction 1 as [|s s' _ Hd Hstep]; [done|].
  assert (Hsame : same_divisors s s' -> divisors_ok s').
  { intros [H1 H2]. destruct Hd. split; by rewrite ?H1, ?H2. }
  destruct Hstep as [off v s' E|off v s' E|buf s' E|s' E|].
  - apply Hsame. by eapply read_divisors.
  - by eapply write_divisors.
  - apply Hsame. unfold nxp_uart_receive in E. case_match; [by injection E as <-|by eapply put_all_divisors].
  - apply Hsame. unfold nxp_uart_event_break in E. case_match; [by eapply rx_put_divisors|by injection E as <-].
  - unfold divisors_ok, nxp_uart_reset, nxp_uart_reset_tx_fifo, nxp_uart_reset_rx_fifo. cbv zeta. by fields.
Qed.

(** Neither the shift nor the sum wraps, and the divisor is not zero. *)
Lemma baudrate_exact clk s : divisors_ok s -> 0 <= clk < 2 ^ 32 -> ibrd s <> 0 ->
  nxp_uart_get_baudrate clk s = 4 * (clk / (64 * ibrd s + fbrd s)).
Proof.
  intros [Hi Hf] Hc Hn. unfold nxp_uart_get_baudrate. replace (ibrd s =? 0) with false by lia.
  rewrite !Z.shiftl_mul_pow2 by lia. rewrite (u32_id (ibrd s * 2 ^ 6)) by (unfold is_u32; lia).
  rewrite (u32_id (ibrd s * 2 ^ 6 + fbrd s)) by (unfold is_u32; lia).
  replace (ibrd s * 2 ^ 6 + fbrd s) with (64 * ibrd s + fbrd s) by lia.
  assert (0 <= clk / (64 * ibrd s + fbrd s) <= clk / 64)
    by (split; [apply Z.div_pos|apply Z.div_le_compat_l]; lia).
  rewrite u32_id; [lia|]. unfold is_u32. assert (clk / 64 <= 2 ^ 26) by (apply Z.div_le_upper_bound; lia). lia.
Qed.

(** ** Theorems *)

(** C31: in every state reached by register accesses, received bytes, breaks and
    resets the FIFO array has its 16 elements and the cursor is inside it; the six
    interrupt lines show the enabled pending interrupts, unless a reset came since,
    which clears the two interrupt registers and leaves the lines as they were, and
    no other operation makes them stale; the divisors keep their widths, so that the
    baud rate for a 32-bit clock is computed without a wrap or a division by zero;
    writes to registers and received data never leave an array, and a read does
    exactly at register 0x1000, where the identification array has no element. *)
Theorem UART_invariant (s : NXP_UART_STATE) :
  uart_reachable s ->
  uart_safe s /\ lines_settled s /\
  (forall s', uart_step s s' -> irq_ok s -> irq_ok s' \/ s' = nxp_uart_reset s) /\ divisors_ok s /\
  (forall clk, 0 <= clk < 2 ^ 32 -> ibrd s <> 0 ->
     nxp_uart_get_baudrate clk s = 4 * (clk / (64 * ibrd s + fbrd s))) /\
  (forall offset v, exists s', nxp_uart_write s offset v = Some s') /\
  (forall buf, exists s', nxp_uart_receive s buf = Some s') /\
  (forall offset, nxp_uart_read s offset = None <-> Z.shiftr offset 2 = 0x400).
Proof.
  intros H. destruct (uart_reachable_safe s H) as [Hs Hi]. pose proof (uart_reachable_divisors s H) as Hd.
  split; [done|]. split; [done|]. split.
  { intros s' Hst Hl. destruct (uart_step_safe s s' Hs Hst) as [_ [Hk|]]; [left|by right].
    by apply (lines_kept_irq s). }
  split; [done|]. split; [intros; by apply baudrate_exact|]. split_and!.
  - intros offset v. destruct (uart_write_safe s offset v Hs) as (s' & E & _). by exists s'.
  - intros buf. unfold nxp_uart_receive. destruct (nxp_uart_loopback_enabled s); [by exists s|].
    destruct (put_all_safe s buf Hs) as (s' & E & _). by exists s'.
  - intros offset. pose proof (uart_read_safe s offset Hs) as Hr. unfold is_bad_id in Hr.
    destruct (nxp_uart_read s offset) as [[v s']|]; [|split; [intros; lia|done]].
    split; [done|]. intros Heq. destruct Hr as [Hr _]. lia.
Qed.

(** C29: the receive FIFO refines a queue of at most 16 bytes (1 with the FIFO
    disabled): the bytes the backend delivers, at most as many as
    [nxp_uart_can_receive] allows, are appended in order, reading the data
    register that many times returns the oldest bytes in order, and the
    receive-empty flag is set exactly when the queue is empty. *)
Theorem UART_fifo_refines (s : NXP_UART_STATE) (buf : list Z) (n : nat) :
  uart_ok s -> nxp_uart_loopback_enabled s = false -> zlen buf <= nxp_uart_can_receive s ->
  (n <= length (rx_queue s ++ buf))%nat ->
  exists s1 s2, nxp_uart_receive s buf = Some s1 /\ rx_queue s1 = rx_queue s ++ buf /\
    uart_drain n s1 = Some (take n (rx_queue s ++ buf), s2) /\
    uart_ok s2 /\ rx_queue s2 = drop n (rx_queue s ++ buf) /\
    (Z.testbit (flags s2) 4 = true <-> rx_queue s2 = []).
Proof.
  intros Hok Hlb Hl Hn. rewrite can_receive_room in Hl by done.
  unfold nxp_uart_receive. rewrite Hlb.
  destruct (put_all_queue s buf Hok Hl) as (s1 & E1 & Hok1 & _ & Hq1). rewrite <- Hq1 in *.
  destruct (drain_queue n s1 Hok1 Hn) as (s2 & E2 & Hok2 & Hq2).
  exists s1, s2. split_and!; try done. destruct Hok2. rewrite uo_empty0, bool_decide_eq_true.
  rewrite <- length_zero_iff_nil, rx_queue_ring, ring_length. lia.
Qed.

(** C30: outside of the loopback mode a register write keeps the queue, except
    that enabling or disabling the FIFO empties it; a write to the data register
    sends its low byte and nothing else is ever sent. *)
Theorem UART_write_refines (s : NXP_UART_STATE) (offset v : Z) :
  uart_ok s -> irq_ok s -> nxp_uart_loopback_enabled s = false ->
  exists s', nxp_uart_write s offset v = Some s' /\ uart_ok s' /\ irq_ok s' /\
    rx_queue s' = (if (Z.shiftr offset 2 =? 11) && xorb (Z.testbit (lcr s) 4) (Z.testbit v 4)
                   then [] else rx_queue s) /\
    chr_out s' = chr_out s ++ (if Z.shiftr offset 2 =? 0 then [u8 v] else []).
Proof.
  intros Hok Hi Hlb. destruct (uart_write_queue s offset v Hok Hlb) as (s' & E & Hok' & Hq).
  destruct (uart_write_safe s offset v (uart_ok_safe s Hok)) as (s2 & E2 & _ & Hk & Ho).
  assert (s2 = s') as -> by congruence. pose proof (lines_kept_irq s s' Hk Hi). by exists s'.
Qed.

(** C32: in loopback mode a byte sent while the FIFO is full is still put into
    the ring: the count exceeds the depth of the FIFO, the oldest byte is
    overwritten and the backend is offered a negative amount of room. *)
Theorem UART_loopback_overrun (s : NXP_UART_STATE) (v : Z) :
  uart_ok s -> nxp_uart_loopback_enabled s = true -> read_count s = depth s ->
  exists s', nxp_uart_write s 0 v = Some s' /\ read_count s' = depth s' + 1 /\
    nxp_uart_can_receive s' = -1 /\
    read_fifo s' !! Z.to_nat (read_pos s') = Some (u8 v).
Proof.
  intros Hok Hlb Hc. change (nxp_uart_write s 0 v) with (nxp_uart_write_txdata s (u8 v)).
  unfold nxp_uart_write_txdata, nxp_uart_loopback_tx. cbv zeta.
  set (s0 := s <| chr_out := _ |>).
  replace (nxp_uart_loopback_enabled s0) with true. simpl negb. cbv iota.
  assert (Hs0 : uart_safe s0) by (destruct (uart_ok_safe s Hok); by split; unfold s0; fields).
  destruct (put_total s0 (u8 v) Hs0) as (s1 & E & _). rewrite E.
  destruct (put_spec _ _ _ E) as (Hf & E1 & E2 & E3 & _). destruct Hf, Hok.
  change (lcr s0) with (lcr s) in rf_lcr0. pose proof (depth_lcr s s1 rf_lcr0) as Hd.
  change (read_count s0) with (read_count s) in E3. change (read_pos s0) with (read_pos s) in E2.
  change (read_fifo s0) with (read_fifo s) in E1.
  pose proof (depth_cases s) as Hdc. rewrite s32_small in E3 by lia.
  eexists. split; [reflexivity|]. unfold nxp_uart_update. cbv zeta. fields.
  change (depth _) with (depth s1) at 1. rewrite Hd. split; [lia|]. split.
  - unfold nxp_uart_can_receive. change (nxp_uart_get_fifo_depth _) with (depth s1). fields.
    rewrite Hd, E3, Hc. by destruct Hdc as [-> | ->].
  - assert (Hslot : put_slot s0 = Z.to_nat (read_pos s)).
    { unfold put_slot. change (depth s0) with (depth s). change (read_count s0) with (read_count s).
      change (read_pos s0) with (read_pos s). rewrite mask_mod, Hc by lia.
      rewrite <- (Z.mul_1_l (depth s)) at 1. rewrite Z.mod_add by lia. by rewrite Z.mod_small. }
    rewrite E1, E2, Hslot. rewrite list_lookup_insert_eq; [done|lia].
Qed.

(** ** Witnesses *)
Module UartExample.
(** The UART after reset, with the FIFO enabled. *)
Definition uart0 : NXP_UART_STATE := nxp_uart_reset NXP_UART_zero.

Lemma UART_invariant_witness : uart_reachable uart0 /\ nxp_uart_read uart0 0x1000 = None.
Proof.
  split; [constructor|].
  destruct (UART_invariant uart0) as (_ & _ & _ & _ & _ & _ & _ & H); [constructor|]. by apply H.
Defined.

(** A received byte raises the receive line; the reset leaves it up. *)
Definition raised : NXP_UART_STATE :=
  nxp_uart_reset (default uart0 (nxp_uart_write uart0 0x38 0x10 ≫= fun s => nxp_uart_receive s [0x41])).
Lemma reset_leaves_line : irq raised !! 1%nat = Some true /\ ~ irq_ok raised.
Proof. split; [by vm_compute|]. intros H. vm_compute in H. discriminate H. Qed.

Lemma UART_fifo_refines_witness :
  exists s1 s2, nxp_uart_receive uart0 [0x41] = Some s1 /\
    uart_drain 1 s1 = Some ([0x41], s2) /\ rx_queue s2 = [].
Proof.
  destruct (UART_fifo_refines uart0 [0x41] 1 (proj1 uart_reset_ok))
    as (s1 & s2 & H1 & _ & H2 & _ & H3 & _); [reflexivity|by vm_compute|by vm_compute; lia|].
  exists s1, s2. split; [exact H1|]. split; [exact H2|exact H3].
Defined.

Lemma UART_write_refines_witness :
  exists s', nxp_uart_write uart0 0 0x141 = Some s' /\ chr_out s' = [0x41].
Proof.
  destruct (UART_write_refines uart0 0 0x141 (proj1 uart_reset_ok) (proj2 uart_reset_ok))
    as (s' & H1 & _ & _ & _ & H2); [reflexivity|].
  exists s'. split; [exact H1|exact H2].
Defined.

(** One byte received, then loopback enabled. *)
Definition full : NXP_UART_STATE :=
  default uart0 (nxp_uart_receive uart0 [0x41] ≫= fun s => nxp_uart_write s 0x30 0x380).
Lemma full_ok : uart_ok full.
Proof. split; vm_compute; try reflexivity; split; first [done|discriminate]. Qed.

Lemma UART_loopback_overrun_witness :
  exists s', nxp_uart_write full 0 0x42 = Some s' /\ nxp_uart_can_receive s' = -1.
Proof.
  destruct (UART_loopback_overrun full 0x42 full_ok) as (s' & H1 & _ & H2 & _);
    [reflexivity|reflexivity|].
  exists s'. split; [exact H1|exact H2].
Defined.
End UartExample.
