(* ===== verification/Bus.v ===== *)
(** * Bare-metal code on a memory bus

    The firmware touches its devices through 32-bit volatile accesses.  [Bus]
    is that interface; [fw] is the type of a piece of firmware: it runs on the
    state of the machine and returns, leaves an array or the address space
    ([Fault]), or is still in a busy-wait loop after the number of polls it was
    given ([Spin]). *)
From stdpp Require Import base list numbers strings.
From Stdlib Require Import Ascii.
From Stdlib Require String.
From S2P Require Import Prelude.

Class Bus (S : Type) := {
  mem_read : S -> Z -> option (Z * S);
  mem_write : S -> Z -> Z -> option S
}.

Inductive fres (S A : Type) : Type :=
| Ret (a : A) (s : S)
| Fault
| Spin.
Arguments Ret {S A} a s.
Arguments Fault {S A}.
Arguments Spin {S A}.

Definition fw (S A : Type) : Type := S -> fres S A.

#[export] Instance fw_ret {S} : MRet (fw S) := fun A a s => Ret a s.
#[export] Instance fw_bind {S} : MBind (fw S) := fun A B f c s =>
  match c s with
  | Ret a s => f a s
  | Fault => Fault
  | Spin => Spin
  end.

Section Operations.
Context {S : Type} `{Bus S}.

Definition fault {A} : fw S A := fun _ => Fault.
Definition spin {A} : fw S A := fun _ => Spin.
(** An access that may be outside of its array. *)
Definition lift {A} (o : option A) : fw S A := fun s =>
  match o with Some a => Ret a s | None => Fault end.

Definition read32 (addr : Z) : fw S Z := fun s =>
  match mem_read s addr with Some (v, s) => Ret v s | None => Fault end.
Definition write32 (addr v : Z) : fw S unit := fun s =>
  match mem_write s addr v with Some s => Ret tt s | None => Fault end.

(** [while (cond (register at addr))], polled at most [fuel] times. *)
Fixpoint poll (fuel : nat) (addr : Z) (cond : Z -> bool) : fw S unit :=
  match fuel with
  | O => spin
  | Datatypes.S fuel => v ← read32 addr; if cond v then poll fuel addr cond else mret tt
  end.
End Operations.

(** A C string literal as the values of its characters. *)
Definition str (s : string) : list Z :=
  (fun c => Z.of_N (N_of_ascii c)) <$> String.list_ascii_of_string s.
Definition chr (c : ascii) : Z := Z.of_N (N_of_ascii c).

(** ** Laws *)
Section Laws.
Context {S : Type}.

Lemma fw_ret_bind {A B} (a : A) (f : A -> fw S B) s : (mret a ≫= f) s = f a s.
Proof. reflexivity. Qed.

Lemma fw_bind_Ret {A B} (c : fw S A) (f : A -> fw S B) s a s' :
  c s = Ret a s' -> (c ≫= f) s = f a s'.
Proof. intros H. unfold mbind, fw_bind. by rewrite H. Qed.

Lemma fw_bind_assoc {A B C} (c : fw S A) (f : A -> fw S B) (g : B -> fw S C) s :
  ((c ≫= f) ≫= g) s = (c ≫= (fun a => f a ≫= g)) s.
Proof. unfold mbind, fw_bind. by destruct (c s). Qed.
End Laws.
