(* ===== verification/FwUart.v ===== *)
(** * The console of the firmware

    [src/firmware/uart.c]: the routines over the UART registers.  Characters are
    their codes (0 to 255, [char] is unsigned on Arm), a C string is the list of
    its characters without the terminator.  [UART_printf] formats into a buffer
    of 128 characters on the stack; a character written outside of it, or of the
    16-character array for a number, is a fault. *)
From stdpp Require Import base list numbers strings.
From Stdlib Require Import Ascii.
From S2P Require Import Prelude Bus.

Definition UART0_ADDRESS : Z := 0x40328000.
Definition UART0_DATA : Z := UART0_ADDRESS + 0.
Definition UART0_CTRL : Z := UART0_ADDRESS + 8.
Definition UART0_BAUDDIV : Z := UART0_ADDRESS + 16.
Definition UART0_FLAGREG : Z := UART0_ADDRESS + 0x18.
Definition UART_F_RXFE : Z := Z.shiftl 1 4.
Definition UART_F_RXFF : Z := Z.shiftl 1 5.

(** ** Formatting *)

(** The variadic arguments: an [int] or [unsigned], or a string. *)
Inductive arg := AInt (v : Z) | AStr (s : list Z).

(** [*p++ = c] in a buffer of 128 characters of which [out] are written. *)
Definition put_char (out : list Z) (c : Z) : option (list Z) :=
  if zlen out <? 128 then Some (out ++ [c]) else None.
Fixpoint put_chars (out cs : list Z) : option (list Z) :=
  match cs with
  | [] => Some out
  | c :: cs => let? out := put_char out c else None in put_chars out cs
  end.

(** [num[i++] = c] in an array of 16. *)
Definition put_num (num : list Z) (c : Z) : option (list Z) :=
  if zlen num <? 16 then Some (num ++ [c]) else None.

Definition is_digit (c : Z) : bool := (chr "0" <=? c) && (c <=? chr "9").

(** As long as there are digits; the width is an [int]. *)
Fixpoint parse_width (fmt : list Z) (width : Z) : option (Z * list Z) :=
  match fmt with
  | c :: rest =>
      if is_digit c then
        let w := width * 10 + (c - chr "0") in
        if w <? 2 ^ 31 then parse_width rest w else None
      else Some (width, fmt)
  | [] => Some (width, fmt)
  end.

Definition digit_char (conv digit : Z) : Z :=
  if digit <? 10 then chr "0" + digit
  else (if conv =? chr "x" then chr "a" else chr "A") + (digit - 10).

(** [do { num[i++] = digit; val /= base; } while (val > 0)]; the array bounds
    the number of rounds. *)
Fixpoint num_digits (fuel : nat) (conv base val : Z) (num : list Z) : option (list Z) :=
  match fuel with
  | O => None
  | S fuel =>
      let? num := put_num num (digit_char conv (val mod base)) else None in
      let val := val / base in
      if 0 <? val then num_digits fuel conv base val num else Some num
  end.

(** [while (i < width) num[i++] = pad], at most 16 rounds before a fault. *)
Fixpoint num_pad (fuel : nat) (width pad : Z) (num : list Z) : option (list Z) :=
  match fuel with
  | O => None
  | S fuel =>
      if zlen num <? width then
        let? num := put_num num pad else None in num_pad fuel width pad num
      else Some num
  end.

(** The conversions [d], [u], [x] and [X]. *)
Definition printf_num (conv : Z) (zero_pad : bool) (width v : Z) (out : list Z)
  : option (list Z) :=
  let v := if conv =? chr "d" then s32 v else u32 v in
  let neg := (conv =? chr "d") && (v <? 0) in
  let? val := (if neg then if v =? - 2 ^ 31 then None else Some (- v) else Some v) else None in
  let base := if (conv =? chr "x") || (conv =? chr "X") then 16 else 10 in
  let? num := num_digits 17 conv base val [] else None in
  let? out := (if neg then put_char out (chr "-") else Some out) else None in
  let? num := num_pad 17 width (if zero_pad then chr "0" else chr " ") num else None in
  put_chars out (rev num).

Definition is_num_conv (c : Z) : bool :=
  (c =? chr "d") || (c =? chr "u") || (c =? chr "x") || (c =? chr "X").

(** The conversion at the start of [fmt], behind flag and width: the arguments
    left and the buffer.  A format that ends inside of a conversion is read past
    its terminator. *)
Definition printf_conv (zero_pad : bool) (width : Z) (fmt : list Z) (args : list arg)
    (out : list Z) : option (list Z * list arg * list Z) :=
  match fmt with
  | [] => None
  | c :: fmt =>
      if c =? chr "c" then
        match args with
        | AInt v :: args => let? out := put_char out (u8 v) else None in Some (fmt, args, out)
        | _ => None
        end
      else if c =? chr "s" then
        match args with
        | AStr s :: args => let? out := put_chars out s else None in Some (fmt, args, out)
        | _ => None
        end
      else if is_num_conv c then
        match args with
        | AInt v :: args =>
            let? out := printf_num c zero_pad width v out else None in Some (fmt, args, out)
        | _ => None
        end
      else
        let? out := put_chars out [chr "%"; c] else None in Some (fmt, args, out)
  end.

(** Until the terminator; every round consumes a character of [fmt]. *)
Fixpoint printf_loop (fuel : nat) (fmt : list Z) (args : list arg) (out : list Z)
  : option (list Z) :=
  match fuel, fmt with
  | _, [] => Some out
  | O, _ => None
  | S fuel, c :: fmt =>
      if c =? chr "%" then
        let '(zero_pad, fmt) :=
          match fmt with
          | z :: rest => if z =? chr "0" then (true, rest) else (false, fmt)
          | [] => (false, fmt)
          end in
        let? (width, fmt) := parse_width fmt 0 else None in
        let? (fmt, args, out) := printf_conv zero_pad width fmt args out else None in
        printf_loop fuel fmt args out
      else
        let? out := put_char out c else None in
        printf_loop fuel fmt args out
  end.

(** The buffer, with its terminator. *)
Definition printf_buffer (fmt : list Z) (args : list arg) : option (list Z) :=
  let? out := printf_loop (length fmt) fmt args [] else None in
  put_char out 0.

(** ** Input and output *)
Section Console.
Context {S : Type} `{Bus S}.

Definition UART_init : fw S unit :=
  write32 UART0_BAUDDIV 16 ;;
  write32 UART0_CTRL 1.

(** Up to the terminator. *)
Fixpoint UART_putstr (s : list Z) : fw S unit :=
  match s with
  | [] => mret tt
  | c :: s => if c =? 0 then mret tt else write32 UART0_DATA c ;; UART_putstr s
  end.

Definition UART_printf (fmt : list Z) (args : list arg) : fw S unit :=
  buffer ← lift (printf_buffer fmt args);
  UART_putstr buffer.

(** The busy-wait loops poll at most [fuel] times. *)
Definition UART_putc (fuel : nat) (c : Z) : fw S unit :=
  poll fuel UART0_FLAGREG (fun f => negb (Z.land f UART_F_RXFF =? 0)) ;;
  write32 UART0_DATA c.

Definition UART_getc (fuel : nat) : fw S Z :=
  poll fuel UART0_FLAGREG (fun f => negb (Z.land f UART_F_RXFE =? 0)) ;;
  c ← read32 UART0_DATA;
  mret (u8 c).

(** The characters stored in [s], of which [i] are there already. *)
Fixpoint gets_loop (fuel rounds : nat) (s : list Z) : fw S (list Z) :=
  match rounds with
  | O => mret s
  | Datatypes.S rounds =>
      c ← UART_getc fuel;
      UART_putc fuel c ;;
      if (c =? chr "013") || (c =? chr "010") then mret s
      else gets_loop fuel rounds (s ++ [c])
  end.

(** The string read, at most [maxlen - 1] characters and the terminator. *)
Definition UART_gets (fuel : nat) (maxlen : Z) : fw S (list Z) :=
  s ← gets_loop fuel (Z.to_nat (maxlen - 1)) [];
  UART_putc fuel (chr "010") ;;
  mret s.

Definition hex_digits : list Z := str "0123456789abcdef".

Fixpoint print_hex_loop (fuel : nat) (data : list Z) (i : Z) : fw S unit :=
  match data with
  | [] => mret tt
  | b :: data =>
      d1 ← lift (hex_digits !! Z.to_nat (Z.land (Z.shiftr b 4) 0x0F));
      UART_putc fuel d1 ;;
      d2 ← lift (hex_digits !! Z.to_nat (Z.land b 0x0F));
      UART_putc fuel d2 ;;
      (if u32 (i + 1) mod 16 =? 0 then UART_putstr [chr "010"]
       else if u32 (i + 1) mod 4 =? 0 then UART_putstr [chr " "]
       else mret tt) ;;
      print_hex_loop fuel data (i + 1)
  end.

(** [len] bytes of [data]. *)
Definition UART_print_hex (fuel : nat) (data : list Z) (len : Z) : fw S unit :=
  bs ← lift (load data 0 len);
  print_hex_loop fuel bs 0 ;;
  if negb (len mod 16 =? 0) then UART_printf [chr "010"] [] else mret tt.
End Console.
