(* ===== verification/FwUartSpec.v ===== *)
(** * What the console routines print

    Numbers are printed as their digits: reading the digits back gives the
    value.  [fmt_bound] computes how many characters a call of [UART_printf] can
    print; a call whose bound fits in the buffer never faults.  [Console] is
    what the routines ask of the machine they run on. *)
From stdpp Require Import base list numbers strings.
From Stdlib Require Import Ascii.
From S2P Require Import Prelude Bus FwUart.

(** ** Numbers *)

(** The value of a digit character. *)
Definition digit_val (c : Z) : Z :=
  if c <? chr "A" then c - chr "0"
  else if c <? chr "a" then c - chr "A" + 10
  else c - chr "a" + 10.

(** Digits with the least, and with the most significant first. *)
Definition le_value (base : Z) (ds : list Z) : Z :=
  foldr (fun c acc => digit_val c + base * acc) 0 ds.
Definition be_value (base : Z) (ds : list Z) : Z :=
  foldl (fun acc c => acc * base + digit_val c) 0 ds.

Definition conv_base (conv : Z) : Z :=
  if (conv =? chr "x") || (conv =? chr "X") then 16 else 10.

Lemma conv_base_cases conv : conv_base conv = 16 \/ conv_base conv = 10.
Proof. unfold conv_base. destruct (_ || _); auto. Qed.

Lemma be_value_app base ds c : be_value base (ds ++ [c]) = be_value base ds * base + digit_val c.
Proof. unfold be_value. by rewrite foldl_app. Qed.

Lemma be_value_rev base ds : be_value base (rev ds) = le_value base ds.
Proof.
  induction ds as [|c ds IH]; [done|]. simpl rev. rewrite be_value_app, IH. simpl. lia.
Qed.

Lemma le_value_app base ds es :
  le_value base (ds ++ es) = le_value base ds + base ^ zlen ds * le_value base es.
Proof.
  induction ds as [|c ds IH]; [change (zlen (@nil Z)) with 0; simpl; lia|].
  simpl. rewrite IH. rewrite zlen_cons. pose proof (zlen_nonneg ds).
  rewrite Z.pow_add_r, Z.pow_1_r by lia. ring.
Qed.

Lemma digit_char_val conv d : 0 <= d < 16 -> digit_val (digit_char conv d) = d.
Proof.
  intros Hd. unfold digit_char. change (chr "0") with 48. change (chr "a") with 97.
  change (chr "A") with 65. unfold digit_val. change (chr "0") with 48.
  change (chr "a") with 97. change (chr "A") with 65.
  destruct (d <? 10) eqn:E1.
  - replace (48 + d <? 65) with true by lia. lia.
  - destruct (conv =? _).
    + replace (97 + (d - 10) <? 65) with false by lia.
      replace (97 + (d - 10) <? 97) with false by lia. lia.
    + replace (65 + (d - 10) <? 65) with false by lia.
      replace (65 + (d - 10) <? 97) with true by lia. lia.
Qed.

Lemma put_num_ok num c : zlen num < 16 -> put_num num c = Some (num ++ [c]).
Proof. intros H. unfold put_num. by replace (zlen num <? 16) with true by lia. Qed.

(** The loop over the digits: it ends within the number of digits of the
    value. *)
Lemma num_digits_ok conv base k : forall fuel val num,
  base = 16 \/ base = 10 -> (k < fuel)%nat -> 0 <= val < base ^ Z.of_nat (S k) ->
  zlen num + Z.of_nat (S k) <= 16 ->
  exists ds, num_digits fuel conv base val num = Some (num ++ ds) /\
    1 <= zlen ds <= Z.of_nat (S k) /\ le_value base ds = val.
Proof.
  induction k as [|k IH]; intros fuel val num Hb Hf Hv Hn;
    (destruct fuel as [|fuel]; [lia|]); simpl num_digits; rewrite put_num_ok by lia.
  - change (Z.of_nat 1) with 1 in *. rewrite Z.pow_1_r in Hv.
    rewrite Z.div_small by lia. rewrite Z.mod_small by lia.
    eexists. split; [reflexivity|]. split; [done|].
    simpl. rewrite digit_char_val by lia. lia.
  - pose proof (Z.mod_pos_bound val base ltac:(lia)) as Hm.
    pose proof (Z.div_mod val base ltac:(lia)) as Hdm.
    destruct (Z.ltb_spec 0 (val / base)) as [Hq|Hq].
    + destruct (IH fuel (val / base) (num ++ [digit_char conv (val mod base)]))
        as (ds & E & Hl & Hval); [done|lia| | |].
      * split; [lia|]. apply Z.div_lt_upper_bound; [lia|].
        rewrite (Nat2Z.inj_succ (S k)), Z.pow_succ_r in Hv by lia. lia.
      * rewrite zlen_app. change (zlen [_]) with 1. lia.
      * exists (digit_char conv (val mod base) :: ds). rewrite E, <- app_assoc.
        split; [done|]. rewrite zlen_cons. split; [lia|].
        simpl. rewrite digit_char_val, Hval by lia. lia.
    + eexists. split; [reflexivity|]. change (zlen [_]) with 1. split; [lia|].
      assert (val / base = 0) by (pose proof (Z.div_pos val base); lia).
      simpl. rewrite digit_char_val by lia. lia.
Qed.

Lemma num_pad_ok pad : forall fuel width num,
  zlen num <= 16 -> width <= 16 -> (Z.to_nat (width - zlen num) < fuel)%nat ->
  num_pad fuel width pad num = Some (num ++ replicate (Z.to_nat (width - zlen num)) pad).
Proof.
  induction fuel as [|fuel IH]; intros width num Hn Hw Hf; [lia|]. simpl.
  destruct (Z.ltb_spec (zlen num) width).
  - rewrite put_num_ok by lia. rewrite IH; rewrite ?zlen_app; change (zlen [pad]) with 1; try lia.
    rewrite <- app_assoc. do 2 f_equal.
    replace (Z.to_nat (width - zlen num)) with (S (Z.to_nat (width - (zlen num + 1)))) by lia. done.
  - replace (Z.to_nat (width - zlen num)) with 0%nat by lia. simpl. by rewrite app_nil_r.
Qed.

Lemma put_chars_ok cs : forall out, zlen out + zlen cs <= 128 -> put_chars out cs = Some (out ++ cs).
Proof.
  induction cs as [|c cs IH]; intros out H; simpl; [by rewrite app_nil_r|].
  rewrite zlen_cons in H. pose proof (zlen_nonneg cs). unfold put_char.
  replace (zlen out <? 128) with true by lia.
  rewrite IH by (rewrite zlen_app; change (zlen [c]) with 1; lia). by rewrite <- app_assoc.
Qed.

Lemma zeros_value base n : le_value base (replicate n (chr "0")) = 0.
Proof. induction n as [|n IH]; simpl; [done|]. rewrite IH. change (digit_val (chr "0")) with 0. lia. Qed.

Lemma zlen_rev {A} (l : list A) : zlen (rev l) = zlen l.
Proof. unfold zlen. by rewrite length_rev. Qed.

(** The digits of a 32-bit value, at most ten, padded to the width. *)
Lemma printf_num_digits conv (zero_pad : bool) width val :
  0 <= val < 2 ^ 32 -> width <= 16 ->
  let pad := if zero_pad then chr "0" else chr " " in
  exists num num', num_digits 17 conv (conv_base conv) val [] = Some num /\
    num_pad 17 width pad num = Some num' /\ zlen num' <= Z.max width 10 /\ width <= zlen num' /\
    (zero_pad = true \/ width <= 0 -> be_value (conv_base conv) (rev num') = val).
Proof.
  intros Hv Hw pad. pose proof (conv_base_cases conv) as Hb.
  destruct (num_digits_ok conv (conv_base conv) 9 17 val [] Hb) as (ds & E & Hl & Hval);
    [lia|change (Z.of_nat 10) with 10; destruct Hb as [-> | ->]; lia|done|].
  exists ds, (ds ++ replicate (Z.to_nat (width - zlen ds)) pad). split; [done|].
  split; [apply num_pad_ok; lia|].
  rewrite zlen_app. unfold zlen at 2 5. rewrite length_replicate. split; [lia|]. split; [lia|].
  intros Hz. rewrite be_value_rev, le_value_app, Hval. unfold pad.
  destruct Hz as [-> | Hz]; [rewrite zeros_value; lia|].
  replace (Z.to_nat (width - zlen ds)) with 0%nat by lia. simpl. lia.
Qed.

Lemma s32_range z : - 2 ^ 31 <= s32 z < 2 ^ 31.
Proof. unfold s32. pose proof (Z.mod_pos_bound (z + 2 ^ 31) (2 ^ 32)). lia. Qed.

Lemma printf_num_ok conv zero_pad width v out :
  width <= 16 -> (conv = chr "d" -> s32 v <> - 2 ^ 31) ->
  zlen out + Z.max width 10 + 1 <= 128 ->
  exists ds, printf_num conv zero_pad width v out = Some (out ++ ds) /\
    zlen ds <= Z.max width 10 + 1 /\
    (conv <> chr "d" -> zero_pad = true \/ width <= 0 ->
     be_value (conv_base conv) ds = u32 v /\ width <= zlen ds).
Proof.
  intros Hw Hmin Hout. unfold printf_num. fold (conv_base conv). cbv zeta.
  pose proof (u32_range v) as Hu. unfold is_u32 in Hu. pose proof (s32_range v) as Hs.
  destruct (Z.eqb_spec conv (chr "d")) as [Hd|Hd]; simpl andb.
  - specialize (Hmin Hd).
    destruct (s32 v <? 0) eqn:En.
    + replace (s32 v =? - 2 ^ 31) with false by lia.
      destruct (printf_num_digits conv zero_pad width (- s32 v) ltac:(lia) Hw)
        as (num & num' & -> & E2 & Hl & _). cbv zeta in E2.
      unfold put_char. replace (zlen out <? 128) with true by lia. rewrite E2.
      rewrite put_chars_ok.
      * exists ([chr "-"] ++ rev num'). rewrite <- app_assoc. split; [done|].
        split; [rewrite zlen_app, zlen_rev; change (zlen [_]) with 1; lia|done].
      * rewrite zlen_app, zlen_rev. change (zlen [_]) with 1. lia.
    + destruct (printf_num_digits conv zero_pad width (s32 v) ltac:(lia) Hw)
        as (num & num' & -> & E2 & Hl & _). cbv zeta in E2. rewrite E2.
      rewrite put_chars_ok by (rewrite zlen_rev; lia).
      exists (rev num'). split; [done|]. split; [rewrite zlen_rev; lia|done].
  - destruct (printf_num_digits conv zero_pad width (u32 v) ltac:(lia) Hw)
      as (num & num' & -> & E2 & Hl & Hl2 & Hval). cbv zeta in E2. rewrite E2.
    rewrite put_chars_ok by (rewrite zlen_rev; lia).
    exists (rev num'). split; [done|]. rewrite zlen_rev. split; [lia|]. intros _ Hz. auto.
Qed.

(** ** How much a call prints *)
Definition conv_bound (width : Z) (fmt : list Z) (args : list arg)
  : option (list Z * list arg * Z) :=
  match fmt with
  | [] => None
  | c :: fmt =>
      if c =? chr "c" then
        match args with AInt v :: args => Some (fmt, args, 1) | _ => None end
      else if c =? chr "s" then
        match args with AStr s :: args => Some (fmt, args, zlen s) | _ => None end
      else if is_num_conv c then
        match args with
        | AInt v :: args =>
            if (width <=? 16) && negb ((c =? chr "d") && (s32 v =? - 2 ^ 31))
            then Some (fmt, args, Z.max width 10 + 1) else None
        | _ => None
        end
      else Some (fmt, args, 2)
  end.

Fixpoint fmt_bound (fuel : nat) (fmt : list Z) (args : list arg) : option Z :=
  match fuel, fmt with
  | _, [] => Some 0
  | O, _ => None
  | S fuel, c :: fmt =>
      if c =? chr "%" then
        let fmt := match fmt with z :: rest => if z =? chr "0" then rest else fmt | [] => fmt end in
        let? (width, fmt) := parse_width fmt 0 else None in
        let? (fmt, args, n) := conv_bound width fmt args else None in
        let? k := fmt_bound fuel fmt args else None in Some (n + k)
      else
        let? k := fmt_bound fuel fmt args else None in Some (1 + k)
  end.

Lemma printf_conv_bounded zero_pad width fmt args out fmt' args' n :
  conv_bound width fmt args = Some (fmt', args', n) -> zlen out + n <= 128 ->
  exists new, printf_conv zero_pad width fmt args out = Some (fmt', args', out ++ new) /\
    zlen new <= n.
Proof.
  unfold conv_bound, printf_conv. destruct fmt as [|c fmt]; [done|]. intros H Hn.
  destruct (c =? chr "c").
  { destruct args as [|[v|s] args]; simplify_eq. unfold put_char.
    replace (zlen out <? 128) with true by lia. by exists [u8 v]. }
  destruct (c =? chr "s").
  { destruct args as [|[v|s] args]; simplify_eq. rewrite put_chars_ok by lia. by exists s. }
  destruct (is_num_conv c).
  { destruct args as [|[v|s] args]; simplify_eq. destruct (_ && _) eqn:E; simplify_eq.
    apply andb_true_iff in E as [E1 E2].
    destruct (printf_num_ok c zero_pad width v out) as (ds & -> & Hl & _);
      [lia| |lia|by exists ds].
    intros ->. change (chr "d" =? chr "d") with true in E2. simpl in E2. lia. }
  simplify_eq. rewrite put_chars_ok by (change (zlen [_; _]) with 2; lia). by exists [chr "%"; c].
Qed.

Lemma fmt_bound_nonneg fuel : forall fmt args n, fmt_bound fuel fmt args = Some n -> 0 <= n.
Proof.
  assert (Hc : forall w fmt args f a n, conv_bound w fmt args = Some (f, a, n) -> 0 <= n).
  { intros w fmt args f a n. unfold conv_bound. intros H.
    repeat case_match; simplify_eq; try lia. apply zlen_nonneg. }
  induction fuel as [|fuel IH]; intros [|c fmt] args n H; simplify_eq/=; try lia.
  destruct (c =? _).
  - destruct (parse_width _ _) as [[w f]|]; [|done].
    destruct (conv_bound w f args) as [[[f' a'] k]|] eqn:E; [|done].
    destruct (fmt_bound fuel f' a') as [j|] eqn:E2; [|done]. simplify_eq.
    apply Hc in E. apply IH in E2. lia.
  - destruct (fmt_bound fuel fmt args) as [j|] eqn:E2; [|done]. simplify_eq. apply IH in E2. lia.
Qed.

Lemma printf_loop_bounded fuel : forall fmt args out n,
  fmt_bound fuel fmt args = Some n -> zlen out + n <= 128 ->
  exists new, printf_loop fuel fmt args out = Some (out ++ new) /\ zlen new <= n.
Proof.
  induction fuel as [|fuel IH]; intros [|c fmt] args out n H Hn; simpl in H; try done.
  1,2: exists []; rewrite app_nil_r; injection H as <-; by destruct fmt || done.
  simpl. destruct (c =? chr "%").
  - set (f := match fmt with z :: rest => if z =? chr "0" then rest else fmt | [] => fmt end) in H.
    assert (Hf : exists zp, (match fmt with
      | z :: rest => if z =? chr "0" then (true, rest) else (false, fmt)
      | [] => (false, fmt) end) = (zp, f)).
    { unfold f. destruct fmt as [|z rest]; [by exists false|]. destruct (z =? _); eauto. }
    destruct Hf as [zp ->]. clearbody f.
    destruct (parse_width f 0) as [[w f1]|]; [|done].
    destruct (conv_bound w f1 args) as [[[f2 a2] k]|] eqn:E; [|done].
    destruct (fmt_bound fuel f2 a2) as [j|] eqn:E2; [|done]. injection H as <-.
    pose proof (fmt_bound_nonneg _ _ _ _ E2).
    destruct (printf_conv_bounded zp w f1 args out f2 a2 k E ltac:(lia)) as (new & -> & Hl).
    destruct (IH f2 a2 (out ++ new) j E2) as (new2 & -> & Hl2); [rewrite zlen_app; lia|].
    exists (new ++ new2). rewrite app_assoc, zlen_app. split; [done|lia].
  - destruct (fmt_bound fuel fmt args) as [j|] eqn:E2; [|done]. injection H as <-.
    pose proof (fmt_bound_nonneg _ _ _ _ E2). unfold put_char.
    replace (zlen out <? 128) with true by lia.
    destruct (IH fmt args (out ++ [c]) j E2) as (new & -> & Hl);
      [rewrite zlen_app; change (zlen [c]) with 1; lia|].
    exists (c :: new). rewrite <- app_assoc, zlen_cons. split; [done|lia].
Qed.

Lemma printf_buffer_bounded fmt args n :
  fmt_bound (length fmt) fmt args = Some n -> n <= 127 ->
  exists out, printf_buffer fmt args = Some (out ++ [0]) /\ zlen out <= n.
Proof.
  intros H Hn. unfold printf_buffer.
  destruct (printf_loop_bounded _ _ _ [] _ H) as (out & -> & Hl); [change (zlen (@nil Z)) with 0; lia|].
  exists out. simpl. unfold put_char. by replace (zlen out <? 128) with true by lia.
Qed.

(** ** The machine under the console *)

(** In the states [ok], writing the data register prints one character and
    leaves the rest of the machine alone, and the transmit FIFO is never full. *)
Class Console {S : Type} `{Bus S} (ok : S -> Prop) (out : S -> list Z) {T : Type}
    (rest : S -> T) : Prop := {
  con_write s c : ok s -> exists s', mem_write s UART0_DATA c = Some s' /\ ok s' /\
    rest s' = rest s /\ out s' = out s ++ [u8 c];
  con_flag s : ok s -> exists f, mem_read s UART0_FLAGREG = Some (f, s) /\
    Z.testbit f 5 = false
}.

Section Printing.
Context {S : Type} `{Bus S} {ok : S -> Prop} {out : S -> list Z} {T : Type} {rest : S -> T}
  `{!Console ok out rest}.

(** [c] started in [s] prints [txt] and does nothing else. *)
Definition prints (c : fw S unit) (s : S) (txt : list Z) : Prop :=
  exists s', c s = Ret tt s' /\ ok s' /\ rest s' = rest s /\ out s' = out s ++ txt.

Lemma prints_ret s : ok s -> prints (mret tt) s [].
Proof using. intros Hs. exists s. by rewrite app_nil_r. Qed.

Lemma prints_bind c d s a b :
  prints c s a -> (forall s', ok s' -> rest s' = rest s -> prints d s' b) ->
  prints (c ;; d) s (a ++ b).
Proof using.
  intros (s1 & E1 & H1 & H2 & H3) Hd. destruct (Hd s1 H1 H2) as (s2 & E2 & H4 & H5 & H6).
  exists s2. rewrite (fw_bind_Ret _ _ _ _ _ E1). split_and!; [done|done|congruence|].
  by rewrite H6, H3, app_assoc.
Qed.

Lemma data_prints s c : ok s -> prints (write32 UART0_DATA c) s [u8 c].
Proof using All.
  intros Hs. destruct (con_write s c Hs) as (s' & E & H1 & H2 & H3). exists s'.
  unfold write32. by rewrite E.
Qed.

(** Characters of a C string. *)
Definition is_text (l : list Z) : Prop := Forall (fun c => 0 < c < 256) l.

Lemma putstr_prints l r : forall s,
  ok s -> is_text l -> (r = [] \/ exists r', r = 0 :: r') -> prints (UART_putstr (l ++ r)) s l.
Proof using All.
  induction l as [|c l IH]; intros s Hs Hl Hr.
  - destruct Hr as [-> | [r' ->]]; by apply prints_ret.
  - apply Forall_cons in Hl as [Hc Hl]. simpl. replace (c =? 0) with false by lia.
    change (c :: l) with ([c] ++ l). rewrite <- (u8_id c) at 2 by (unfold is_u8; lia).
    apply prints_bind; [by apply data_prints|]. intros s' Hs' _. by apply IH.
Qed.

Lemma putstr_total l : forall s, ok s -> exists txt, prints (UART_putstr l) s txt.
Proof using All.
  induction l as [|c l IH]; intros s Hs; simpl; [exists []; by apply prints_ret|].
  destruct (c =? 0); [exists []; by apply prints_ret|].
  destruct (data_prints s c Hs) as (s1 & E1 & H1 & H2 & H3).
  destruct (IH s1 H1) as (txt & s2 & E2 & H4 & H5 & H6).
  exists ([u8 c] ++ txt), s2. rewrite (fw_bind_Ret _ _ _ _ _ E1).
  split_and!; [done|done|congruence|]. by rewrite H6, H3, app_assoc.
Qed.

Lemma lift_bind {A B} (a : A) (f : A -> fw S B) s : (lift (Some a) ≫= f) s = f a s.
Proof using. reflexivity. Qed.

(** A call whose bound fits in the buffer only prints. *)
Lemma printf_prints fmt args n s :
  ok s -> fmt_bound (length fmt) fmt args = Some n -> n <= 127 ->
  exists txt, prints (UART_printf fmt args) s txt.
Proof using All.
  intros Hs Hb Hn. destruct (printf_buffer_bounded _ _ _ Hb Hn) as (o & E & _).
  destruct (putstr_total (o ++ [0]) s Hs) as (txt & s' & H1). exists txt, s'.
  unfold UART_printf. rewrite E, lift_bind. done.
Qed.

Lemma putc_prints fuel s c : ok s -> (0 < fuel)%nat -> prints (UART_putc fuel c) s [u8 c].
Proof using All.
  intros Hs Hf. destruct fuel as [|fuel]; [lia|]. unfold UART_putc. simpl poll.
  destruct (con_flag s Hs) as (f & E & Hb).
  assert (Hp : (f ← read32 UART0_FLAGREG; if negb (Z.land f UART_F_RXFF =? 0)
    then poll fuel UART0_FLAGREG (fun f => negb (Z.land f UART_F_RXFF =? 0)) else mret tt) s = Ret tt s).
  { unfold mbind, fw_bind, read32. rewrite E. 
    change UART_F_RXFF with (Z.shiftl 1 5). by rewrite land_bit, Hb by lia. }
  destruct (data_prints s c Hs) as (s' & E2 & H2). exists s'.
  by rewrite (fw_bind_Ret _ _ _ _ _ Hp).
Qed.
(** ** Hexadecimal dumps *)
Definition hex_char (d : Z) : Z := default 0 (hex_digits !! Z.to_nat d).

(** Between the bytes: a line break after 16, a blank after 4. *)
Definition hex_sep (i : Z) : list Z :=
  if u32 (i + 1) mod 16 =? 0 then [chr "010"]
  else if u32 (i + 1) mod 4 =? 0 then [chr " "] else [].

Fixpoint hex_text (data : list Z) (i : Z) : list Z :=
  match data with
  | [] => []
  | b :: data => [hex_char (Z.land (Z.shiftr b 4) 0x0F); hex_char (Z.land b 0x0F)] ++
                 hex_sep i ++ hex_text data (i + 1)
  end.

Lemma nibble_range b : 0 <= Z.land b 0x0F < 16.
Proof using. change 0x0F with (Z.ones 4). rewrite Z.land_ones by done. by apply Z.mod_pos_bound. Qed.

(** The sixteen digits, one by one. *)
Lemma hex_char_ok d :
  0 <= d < 16 -> hex_digits !! Z.to_nat d = Some (hex_char d) /\
    digit_val (hex_char d) = d /\ 0 < hex_char d < 256 /\
    hex_char d <> chr "010" /\ hex_char d <> chr " ".
Proof using.
  intros Hd.
  assert (Hc : d = 0 \/ d = 1 \/ d = 2 \/ d = 3 \/ d = 4 \/ d = 5 \/ d = 6 \/ d = 7 \/ d = 8 \/
    d = 9 \/ d = 10 \/ d = 11 \/ d = 12 \/ d = 13 \/ d = 14 \/ d = 15) by lia.
  clear Hd. destruct_or! Hc; subst d; vm_compute; split_and!; done.
Qed.

Lemma print_hex_loop_prints fuel data : forall i s,
  ok s -> (0 < fuel)%nat -> prints (print_hex_loop fuel data i) s (hex_text data i).
Proof using All.
  induction data as [|b data IH]; intros i s Hs Hf; [by apply prints_ret|].
  simpl. destruct (hex_char_ok _ (nibble_range (Z.shiftr b 4))) as (E1 & _ & R1 & _).
  destruct (hex_char_ok _ (nibble_range b)) as (E2 & _ & R2 & _).
  rewrite E1. change (prints (UART_putc fuel (hex_char (Z.land (Z.shiftr b 4) 0x0F)) ;;
    d2 ← lift (hex_digits !! Z.to_nat (Z.land b 0x0F)); UART_putc fuel d2 ;;
    (if u32 (i + 1) mod 16 =? 0 then UART_putstr [chr "010"]
     else if u32 (i + 1) mod 4 =? 0 then UART_putstr [chr " "] else mret tt) ;;
    print_hex_loop fuel data (i + 1)) s ([hex_char (Z.land (Z.shiftr b 4) 0x0F)] ++
      [hex_char (Z.land b 0x0F)] ++ hex_sep i ++ hex_text data (i + 1))).
  rewrite E2. rewrite <- (u8_id (hex_char (Z.land (Z.shiftr b 4) 0x0F))) at 2 by (unfold is_u8; lia).
  apply prints_bind; [by apply putc_prints|]. intros s1 Hs1 _.
  rewrite <- (u8_id (hex_char (Z.land b 0x0F))) at 2 by (unfold is_u8; lia).
  apply (prints_bind (UART_putc fuel (hex_char (Z.land b 0x0F)))); [by apply putc_prints|].
  intros s2 Hs2 _. apply prints_bind; [|intros s3 Hs3 _; by apply IH].
  unfold hex_sep. assert (Hc : forall c, 0 < c < 256 -> prints (UART_putstr [c]) s2 [c]).
  { intros c Hc. apply (putstr_prints [c] []); [done|by apply Forall_singleton|by left]. }
  destruct (_ =? 0); [by apply Hc|]. destruct (_ =? 0); [by apply Hc|by apply prints_ret].
Qed.

(** Reading a dump back: the separators are dropped, two digits are a byte. *)
Definition is_sep (c : Z) : bool := (c =? chr "010") || (c =? chr " ").
Fixpoint unhex_digits (l : list Z) : list Z :=
  match l with
  | a :: b :: l => (digit_val a * 16 + digit_val b) :: unhex_digits l
  | _ => []
  end.
Definition unhex (l : list Z) : list Z := unhex_digits (filter (fun c => is_sep c = false) l).

Lemma unhex_text data tail : forall i,
  bytes data -> Forall (fun c => is_sep c = true) tail -> unhex (hex_text data i ++ tail) = data.
Proof using.
  intros i Hb Ht. unfold unhex. revert i Hb.
  assert (Hf : forall c l, is_sep c = true -> filter (fun c => is_sep c = false) (c :: l) =
    filter (fun c => is_sep c = false) l)
    by (intros c l Hc; apply filter_cons_False; by rewrite Hc).
  induction data as [|b data IH]; intros i Hb.
  - simpl. clear Hb. induction tail as [|c tail IH]; [done|]. apply Forall_cons in Ht as [Hc Ht].
    rewrite Hf by done. auto.
  - apply Forall_cons in Hb as [Hb Hd]. simpl hex_text.
    destruct (hex_char_ok _ (nibble_range (Z.shiftr b 4))) as (_ & V1 & _ & N1 & M1).
    destruct (hex_char_ok _ (nibble_range b)) as (_ & V2 & _ & N2 & M2).
    assert (Hk : forall c l, c <> chr "010" -> c <> chr " " ->
      filter (fun c => is_sep c = false) (c :: l) = c :: filter (fun c => is_sep c = false) l)
      by (intros c l H1 H2; apply filter_cons_True; unfold is_sep; lia).
    simpl app. rewrite !Hk by done. simpl unhex_digits. f_equal.
    + rewrite V1, V2. change 0x0F with (Z.ones 4). rewrite !Z.land_ones by done.
      rewrite Z.shiftr_div_pow2 by done. change (2 ^ 4) with 16. unfold is_u8 in Hb.
      rewrite (Z.mod_small (b / 16)) by (split; [apply Z.div_pos; lia|apply Z.div_lt_upper_bound; lia]).
      pose proof (Z.div_mod b 16). lia.
    + rewrite <- app_assoc. rewrite filter_app.
      replace (filter (fun c => is_sep c = false) (hex_sep i)) with (@nil Z); [by apply IH|].
      unfold hex_sep. by destruct (_ =? 0); [|destruct (_ =? 0)].
Qed.

Lemma print_hex_prints fuel data len s bs :
  ok s -> (0 < fuel)%nat -> load data 0 len = Some bs ->
  prints (UART_print_hex fuel data len) s
    (hex_text bs 0 ++ if negb (len mod 16 =? 0) then [chr "010"] else []).
Proof using All.
  intros Hs Hf E. unfold UART_print_hex. rewrite E.
  change (prints (print_hex_loop fuel bs 0 ;; (if negb (len mod 16 =? 0)
    then UART_printf [chr "010"] [] else mret tt)) s
    (hex_text bs 0 ++ if negb (len mod 16 =? 0) then [chr "010"] else [])).
  apply prints_bind; [by apply print_hex_loop_prints|]. intros s' Hs' _.
  destruct (negb _); [|by apply prints_ret].
  change (prints (UART_putstr ([chr "010"] ++ [0])) s' [chr "010"]).
  apply putstr_prints; [done|by apply Forall_singleton|right; by exists []].
Qed.
End Printing.

(** ** Theorems *)

(** C33: a call of [UART_printf] whose output is statically bounded by 127
    characters returns, prints and changes nothing else: neither the buffer of
    128 characters nor the array of 16 digits is overrun. *)
Theorem UART_printf_bounded {S : Type} `{Bus S} (ok : S -> Prop) (out : S -> list Z) {T : Type}
    (rest : S -> T) (fmt : list Z) (args : list arg) (n : Z) (s : S) :
  Console ok out rest -> ok s -> fmt_bound (length fmt) fmt args = Some n -> n <= 127 ->
  exists s' txt, UART_printf fmt args s = Ret tt s' /\ ok s' /\ rest s' = rest s /\
    out s' = out s ++ txt.
Proof.
  intros HC Hs Hb Hn. destruct (printf_prints _ _ _ _ Hs Hb Hn) as (txt & s' & H1).
  exists s', txt. exact H1.
Qed.

(** C34: a number printed with [u], [x] or [X], zero-padded or without a width,
    reads back as the 32-bit value of the argument, in at least [width] and at
    most ten (or [width]) digits. *)
Theorem printf_number_roundtrip (conv : Z) (zero_pad : bool) (width v : Z) (out : list Z) :
  conv = chr "u" \/ conv = chr "x" \/ conv = chr "X" ->
  zero_pad = true \/ width <= 0 -> width <= 16 -> zlen out + Z.max width 10 + 1 <= 128 ->
  exists ds, printf_num conv zero_pad width v out = Some (out ++ ds) /\
    be_value (conv_base conv) ds = u32 v /\ width <= zlen ds <= Z.max width 10 + 1.
Proof.
  intros Hc Hz Hw Hout. assert (Hd : conv <> chr "d") by (by destruct Hc as [->|[->| ->]]).
  destruct (printf_num_ok conv zero_pad width v out Hw) as (ds & E & Hl & Hv); [done|done|].
  destruct (Hv Hd Hz) as [Hval Hl2]. by exists ds.
Qed.

Lemma printf_number_roundtrip_witness :
  exists ds, printf_num (chr "X") true 8 0x144 [] = Some ds /\ be_value 16 ds = 0x144.
Proof.
  destruct (printf_number_roundtrip (chr "X") true 8 0x144 []) as (ds & H1 & H2 & _);
    [right; by right|by left|done|done|].
  exists ds. split; [exact H1|exact H2].
Defined.

(** C40: the dump of [len] bytes returns, prints and changes nothing else, and
    what it prints, without its blanks and line breaks, is the bytes in
    hexadecimal. *)
Theorem UART_print_hex_roundtrip {S : Type} `{Bus S} (ok : S -> Prop) (out : S -> list Z)
    {T : Type} (rest : S -> T) (fuel : nat) (data : list Z) (len : Z) (s : S) :
  Console ok out rest -> ok s -> (0 < fuel)%nat -> 0 <= len <= zlen data -> bytes data ->
  exists s' txt, UART_print_hex fuel data len s = Ret tt s' /\ ok s' /\ rest s' = rest s /\
    out s' = out s ++ txt /\ unhex txt = take (Z.to_nat len) data.
Proof.
  intros HC Hs Hf Hl Hb. pose proof (load_prefix data len Hl) as E.
  destruct (print_hex_prints fuel data len s _ Hs Hf E) as (s' & H1 & H2 & H3 & H4).
  eexists s', _. split_and!; [exact H1|exact H2|exact H3|exact H4|].
  apply unhex_text; [auto with tpm|]. destruct (negb _); [by apply Forall_singleton|done].
Qed.
