(* ===== verification/FwTpm.v ===== *)
(** * The TPM driver of the firmware

    [src/firmware/main.c]: the prepared commands, the routines that send a
    command and read the response word by word, and one round of the menu loop.
    The local array of [main] for the response is a list that is passed along;
    what is printed goes through [FwUart]. *)
From stdpp Require Import base list numbers strings.
From Stdlib Require Import Ascii.
From S2P Require Import Prelude Bus FwUart.

Definition TPM2_BASE : Z := 0xF0000000.
Definition FW_CTRL_REG : Z := TPM2_BASE + 0x00.
Definition FW_STATUS_REG : Z := TPM2_BASE + 0x04.
Definition FW_CMD_REG : Z := TPM2_BASE + 0x0C.
Definition FW_DATA_REG : Z := TPM2_BASE + 0x10.
Definition FW_STATE_PROCESSING : Z := 3.
Definition FW_STATE_SENDING : Z := 4.

(** ** Prepared commands *)
Definition CMD_GET_RANDOM : list Z :=
  [0x80; 0x01; 0x00; 0x00; 0x00; 0x0C; 0x00; 0x00; 0x01; 0x7B; 0x00; 0x20].
Definition CMD_CREATE_PRIMARY : list Z :=
  [0x80; 0x01; 0x00; 0x00; 0x00; 0x44; 0x00; 0x00; 0x01; 0x31; 0x40; 0x00;
   0x00; 0x01; 0x00; 0x0A; 0x00; 0x06; 0x70; 0x61; 0x73; 0x73; 0x77; 0x64;
   0x00; 0x00; 0x00; 0x22; 0x00; 0x23; 0x00; 0x0B; 0x00; 0x03; 0x00; 0x72;
   0x00; 0x00; 0x00; 0x10; 0x00; 0x00; 0x00; 0x00; 0x00; 0x10; 0x00; 0x00;
   0x00; 0x00; 0x00; 0x03; 0x00; 0x10; 0x00; 0x00; 0x00; 0x00; 0x00; 0x00;
   0x00; 0x00; 0x00; 0x00; 0x00; 0x00; 0x00; 0x00].
Definition CMD_NV_DEFINE_SPACE : list Z :=
  [0x80; 0x01; 0x00; 0x00; 0x00; 0x20; 0x00; 0x00; 0x01; 0x2A; 0x40; 0x00;
   0x00; 0x01; 0x00; 0x00; 0x00; 0x0E; 0x01; 0x00; 0x00; 0x01; 0x00; 0x0B;
   0x02; 0x4C; 0x00; 0x06; 0x00; 0x00; 0x00; 0x20].
Definition CMD_NV_WRITE : list Z :=
  [0x80; 0x01; 0x00; 0x00; 0x00; 0x1C; 0x00; 0x00; 0x01; 0x37; 0x40; 0x00;
   0x00; 0x0C; 0x01; 0x00; 0x00; 0x01; 0x00; 0x00; 0x00; 0x04; 0x54; 0x45;
   0x53; 0x54; 0x00; 0x00].
Definition CMD_NV_READ : list Z :=
  [0x80; 0x01; 0x00; 0x00; 0x00; 0x18; 0x00; 0x00; 0x01; 0x4E; 0x40; 0x00;
   0x00; 0x0C; 0x01; 0x00; 0x00; 0x01; 0x00; 0x00; 0x00; 0x04; 0x00; 0x00].
Definition CMD_BAD_HDR : list Z :=
  [0x80; 0x01; 0x00; 0x00; 0x00; 0x30; 0x00; 0x00; 0x01; 0x7B; 0x00; 0x04].
Definition CMD_GET_RANDOM_TOO_BIG : list Z :=
  [0x80; 0x01; 0x00; 0x00; 0x00; 0x0C; 0x00; 0x00; 0x01; 0x7B; 0xFF; 0xFF].
Definition CMD_NV_READ_OVERSIZE : list Z :=
  [0x80; 0x01; 0x00; 0x00; 0x00; 0x18; 0x00; 0x00; 0x01; 0x4E; 0x40; 0x00;
   0x00; 0x0C; 0x01; 0x00; 0x00; 0x01; 0x00; 0x00; 0x04; 0x00; 0x00; 0x00].
Definition CMD_NV_WRITE_OVERSIZE : list Z :=
  [0x80; 0x01; 0x00; 0x00; 0x00; 0x3D; 0x00; 0x00; 0x01; 0x37; 0x40; 0x00;
   0x00; 0x0C; 0x01; 0x00; 0x00; 0x01; 0x00; 0x00; 0x00; 0x21; 0x41; 0x41;
   0x41; 0x41; 0x41; 0x41; 0x41; 0x41; 0x41; 0x41; 0x41; 0x41; 0x41; 0x41;
   0x41; 0x41; 0x41; 0x41; 0x41; 0x41; 0x41; 0x41; 0x41; 0x41; 0x41; 0x41;
   0x41; 0x41; 0x41; 0x41; 0x41; 0x00; 0x00].
Definition CMD_NV_WRITE_FMT_STR : list Z :=
  [0x80; 0x01; 0x00; 0x00; 0x00; 0x2B; 0x00; 0x00; 0x01; 0x37; 0x40; 0x00;
   0x00; 0x0C; 0x01; 0x00; 0x00; 0x01; 0x00; 0x00; 0x00; 0x0B; 0x25; 0x78;
   0x25; 0x73; 0x25; 0x6E; 0x41; 0x42; 0x43; 0x00; 0x01; 0x00; 0x00].
Definition CMD_NV_READ_UNINIT : list Z :=
  [0x80; 0x01; 0x00; 0x00; 0x00; 0x18; 0x00; 0x00; 0x01; 0x4E; 0x40; 0x00;
   0x00; 0x0C; 0x01; 0x00; 0x00; 0x02; 0x00; 0x00; 0x00; 0x04; 0x00; 0x00].
Definition CMD_INT_OVERFLOW : list Z :=
  [0x80; 0x01; 0x00; 0x00; 0x00; 0x0C; 0x00; 0x00; 0x01; 0x7B; 0xFF; 0xFF].

(** ** Sending *)

(** [(n + 3) & ~3] *)
Definition pad4 (n : Z) : Z := Z.land (u32 (n + 3)) (u32 (Z.lnot 3)).

Section Driver.
Context {S : Type} `{Bus S}.

(** [if (i + k < len) word |= cmd_buf[i + k] << shift] *)
Definition or_byte (cmd_buf : list Z) (len i k shift word : Z) : fw S Z :=
  if u32 (i + k) <? len then
    b ← lift (cmd_buf !! Z.to_nat (u32 (i + k)));
    mret (Z.lor word (Z.shiftl b shift))
  else mret word.

Definition cmd_word (cmd_buf : list Z) (len i : Z) : fw S Z :=
  w ← or_byte cmd_buf len i 0 24 0;
  w ← or_byte cmd_buf len i 1 16 w;
  w ← or_byte cmd_buf len i 2 8 w;
  or_byte cmd_buf len i 3 0 w.

Fixpoint send_loop (fuel : nat) (cmd_buf : list Z) (len padded_len i : Z) : fw S unit :=
  if i <? padded_len then
    match fuel with
    | O => spin
    | Datatypes.S fuel =>
        word ← cmd_word cmd_buf len i;
        write32 FW_DATA_REG word ;;
        send_loop fuel cmd_buf len padded_len (u32 (i + 4))
    end
  else mret tt.

Definition MSG_SENDING : list Z :=
  str "Sending command (size %u, padded to %u)..." ++ [chr "010"].

Definition tpm_send_command (cmd_buf : list Z) (len : Z) : fw S unit :=
  write32 FW_CTRL_REG 1 ;;
  let padded_len := pad4 len in
  UART_printf MSG_SENDING [AInt len; AInt padded_len] ;;
  send_loop (Z.to_nat padded_len) cmd_buf len padded_len 0 ;;
  write32 FW_CMD_REG 1.

(** ** Receiving *)
Definition MSG_NOT_SENDING : list Z :=
  str "Error: TPM did not enter SENDING state (state=%u)" ++ [chr "010"].
Abbreviation MSG_READING := (str "Reading response..." ++ [chr "010"]).
Abbreviation MSG_SIZE := (str "Response size: actual=%u, padded=%u" ++ [chr "010"]).
Abbreviation MSG_TOO_SMALL := (str "Error: Response buffer too small!" ++ [chr "010"]).
Abbreviation MSG_INVALID := (str "Error: Invalid response size!" ++ [chr "010"]).
Abbreviation MSG_EARLY := (str "Error: TPM stopped sending early!" ++ [chr "010"]).
Definition MSG_COMPLETE : list Z :=
  str "Response read complete (actual %u bytes, read %u with padding)." ++ [chr "010"].

(** The three words that hold the header, into [resp_buf]. *)
Fixpoint read_header (rounds : nat) (resp_buf : list Z) (i : Z) : fw S (list Z) :=
  match rounds with
  | O => mret resp_buf
  | Datatypes.S rounds =>
      word ← read32 FW_DATA_REG;
      resp_buf ← lift (store resp_buf (i * 4) (to_be32 word));
      read_header rounds resp_buf (i + 1)
  end.

(** The bytes of a word that belong to the response. *)
Definition keep_bytes (word bytes_read actual_size : Z) : list Z :=
  take (Z.to_nat (actual_size - bytes_read)) (to_be32 word).

Fixpoint read_loop (fuel : nat) (resp_buf : list Z) (actual_size padded_size bytes_read : Z)
  : fw S (Z * Z * list Z) :=
  if bytes_read <? padded_size then
    match fuel with
    | O => spin
    | Datatypes.S fuel =>
        st ← read32 FW_STATUS_REG;
        if negb (st =? FW_STATE_SENDING) then
          UART_printf MSG_EARLY [] ;;
          mret (1, (if actual_size <? bytes_read then actual_size else bytes_read), resp_buf)
        else
        word ← read32 FW_DATA_REG;
        resp_buf ← (if bytes_read <? actual_size
                    then lift (store resp_buf bytes_read (keep_bytes word bytes_read actual_size))
                    else mret resp_buf);
        read_loop fuel resp_buf actual_size padded_size (u32 (bytes_read + 4))
    end
  else mret (0, bytes_read, resp_buf).

(** The number of bytes read, and the buffer. *)
Definition tpm_read_response (fuel : nat) (resp_buf : list Z) (max_len : Z)
  : fw S (Z * list Z) :=
  poll fuel FW_STATUS_REG (fun st => st =? FW_STATE_PROCESSING) ;;
  st ← read32 FW_STATUS_REG;
  if negb (st =? FW_STATE_SENDING) then
    st ← read32 FW_STATUS_REG;
    UART_printf MSG_NOT_SENDING [AInt st] ;;
    mret (0, resp_buf)
  else
  UART_printf MSG_READING [] ;;
  resp_buf ← read_header 3 resp_buf 0;
  actual_size ← lift (match ld32 resp_buf 2 with Ok v => Some v | _ => None end);
  let padded_size := pad4 actual_size in
  UART_printf MSG_SIZE [AInt actual_size; AInt padded_size] ;;
  if max_len <? actual_size then
    UART_printf MSG_TOO_SMALL [] ;; mret (12, resp_buf)
  else if actual_size <? 10 then
    UART_printf MSG_INVALID [] ;; mret (12, resp_buf)
  else
  '(early, n, resp_buf) ← read_loop (Z.to_nat padded_size) resp_buf actual_size padded_size 12;
  if early =? 1 then mret (n, resp_buf)
  else
  UART_printf MSG_COMPLETE [AInt actual_size; AInt n] ;;
  mret (actual_size, resp_buf).

(** ** The menu *)
Fixpoint print_lines (lines : list (list Z)) : fw S unit :=
  match lines with
  | [] => mret tt
  | l :: lines => UART_printf l [] ;; print_lines lines
  end.

Definition nl : list Z := [chr "010"].
Definition MENU : list (list Z) :=
  [nl ++ str "--- TPM Command Menu ---" ++ nl;
   str "1: TPM2_GetRandom (32 bytes)" ++ nl;
   str "2: TPM2_CreatePrimary (ECC P-256 primary storage key)" ++ nl;
   str "3: TPM2_NV_DefineSpace (32-byte index)" ++ nl;
   str "4: TPM2_NV_Write (" ++ [34] ++ str "TEST" ++ [34] ++ str " to index)" ++ nl;
   str "5: TPM2_NV_Read (4 bytes from index)" ++ nl;
   str "6: Test: BAD_HDR (header size mismatch)" ++ nl;
   str "7: Test: GetRandom_TOO_BIG (parameter bounds)" ++ nl;
   str "8: Test: NV_READ_OVERSIZE (out-of-bounds read)" ++ nl;
   str "9: Test: NV_WRITE_OVERSIZE (out-of-bounds write)" ++ nl;
   str "a: Test: NV_WRITE_FMT_STR (format-string payload)" ++ nl;
   str "b: Test: NV_READ_UNINIT (uninitialized read)" ++ nl;
   str "c: Test: INT_OVERFLOW (integer overflow attempt)" ++ nl;
   str "Select an option: "].

Definition print_menu : fw S unit := print_lines MENU.

Abbreviation MSG_HEADER := (nl ++ str "Response Header:" ++ nl).
Abbreviation MSG_TAG := (str "  Tag:  0x%04X" ++ nl).
Abbreviation MSG_RSIZE := (str "  Size: %u bytes" ++ nl).
Abbreviation MSG_CODE := (str "  Code: 0x%08X ").
Abbreviation MSG_OK := (str "(TPM_RC_SUCCESS)" ++ nl).
Abbreviation MSG_ERROR := (str "(ERROR)" ++ nl).

Definition res_opt {A} (r : res A) : option A :=
  match r with Ok a => Some a | _ => None end.

Definition parse_response_header (resp_buf : list Z) : fw S unit :=
  tag ← lift (res_opt (ld16 resp_buf 0));
  size ← lift (res_opt (ld32 resp_buf 2));
  code ← lift (res_opt (ld32 resp_buf 6));
  UART_printf MSG_HEADER [] ;;
  UART_printf MSG_TAG [AInt tag] ;;
  UART_printf MSG_RSIZE [AInt size] ;;
  UART_printf MSG_CODE [AInt code] ;;
  if code =? 0 then UART_printf MSG_OK [] else UART_printf MSG_ERROR [].

(** [cmd_to_send] for the character typed; [NULL] for an unknown one. *)
Definition select_command (c : Z) : option (list Z) :=
  if c =? chr "1" then Some CMD_GET_RANDOM
  else if c =? chr "2" then Some CMD_CREATE_PRIMARY
  else if c =? chr "3" then Some CMD_NV_DEFINE_SPACE
  else if c =? chr "4" then Some CMD_NV_WRITE
  else if c =? chr "5" then Some CMD_NV_READ
  else if c =? chr "6" then Some CMD_BAD_HDR
  else if c =? chr "7" then Some CMD_GET_RANDOM_TOO_BIG
  else if c =? chr "8" then Some CMD_NV_READ_OVERSIZE
  else if c =? chr "9" then Some CMD_NV_WRITE_OVERSIZE
  else if (c =? chr "a") || (c =? chr "A") then Some CMD_NV_WRITE_FMT_STR
  else if (c =? chr "b") || (c =? chr "B") then Some CMD_NV_READ_UNINIT
  else if (c =? chr "c") || (c =? chr "C") then Some CMD_INT_OVERFLOW
  else None.

Definition MSG_ECHO : list Z := str "%c" ++ nl.
Abbreviation MSG_OPTION := (str "Invalid option '%c'" ++ nl).
Definition MSG_FULL : list Z := nl ++ str "Full Response (Hex):" ++ nl.
Abbreviation MSG_FAILED := (str "Failed to get response." ++ nl).
Definition MSG_START : list Z := str "--- TPM Firmware Test Started ---" ++ nl.

(** [sizeof(response_buffer)] *)
Definition RESPONSE_SIZE : Z := 1024.

(** A command sent and its response read and shown. *)
Definition run_command (fuel : nat) (cmd response_buffer : list Z) : fw S (list Z) :=
  tpm_send_command cmd (zlen cmd) ;;
  '(resp_size, response_buffer) ← tpm_read_response fuel response_buffer RESPONSE_SIZE;
  (if 0 <? resp_size then
     parse_response_header response_buffer ;;
     UART_printf MSG_FULL [] ;;
     UART_print_hex fuel response_buffer resp_size
   else UART_printf MSG_FAILED []) ;;
  mret response_buffer.

(** One round of the loop of [main]. *)
Definition main_round (fuel : nat) (response_buffer : list Z) : fw S (list Z) :=
  print_menu ;;
  c ← UART_getc fuel;
  UART_printf MSG_ECHO [AInt c] ;;
  match select_command c with
  | Some cmd => run_command fuel cmd response_buffer
  | None => UART_printf MSG_OPTION [AInt c] ;; mret response_buffer
  end.

(** [main], for [rounds] rounds of its endless loop. *)
Fixpoint main_loop (rounds fuel : nat) (response_buffer : list Z) : fw S (list Z) :=
  match rounds with
  | O => mret response_buffer
  | Datatypes.S rounds =>
      response_buffer ← main_round fuel response_buffer;
      main_loop rounds fuel response_buffer
  end.

Definition main (rounds fuel : nat) (response_buffer : list Z) : fw S (list Z) :=
  UART_init ;;
  UART_printf MSG_START [] ;;
  main_loop rounds fuel response_buffer.
End Driver.
