(* ===== verification/FwTpmSpec.v ===== *)
(** * The driver of the firmware talks to the device

    [TpmPort] is what the driver asks of the machine: the two device windows
    behave as the models of the TPM and of the UART say.  Against this interface
    sending a command leaves exactly its bytes, padded with zeros to words, in
    the command buffer and starts it, and reading the response fetches header
    and body and leaves the device idle. *)
From stdpp Require Import base list numbers gmap strings.
From Stdlib Require Import Ascii.
From S2P Require Import Prelude Constants State OpenSSL Crypto NvRefine Device DeviceInv DeviceSteps Bus FwUart FwUartSpec FwTpm.

Class TpmPort `{OS : OpenSSL, LY : Layout} {S : Type} `{Bus S} (ok : S -> Prop)
    (out inp : S -> list Z) (tpm : S -> TPM2State) : Prop := {
  port_console :: Console ok out (fun s => (tpm s, inp s));
  port_read s off v t : ok s -> 0 <= off < 0x20 -> tpm2_mmio_read (tpm s) off = Some (v, t) ->
    exists s', mem_read s (TPM2_BASE + off) = Some (v, s') /\ ok s' /\ tpm s' = t /\
      inp s' = inp s /\ out s' = out s;
  port_write s off v t : ok s -> 0 <= off < 0x20 -> tpm2_mmio_write (tpm s) off v = Some t ->
    exists s', mem_write s (TPM2_BASE + off) v = Some s' /\ ok s' /\ tpm s' = t /\
      inp s' = inp s /\ out s' = out s;
  port_flag s c q : ok s -> inp s = c :: q ->
    exists f, mem_read s UART0_FLAGREG = Some (f, s) /\ Z.testbit f 4 = false;
  port_getc s c q : ok s -> inp s = c :: q ->
    exists s', mem_read s UART0_DATA = Some (c, s') /\ ok s' /\ tpm s' = tpm s /\
      inp s' = q /\ out s' = out s
}.

Section Driver.
Context `{OS : OpenSSL, LY : Layout} {S : Type} `{Bus S} {ok : S -> Prop}
  {out inp : S -> list Z} {tpm : S -> TPM2State} `{!TpmPort ok out inp tpm}.

(** [c] returns [a]; the TPM is then in state [t], the input left is [q], and
    the console has printed some text. *)
Definition runs {A} (c : fw S A) (s : S) (a : A) (t : TPM2State) (q : list Z) : Prop :=
  exists s' txt, c s = Ret a s' /\ ok s' /\ tpm s' = t /\ inp s' = q /\ out s' = out s ++ txt.

Lemma runs_ret {A} (a : A) s : ok s -> runs (mret a) s a (tpm s) (inp s).
Proof using. intros Hs. exists s, []. by rewrite app_nil_r. Qed.

Lemma runs_bind {A B} (c : fw S A) (f : A -> fw S B) s a t q b t' q' :
  runs c s a t q ->
  (forall s', ok s' -> tpm s' = t -> inp s' = q -> runs (f a) s' b t' q') ->
  runs (c ≫= f) s b t' q'.
Proof using.
  intros (s1 & x & E1 & H1 & H2 & H3 & H4) Hf.
  destruct (Hf s1 H1 H2 H3) as (s2 & y & E2 & H5 & H6 & H7 & H8).
  exists s2, (x ++ y). rewrite (fw_bind_Ret _ _ _ _ _ E1). split_and!; try done.
  by rewrite H8, H4, app_assoc.
Qed.

(** [c] returns a value with the property [Q]. *)
Definition runs_to {A} (c : fw S A) (s : S) (Q : A -> Prop) (t : TPM2State) (q : list Z) : Prop :=
  exists a, runs c s a t q /\ Q a.

Lemma runs_runs_to {A} (c : fw S A) s a (Q : A -> Prop) t q :
  runs c s a t q -> Q a -> runs_to c s Q t q.
Proof using. by exists a. Qed.

Lemma runs_to_bind {A B} (c : fw S A) (f : A -> fw S B) s (P : A -> Prop) (Q : B -> Prop) t q t' q' :
  runs_to c s P t q ->
  (forall a s', P a -> ok s' -> tpm s' = t -> inp s' = q -> runs_to (f a) s' Q t' q') ->
  runs_to (c ≫= f) s Q t' q'.
Proof using.
  intros (a & (s1 & x & E1 & H1 & H2 & H3 & H4) & Ha) Hf.
  destruct (Hf a s1 Ha H1 H2 H3) as (b & (s2 & y & E2 & H5 & H6 & H7 & H8) & Hb).
  exists b. split; [|done]. exists s2, (x ++ y). rewrite (fw_bind_Ret _ _ _ _ _ E1).
  split_and!; try done. by rewrite H8, H4, app_assoc.
Qed.

Lemma runs_bind_to {A B} (c : fw S A) (f : A -> fw S B) s a (Q : B -> Prop) t q t' q' :
  runs c s a t q ->
  (forall s', ok s' -> tpm s' = t -> inp s' = q -> runs_to (f a) s' Q t' q') ->
  runs_to (c ≫= f) s Q t' q'.
Proof using.
  intros Hc Hf. apply (runs_to_bind _ _ _ (fun a' => a' = a) Q t q); [by exists a|].
  intros a' s' ->. apply Hf.
Qed.

Lemma runs_lift {A} (a : A) s : ok s -> runs (lift (Some a)) s a (tpm s) (inp s).
Proof using. exact (runs_ret a s). Qed.

Lemma prints_runs c s txt :
  prints (ok := ok) (out := out) (rest := fun s => (tpm s, inp s)) c s txt ->
  runs c s tt (tpm s) (inp s).
Proof using. intros (s' & E & H1 & [= H2 H3] & H4). by exists s', txt. Qed.

Lemma runs_printf fmt args n s :
  ok s -> fmt_bound (length fmt) fmt args = Some n -> n <= 127 ->
  runs (UART_printf fmt args) s tt (tpm s) (inp s).
Proof using All.
  intros Hs Hb Hn. destruct (printf_prints _ _ _ _ Hs Hb Hn) as [txt Hp]. exact (prints_runs _ _ _ Hp).
Qed.

Lemma runs_read32 s off v t :
  ok s -> 0 <= off < 0x20 -> tpm2_mmio_read (tpm s) off = Some (v, t) ->
  runs (read32 (TPM2_BASE + off)) s v t (inp s).
Proof using All.
  intros Hs Ho E. destruct (port_read s off v t Hs Ho E) as (s' & E' & H1 & H2 & H3 & H4).
  exists s', []. unfold read32. by rewrite E', app_nil_r.
Qed.

Lemma runs_write32 s off v t :
  ok s -> 0 <= off < 0x20 -> tpm2_mmio_write (tpm s) off v = Some t ->
  runs (write32 (TPM2_BASE + off) v) s tt t (inp s).
Proof using All.
  intros Hs Ho E. destruct (port_write s off v t Hs Ho E) as (s' & E' & H1 & H2 & H3 & H4).
  exists s', []. unfold write32. by rewrite E', app_nil_r.
Qed.

Lemma runs_getc fuel s c q :
  ok s -> (0 < fuel)%nat -> inp s = c :: q -> runs (UART_getc fuel) s (u8 c) (tpm s) q.
Proof using All.
  intros Hs Hf Hi. destruct fuel as [|fuel]; [lia|]. unfold UART_getc. simpl poll.
  destruct (port_flag s c q Hs Hi) as (f & E & Hb).
  eapply (runs_bind _ _ s tt (tpm s) (inp s)).
  - exists s, []. rewrite app_nil_r. split; [|done]. unfold mbind, fw_bind, read32. rewrite E.
    change UART_F_RXFE with (Z.shiftl 1 4). by rewrite land_bit, Hb by lia.
  - intros s1 H1 H2 H3. rewrite Hi in H3.
    destruct (port_getc s1 c q H1 H3) as (s2 & E2 & H4 & H5 & H6 & H7).
    eapply (runs_bind _ _ s1 c (tpm s) q).
    + exists s2, []. unfold read32. rewrite E2, app_nil_r. split_and!; congruence || done.
    + intros s3 H8 <- <-. by apply runs_ret.
Qed.

(** ** Sending *)
Lemma pad4_padded n : pad4 n = padded n.
Proof using. reflexivity. Qed.

(** The bytes that go over the bus. *)
Definition wire (cmd : list Z) : list Z :=
  cmd ++ replicate (Z.to_nat (pad4 (zlen cmd) - zlen cmd)) 0.

(** The device while it receives: [n] bytes are in [buf]. *)
Definition receiving (t : TPM2State) (buf : list Z) (n : Z) : TPM2State :=
  t <| state := TPM_STATE_RECEIVING |> <| cmd_size := n |> <| resp_size := 0 |>
    <| resp_idx := 0 |> <| command_buffer := buf |>.

Lemma begin_receiving t :
  tpm2_mmio_write t TPM2_CTRL_REG 1 = Some (receiving t (command_buffer t) 0).
Proof using. by destruct t. Qed.

Lemma data_received t buf n w buf' :
  0 <= n -> n + 4 <= BUFFER_SIZE -> is_u32 w -> store buf n (to_be32 w) = Some buf' ->
  tpm2_mmio_write (receiving t buf n) TPM2_DATA_REG w = Some (receiving t buf' (n + 4)).
Proof using.
  intros Hn Hl Hw Hst. unfold tpm2_mmio_write, BUFFER_SIZE in *.
  cbn [Z.eqb Pos.eqb TPM2_DATA_REG TPM2_CMD_REG TPM2_CTRL_REG].
  rewrite (u32_id w) by done. unfold receiving. fields.
  rewrite bool_decide_eq_true_2, Hst, u32_id by (done || unfold is_u32; lia). simpl negb. cbv iota.
  replace (1024 <? n + 4) with false by lia. by destruct t.
Qed.

Lemma wire_len cmd : zlen cmd <= BUFFER_SIZE -> zlen (wire cmd) = pad4 (zlen cmd).
Proof using.
  intros Hl. pose proof (zlen_nonneg cmd). unfold wire. rewrite zlen_app.
  destruct (padded_bounds (zlen cmd)) as [? _]; [lia|].
  rewrite pad4_padded, zlen_replicate; lia.
Qed.

Lemma wire_bytes cmd : bytes cmd -> bytes (wire cmd).
Proof using. intros. apply bytes_app; [done|apply bytes_zero]. Qed.

(** The byte at [i], zero behind the end of the command. *)
Definition cmd_byte (cmd : list Z) (i : Z) : Z := default 0 (cmd !! Z.to_nat i).

Lemma cmd_byte_u8 cmd i : bytes cmd -> is_u8 (cmd_byte cmd i).
Proof using.
  intros Hb. unfold cmd_byte. destruct (cmd !! Z.to_nat i) as [b|] eqn:E; [|done].
  exact (Forall_lookup_1 _ _ _ _ Hb E).
Qed.

Lemma wire_lookup cmd i :
  zlen cmd <= BUFFER_SIZE -> 0 <= i < pad4 (zlen cmd) ->
  wire cmd !! Z.to_nat i = Some (cmd_byte cmd i).
Proof using.
  intros Hl Hi. pose proof (wire_len cmd Hl) as Hw. unfold wire, cmd_byte in *.
  destruct (cmd !! Z.to_nat i) as [b|] eqn:E; [by apply lookup_app_l_Some|].
  apply lookup_ge_None in E. rewrite lookup_app_r by done.
  rewrite zlen_app in Hw. unfold zlen in Hw at 1 2. rewrite length_replicate in Hw.
  apply lookup_replicate. split; [done|lia].
Qed.

Lemma wire_word cmd i :
  zlen cmd <= BUFFER_SIZE -> 0 <= i -> i + 4 <= pad4 (zlen cmd) ->
  drop (Z.to_nat i) (wire cmd) =
    [cmd_byte cmd i; cmd_byte cmd (i + 1); cmd_byte cmd (i + 2); cmd_byte cmd (i + 3)] ++
    drop (Z.to_nat (i + 4)) (wire cmd).
Proof using.
  intros Hl Hi Hp.
  assert (Hs : forall j, 0 <= j < pad4 (zlen cmd) ->
    drop (Z.to_nat j) (wire cmd) = cmd_byte cmd j :: drop (Z.to_nat (j + 1)) (wire cmd)).
  { intros j Hj. replace (Z.to_nat (j + 1)) with (Datatypes.S (Z.to_nat j)) by lia.
    apply drop_S. by apply wire_lookup. }
  rewrite !Hs by lia. replace (i + 1 + 1) with (i + 2) by lia.
  replace (i + 2 + 1) with (i + 3) by lia. by replace (i + 3 + 1) with (i + 4) by lia.
Qed.

Lemma or_byte_eq cmd i k shift w (s : S) :
  0 <= i -> 0 <= k -> i + k < 2 ^ 32 ->
  or_byte cmd (zlen cmd) i k shift w s =
    Ret (Z.lor w (Z.shiftl (cmd_byte cmd (i + k)) shift)) s.
Proof using.
  intros Hi Hk Hb. unfold or_byte, cmd_byte. rewrite u32_id by (unfold is_u32; lia).
  destruct (Z.ltb_spec (i + k) (zlen cmd)) as [Hl|Hl]; unfold zlen in Hl.
  - destruct (lookup_lt_is_Some_2 cmd (Z.to_nat (i + k))) as [b ->]; [lia|done].
  - rewrite lookup_ge_None_2 by lia. simpl. by rewrite Z.shiftl_0_l, Z.lor_0_r.
Qed.

Lemma cmd_word_eq cmd i (s : S) :
  0 <= i -> i + 4 <= 2 ^ 32 ->
  cmd_word cmd (zlen cmd) i s =
    Ret (be32 (cmd_byte cmd i) (cmd_byte cmd (i + 1)) (cmd_byte cmd (i + 2))
           (cmd_byte cmd (i + 3))) s.
Proof using.
  intros Hi Hb. unfold cmd_word, mbind, fw_bind. rewrite !or_byte_eq by lia.
  by rewrite Z.add_0_r, Z.lor_0_l, Z.shiftl_0_r.
Qed.

(** The loop appends the rest of the command, word by word. *)
Lemma send_loop_runs cmd t : bytes cmd -> zlen cmd <= BUFFER_SIZE -> forall fuel i buf s,
  (4 | i) -> 0 <= i <= pad4 (zlen cmd) -> pad4 (zlen cmd) - i <= Z.of_nat fuel ->
  zlen buf = BUFFER_SIZE -> ok s -> tpm s = receiving t buf i ->
  exists buf', store buf i (drop (Z.to_nat i) (wire cmd)) = Some buf' /\
    runs (send_loop fuel cmd (zlen cmd) (pad4 (zlen cmd)) i) s tt
      (receiving t buf' (pad4 (zlen cmd))) (inp s).
Proof using All.
  intros Hb Hl. pose proof (zlen_nonneg cmd).
  destruct (padded_bounds (zlen cmd)) as (Hp & _ & Hp4); [lia|]. rewrite <- pad4_padded in *.
  pose proof (wire_len cmd Hl) as Hw. unfold BUFFER_SIZE in *.
  induction fuel as [|fuel IH]; intros i buf s [k Hk] Hi Hf Hbl Hs Ht; simpl.
  all: destruct (Z.ltb_spec i (pad4 (zlen cmd))) as [Hlt|Hge]; try lia.
  1,3: assert (i = pad4 (zlen cmd)) by lia; exists buf; split;
    [rewrite drop_ge by (unfold zlen in *; lia); apply store_nil; lia|];
    replace (pad4 (zlen cmd)) with i; rewrite <- Ht; by apply runs_ret.
  destruct Hp4 as [j Hj]. assert (Hi4 : i + 4 <= pad4 (zlen cmd)) by lia.
  pose proof (cmd_byte_u8 cmd) as Hu.
  set (w := be32 (cmd_byte cmd i) (cmd_byte cmd (i + 1)) (cmd_byte cmd (i + 2)) (cmd_byte cmd (i + 3))).
  assert (Hwr : is_u32 w) by (apply be32_range; by apply Hu).
  destruct (store_in buf i (to_be32 w)) as [buf1 Hst]; [lia|change (zlen (to_be32 w)) with 4; lia|].
  assert (Hbl1 : zlen buf1 = 1024) by (by rewrite (store_zlen _ _ _ _ Hst)).
  assert (Hdrop : drop (Z.to_nat i) (wire cmd) = to_be32 w ++ drop (Z.to_nat (i + 4)) (wire cmd)).
  { unfold w. rewrite to_be32_be32 by (by apply Hu). apply wire_word; [done|lia|done]. }
  assert (Hgo : exists buf', store buf1 (i + 4) (drop (Z.to_nat (i + 4)) (wire cmd)) = Some buf' /\
    forall s', ok s' -> tpm s' = receiving t buf1 (i + 4) -> inp s' = inp s ->
      runs (send_loop fuel cmd (zlen cmd) (pad4 (zlen cmd)) (u32 (i + 4))) s' tt
        (receiving t buf' (pad4 (zlen cmd))) (inp s)).
  { destruct (store_in buf1 (i + 4) (drop (Z.to_nat (i + 4)) (wire cmd))) as [buf' Hst'];
      [lia|rewrite zlen_drop by lia; lia|].
    exists buf'. split; [done|]. intros s' Hs' Ht' <-. rewrite u32_id by (unfold is_u32; lia).
    destruct (IH (i + 4) buf1 s') as (b & E & Hr); try done; try lia; [exists (k + 1); lia|].
    by replace buf' with b by congruence. }
  destruct Hgo as (buf' & Hst' & Hgo). exists buf'.
  split; [rewrite Hdrop; exact (store_app _ _ _ _ _ _ Hst Hst')|].
  eapply runs_bind; [exists s, []; rewrite app_nil_r; split; [apply cmd_word_eq; lia|done]|].
  intros s1 Hs1 Ht1 Hi1. fold w. rewrite <- Hi1. eapply runs_bind.
  - apply (runs_write32 s1 TPM2_DATA_REG w); [done|done|].
    rewrite Ht1. apply data_received; [lia|unfold BUFFER_SIZE; lia|done|exact Hst].
  - intros s2 Hs2 Ht2 Hi2. rewrite Hi1. apply Hgo; [done|done|congruence].
Qed.

(** The device with [cmd] received, not executed yet. *)
Definition loaded (t : TPM2State) (cmd : list Z) : TPM2State :=
  receiving t (wire cmd ++ drop (length (wire cmd)) (command_buffer t)) (pad4 (zlen cmd)).

Lemma loaded_wf t cmd :
  dev_wf t -> bytes cmd -> zlen cmd <= BUFFER_SIZE -> dev_wf (loaded t cmd).
Proof using.
  intros Hw Hb Hl. pose proof Hw as []. destruct dw_cmd as [Hc Hcb].
  pose proof (wire_len cmd Hl) as Hwl. pose proof (zlen_nonneg cmd).
  destruct (padded_bounds (zlen cmd)) as (Hp & _); [lia|]. rewrite <- pad4_padded in Hp.
  apply (dev_wf_regs t); unfold loaded, receiving; fields; try done; try lia. split.
  - rewrite zlen_app, Hwl. unfold zlen in *. rewrite length_drop. lia.
  - apply bytes_app; [by apply wire_bytes|by apply bytes_drop].
Qed.

Lemma send_runs cmd s t' :
  ok s -> zlen (command_buffer (tpm s)) = BUFFER_SIZE -> bytes cmd -> zlen cmd <= BUFFER_SIZE ->
  tpm2_mmio_write (loaded (tpm s) cmd) TPM2_CMD_REG 1 = Some t' ->
  runs (tpm_send_command cmd (zlen cmd)) s tt t' (inp s).
Proof using All.
  intros Hs Hc Hb Hl E. unfold tpm_send_command.
  eapply runs_bind; [apply (runs_write32 s TPM2_CTRL_REG 1); [done|done|apply begin_receiving]|].
  intros s1 Hs1 Ht1 Hi1. rewrite <- Hi1.
  eapply runs_bind; [by eapply runs_printf; [done|vm_compute; reflexivity|]|].
  intros s2 Hs2 Ht2 Hi2. rewrite <- Hi2, Ht1 in *.
  pose proof (wire_len cmd Hl) as Hw. pose proof (zlen_nonneg cmd).
  destruct (padded_bounds (zlen cmd)) as (Hp & _); [lia|]. rewrite <- pad4_padded in *.
  destruct (send_loop_runs cmd (tpm s) Hb Hl (Z.to_nat (pad4 (zlen cmd))) 0
    (command_buffer (tpm s)) s2) as (buf & Hst & Hr); try done; try lia; [by exists 0|].
  eapply runs_bind; [exact Hr|]. intros s3 Hs3 Ht3 Hi3. rewrite <- Hi3.
  apply (runs_write32 s3 TPM2_CMD_REG 1); [done|done|]. rewrite drop_0 in Hst.
  apply store_prefix_app in Hst as ->. by rewrite Ht3.
Qed.

(** ** Receiving *)

(** The device after the client has read up to [i]. *)
Definition drained (t : TPM2State) : TPM2State :=
  t <| state := TPM_STATE_IDLE |> <| resp_idx := 0 |> <| resp_size := 0 |>.
Definition read_to (t : TPM2State) (i : Z) : TPM2State :=
  if resp_size t <=? i then drained t else t <| resp_idx := i |>.

Lemma data_read t i v :
  state t = TPM_STATE_SENDING -> 0 <= i < resp_size t -> resp_size t <= BUFFER_SIZE ->
  ld32 (response_buffer t) i = Ok v ->
  tpm2_mmio_read (read_to t i) TPM2_DATA_REG = Some (v, read_to t (i + 4)).
Proof using.
  intros Hs Hi Hl Hv. unfold read_to, BUFFER_SIZE in *.
  replace (resp_size t <=? i) with false by lia. unfold tpm2_mmio_read.
  cbn [Z.eqb Pos.eqb TPM2_DATA_REG TPM2_STATUS_REG TPM2_CTRL_REG]. fields.
  rewrite Hs, Hv, u32_id by (unfold is_u32; lia). cbn [bool_decide negb].
  rewrite bool_decide_eq_true_2 by done. simpl negb. cbv iota.
  replace (resp_size t <=? i) with false by lia. fields.
  unfold drained. destruct (_ <=? i + 4); by destruct t.
Qed.

Lemma status_sending t i :
  state t = TPM_STATE_SENDING -> i < resp_size t ->
  tpm2_mmio_read (read_to t i) TPM2_STATUS_REG = Some (FW_STATE_SENDING, read_to t i).
Proof using.
  intros Hs Hi. unfold read_to. replace (resp_size t <=? i) with false by lia.
  unfold tpm2_mmio_read. cbn [Z.eqb Pos.eqb TPM2_STATUS_REG TPM2_CTRL_REG].
  fields. by rewrite Hs.
Qed.

Section Reading.
(** A reply that is ready. *)
Variables (t : TPM2State) (rc : Z) (body : list Z).
Hypotheses (Hw : dev_wf t) (Hr : replies t rc body) (Hb : rc <> TPM_RC_SUCCESS -> body = []).

Lemma reply_size : 10 <= 10 + zlen body <= BUFFER_SIZE.
Proof using Hw Hr.
  pose proof (zlen_nonneg body). destruct Hw. destruct dw_resp as [Hl _].
  destruct Hr as (_ & _ & L & _). apply load_Some in L as (_ & _ & ? & _). lia.
Qed.

(** The device sends at least the words that the driver reads. *)
Lemma reply_words i : (4 | i) -> 0 <= i < pad4 (10 + zlen body) -> i < resp_size t.
Proof using Hw Hr Hb.
  intros [k Hk] Hi. destruct Hr as (_ & _ & _ & ->). rewrite pad4_padded in Hi.
  destruct (Z.eqb_spec rc TPM_RC_SUCCESS) as [_|Hrc]; [lia|].
  rewrite (Hb Hrc) in Hi. change (padded _) with 12 in Hi. lia.
Qed.

Lemma reply_done : read_to t (pad4 (10 + zlen body)) = drained t.
Proof using Hw Hr Hb.
  unfold read_to. destruct Hr as (_ & _ & _ & ->).
  destruct (Z.eqb_spec rc TPM_RC_SUCCESS) as [_|Hrc]; [by rewrite <- pad4_padded, Z.leb_refl|].
  rewrite (Hb Hrc). reflexivity.
Qed.

Lemma reply_word i s :
  (4 | i) -> 0 <= i < pad4 (10 + zlen body) -> ok s -> tpm s = read_to t i ->
  exists v, load (response_buffer t) i 4 = Some (to_be32 v) /\
    runs (read32 FW_DATA_REG) s v (read_to t (i + 4)) (inp s).
Proof using All.
  intros Hi Hn Hs Ht. pose proof (reply_words i Hi Hn) as Hlt. pose proof Hw as [].
  destruct dw_resp as [Hl Hbs]. destruct Hr as (Hst & _ & _ & Hsz). pose proof reply_size as Hsize.
  destruct (padded_bounds (10 + zlen body)) as (Hp & _ & [j Hj]); [lia|]. rewrite <- pad4_padded in *.
  destruct (dw_sending Hst) as [Hrs _ _]. destruct Hi as [k Hk].
  destruct (load_ld32 (response_buffer t) i) as (v & E & _ & L); [done|lia|lia|]. exists v. split; [done|].
  apply (runs_read32 s TPM2_DATA_REG); [done|done|]. rewrite Ht. apply data_read; try done; lia.
Qed.

Lemma reply_status i s :
  (4 | i) -> 0 <= i < pad4 (10 + zlen body) -> ok s -> tpm s = read_to t i ->
  runs (read32 FW_STATUS_REG) s FW_STATE_SENDING (read_to t i) (inp s).
Proof using All.
  intros Hi Hn Hs Ht. apply (runs_read32 s TPM2_STATUS_REG); [done|done|].
  rewrite Ht. apply status_sending; [apply Hr|by apply reply_words].
Qed.

(** The header words are copied as they are. *)
Lemma read_header_runs k : forall i resp s,
  0 <= i -> 4 * (i + Z.of_nat k) <= pad4 (10 + zlen body) -> 4 * (i + Z.of_nat k) <= zlen resp ->
  ok s -> tpm s = read_to t (4 * i) ->
  runs_to (read_header k resp i) s
    (fun resp' => exists bs, load (response_buffer t) (4 * i) (4 * Z.of_nat k) = Some bs /\
       store resp (4 * i) bs = Some resp')
    (read_to t (4 * (i + Z.of_nat k))) (inp s).
Proof using All.
  induction k as [|k IH]; intros i resp s Hi Hp Hl Hs Ht; simpl read_header.
  { eapply runs_runs_to; [rewrite Z.add_0_r, <- Ht; by apply runs_ret|].
    pose proof Hw as []. destruct dw_resp as [Hrl _]. pose proof reply_size.
    destruct (padded_bounds (10 + zlen body)) as (Hq & _); [lia|]. rewrite <- pad4_padded in Hq.
    exists []. split; [apply load_empty; lia|apply store_nil; lia]. }
  destruct (reply_word (4 * i) s) as (v & L & Hv); [by exists i; lia|lia|done|done|].
  destruct (store_in resp (4 * i) (to_be32 v)) as [r1 Hst]; [lia|change (zlen (to_be32 v)) with 4; lia|].
  eapply runs_bind_to; [exact Hv|]. intros s1 Hs1 Ht1 Hi1. rewrite <- Hi1.
  replace (i * 4) with (4 * i) by lia. rewrite Hst. eapply runs_bind_to; [by apply runs_lift|].
  intros s2 Hs2 Ht2 Hi2. rewrite <- Hi2. pose proof (store_zlen _ _ _ _ Hst) as Hl1.
  destruct (IH (i + 1) r1 s2) as (r2 & Hr2 & bs & L2 & Hst2); [lia..|done| |].
  { rewrite Ht2, Ht1. f_equal. lia. }
  exists r2. split; [by replace (i + Z.of_nat (Datatypes.S k)) with (i + 1 + Z.of_nat k) by lia|].
  exists (to_be32 v ++ bs). replace (4 * (i + 1)) with (4 * i + 4) in * by lia. split.
  - replace (4 * Z.of_nat (Datatypes.S k)) with (4 + 4 * Z.of_nat k) by lia.
    by rewrite load_add, L, L2 by lia.
  - exact (store_app _ _ _ _ _ _ Hst Hst2).
Qed.

(** One more word, or what belongs to the response of it. *)
Lemma keep_word br resp v :
  12 <= br < 10 + zlen body -> 10 + zlen body <= zlen resp ->
  load (response_buffer t) br 4 = Some (to_be32 v) ->
  load resp 0 br = load (response_buffer t) 0 br ->
  exists resp', store resp br (keep_bytes v br (10 + zlen body)) = Some resp' /\
    zlen resp' = zlen resp /\ (bytes resp -> bytes resp') /\
    let k := Z.min (br + 4) (10 + zlen body) in load resp' 0 k = load (response_buffer t) 0 k.
Proof using.
  intros Hbr Hl L Hpre. set (bs := keep_bytes v br (10 + zlen body)).
  assert (Hbs : zlen bs = Z.min 4 (10 + zlen body - br)).
  { unfold bs, keep_bytes, zlen. rewrite length_take. simpl. unfold zlen in *. lia. }
  destruct (store_in resp br bs) as [r Hst]; [lia|lia|]. exists r. split; [done|].
  split; [exact (store_zlen _ _ _ _ Hst)|]. split.
  { intros Hb'. apply (store_bytes _ _ _ _ Hb') in Hst; [done|]. apply bytes_take, to_be32_bytes. }
  cbv zeta. replace (Z.min (br + 4) (10 + zlen body)) with (br + zlen bs) by lia.
  rewrite !load_add by lia. rewrite Z.add_0_l.
  rewrite (load_store_disjoint _ _ _ _ 0 br Hst), Hpre by lia.
  rewrite (load_store_same _ _ _ _ Hst). replace (load (response_buffer t) br (zlen bs)) with (Some bs); [done|].
  assert (L' : load (to_be32 v) 0 (zlen bs) = Some bs).
  { rewrite <- (take_drop (Z.to_nat (10 + zlen body - br)) (to_be32 v)). apply load_app_prefix. }
  rewrite <- L', (load_inside _ _ _ _ 0 _ L) by lia. by rewrite Z.add_0_r.
Qed.

(** The loop fetches the rest of the response. *)
Lemma read_loop_runs fuel : forall br resp s,
  (4 | br) -> 12 <= br <= pad4 (10 + zlen body) -> pad4 (10 + zlen body) - br <= Z.of_nat fuel ->
  10 + zlen body <= zlen resp -> bytes resp -> ok s -> tpm s = read_to t br ->
  (let k := Z.min br (10 + zlen body) in load resp 0 k = load (response_buffer t) 0 k) ->
  runs_to (read_loop fuel resp (10 + zlen body) (pad4 (10 + zlen body)) br) s
    (fun '(early, k, resp') => early = 0 /\ zlen resp' = zlen resp /\ bytes resp' /\
       load resp' 0 (10 + zlen body) = load (response_buffer t) 0 (10 + zlen body))
    (drained t) (inp s).
Proof using All.
  pose proof reply_size as Hsize. unfold BUFFER_SIZE in Hsize.
  destruct (padded_bounds (10 + zlen body)) as (Hp & Hp3 & [j Hj]); [unfold BUFFER_SIZE; lia|].
  rewrite <- pad4_padded in *. unfold BUFFER_SIZE in Hp. cbv zeta.
  induction fuel as [|fuel IH]; intros br resp s Hdiv Hbr Hf Hl Hbs Hs Ht Hpre.
  all: cbn [read_loop]; destruct (Z.ltb_spec br (pad4 (10 + zlen body))) as [Hlt|Hge]; try lia.
  1,3: rewrite Z.min_r in Hpre by lia;
    replace br with (pad4 (10 + zlen body)) in * by lia; rewrite reply_done in Ht; rewrite <- Ht;
    eapply runs_runs_to; [by apply runs_ret|done].
  pose proof Hdiv as [k Hk]. assert (Hbn : 12 <= br < 10 + zlen body) by lia.
  rewrite Z.min_l in Hpre by lia.
  eapply runs_bind_to; [by apply reply_status; try done; lia|]. intros s1 Hs1 Ht1 Hi1.
  change (negb (FW_STATE_SENDING =? FW_STATE_SENDING)) with false. cbv iota. rewrite <- Hi1.
  destruct (reply_word br s1 Hdiv ltac:(lia) Hs1 Ht1) as (v & L & Hv).
  destruct (keep_word br resp v Hbn Hl L Hpre) as (r1 & Hst & Hl1 & Hb1 & Hk1).
  eapply runs_bind_to; [exact Hv|]. intros s2 Hs2 Ht2 Hi2. rewrite <- Hi2.
  replace (br <? 10 + zlen body) with true by lia. rewrite Hst.
  eapply runs_bind_to; [by apply runs_lift|]. intros s3 Hs3 Ht3 Hi3. rewrite <- Hi3.
  rewrite u32_id by (unfold is_u32; lia). rewrite <- Hl1.
  apply IH; try done; try lia; [exists (k + 1); lia|auto|congruence].
Qed.

Lemma read_to_start : read_to t 0 = t.
Proof using Hw Hr.
  pose proof Hw as []. destruct Hr as (Hst & Hi & _). destruct (dw_sending Hst) as [Hsz _ _].
  unfold read_to. replace (resp_size t <=? 0) with false by lia.
  clear - Hi. destruct t. simpl in Hi. by subst.
Qed.

Lemma poll_sending fuel s :
  (0 < fuel)%nat -> ok s -> tpm s = t ->
  runs (poll fuel FW_STATUS_REG (fun st => st =? FW_STATE_PROCESSING)) s tt t (inp s).
Proof using All.
  intros Hf Hs Ht. destruct fuel as [|fuel]; [lia|]. cbn [poll].
  apply (runs_bind _ _ s FW_STATE_SENDING (read_to t 0) (inp s)); [apply reply_status|].
  - by exists 0.
  - pose proof reply_size. destruct (padded_bounds (10 + zlen body)); [lia|].
    rewrite pad4_padded. lia.
  - done.
  - by rewrite read_to_start.
  - intros s1 Hs1 Ht1 Hi1. cbn [Z.eqb Pos.eqb FW_STATE_SENDING FW_STATE_PROCESSING].
    rewrite read_to_start in Ht1. rewrite <- Hi1, <- Ht1. by apply runs_ret.
Qed.

(** The size field of the header. *)
Lemma reply_size_word : load (response_buffer t) 2 4 = Some (to_be32 (10 + zlen body)).
Proof using Hw Hr.
  pose proof reply_size. destruct Hr as (_ & _ & L & _).
  rewrite (load_inside_prefix _ _ _ 2 4 L) by lia. unfold rsp_header. rewrite <- !app_assoc.
  exact (load_mid (to_be16 TPM_ST_NO_SESSIONS) (to_be32 (10 + zlen body)) (to_be32 rc ++ body)).
Qed.

(** The driver gets header and body, and the device is idle again. *)
Lemma read_response_runs fuel resp s :
  (0 < fuel)%nat -> zlen resp = RESPONSE_SIZE -> bytes resp -> ok s -> tpm s = t ->
  runs_to (tpm_read_response fuel resp RESPONSE_SIZE) s
    (fun '(k, resp') => k = 10 + zlen body /\ zlen resp' = RESPONSE_SIZE /\ bytes resp' /\
       load resp' 0 (10 + zlen body) = Some (rsp_header (10 + zlen body) rc ++ body))
    (drained t) (inp s).
Proof using All.
  intros Hf Hl Hbs Hs Ht. unfold tpm_read_response.
  pose proof reply_size as Hsize. unfold BUFFER_SIZE, RESPONSE_SIZE in *.
  destruct (padded_bounds (10 + zlen body)) as (Hp & Hp3 & Hp4); [unfold BUFFER_SIZE; lia|].
  rewrite <- pad4_padded in *. assert (H12 : 12 <= pad4 (10 + zlen body)) by (destruct Hp4; lia).
  eapply runs_bind_to; [by apply poll_sending|]. intros s1 Hs1 Ht1 Hi1. rewrite <- Hi1.
  eapply runs_bind_to; [apply (reply_status 0); [by exists 0|lia|done|by rewrite read_to_start]|].
  intros s2 Hs2 Ht2 Hi2. rewrite read_to_start in Ht2. rewrite <- Hi2.
  change (negb (FW_STATE_SENDING =? FW_STATE_SENDING)) with false. cbv iota.
  eapply runs_bind_to; [by eapply runs_printf; [done|vm_compute; reflexivity|]|].
  intros s3 Hs3 Ht3 Hi3. rewrite <- Hi3.
  eapply runs_to_bind; [apply (read_header_runs 3 0 resp s3); [lia|lia|lia|done|]|].
  { change (4 * 0) with 0. by rewrite Ht3, Ht2, read_to_start. }
  intros r1 s4 (bs & L & Hst) Hs4 Ht4 Hi4. rewrite <- Hi4.
  change (4 * 0) with 0 in *. change (4 * Z.of_nat 3) with 12 in L.
  change (4 * (0 + Z.of_nat 3)) with 12 in Ht4.
  pose proof (load_zlen _ _ _ _ L) as Hbl. pose proof (load_store_same _ _ _ _ Hst) as L1.
  rewrite Hbl in L1. pose proof (store_zlen _ _ _ _ Hst) as Hl1.
  assert (Hsz : ld32 r1 2 = Ok (10 + zlen body)).
  { apply ld32_be; [unfold is_u32; lia|]. rewrite <- reply_size_word.
    by rewrite (load_inside_prefix _ _ _ 2 4 L1), (load_inside_prefix _ _ _ 2 4 L) by lia. }
  rewrite Hsz. eapply runs_bind_to; [by apply runs_lift|]. intros s5 Hs5 Ht5 Hi5. rewrite <- Hi5.
  eapply runs_bind_to; [by eapply runs_printf; [done|vm_compute; reflexivity|]|].
  intros s6 Hs6 Ht6 Hi6. rewrite <- Hi6.
  replace (1024 <? 10 + zlen body) with false by lia.
  replace (10 + zlen body <? 10) with false by lia.
  eapply runs_to_bind.
  { apply (read_loop_runs (Z.to_nat (pad4 (10 + zlen body))) 12 r1 s6);
      [by exists 3|lia|lia|lia| |done|congruence|].
    - apply (store_bytes _ _ _ _ Hbs) in Hst; [done|]. destruct Hw. destruct dw_resp.
      by apply (load_bytes _ _ _ _ ltac:(eassumption) L).
    - cbv zeta. by rewrite (load_inside_prefix _ _ _ 0 _ L1), (load_inside_prefix _ _ _ 0 _ L) by lia. }
  intros [[early k] r2] s7 (-> & Hl2 & Hb2 & L2) Hs7 Ht7 Hi7. rewrite <- Hi7.
  change (0 =? 1) with false. cbv iota.
  eapply runs_bind_to; [by eapply runs_printf; [done|vm_compute; reflexivity|]|].
  intros s8 Hs8 Ht8 Hi8. rewrite <- Hi8, <- Ht7, <- Ht8.
  eapply runs_runs_to; [by apply runs_ret|]. destruct Hr as (_ & _ & LR & _).
  split_and!; [done|lia|done|congruence].
Qed.
End Reading.

(** ** A whole transaction *)
Lemma parse_header_runs resp s :
  ok s -> zlen resp = RESPONSE_SIZE -> bytes resp ->
  runs (parse_response_header resp) s tt (tpm s) (inp s).
Proof using All.
  intros Hs Hl Hb. unfold parse_response_header, RESPONSE_SIZE in *.
  destruct (ld16_ok resp 0) as (tag & -> & _); [done|lia|lia|].
  destruct (ld32_ok resp 2) as (size & -> & _); [done|lia|lia|].
  destruct (ld32_ok resp 6) as (code & -> & _); [done|lia|lia|].
  do 3 (eapply runs_bind; [by apply runs_lift|];
        let s' := fresh in let Hs' := fresh in
        intros s' Hs' <- <-; clear s Hs; rename s' into s, Hs' into Hs).
  do 4 (eapply runs_bind; [by eapply runs_printf; [done|vm_compute; reflexivity|]|];
        let s' := fresh in let Hs' := fresh in
        intros s' Hs' <- <-; clear s Hs; rename s' into s, Hs' into Hs).
  destruct (code =? 0); (by eapply runs_printf; [done|vm_compute; reflexivity|]).
Qed.

(** [c] returns a value and ends with printing a text, which satisfy [Q]. *)
Definition shows {A} (c : fw S A) (s : S) (Q : A -> list Z -> Prop) (t : TPM2State)
    (q : list Z) : Prop :=
  exists a s' txt dump, c s = Ret a s' /\ ok s' /\ tpm s' = t /\ inp s' = q /\
    out s' = out s ++ txt ++ dump /\ Q a dump.

Lemma shows_bind {A B} (c : fw S A) (f : A -> fw S B) s (P : A -> Prop) Q t q t' q' :
  runs_to c s P t q ->
  (forall a s', P a -> ok s' -> tpm s' = t -> inp s' = q -> shows (f a) s' Q t' q') ->
  shows (c ≫= f) s Q t' q'.
Proof using.
  intros (a & (s1 & x & E1 & H1 & H2 & H3 & H4) & Ha) Hf.
  destruct (Hf a s1 Ha H1 H2 H3) as (b & s2 & y & d & E2 & H5 & H6 & H7 & H8 & H9).
  exists b, s2, (x ++ y), d. rewrite (fw_bind_Ret _ _ _ _ _ E1). split_and!; try done.
  by rewrite H8, H4, <- !app_assoc.
Qed.

Lemma shows_ret {A} (c : fw S unit) s (Q : list Z -> Prop) (a : A) t q :
  shows c s (fun _ => Q) t q -> shows (c ;; mret a) s (fun b d => b = a /\ Q d) t q.
Proof using.
  intros ([] & s1 & x & d & E & H1 & H2 & H3 & H4 & H5). exists a, s1, x, d.
  by rewrite (fw_bind_Ret _ _ _ _ _ E).
Qed.

Lemma shows_hex fuel resp n s :
  ok s -> (0 < fuel)%nat -> 0 <= n <= zlen resp -> bytes resp ->
  shows (UART_print_hex fuel resp n) s (fun _ d => unhex d = take (Z.to_nat n) resp)
    (tpm s) (inp s).
Proof using All.
  intros Hs Hf Hn Hb.
  destruct (print_hex_prints fuel resp n s _ Hs Hf (load_prefix resp n Hn))
    as (s' & E & H1 & [= H2 H3] & H4).
  eexists tt, s', [], _. split_and!; [exact E|done|done|done|exact H4|].
  apply unhex_text; [auto with tpm|]. destruct (negb _); [by apply Forall_singleton|done].
Qed.

Lemma run_command_shows fuel cmd resp s t' rc body :
  (0 < fuel)%nat -> ok s -> zlen (command_buffer (tpm s)) = BUFFER_SIZE ->
  bytes cmd -> zlen cmd <= BUFFER_SIZE -> zlen resp = RESPONSE_SIZE -> bytes resp ->
  tpm2_mmio_write (loaded (tpm s) cmd) TPM2_CMD_REG 1 = Some t' ->
  dev_wf t' -> replies t' rc body -> (rc <> TPM_RC_SUCCESS -> body = []) ->
  shows (run_command fuel cmd resp) s
    (fun resp' dump => zlen resp' = RESPONSE_SIZE /\ bytes resp' /\
       load resp' 0 (10 + zlen body) = Some (rsp_header (10 + zlen body) rc ++ body) /\
       unhex dump = rsp_header (10 + zlen body) rc ++ body)
    (drained t') (inp s).
Proof using All.
  intros Hf Hs Hc Hb Hl Hrl Hrb E Hw Hr Hbody. unfold run_command.
  eapply shows_bind; [eapply (runs_runs_to _ _ _ (fun _ => True)); [by apply send_runs|done]|].
  intros _ s1 _ Hs1 Ht1 <-.
  eapply shows_bind; [by apply (read_response_runs t' rc body)|].
  intros [k r] s2 (-> & Hl2 & Hb2 & L) Hs2 <- <-. pose proof (zlen_nonneg body).
  replace (0 <? 10 + zlen body) with true by lia.
  assert (Hn : 10 + zlen body <= zlen r) by (apply load_Some in L; lia).
  assert (Ht : take (Z.to_nat (10 + zlen body)) r = rsp_header (10 + zlen body) rc ++ body)
    by (rewrite load_prefix in L by lia; congruence).
  destruct (shows_ret (parse_response_header r ;; UART_printf MSG_FULL [] ;;
    UART_print_hex fuel r (10 + zlen body)) s2 (fun d => unhex d = rsp_header (10 + zlen body) rc ++ body)
    r (tpm s2) (inp s2)) as (a & s3 & x & d & H1 & H2 & H3 & H4 & H5 & -> & H6).
  - eapply shows_bind; [eapply (runs_runs_to _ _ _ (fun _ => True)); [by apply parse_header_runs|done]|].
    intros _ s3 _ Hs3 <- <-.
    eapply shows_bind; [eapply (runs_runs_to _ _ _ (fun _ => True));
      [by eapply runs_printf; [done|vm_compute; reflexivity|]|done]|].
    intros _ s4 _ Hs4 <- <-. rewrite <- Ht. apply shows_hex; [done|done|lia|done].
  - by exists r, s3, x, d.
Qed.
End Driver.
