(* ===== verification/Transact.v ===== *)
(** * Commands as the device executes them

    A command built from its code and its parameters, loaded by the driver of
    [FwTpm] and started, is dispatched with exactly these parameters.  For the
    three NV commands the effect on the abstract storage of [NvRefine] and the
    reply follow. *)
From stdpp Require Import base list numbers gmap.
From S2P Require Import Prelude Constants State Codec Header Unmarshal OpenSSL Crypto Nv NvRefine Device DeviceInv DeviceSteps FwTpm FwTpmSpec.

(** The bytes of a command without sessions. *)
Definition command (code : Z) (params : list Z) : list Z :=
  encode_header {| ch_tag := TPM_ST_NO_SESSIONS; ch_size := 10 + zlen params; ch_code := code |}
    ++ params.

Lemma command_len code params : zlen (command code params) = 10 + zlen params.
Proof. unfold command. by rewrite zlen_app. Qed.
Lemma command_bytes code params : bytes params -> bytes (command code params).
Proof. intros. unfold command, encode_header. auto 10 with tpm. Qed.

Lemma nv_key_same s s' : primary_sensitive s' = primary_sensitive s -> nv_key s' = nv_key s.
Proof. unfold nv_key. by intros ->. Qed.

Section Transact.
Context `{OS : OpenSSL, !OpenSSLLaws OS, LY : Layout}.

(** The device when the command is dispatched. *)
Definition issued (t : TPM2State) (code : Z) (params : list Z) : TPM2State :=
  processing (loaded t (command code params)) (10 + zlen params).

Section Issued.
Variables (t : TPM2State) (code : Z) (params : list Z).
Hypotheses (Hw : dev_wf t) (Hb : bytes params) (Hl : 10 + zlen params <= BUFFER_SIZE).

Lemma issued_wf : dev_wf (issued t code params).
Proof using Hw Hb Hl.
  pose proof (zlen_nonneg params). apply processing_wf; [|lia].
  apply loaded_wf; [done|by apply command_bytes|by rewrite command_len].
Qed.

Lemma issued_same : same_nv t (issued t code params) /\ nv_key (issued t code params) = nv_key t.
Proof using.
  split; [|apply nv_key_same]; unfold issued, processing, loaded, receiving, same_nv; by fields.
Qed.

Lemma issued_buffer :
  exists tail, command_buffer (issued t code params) = command code params ++ tail.
Proof using.
  unfold issued, processing, loaded, receiving. fields. unfold wire. rewrite <- app_assoc. eauto.
Qed.

Lemma issued_params : load (command_buffer (issued t code params)) 10 (zlen params) = Some params.
Proof using.
  destruct issued_buffer as [tail ->]. unfold command. rewrite <- app_assoc. apply (load_mid (encode_header _)).
Qed.

Lemma issued_header :
  load (command_buffer (issued t code params)) 0 10 =
    Some (encode_header {| ch_tag := TPM_ST_NO_SESSIONS; ch_size := 10 + zlen params; ch_code := code |}).
Proof using.
  destruct issued_buffer as [tail ->]. unfold command. rewrite <- app_assoc.
  apply (load_app_prefix (encode_header _)).
Qed.

(** Starting it runs the handler of its code. *)
Lemma issued_dispatch :
  is_u32 code -> is_valid_cc_command code = true ->
  tpm2_mmio_write (loaded t (command code params)) TPM2_CMD_REG 1 =
    dispatch (issued t code params) code (zlen params).
Proof using Hw Hb Hl.
  intros Hc Hv. pose proof (zlen_nonneg params). unfold BUFFER_SIZE in *.
  set (h := {| ch_tag := TPM_ST_NO_SESSIONS; ch_size := 10 + zlen params; ch_code := code |}).
  assert (Hr : header_in_range h) by (split_and!; try done; simpl; unfold is_u32; lia).
  assert (Hsz : ld32 (command_buffer (loaded t (command code params))) 2 = Ok (10 + zlen params)).
  { apply ld32_be; [apply Hr|]. pose proof issued_header as L.
    change (command_buffer (issued t code params))
      with (command_buffer (loaded t (command code params))) in L.
    rewrite (load_inside_prefix _ _ _ 2 4 L) by lia.
    exact (load_mid (to_be16 TPM_ST_NO_SESSIONS) (to_be32 (10 + zlen params)) (to_be32 code)). }
  rewrite (execute_eq (loaded t (command code params)) _ eq_refl Hsz). fold (issued t code params).
  assert (Hcs : cmd_size (loaded t (command code params)) = pad4 (zlen (command code params)))
    by (unfold loaded, receiving; by fields).
  rewrite Hcs, command_len, pad4_padded.
  destruct (padded_bounds (10 + zlen params)) as (Hp & _); [unfold BUFFER_SIZE; lia|].
  replace (padded (10 + zlen params) <? 10 + zlen params) with false by lia.
  pose proof (process_command_header _ issued_wf) as Hd.
  change (cmd_size (issued t code params)) with (10 + zlen params) in Hd.
  rewrite (validate_encoded _ _ _ h Hr issued_header) in Hd.
  replace (10 + zlen params <? 10) with false in Hd by lia. simpl in Hd.
  rewrite Z.eqb_refl, Hv in Hd. simpl in Hd. destruct Hd as [_ ->].
  f_equal. lia.
Qed.

(** A parser with a [Codec] finds the parameters. *)
Lemma issued_parse {A} f (enc : A -> list Z) okp `{!Parser f enc okp} a :
  okp a -> params = enc a ->
  f (command_buffer (issued t code params)) (Some 10) (zlen params) = Ok (a, zlen (enc a)).
Proof using Hl.
  intros Ha E. pose proof (zlen_nonneg params). unfold BUFFER_SIZE in *.
  apply parser_complete; rewrite <- ?E; [done|lia|lia|lia|apply issued_params].
Qed.
End Issued.

(** Nothing but the command and the response is touched by loading, answering
    and reading. *)
Lemma sending_same s m n : same_nv s (sending s m n) /\ nv_key (sending s m n) = nv_key s.
Proof using. split; [|apply nv_key_same]; unfold sending, same_nv; by fields. Qed.

(** ** The NV commands *)

(** A device state as the NV commands see it. *)
Definition nv_view (t : TPM2State) : gmap Z cell * option (list Z) * Z * Z :=
  (nv_abs t, nv_key t, nv_count t, nv_alloc_offset t).

Lemma nv_view_same s s' : same_nv s s' -> nv_key s' = nv_key s -> nv_view s' = nv_view s.
Proof using.
  intros Hn Hk. unfold nv_view. rewrite (same_nv_abs _ _ Hn), Hk.
  destruct Hn as (_ & _ & _ & -> & ->). done.
Qed.

Lemma issued_view t code params : nv_view (issued t code params) = nv_view t.
Proof using. destruct (issued_same t code params). by apply nv_view_same. Qed.
Lemma sending_view s m n : nv_view (sending s m n) = nv_view s.
Proof using. destruct (sending_same s m n). by apply nv_view_same. Qed.

(** Executing the loaded command [cmd] answers [rc] and [body], and the storage
    is then [view]. *)
Definition executes (t : TPM2State) (cmd : list Z) (rc : Z) (body : list Z)
    (view : gmap Z cell * option (list Z) * Z * Z) : Prop :=
  exists t', tpm2_mmio_write (loaded t cmd) TPM2_CMD_REG 1 = Some t' /\ dev_wf t' /\
    replies t' rc body /\ nv_view t' = view.

Lemma answered_executes t cmd s rc body :
  answered s (tpm2_mmio_write (loaded t cmd) TPM2_CMD_REG 1) rc body ->
  executes t cmd rc body (nv_view s).
Proof using. intros (m & n & E & Hr & Hw). exists (sending s m n). by rewrite sending_view. Qed.

(** TPM2_NV_Read, every branch. *)
Lemma issued_NV_Read t p :
  dev_wf t -> ok_NV_Read p ->
  let len := rp_sizeToRead p in
  let o := tpm2_mmio_write (loaded t (command TPM_CC_NV_Read (enc_NV_Read p))) TPM2_CMD_REG 1 in
  let reply := answered (issued t TPM_CC_NV_Read (enc_NV_Read p)) o in
  match nv_abs t !! rp_nvIndex p with
  | None => reply TPM_RC_HANDLE []
  | Some c =>
      if negb (c_written c) then reply TPM_RC_NV_UNINITIALIZED []
      else if np_dataSize (c_pub c) <? rp_offset p + len then reply TPM_RC_NV_RANGE []
      else match nv_key t with
           | None => reply TPM_RC_FAILURE []
           | Some k =>
               if len =? 0 then reply TPM_RC_FAILURE []
               else if MAX_NV_BUFFER_SIZE <? len then o = None
               else if BUFFER_SIZE - 12 <? len then reply TPM_RC_INSUFFICIENT []
               else reply TPM_RC_SUCCESS (to_be16 len ++ read_reply k c (rp_offset p) len)
           end
  end.
Proof using All.
  intros Hw Hp. assert (Hlen : zlen (enc_NV_Read p) = 14) by done.
  assert (Hb : bytes (enc_NV_Read p)) by (unfold enc_NV_Read; auto 10 with tpm).
  assert (Hfit : 10 + zlen (enc_NV_Read p) <= BUFFER_SIZE) by (rewrite Hlen; unfold BUFFER_SIZE; lia).
  pose proof (handle_NV_Read_ok _ (issued_wf t TPM_CC_NV_Read _ Hw Hb Hfit) (zlen (enc_NV_Read p))
    ltac:(done) Hfit) as H.
  rewrite (issued_parse t TPM_CC_NV_Read (enc_NV_Read p) Hfit Unmarshal_NV_Read enc_NV_Read
    ok_NV_Read p Hp eq_refl) in H.
  destruct (issued_same t TPM_CC_NV_Read (enc_NV_Read p)) as [Ha%same_nv_abs Hk'].
  rewrite Ha, Hk' in H. cbv zeta in *. rewrite issued_dispatch by done. exact H.
Qed.

Lemma execute_NV_Read t p c k :
  dev_wf t -> ok_NV_Read p -> nv_abs t !! rp_nvIndex p = Some c -> nv_key t = Some k ->
  c_written c = true -> rp_offset p + rp_sizeToRead p <= np_dataSize (c_pub c) ->
  0 < rp_sizeToRead p <= BUFFER_SIZE - 12 ->
  executes t (command TPM_CC_NV_Read (enc_NV_Read p)) TPM_RC_SUCCESS
    (to_be16 (rp_sizeToRead p) ++ read_reply k c (rp_offset p) (rp_sizeToRead p)) (nv_view t).
Proof using All.
  intros Hw Hp Hc Hk Hwr Hr Hsz. pose proof (issued_NV_Read t p Hw Hp) as H. cbv zeta in H.
  rewrite Hc, Hk, Hwr in H. simpl negb in H. cbv iota in H.
  replace (np_dataSize (c_pub c) <? rp_offset p + rp_sizeToRead p) with false in H by lia.
  unfold BUFFER_SIZE, MAX_NV_BUFFER_SIZE in *.
  replace (rp_sizeToRead p =? 0) with false in H by lia.
  replace (1024 <? rp_sizeToRead p) with false in H by lia.
  replace (1024 - 12 <? rp_sizeToRead p) with false in H by lia.
  rewrite <- (issued_view t TPM_CC_NV_Read (enc_NV_Read p)). by apply answered_executes.
Qed.

Lemma execute_NV_Write t p c k :
  dev_wf t -> ok_NV_Write p -> 10 + zlen (enc_NV_Write p) <= BUFFER_SIZE ->
  nv_abs t !! wp_nvIndex p = Some c -> nv_key t = Some k ->
  is_Some (provision_handle (wp_authHandle p)) ->
  write_allowed (c_pub c) (b_size (wp_data p)) (wp_offset p) -> 0 < b_size (wp_data p) ->
  executes t (command TPM_CC_NV_Write (enc_NV_Write p)) TPM_RC_SUCCESS []
    (<[wp_nvIndex p := write_cell c (wp_offset p) (nv_encrypt k (b_buffer (wp_data p)))]> (nv_abs t),
     Some k, nv_count t, nv_alloc_offset t).
Proof using All.
  intros Hw Hp Hfit Hc Hk [ph Hph] Hal Hpos.
  assert (Hb : bytes (enc_NV_Write p)).
  { destruct Hp as (_ & _ & (_ & _ & Hd & _) & _). unfold enc_NV_Write, enc_NV_BUFFER. auto 10 with tpm. }
  pose proof (zlen_nonneg (enc_NV_Write p)) as Hn0.
  set (s := issued t TPM_CC_NV_Write (enc_NV_Write p)).
  assert (Hws : dev_wf s) by (by apply issued_wf).
  pose proof (handle_NV_Write_ok s Hws (zlen (enc_NV_Write p)) Hn0 Hfit) as H.
  unfold s in H. rewrite (issued_parse t TPM_CC_NV_Write (enc_NV_Write p) Hfit Unmarshal_NV_Write
    enc_NV_Write ok_NV_Write p Hp eq_refl) in H. fold s in H.
  destruct (issued_same t TPM_CC_NV_Write (enc_NV_Write p)) as [Hst Hk']. fold s in Hst, Hk'.
  pose proof (same_nv_abs _ _ Hst) as Ha. rewrite Ha, Hc, Hph in H.
  pose proof Hal as (_ & _ & _ & Hrange & _).
  replace (_ <? wp_offset p + _) with false in H by lia.
  destruct H as (rc & s0 & s1 & E & Hsame & Hf & Hn1 & H).
  pose proof Hp as (_ & _ & (Hsz & Hd & Hdb & _) & Ho). pose proof Hws as [].
  destruct (nv_write_contract s ph (wp_nvIndex p) (wp_data p) (wp_offset p) (b_buffer (wp_data p))
    dw_nv dw_key Ho Hd) as (rc' & s0' & E' & _ & _ & Hrc & _ & Habs); [by rewrite Hsz, load_all|done|].
  rewrite E in E'. injection E' as <- <-.
  assert (rc = TPM_RC_SUCCESS) as ->.
  { apply Hrc. exists c. rewrite Ha, Hk', Hc, Hk. split; [done|]. right. done. }
  specialize (Habs c k). rewrite Ha, Hk' in Habs. specialize (Habs Hc Hk Hpos Hal).
  assert (Hview : nv_view s1 = (<[wp_nvIndex p := write_cell c (wp_offset p)
    (nv_encrypt k (b_buffer (wp_data p)))]> (nv_abs t), Some k, nv_count t, nv_alloc_offset t)).
  { unfold nv_view. rewrite (same_nv_abs _ _ Hsame), Habs.
    rewrite (nv_key_same s s1), Hk', Hk by apply Hf. destruct Hsame as (_ & _ & _ & -> & ->).
    destruct (write_counts s ph (wp_nvIndex p) (wp_data p) (wp_offset p) TPM_RC_SUCCESS s0 E) as [-> ->].
    by destruct Hst as (_ & _ & _ & -> & ->). }
  rewrite <- Hview. apply answered_executes. by rewrite issued_dispatch.
Qed.

Lemma execute_NV_DefineSpace t p :
  dev_wf t -> ok_NV_DefineSpace p -> 10 + zlen (enc_NV_DefineSpace p) <= BUFFER_SIZE ->
  nv_abs t !! dp_nvIndex p = None -> dp_nvIndex p <> 0 -> nv_count t < TPM2_MAX_NV_INDEXES ->
  nv_alloc_offset t + 16 + dp_dataSize p <= TPM2_NVSTORAGE_SIZE ->
  (exists ph, provision_handle (dp_authHandle p) = Some ph /\
     define_allowed (ph_platform ph =? TPM_RH_PLATFORM) (define_public p [])) ->
  executes t (command TPM_CC_NV_DefineSpace (enc_NV_DefineSpace p)) TPM_RC_SUCCESS []
    (<[dp_nvIndex p := fresh_cell (define_public p [])]> (nv_abs t), nv_key t, nv_count t + 1,
     nv_alloc_offset t + 16 + dp_dataSize p).
Proof using All.
  intros Hw Hp Hfit Hnone H0 Hcnt Hoff (ph & Hph & Hal).
  assert (Hb : bytes (enc_NV_DefineSpace p)).
  { destruct Hp as (_ & (_ & _ & Ha & _) & _ & _ & _ & _ & (_ & _ & Hq & _) & _).
    unfold enc_NV_DefineSpace, enc_TPM2B. cbn [fst snd] in *. auto 20 with tpm. }
  pose proof (zlen_nonneg (enc_NV_DefineSpace p)) as Hn0.
  set (s := issued t TPM_CC_NV_DefineSpace (enc_NV_DefineSpace p)).
  assert (Hws : dev_wf s) by (by apply issued_wf).
  pose proof (handle_NV_DefineSpace_ok s Hws (zlen (enc_NV_DefineSpace p)) Hn0 Hfit) as H.
  unfold s in H. rewrite (issued_parse t TPM_CC_NV_DefineSpace (enc_NV_DefineSpace p) Hfit
    Unmarshal_NV_DefineSpace enc_NV_DefineSpace ok_NV_DefineSpace p Hp eq_refl) in H. fold s in H.
  rewrite Hph in H. destruct H as (auth & policy & rc & s1 & E & Hf & Hn1 & H).
  destruct (issued_same t TPM_CC_NV_DefineSpace (enc_NV_DefineSpace p)) as [Hst Hk'].
  fold s in Hst, Hk'. pose proof (same_nv_abs _ _ Hst) as Ha. destruct Hst as (_ & _ & _ & Hc' & Ho').
  pose proof Hws as []. destruct (nv_define_contract s ph auth (define_public p policy) dw_nv)
    as (rc' & s1' & E' & _ & Hrc & Hok & _); [apply Hp|].
  rewrite E in E'. injection E' as <- <-. rewrite Ha, Hc', Ho' in *.
  assert (rc = TPM_RC_SUCCESS) as -> by (apply Hrc; by split_and!).
  destruct (Hok eq_refl) as (Habs & Hoff1 & Hcnt1).
  assert (Hview : nv_view s1 = (<[dp_nvIndex p := fresh_cell (define_public p [])]> (nv_abs t),
    nv_key t, nv_count t + 1, nv_alloc_offset t + 16 + dp_dataSize p)).
  { unfold nv_view. rewrite Habs, Hoff1, Hcnt1. by rewrite (nv_key_same s s1), Hk' by apply Hf. }
  rewrite <- Hview. apply answered_executes. by rewrite issued_dispatch.
Qed.
End Transact.
