(* ===== verification/EndToEnd.v ===== *)
(** * The firmware and the device together

    Through the interface [TpmPort] the driver of the firmware reaches the
    command interpreter of the device: a transaction returns the reply of the
    device and shows it on the console, and data written to an NV index is read
    back. *)
From stdpp Require Import base list numbers gmap strings.
From Stdlib Require Import Ascii.
From S2P Require Import Prelude Constants State Codec Header Unmarshal OpenSSL Crypto Nv NvRefine Device DeviceInv DeviceSteps Bus FwUart FwUartSpec FwTpm FwTpmSpec Transact.

(** ** Cells *)
Lemma cell_len s idx c :
  nv_wf s -> nv_abs s !! idx = Some c ->
  zlen (c_bytes c) = np_dataSize (c_pub c) /\ is_u16 (np_dataSize (c_pub c)).
Proof.
  intros (bank & m & Hs) Hc. rewrite (nv_abs_lookup s bank m idx Hs) in Hc. destruct Hs.
  destruct (m !! idx) as [e|] eqn:He; [|done]. injection Hc as <-.
  destruct (na_entries _ _ He). unfold cell_of. simpl. unfold is_u16 in *.
  rewrite load_in by lia. simpl. rewrite zlen_take, zlen_drop by lia. split; lia.
Qed.

Section EndToEnd.
Context `{OS : OpenSSL, !OpenSSLLaws OS, LY : Layout} {S : Type} `{Bus S} {ok : S -> Prop}
  {out inp : S -> list Z} {tpm : S -> TPM2State} `{!TpmPort ok out inp tpm}.

(** What was written at the same offset is read back. *)
Lemma read_reply_written k c offset data n :
  0 <= offset -> offset + zlen data <= zlen (c_bytes c) -> 0 <= n <= zlen data ->
  read_reply k (write_cell c offset (nv_encrypt k data)) offset n = take (Z.to_nat n) data.
Proof using OpenSSLLaws0.
  intros Ho Hl Hn. unfold read_reply, write_cell. cbn [c_bytes].
  destruct (store_in (c_bytes c) offset (nv_encrypt k data)) as [b Hst];
    [done|by rewrite zlen_encrypt|].
  rewrite Hst. pose proof (load_store_prefix _ _ _ _ n Hst) as L. rewrite zlen_encrypt in L.
  specialize (L Hn). apply load_Some in L as (_ & _ & _ & L). simpl. rewrite <- L. apply decrypt_prefix.
Qed.

(** ** Transactions *)

(** The reply in the buffer of the firmware. *)
Definition has_reply (resp : list Z) (rc : Z) (body : list Z) : Prop :=
  zlen resp = RESPONSE_SIZE /\ bytes resp /\
  load resp 0 (10 + zlen body) = Some (rsp_header (10 + zlen body) rc ++ body).

Lemma drained_wf t : dev_wf t -> dev_wf (drained t).
Proof using. intros Hw. pose proof Hw as []. apply (dev_wf_regs t); unfold drained; fields; done. Qed.
Lemma drained_view t : nv_view (drained t) = nv_view t.
Proof using. apply nv_view_same; [|apply nv_key_same]; unfold drained, same_nv; by fields. Qed.

(** A command that is executed with a known result, run by the driver. *)
Lemma run_executes fuel cmd resp s rc body view :
  (0 < fuel)%nat -> ok s -> dev_wf (tpm s) -> bytes cmd -> zlen cmd <= BUFFER_SIZE ->
  zlen resp = RESPONSE_SIZE -> bytes resp ->
  executes (tpm s) cmd rc body view -> (rc <> TPM_RC_SUCCESS -> body = []) ->
  exists t, dev_wf t /\ state t = TPM_STATE_IDLE /\ nv_view t = view /\
    shows (ok := ok) (out := out) (inp := inp) (tpm := tpm) (run_command fuel cmd resp) s
      (fun resp' dump => has_reply resp' rc body /\
         unhex dump = rsp_header (10 + zlen body) rc ++ body) t (inp s).
Proof using All.
  intros Hf Hs Hw Hb Hl Hrl Hrb (t' & E & Hw' & Hr & Hv) Hbody. pose proof Hw as [].
  exists (drained t'). split_and!; [by apply drained_wf|by unfold drained; fields|by rewrite drained_view|].
  destruct (run_command_shows fuel cmd resp s t' rc body Hf Hs (proj1 dw_cmd) Hb Hl Hrl Hrb E Hw' Hr Hbody)
    as (r & s' & x & d & H1 & H2 & H3 & H4 & H5 & H6 & H7 & H8 & H9).
  exists r, s', x, d. split_and!; done.
Qed.
End EndToEnd.

(** ** Theorems *)

(** C5: a command handed to the driver of the firmware, unless it is one of those
    for which the device leaves an array, is a complete transaction: the device
    executes exactly its bytes, the routine returns without a fault or an endless
    wait, the response buffer holds the reply of the device (header and body),
    the console shows it in hexadecimal, and the device is idle and well formed. *)
Theorem run_command_correct `{OS : OpenSSL, !OpenSSLLaws OS, LY : Layout} {S : Type} `{Bus S}
    (ok : S -> Prop) (out inp : S -> list Z) (tpm : S -> TPM2State)
    (fuel : nat) (cmd resp : list Z) (s : S) :
  TpmPort ok out inp tpm -> ok s -> dev_wf (tpm s) -> (0 < fuel)%nat ->
  bytes cmd -> zlen cmd <= BUFFER_SIZE -> zlen resp = RESPONSE_SIZE -> bytes resp ->
  ~ execute_undefined (loaded (tpm s) cmd) ->
  exists t' rc body resp' s' txt dump,
    tpm2_mmio_write (loaded (tpm s) cmd) TPM2_CMD_REG 1 = Some t' /\ replies t' rc body /\
    run_command fuel cmd resp s = Ret resp' s' /\ ok s' /\ inp s' = inp s /\
    tpm s' = drained t' /\ dev_wf (tpm s') /\ state (tpm s') = TPM_STATE_IDLE /\
    has_reply resp' rc body /\
    out s' = out s ++ txt ++ dump /\ unhex dump = rsp_header (10 + zlen body) rc ++ body.
Proof.
  intros HP Hs Hw Hf Hb Hl Hrl Hrb Hu. pose proof (loaded_wf _ _ Hw Hb Hl) as Hwl.
  pose proof (execute_outcome (loaded (tpm s) cmd) Hwl eq_refl) as Ho.
  destruct (tpm2_mmio_write _ _ _) as [t'|] eqn:E; [|done].
  destruct Ho as [[Hw' (rc & body & Hr & Hbody)] _]. pose proof Hw as [].
  destruct (run_command_shows fuel cmd resp s t' rc body Hf Hs (proj1 dw_cmd) Hb Hl Hrl Hrb E Hw' Hr Hbody)
    as (r & s' & x & d & H1 & H2 & H3 & H4 & H5 & H6 & H7 & H8 & H9).
  exists t', rc, body, r, s', x, d. rewrite H3.
  split_and!; try done. by apply drained_wf.
Qed.

(** C6: a write of [data] to a defined NV index followed by a read of [n] bytes at
    the same offset, both sent by the driver of the firmware: the second response
    in the firmware's buffer, and on its console, is a success with the first [n]
    bytes of [data], although the device keeps them encrypted. *)
Theorem firmware_nv_roundtrip `{OS : OpenSSL, !OpenSSLLaws OS, LY : Layout} {S : Type} `{Bus S}
    (ok : S -> Prop) (out inp : S -> list Z) (tpm : S -> TPM2State)
    (fuel : nat) (w : NV_Write_Params) (auth n : Z) (resp : list Z) (s : S) (c : cell) (k : list Z) :
  TpmPort ok out inp tpm -> ok s -> dev_wf (tpm s) -> (0 < fuel)%nat ->
  zlen resp = RESPONSE_SIZE -> bytes resp ->
  ok_NV_Write w -> 10 + zlen (enc_NV_Write w) <= BUFFER_SIZE -> is_u32 auth ->
  nv_abs (tpm s) !! wp_nvIndex w = Some c -> nv_key (tpm s) = Some k ->
  is_Some (provision_handle (wp_authHandle w)) ->
  write_allowed (c_pub c) (b_size (wp_data w)) (wp_offset w) ->
  0 < n <= b_size (wp_data w) ->
  exists resp' s' txt dump,
    (r ← run_command fuel (command TPM_CC_NV_Write (enc_NV_Write w)) resp;
     run_command fuel (command TPM_CC_NV_Read (enc_NV_Read
       (mk_NV_Read_Params auth (wp_nvIndex w) n (wp_offset w)))) r) s = Ret resp' s' /\
    ok s' /\ inp s' = inp s /\ dev_wf (tpm s') /\
    has_reply resp' TPM_RC_SUCCESS (to_be16 n ++ take (Z.to_nat n) (b_buffer (wp_data w))) /\
    out s' = out s ++ txt ++ dump /\
    unhex dump = rsp_header (12 + n) TPM_RC_SUCCESS ++
                 to_be16 n ++ take (Z.to_nat n) (b_buffer (wp_data w)).
Proof.
  intros HP Hs Hw Hf Hrl Hrb Hok Hfit Hauth Hc Hk Hph Hal Hn.
  pose proof Hok as (_ & Hidx & (Hsz & Hd & Hdb & _) & Ho). pose proof Hal as (_ & _ & _ & Hr & _).
  destruct (cell_len _ _ _ (dw_nv _ Hw) Hc) as [Hcl _]. unfold is_u16 in *.
  assert (Henc : zlen (enc_NV_Write w) = 14 + b_size (wp_data w)).
  { unfold enc_NV_Write, enc_NV_BUFFER. rewrite !zlen_app, Hsz. field_lengths. lia. }
  unfold BUFFER_SIZE in Hfit.
  assert (Hb : bytes (enc_NV_Write w)) by (unfold enc_NV_Write, enc_NV_BUFFER; auto 10 with tpm).
  pose proof (execute_NV_Write (tpm s) w c k Hw Hok Hfit Hc Hk Hph Hal ltac:(lia)) as E1.
  destruct (run_executes fuel _ resp s _ _ _ Hf Hs Hw (command_bytes _ _ Hb)
    ltac:(rewrite command_len; unfold BUFFER_SIZE; lia) Hrl Hrb E1) as (t1 & Hw1 & _ & Hv1 & Hsh); [done|].
  destruct Hsh as (r1 & s1 & x1 & d1 & R1 & Hs1 & Ht1 & Hi1 & Ho1 & (Hrl1 & Hrb1 & _) & _).
  set (p := mk_NV_Read_Params auth (wp_nvIndex w) n (wp_offset w)).
  assert (Hpok : ok_NV_Read p) by (unfold ok_NV_Read, p, is_u16; simpl; split_and!; lia || done).
  injection Hv1 as Hv1 Hk1 _ _. rewrite <- Ht1 in *.
  destruct (run_executes fuel (command TPM_CC_NV_Read (enc_NV_Read p)) r1 s1 TPM_RC_SUCCESS
    (to_be16 n ++ take (Z.to_nat n) (b_buffer (wp_data w))) (nv_view (tpm s1)) Hf Hs1 Hw1)
    as (t2 & Hw2 & _ & _ & Hsh2); try done.
  - apply command_bytes. unfold enc_NV_Read. auto 10 with tpm.
  - rewrite <- (read_reply_written k c (wp_offset w) (b_buffer (wp_data w)) n) by lia.
    apply (execute_NV_Read (tpm s1) p); [done|done|by rewrite Hv1, lookup_insert_eq|done|done|..];
      simpl; unfold BUFFER_SIZE; lia.
  - destruct Hsh2 as (r2 & s2 & x2 & d2 & R2 & Hs2 & Ht2 & Hi2 & Ho2 & Hrep & Hd2).
    exists r2, s2, (x1 ++ d1 ++ x2), d2. rewrite (fw_bind_Ret _ _ _ _ _ R1).
    split_and!; try done; [congruence|by rewrite Ht2| |].
    + rewrite Ho2, Ho1. by rewrite <- !app_assoc.
    + rewrite Hd2. do 2 f_equal. rewrite zlen_app, zlen_take by lia. field_lengths. lia.
Qed.
