(* ===== verification/Menu.v ===== *)
(** * The menu of the firmware

    What the device answers to each of the prepared commands of
    [src/firmware/main.c], and what the menu loop does with the characters that
    are typed. *)
From stdpp Require Import base list numbers gmap strings.
From Stdlib Require Import Ascii.
From S2P Require Import Prelude Constants State Codec Header Unmarshal OpenSSL Crypto Nv NvRefine Device DeviceInv DeviceSteps Bus FwUart FwUartSpec FwTpm FwTpmSpec Transact EndToEnd.

(** The parameters of the prepared commands. *)
Definition NV_INDEX : Z := 0x01000001.
Definition define_params : NV_DefineSpace_Params :=
  mk_NV_DefineSpace_Params 0x40000001 0 [] 14 NV_INDEX 0x000B 0x024C0006 0 [] 32.
Definition write_params : NV_Write_Params :=
  mk_NV_Write_Params 0x4000000C NV_INDEX (mk_TPM2B 4 (str "TEST")) 0.
Definition read_params (index size : Z) : NV_Read_Params :=
  mk_NV_Read_Params 0x4000000C index size 0.
Definition create_params : CreatePrimary_Params :=
  mk_CreatePrimary_Params 0x40000001 10 6 (str "passwd") 0 [] 34.

Lemma prepared_define : CMD_NV_DEFINE_SPACE = command TPM_CC_NV_DefineSpace (enc_NV_DefineSpace define_params).
Proof. reflexivity. Qed.
Lemma prepared_write : CMD_NV_WRITE = command TPM_CC_NV_Write (enc_NV_Write write_params).
Proof. reflexivity. Qed.
Lemma prepared_read : CMD_NV_READ = command TPM_CC_NV_Read (enc_NV_Read (read_params NV_INDEX 4)).
Proof. reflexivity. Qed.
Lemma prepared_create : CMD_CREATE_PRIMARY = command TPM_CC_CreatePrimary (drop 10 CMD_CREATE_PRIMARY).
Proof. reflexivity. Qed.

Lemma create_params_ok : ok_CreatePrimary create_params.
Proof.
  unfold ok_CreatePrimary, create_params. cbn [cp_primaryHandle cp_inSensitiveSize
    cp_inPublicSize cp_userAuthSize cp_userAuth cp_dataSize cp_data].
  refine (conj _ (conj _ (conj _ (conj _ (conj _ _))))).
  - unfold is_u32. lia.
  - unfold is_u16. lia.
  - unfold is_u16. lia.
  - refine (conj eq_refl (conj _ (conj _ _))).
    + cbn [fst]. unfold is_u16. lia.
    + apply (bool_decide_unpack _). by vm_compute.
    + vm_compute. discriminate.
  - by apply ok_TPM2B_empty.
  - discriminate.
Qed.

Lemma define_params_ok : ok_NV_DefineSpace define_params.
Proof.
  unfold ok_NV_DefineSpace, define_params. cbn [dp_authHandle dp_authSize dp_auth dp_publicSize
    dp_nvIndex dp_nameAlg dp_attributes dp_authPolicySize dp_authPolicy dp_dataSize].
  refine (conj _ (conj (ok_TPM2B_empty 64 ltac:(done)) (conj _ (conj _ (conj _ (conj _
    (conj (ok_TPM2B_empty 64 ltac:(done)) _))))))); unfold is_u16, is_u32, NV_INDEX; lia.
Qed.
Lemma write_params_ok : ok_NV_Write write_params.
Proof.
  unfold ok_NV_Write, write_params. cbn [wp_authHandle wp_nvIndex wp_data wp_offset].
  refine (conj _ (conj _ (conj _ _))); [unfold is_u32; lia|unfold is_u32, NV_INDEX; lia| |unfold is_u16; lia].
  refine (conj eq_refl (conj _ (conj _ _))).
  - cbn [b_size]. unfold is_u16. lia.
  - apply (bool_decide_unpack _). by vm_compute.
  - vm_compute. discriminate.
Qed.
Lemma read_params_ok : ok_NV_Read (read_params NV_INDEX 4).
Proof. unfold ok_NV_Read, read_params, is_u16, is_u32, NV_INDEX. simpl. lia. Qed.

Lemma define_params_allowed :
  exists ph, provision_handle (dp_authHandle define_params) = Some ph /\
    define_allowed (ph_platform ph =? TPM_RH_PLATFORM) (define_public define_params []).
Proof.
  eexists. split; [reflexivity|]. unfold define_allowed. split_and!; try done; vm_compute; intuition discriminate.
Qed.
Lemma write_params_allowed :
  write_allowed (c_pub (fresh_cell (define_public define_params []))) 4 0.
Proof. unfold write_allowed. split_and!; vm_compute; try done; intuition discriminate. Qed.

Section Prepared.
Context `{OS : OpenSSL, !OpenSSLLaws OS, LY : Layout}.
Variable (t : TPM2State).
Hypothesis (Hw : dev_wf t).

(** The command is answered with an error and the storage stays as it is. *)
Definition refused (cmd : list Z) (rc : Z) : Prop :=
  rc <> TPM_RC_SUCCESS /\ executes t cmd rc [] (nv_view t).

Lemma loaded_view cmd : nv_view (loaded t cmd) = nv_view t.
Proof using. apply nv_view_same; [|apply nv_key_same]; unfold loaded, receiving, same_nv; by fields. Qed.

(** A size field beyond what was sent. *)
Lemma refused_size cmd n :
  bytes cmd -> zlen cmd <= BUFFER_SIZE -> 6 <= zlen cmd ->
  load (wire cmd) 2 4 = Some (to_be32 n) -> is_u32 n -> pad4 (zlen cmd) < n ->
  refused cmd TPM_RC_COMMAND_SIZE.
Proof using Hw.
  intros Hb Hl H6 L Hn Hlt. split; [done|]. pose proof (loaded_wf t cmd Hw Hb Hl) as Hwl.
  assert (Hsz : ld32 (command_buffer (loaded t cmd)) 2 = Ok n).
  { apply ld32_be; [done|]. rewrite <- L. unfold loaded, receiving. fields.
    pose proof (wire_len cmd Hl). destruct (padded_bounds (zlen cmd)); [lia|].
    apply (load_inside_prefix _ _ _ 2 4 (load_app_prefix (wire cmd) _)); rewrite ?pad4_padded in *; lia. }
  set (s := (loaded t cmd) <| state := TPM_STATE_IDLE |>).
  replace (nv_view t) with (nv_view s).
  2:{ rewrite <- (loaded_view cmd). apply nv_view_same; [|apply nv_key_same]; unfold s, same_nv; by fields. }
  apply answered_executes. rewrite (execute_eq (loaded t cmd) n eq_refl Hsz).
  assert (Hcs : cmd_size (loaded t cmd) = pad4 (zlen cmd)) by (unfold loaded, receiving; by fields).
  rewrite Hcs. replace (pad4 (zlen cmd) <? n) with true by lia.
  apply build_error_answered; [by apply idle_wf|done].
Qed.

(** The same, with the premises as computations. *)
Lemma refused_announced cmd n :
  bool_decide (bytes cmd) = true -> (zlen cmd <=? BUFFER_SIZE) && (6 <=? zlen cmd) = true ->
  load (wire cmd) 2 4 = Some (to_be32 n) -> is_u32 n -> pad4 (zlen cmd) < n ->
  refused cmd TPM_RC_COMMAND_SIZE.
Proof using Hw.
  intros Hb Hl L Hn Hp. apply bool_decide_eq_true in Hb. apply (refused_size cmd n); try done; lia.
Qed.






(** ** Every prepared command is answered *)
Definition answers (cmd : list Z) : Prop :=
  exists t', tpm2_mmio_write (loaded t cmd) TPM2_CMD_REG 1 = Some t'.

Lemma refused_answers cmd rc : refused cmd rc -> answers cmd.
Proof using. intros (_ & t' & E & _). by exists t'. Qed.

Lemma answered_answers cmd s rc body :
  answered s (tpm2_mmio_write (loaded t cmd) TPM2_CMD_REG 1) rc body -> answers cmd.
Proof using. intros (m & n & E & _). by exists (sending s m n). Qed.

Lemma answers_read index size :
  is_u32 index -> 0 <= size <= MAX_NV_BUFFER_SIZE ->
  answers (command TPM_CC_NV_Read (enc_NV_Read (read_params index size))).
Proof using All.
  intros Hi Hs. unfold MAX_NV_BUFFER_SIZE in Hs.
  pose proof (issued_NV_Read t (read_params index size) Hw) as H. cbv zeta in H.
  cbn [read_params rp_nvIndex rp_offset rp_sizeToRead] in H. unfold MAX_NV_BUFFER_SIZE in H.
  assert (Hp : ok_NV_Read (read_params index size)) by (split_and!; simpl; unfold is_u16, is_u32 in *; lia).
  specialize (H Hp). replace (1024 <? size) with false in H by lia.
  repeat case_match; by eapply answered_answers.
Qed.


(** The commands other than TPM2_CreatePrimary and TPM2_NV_Read always are. *)
Lemma answers_code code params :
  is_u32 code -> bytes params -> 10 + zlen params <= BUFFER_SIZE -> is_valid_cc_command code = true ->
  code <> TPM_CC_CreatePrimary -> code <> TPM_CC_NV_Read -> answers (command code params).
Proof using All.
  intros Hc Hb Hl Hv H1 H2. unfold answers. rewrite issued_dispatch by done.
  pose proof (dispatch_outcome (issued t code params) code (zlen params)
    (issued_wf t code params Hw Hb Hl) (zlen_nonneg params) Hl) as H.
  destruct (dispatch _ _ _) as [t'|]; [by exists t'|]. destruct H as [[? _]|[? _]]; done.
Qed.

(** TPM2_CreatePrimary: the parameters, and the public area inside the buffer. *)
Lemma create_public m :
  load m 10 58 = Some (drop 10 CMD_CREATE_PRIMARY) ->
  exists pub, CreatePrimary_inPublic m 28 = Ok pub.
Proof using.
  set (params := drop 10 CMD_CREATE_PRIMARY). intros L.
  assert (H16 : forall o, 0 <= o -> o + 2 <= 58 -> ld16 m (10 + o) = ld16 params o)
    by (intros; unfold ld16; by rewrite (load_inside _ _ _ _ _ 2 L) by lia).
  assert (H32 : forall o, 0 <= o -> o + 4 <= 58 -> ld32 m (10 + o) = ld32 params o)
    by (intros; unfold ld32; by rewrite (load_inside _ _ _ _ _ 4 L) by lia).
  unfold CreatePrimary_inPublic, mbind, res_bind. cbv zeta.
  change (ld16 m 28) with (ld16 m (10 + 18)). change (ld16 m (28 + 2)) with (ld16 m (10 + 20)).
  change (ld32 m (28 + (2 + 2))) with (ld32 m (10 + 22)).
  change (ld16 m (28 + (2 + 2 + 4))) with (ld16 m (10 + 26)).
  rewrite !H16, H32 by done. change (ld16 params 18) with (@Ok Z 0x23).
  change (ld16 params 20) with (@Ok Z 0x0B). change (ld32 params 22) with (@Ok Z 0x30072).
  change (ld16 params 26) with (@Ok Z 0). cbv beta iota. simpl Z.eqb. cbv iota.
  change (28 + u32 _) with (10 + 32). rewrite H16 by done.
  eexists. reflexivity.
Qed.

Context `{!NameRoom LY}.

Lemma answers_create : answers CMD_CREATE_PRIMARY.
Proof using All.
  rewrite prepared_create. set (params := drop 10 CMD_CREATE_PRIMARY). unfold answers.
  assert (Hb : bytes params) by (apply (bool_decide_unpack _); by vm_compute).
  assert (Hl : zlen params = 58) by done.
  assert (Hfit : 10 + zlen params <= BUFFER_SIZE) by done.
  rewrite issued_dispatch by done. set (s := issued t TPM_CC_CreatePrimary params).
  change (dispatch s TPM_CC_CreatePrimary (zlen params)) with (handle_CreatePrimary s (Some 10) 58).
  pose proof (handle_CreatePrimary_ok s 58 (issued_wf t _ _ Hw Hb Hfit) ltac:(done) ltac:(done)) as H.
  pose proof (issued_params t TPM_CC_CreatePrimary params) as L. rewrite Hl in L. fold s in L.
  rewrite (Unmarshal_CreatePrimary_complete (command_buffer s) 10 58 create_params) in H;
    [|exact create_params_ok|done|done|done|].
  2:{ change (zlen (enc_CreatePrimary create_params)) with 18. symmetry.
      exact (load_inside _ _ _ _ 0 18 L ltac:(done) ltac:(done) ltac:(done)). }
  cbv zeta in H. change (10 + _ - _) with 28 in H.
  destruct (create_public _ L) as [pub Hpub]. rewrite Hpub in H.
  destruct (CreatePrimary_inSensitive create_params) as [sc|] eqn:Esc; [|vm_compute in Esc; discriminate Esc].
  destruct (hierarchy_seed _ _) as [seed|]; [destruct (_ =? _)|].
  - pose proof handler_room as Hroom. destruct (primary_point seed) as [x y].
    replace (34 <=? zlen handler_frame) with true in H by lia.
    destruct H as (m & k & -> & _). by eexists.
  - destruct H as (m & k & -> & _). by eexists.
  - destruct H as (m & k & -> & _). by eexists.
Qed.

Definition served (cmd : list Z) : Prop := bytes cmd /\ zlen cmd <= BUFFER_SIZE /\ answers cmd.

(** Every command of the menu. *)
Lemma select_served c cmd : select_command c = Some cmd -> served cmd.
Proof using All.
  assert (Hs : forall l, bool_decide (bytes l) = true -> (zlen l <=? BUFFER_SIZE) = true ->
    answers l -> served l).
  { intros l Hb Hl Ha. split; [by apply bool_decide_eq_true in Hb|]. split; [lia|done]. }
  assert (Hr : forall k, is_u16 k -> answers (command TPM_CC_GetRandom (to_be16 k)))
    by (intros k Hk; by apply answers_code; try apply to_be16_bytes).
  unfold select_command. intros H.
  repeat match type of H with (if ?b then _ else _) = _ => destruct b end; simplify_eq;
    (apply Hs; [by vm_compute|by vm_compute|]).
  - by apply (Hr 32).
  - exact answers_create.
  - rewrite prepared_define. apply answers_code; try done. apply (bool_decide_unpack _). by vm_compute.
  - rewrite prepared_write. apply answers_code; try done. apply (bool_decide_unpack _). by vm_compute.
  - by apply (answers_read NV_INDEX 4).
  - by eapply refused_answers, (refused_announced _ 48).
  - by apply (Hr 0xFFFF).
  - by apply (answers_read NV_INDEX 1024).
  - by eapply refused_answers, (refused_announced _ 61).
  - by eapply refused_answers, (refused_announced _ 43).
  - by apply (answers_read 0x01000002 4).
  - by apply (Hr 0xFFFF).
Qed.
End Prepared.

(** The commands of the menu fit the buffer. *)
Lemma select_fits c cmd : select_command c = Some cmd -> bytes cmd /\ zlen cmd <= BUFFER_SIZE.
Proof.
  intros H. apply (bool_decide_unpack _). unfold select_command in H.
  repeat match type of H with (if ?b then _ else _) = _ => destruct b end; simplify_eq; by vm_compute.
Qed.

(** ** The loop *)
Section Loop.
Context `{OS : OpenSSL, !OpenSSLLaws OS, LY : Layout, !NameRoom LY} {S : Type} `{Bus S} {ok : S -> Prop}
  {out inp : S -> list Z} {tpm : S -> TPM2State} `{!TpmPort ok out inp tpm}.

Definition response_ok (resp : list Z) : Prop := zlen resp = RESPONSE_SIZE /\ bytes resp.

Definition line_fits (l : list Z) : bool :=
  match fmt_bound (length l) l [] with Some n => n <=? 127 | None => false end.

Lemma runs_lines lines : forall s,
  ok s -> forallb line_fits lines = true ->
  runs (ok := ok) (out := out) (inp := inp) (tpm := tpm) (print_lines lines) s tt (tpm s) (inp s).
Proof using TpmPort0.
  induction lines as [|l lines IH]; intros s Hs Hl; [by apply runs_ret|]. simpl.
  apply andb_true_iff in Hl as [Hl Hls]. unfold line_fits in Hl.
  destruct (fmt_bound _ _ _) as [n|] eqn:E; [|done].
  eapply runs_bind; [eapply runs_printf; [done|exact E|lia]|]. intros s' Hs' <- <-. by apply IH.
Qed.

Lemma runs_menu s :
  ok s -> runs (ok := ok) (out := out) (inp := inp) (tpm := tpm) print_menu s tt (tpm s) (inp s).
Proof using TpmPort0. intros Hs. apply runs_lines; [done|]. by vm_compute. Qed.

(** [c] returns a value with the property [Q], leaves the device well formed and
    the input [q]. *)
Definition serves {A} (c : fw S A) (s : S) (Q : A -> Prop) (q : list Z) : Prop :=
  exists a s' txt, c s = Ret a s' /\ ok s' /\ dev_wf (tpm s') /\ inp s' = q /\
    out s' = out s ++ txt /\ Q a.

Lemma runs_serves {A} (c : fw S A) s Q t q :
  runs_to (ok := ok) (out := out) (inp := inp) (tpm := tpm) c s Q t q -> dev_wf t -> serves c s Q q.
Proof using.
  intros (a & (s' & x & E & H1 & H2 & H3 & H4) & Ha) Hw. exists a, s', x. by rewrite H2.
Qed.

Lemma serves_bind {A B} (c : fw S A) (f : A -> fw S B) s P Q q q' :
  serves c s P q ->
  (forall a s', P a -> ok s' -> dev_wf (tpm s') -> inp s' = q -> serves (f a) s' Q q') ->
  serves (c ≫= f) s Q q'.
Proof using.
  intros (a & s1 & x & E1 & H1 & H2 & H3 & H4 & Ha) Hf.
  destruct (Hf a s1 Ha H1 H2 H3) as (b & s2 & y & E2 & H5 & H6 & H7 & H8 & Hb).
  exists b, s2, (x ++ y). rewrite (fw_bind_Ret _ _ _ _ _ E1). split_and!; try done.
  by rewrite H8, H4, app_assoc.
Qed.

Lemma serves_printf fmt args n s :
  ok s -> dev_wf (tpm s) -> fmt_bound (length fmt) fmt args = Some n -> n <= 127 ->
  serves (UART_printf fmt args) s (fun _ => True) (inp s).
Proof using TpmPort0.
  intros Hs Hw Hb Hn. eapply runs_serves; [|exact Hw].
  eapply runs_runs_to; [by eapply runs_printf|done].
Qed.

(** A command that is answered leaves a well-formed device. *)
Lemma run_served fuel cmd resp s :
  (0 < fuel)%nat -> ok s -> dev_wf (tpm s) -> served (tpm s) cmd -> response_ok resp ->
  serves (run_command fuel cmd resp) s response_ok (inp s).
Proof using All.
  intros Hf Hs Hw (Hb & Hl & t' & E) [Hrl Hrb]. pose proof (loaded_wf _ _ Hw Hb Hl) as Hwl.
  pose proof (execute_outcome (loaded (tpm s) cmd) Hwl eq_refl) as Ho. rewrite E in Ho.
  destruct Ho as [[Hw' (rc & body & Hr & Hbody)] _]. pose proof Hw as [].
  destruct (run_command_shows fuel cmd resp s t' rc body Hf Hs (proj1 dw_cmd) Hb Hl Hrl Hrb E Hw' Hr Hbody)
    as (r & s' & x & d & H1 & H2 & H3 & H4 & H5 & H6 & H7 & _).
  exists r, s', (x ++ d). rewrite H3. split_and!; try done. by apply drained_wf.
Qed.

Lemma main_round_serves fuel resp s c q :
  (0 < fuel)%nat -> ok s -> dev_wf (tpm s) -> inp s = c :: q -> response_ok resp ->
  serves (main_round fuel resp) s response_ok q.
Proof using All.
  intros Hf Hs Hw Hi Hr. unfold main_round.
  eapply serves_bind; [eapply runs_serves; [eapply (runs_runs_to _ _ _ (fun _ => True));
    [by apply runs_menu|done]|done]|].
  intros _ s1 _ Hs1 Hw1 Hi1. rewrite Hi in Hi1.
  eapply serves_bind; [eapply runs_serves; [eapply (runs_runs_to _ _ _ (fun _ => True));
    [by apply (runs_getc fuel s1 c q)|done]|done]|].
  intros k s2 _ Hs2 Hw2 <-.
  eapply serves_bind; [by eapply serves_printf; [done|done|vm_compute; reflexivity|]|].
  intros _ s3 _ Hs3 Hw3 <-. destruct (select_command k) as [cmd|] eqn:Es.
  - apply run_served; try done. by apply (select_served _ Hw3 k).
  - eapply serves_bind; [by eapply serves_printf; [done|done|vm_compute; reflexivity|]|].
    intros _ s4 _ Hs4 Hw4 <-. eapply runs_serves; [|exact Hw4].
    eapply runs_runs_to; [by apply runs_ret|done].
Qed.

Lemma main_loop_serves fuel q : (0 < fuel)%nat -> forall cs resp s,
  ok s -> dev_wf (tpm s) -> inp s = cs ++ q -> response_ok resp ->
  serves (main_loop (length cs) fuel resp) s response_ok q.
Proof using All.
  intros Hf. induction cs as [|c cs IH]; intros resp s Hs Hw Hi Hr; simpl.
  - simpl in Hi. rewrite <- Hi. eapply runs_serves; [|exact Hw].
    eapply runs_runs_to; [by apply runs_ret|done].
  - eapply serves_bind; [by apply (main_round_serves fuel resp s c (cs ++ q))|].
    intros r s' Hr' Hs' Hw' Hi'. by apply IH.
Qed.
End Loop.

Section Known.
Context `{OS : OpenSSL, !OpenSSLLaws OS, LY : Layout} {S : Type} `{Bus S} {ok : S -> Prop}
  {out inp : S -> list Z} {tpm : S -> TPM2State} `{!TpmPort ok out inp tpm}.

(** A round for a command whose outcome is known. *)
Lemma main_round_executes fuel resp s c q cmd rc body view :
  (0 < fuel)%nat -> ok s -> dev_wf (tpm s) -> inp s = c :: q -> response_ok resp ->
  select_command (u8 c) = Some cmd ->
  executes (tpm s) cmd rc body view -> (rc <> TPM_RC_SUCCESS -> body = []) ->
  exists resp' s', main_round fuel resp s = Ret resp' s' /\ ok s' /\ dev_wf (tpm s') /\
    inp s' = q /\ nv_view (tpm s') = view /\ has_reply resp' rc body.
Proof using All.
  intros Hf Hs Hw Hi [Hrl Hrb] Hsel Hex Hbody.
  destruct (select_fits _ _ Hsel) as [Hb Hl].
  destruct (runs_menu s Hs) as (s1 & x1 & E1 & Hs1 & Ht1 & Hi1 & _). rewrite Hi in Hi1.
  destruct (runs_getc fuel s1 c q Hs1 Hf Hi1) as (s2 & x2 & E2 & Hs2 & Ht2 & Hi2 & _).
  destruct (runs_printf MSG_ECHO [AInt (u8 c)] 2 s2 Hs2 eq_refl ltac:(done))
    as (s3 & x3 & E3 & Hs3 & Ht3 & Hi3 & _).
  assert (Ht : tpm s3 = tpm s) by congruence. rewrite <- Ht in Hw, Hex.
  destruct (run_executes fuel cmd resp s3 rc body view Hf Hs3 Hw Hb Hl Hrl Hrb Hex Hbody)
    as (t & Hwt & _ & Hv & r & s4 & x & d & E4 & Hs4 & Ht4 & Hi4 & _ & Hrep & _).
  exists r, s4. unfold main_round. rewrite (fw_bind_Ret _ _ _ _ _ E1), (fw_bind_Ret _ _ _ _ _ E2).
  rewrite (fw_bind_Ret _ _ _ _ _ E3), Hsel, Ht4. split_and!; try done. congruence.
Qed.

(** Options 3, 4 and 5: the index is defined, written and read. *)
Lemma menu_345 fuel resp s q k :
  (0 < fuel)%nat -> ok s -> dev_wf (tpm s) -> response_ok resp -> inp s = str "345" ++ q ->
  nv_key (tpm s) = Some k -> nv_abs (tpm s) !! NV_INDEX = None ->
  nv_count (tpm s) < TPM2_MAX_NV_INDEXES -> nv_alloc_offset (tpm s) + 48 <= TPM2_NVSTORAGE_SIZE ->
  exists resp' s', main_loop 3 fuel resp s = Ret resp' s' /\ ok s' /\ dev_wf (tpm s') /\
    inp s' = q /\ has_reply resp' TPM_RC_SUCCESS ([0; 4] ++ str "TEST").
Proof using All.
  intros Hf Hs Hw Hr Hi Hk Hn Hc Ho. set (c := fresh_cell (define_public define_params [])).
  pose proof (execute_NV_DefineSpace (tpm s) define_params Hw define_params_ok ltac:(done) Hn
    ltac:(done) Hc ltac:(simpl; lia) define_params_allowed) as X1.
  rewrite <- prepared_define in X1.
  destruct (main_round_executes fuel resp s (chr "3") (str "45" ++ q) _ _ _ _ Hf Hs Hw Hi Hr eq_refl X1)
    as (r1 & s1 & E1 & Hs1 & Hw1 & Hi1 & Hv1 & Hr1 & Hb1 & _); [done|].
  injection Hv1 as Ha1 Hk1 _ _. fold c in Ha1. rewrite Hk in Hk1.
  pose proof (execute_NV_Write (tpm s1) write_params c k Hw1 write_params_ok ltac:(done)
    ltac:(by rewrite Ha1, lookup_insert_eq) Hk1 ltac:(by eexists) write_params_allowed ltac:(done)) as X2.
  rewrite <- prepared_write in X2.
  destruct (main_round_executes fuel r1 s1 (chr "4") (str "5" ++ q) _ _ _ _ Hf Hs1 Hw1 Hi1 (conj Hr1 Hb1)
    eq_refl X2) as (r2 & s2 & E2 & Hs2 & Hw2 & Hi2 & Hv2 & Hr2 & Hb2 & _); [done|].
  injection Hv2 as Ha2 Hk2 _ _.
  pose proof (execute_NV_Read (tpm s2) (read_params NV_INDEX 4) _ k Hw2 read_params_ok
    ltac:(rewrite Ha2; apply lookup_insert_eq) Hk2 eq_refl ltac:(done) ltac:(done)) as X3.
  rewrite <- prepared_read in X3. cbn [read_params rp_offset rp_sizeToRead write_params wp_offset
    wp_data b_buffer] in X3. rewrite read_reply_written in X3 by done.
  destruct (main_round_executes fuel r2 s2 (chr "5") q _ _ _ _ Hf Hs2 Hw2 Hi2 (conj Hr2 Hb2)
    eq_refl X3) as (r3 & s3 & E3 & Hs3 & Hw3 & Hi3 & _ & Hrep); [done|].
  exists r3, s3. simpl main_loop. rewrite (fw_bind_Ret _ _ _ _ _ E1), (fw_bind_Ret _ _ _ _ _ E2).
  by rewrite (fw_bind_Ret _ _ _ _ _ E3).
Qed.
End Known.

(** ** Theorems *)

