(* ===== verification/Board.v ===== *)
(** * The board

    [src/qemu/hw/arm/nxps32k3x8evb_mcu.c], [nxps32k3x8evb.c] and the memory part of
    [armv7m.c]: the tree of memory regions that realization builds, the view that
    QEMU's core computes from it, and the machine the firmware runs on, made of
    the TPM and the UART behind that view.  Realization connects regions by
    reference; the tree here is the one that has been built at its end. *)
From stdpp Require Import base list numbers gmap.
From S2P Require Import Prelude Constants State OpenSSL Crypto Device Uart Bus Memory MemoryView Access PhysMap PhysTree PhysMapSpec.

(** ** Constants *)
Definition ITCM_BASE_ADDRESS : Z := 0x00000000.
Definition ITCM_BLOCK_SIZE : Z := 64 * 1024.
Definition ITCM_NUM : Z := 1.
Definition ITCM_SIZE : Z := ITCM_BLOCK_SIZE + ITCM_NUM.
Definition PFLASH_BASE_ADDRESS : Z := 0x00400000.
Definition PFLASH_BLOCK_SIZE : Z := 2048 * 1024.
Definition PFLASH_NUM : Z := 4.
Definition PFLASH_SIZE : Z := PFLASH_NUM * PFLASH_BLOCK_SIZE.
Definition DFLASH_BASE_ADDRESS : Z := 0x10000000.
Definition DFLASH_BLOCK_SIZE : Z := 256 * 1024.
Definition DFLASH_NUM : Z := 1.
Definition DFLASH_SIZE : Z := DFLASH_BLOCK_SIZE * DFLASH_NUM.
Definition SRAM_BASE_ADDRESS : Z := 0x20400000.
Definition SRAM_BLOCK_SIZE : Z := 256 * 1024.
Definition SRAM_NUM : Z := 3.
Definition SRAM_SIZE : Z := SRAM_BLOCK_SIZE * SRAM_NUM.
Definition LPUART_BASE_ADDRESS : Z := 0x40328000.
Definition UART_SIZE : Z := 16 * 1024.
Definition TPM_BASE_ADDRESS : Z := 0xF0000000.
Definition TPM_SIZE : Z := 4 * 1024.

(** ** The address map *)

(** The memory regions of the board.  Containers are in upper case with their
    owner; the others take accesses. *)
Inductive block :=
| ITCM (i : nat) | PFLASH (i : nat) | SRAM (i : nat) | DFLASH | TPM | UART
| NVIC | SYSTICK | PPB
| ITCM_CONTAINER | PFLASH_CONTAINER | SRAM_CONTAINER
| MCU_CONTAINER | SYSTEM_MEMORY | ARMV7M_CONTAINER.
#[export] Instance block_eq_dec : EqDecision block.
Proof. solve_decision. Defined.

Definition UINT64_MAX : Z := 2 ^ 64 - 1.

(** The loops that add the blocks of a memory, [stride] bytes apart. *)
Definition add_blocks (container : MemoryRegion block) (num : Z) (stride : Z)
    (init : nat -> MemoryRegion block) : MemoryRegion block :=
  fold_left (fun container i =>
    memory_region_add_subregion container (Z.of_nat i * stride) (init i))
    (seq 0 (Z.to_nat num)) container.

(** The memory that [nxps32k3x8evb_init] gives to the microcontroller, with the
    UART it maps there; the window of the UART is enlarged after the mapping. *)
Definition nxps32k3x8evb_init : MemoryRegion block :=
  memory_region_add_subregion (memory_region_init SYSTEM_MEMORY UINT64_MAX) LPUART_BASE_ADDRESS
    (memory_region_set_size (memory_region_init_io UART 0x1000) UART_SIZE).

(** The container of the microcontroller. *)
Definition nxps32k3x8evb_mcu_realize (board_memory : MemoryRegion block) : MemoryRegion block :=
  let container := memory_region_init MCU_CONTAINER UINT64_MAX in
  let itcm := add_blocks (memory_region_init ITCM_CONTAINER ITCM_SIZE) ITCM_NUM ITCM_BLOCK_SIZE
                (fun i => memory_region_init_ram (ITCM i) ITCM_BLOCK_SIZE) in
  let container := memory_region_add_subregion container ITCM_BASE_ADDRESS itcm in
  let pflash := add_blocks (memory_region_init PFLASH_CONTAINER PFLASH_SIZE) PFLASH_NUM
                  PFLASH_BASE_ADDRESS
                  (fun i => memory_region_init_rom (PFLASH i) PFLASH_BLOCK_SIZE) in
  let container := memory_region_add_subregion container PFLASH_BASE_ADDRESS pflash in
  let sram := add_blocks (memory_region_init SRAM_CONTAINER SRAM_SIZE) SRAM_NUM SRAM_BLOCK_SIZE
                (fun i => memory_region_init_ram (SRAM i) SRAM_BLOCK_SIZE) in
  let container := memory_region_add_subregion container SRAM_BASE_ADDRESS sram in
  let dflash := memory_region_init_rom DFLASH DFLASH_SIZE in
  let container := memory_region_add_subregion container DFLASH_BASE_ADDRESS dflash in
  let container := memory_region_add_subregion_overlap container 0 board_memory (-1) in
  let tpm_mmio := memory_region_set_size (memory_region_init_io TPM 0x20) TPM_SIZE in
  memory_region_add_subregion container TPM_BASE_ADDRESS tpm_mmio.

(** The memory that the CPU sees: [armv7m_realize] of [hw/arm/armv7m.c], for a CPU
    without the v8 and the RAS extensions and without bit-band regions. *)
Definition armv7m_realize (board_memory : MemoryRegion block) : MemoryRegion block :=
  let container := memory_region_init ARMV7M_CONTAINER UINT64_MAX in
  let container := memory_region_add_subregion_overlap container 0 board_memory (-1) in
  let defaultmem := memory_region_init_io PPB 0x100000 in
  let container := memory_region_add_subregion_overlap container 0xe0000000 defaultmem (-1) in
  let container :=
    memory_region_add_subregion container 0xe000e000 (memory_region_init_io NVIC 0x1000) in
  let systickmem := memory_region_init_io SYSTICK 0xe0 in
  memory_region_add_subregion_overlap container 0xe000e010 systickmem 1.

Definition cpu_memory : MemoryRegion block :=
  armv7m_realize (nxps32k3x8evb_mcu_realize nxps32k3x8evb_init).

(** The view of the address space of the CPU. *)
Definition cpu_view : FlatView block :=
  generate_memory_topology (memory_region_get_flatview_root cpu_memory).

(** The block that takes an access, and the offset in it. *)
Definition region_at (addr : Z) : option (block * Z) :=
  s ← memory_region_find cpu_view addr 1;
  Some (mrs_mr s, mrs_offset_within_region s).

(** ** The machine *)

(** The two devices, and the characters that the backend of the console has for
    the UART. *)
Record Machine := mk_Machine {
  m_tpm : TPM2State;
  m_uart : NXP_UART_STATE;
  m_backend : list Z
}.

(** [qemu_chr_fe_accept_input], which [nxp_uart_read_rxdata] ends with: the backend
    hands over as many characters as the UART can take. *)
Definition accept_input (m : Machine) : option Machine :=
  let n := Z.to_nat (nxp_uart_can_receive (m_uart m)) in
  let? u := nxp_uart_receive (m_uart m) (take n (m_backend m)) else None in
  Some (mk_Machine (m_tpm m) u (drop n (m_backend m))).

(** 32-bit accesses to the devices.  The variables of the firmware are not kept
    in the memories of the map, so no access goes there. *)
Section Machine.
Context `{OS : OpenSSL, LY : Layout}.

Definition machine_read (m : Machine) (addr : Z) : option (Z * Machine) :=
  match region_at addr with
  | Some (TPM, offset) =>
      let? (v, t) := tpm2_mmio_read (m_tpm m) offset else None in
      Some (v, mk_Machine t (m_uart m) (m_backend m))
  | Some (UART, offset) =>
      let? (v, u) := nxp_uart_read (m_uart m) offset else None in
      let m := mk_Machine (m_tpm m) u (m_backend m) in
      let? m := (if Z.shiftr offset 2 =? 0 then accept_input m else Some m) else None in
      Some (v, m)
  | _ => None
  end.

Definition machine_write (m : Machine) (addr v : Z) : option Machine :=
  match region_at addr with
  | Some (TPM, offset) =>
      let? t := tpm2_mmio_write (m_tpm m) offset v else None in
      Some (mk_Machine t (m_uart m) (m_backend m))
  | Some (UART, offset) =>
      let? u := nxp_uart_write (m_uart m) offset v else None in
      Some (mk_Machine (m_tpm m) u (m_backend m))
  | _ => None
  end.

(** The registers of the two devices as QEMU's core calls them. *)
Definition tpm2_mmio_ops : MemoryRegionOps Machine := {|
  op_read m offset _ :=
    let? (v, t) := tpm2_mmio_read (m_tpm m) offset else None in
    Some (v, mk_Machine t (m_uart m) (m_backend m));
  op_write m offset v _ :=
    let? t := tpm2_mmio_write (m_tpm m) offset v else None in
    Some (mk_Machine t (m_uart m) (m_backend m));
  op_endianness := DEVICE_NATIVE_ENDIAN;
  valid_min_access_size := 0; valid_max_access_size := 0; valid_unaligned := false;
  valid_accepts := None; impl_min_access_size := 4; impl_max_access_size := 4;
  impl_unaligned := false
|}.
Definition nxp_uart_ops : MemoryRegionOps Machine := {|
  op_read m offset _ :=
    let? (v, u) := nxp_uart_read (m_uart m) offset else None in
    let m := mk_Machine (m_tpm m) u (m_backend m) in
    let? m := (if Z.shiftr offset 2 =? 0 then accept_input m else Some m) else None in
    Some (v, m);
  op_write m offset v _ :=
    let? u := nxp_uart_write (m_uart m) offset v else None in
    Some (mk_Machine (m_tpm m) u (m_backend m));
  op_endianness := DEVICE_NATIVE_ENDIAN;
  valid_min_access_size := 0; valid_max_access_size := 0; valid_unaligned := false;
  valid_accepts := None; impl_min_access_size := 4; impl_max_access_size := 4;
  impl_unaligned := false
|}.

Definition device_ops (b : block) : option (MemoryRegionOps Machine) :=
  match b with TPM => Some tpm2_mmio_ops | UART => Some nxp_uart_ops | _ => None end.

(** An access of the CPU to a device: found in the view, checked and split by the
    core.  The result is that of the transaction; [None] also stands for the
    blocks that are no device of the board. *)
Definition cpu_read (m : Machine) (addr size : Z) : option (Z * Z * Machine) :=
  match region_at addr with
  | Some (b, offset) =>
      let? ops := device_ops b else None in
      memory_region_dispatch_read false ops m offset size false
  | None => Some (MEMTX_DECODE_ERROR, 0, m)
  end.
Definition cpu_write (m : Machine) (addr data size : Z) : option (Z * Machine) :=
  match region_at addr with
  | Some (b, offset) =>
      let? ops := device_ops b else None in
      memory_region_dispatch_write false ops m offset data size false
  | None => Some (MEMTX_DECODE_ERROR, m)
  end.

#[export] Instance machine_bus : Bus Machine :=
  {| mem_read := machine_read; mem_write := machine_write |}.
End Machine.

(** ** The map *)

(** The ranges of the view: block, offset in it, first address and length. *)
Definition memory_map : list (block * Z * Z * Z) :=
  [(ITCM 0, 0, 0x00000000, 0x10000);
   (PFLASH 0, 0, 0x00400000, 0x200000);
   (PFLASH 1, 0, 0x00800000, 0x200000);
   (DFLASH, 0, 0x10000000, 0x40000);
   (SRAM 0, 0, 0x20400000, 0x40000);
   (SRAM 1, 0, 0x20440000, 0x40000);
   (SRAM 2, 0, 0x20480000, 0x40000);
   (UART, 0, 0x40328000, 0x4000);
   (PPB, 0, 0xe0000000, 0xe000);
   (NVIC, 0, 0xe000e000, 0x10);
   (SYSTICK, 0, 0xe000e010, 0xe0);
   (NVIC, 0xf0, 0xe000e0f0, 0xf10);
   (PPB, 0xf000, 0xe000f000, 0xf1000);
   (TPM, 0, 0xf0000000, 0x1000)].

Definition range_of (fr : FlatRange block) : block * Z * Z * Z :=
  (fr_mr fr, fr_offset_in_region fr, ar_start (fr_addr fr), ar_size (fr_addr fr)).

Fixpoint map_at (l : list (block * Z * Z * Z)) (a : Z) : option (block * Z) :=
  match l with
  | [] => None
  | (b, off, base, len) :: l =>
      if (base <=? a) && (a <? base + len) then Some (b, u64 (off + (a - base))) else map_at l a
  end.

Lemma view_at_map (view : FlatView block) a :
  (fun h => (h_mr h, h_offset h)) <$> view_at view a = map_at (map range_of view) a.
Proof.
  induction view as [|fr view IH]; simpl; [done|]. unfold addrrange_contains, addrrange_end.
  by destruct (_ && _).
Qed.

Lemma cpu_view_map : map range_of cpu_view = memory_map.
Proof. vm_compute. reflexivity. Qed.

Lemma cpu_view_ok : view_ok 0 (2 ^ 64) cpu_view.
Proof. vm_compute. intuition discriminate. Qed.

Lemma region_at_map a : region_at a = map_at memory_map a.
Proof.
  unfold region_at. rewrite (find_byte _ _ _ _ cpu_view_ok), view_at_map. by rewrite cpu_view_map.
Qed.

(** Decides which range of the map has an address. *)
Ltac locate :=
  rewrite region_at_map; unfold memory_map; cbn [map_at];
  repeat match goal with
  | |- context [if ?c then _ else _] =>
      first [replace c with false by lia | replace c with true by lia]; cbv iota
  end;
  rewrite ?u64_small by lia; try (do 2 f_equal; lia).

Lemma region_tpm off : 0 <= off < TPM_SIZE -> region_at (TPM_BASE_ADDRESS + off) = Some (TPM, off).
Proof. unfold TPM_SIZE, TPM_BASE_ADDRESS. intros. locate. Qed.
Lemma region_uart off :
  0 <= off < UART_SIZE -> region_at (LPUART_BASE_ADDRESS + off) = Some (UART, off).
Proof. unfold UART_SIZE, LPUART_BASE_ADDRESS. intros. locate. Qed.

Lemma region_sram off : 0 <= off < 768 * 1024 ->
  region_at (0x20400000 + off) =
    Some (SRAM (Z.to_nat (off / SRAM_BLOCK_SIZE)), off mod SRAM_BLOCK_SIZE).
Proof.
  intros H. pose proof (Z.div_mod off SRAM_BLOCK_SIZE ltac:(done)) as Hd.
  pose proof (Z.mod_pos_bound off SRAM_BLOCK_SIZE ltac:(done)) as Hm.
  set (q := off / SRAM_BLOCK_SIZE) in *. unfold SRAM_BLOCK_SIZE in *.
  assert (Hq : q = 0 \/ q = 1 \/ q = 2) by lia. destruct Hq as [E|[E|E]]; rewrite E in *; locate.
Qed.

Lemma region_pflash off : 0 <= off < PFLASH_SIZE ->
  region_at (PFLASH_BASE_ADDRESS + off) =
    if off <? PFLASH_BLOCK_SIZE then Some (PFLASH 0, off)
    else if (2 * PFLASH_BLOCK_SIZE <=? off) && (off <? 3 * PFLASH_BLOCK_SIZE)
    then Some (PFLASH 1, off - 2 * PFLASH_BLOCK_SIZE)
    else None.
Proof.
  unfold PFLASH_SIZE, PFLASH_NUM, PFLASH_BASE_ADDRESS, PFLASH_BLOCK_SIZE. intros H.
  destruct (off <? _) eqn:E1; [locate|]. destruct (_ && _) eqn:E2; locate.
Qed.

(** C38: what the CPU sees.  The flat view of its address space is the map
    [memory_map]: the timer lies over the registers of the interrupt controller,
    these over the rest of the private bus, and no other regions overlap.  The
    windows of the TPM and of the UART reach the two devices; the code of the
    firmware (64 KiB at 0) and its data (768 KiB at 0x20400000) are backed by
    memory throughout, the three SRAM blocks being contiguous.  Of the 8 MiB of
    program flash only the first and the third 2 MiB are backed: block 1 is
    mapped where block 2 belongs, and blocks 2 and 3 lie outside of the
    container. *)
Theorem memory_map_correct :
  map range_of cpu_view = memory_map /\
  (forall off, 0 <= off < TPM_SIZE -> region_at (0xF0000000 + off) = Some (TPM, off)) /\
  (forall off, 0 <= off < UART_SIZE -> region_at (0x40328000 + off) = Some (UART, off)) /\
  (forall addr, 0 <= addr < 64 * 1024 -> region_at addr = Some (ITCM 0, addr)) /\
  (forall off, 0 <= off < 768 * 1024 ->
     region_at (0x20400000 + off) =
       Some (SRAM (Z.to_nat (off / SRAM_BLOCK_SIZE)), off mod SRAM_BLOCK_SIZE)) /\
  (forall off, 0 <= off < PFLASH_SIZE ->
     region_at (PFLASH_BASE_ADDRESS + off) =
       if off <? PFLASH_BLOCK_SIZE then Some (PFLASH 0, off)
       else if (2 * PFLASH_BLOCK_SIZE <=? off) && (off <? 3 * PFLASH_BLOCK_SIZE)
       then Some (PFLASH 1, off - 2 * PFLASH_BLOCK_SIZE)
       else None).
Proof.
  split; [exact cpu_view_map|]. split; [exact region_tpm|]. split; [exact region_uart|].
  split; [|split; [exact region_sram|exact region_pflash]].
  intros addr H. locate.
Qed.

(** ** The dispatch of the CPU *)
Definition memory_region_is_ram (mr : section_mr block) : bool :=
  match mr with
  | region (ITCM _ | PFLASH _ | SRAM _ | DFLASH) => true
  | _ => false
  end.

(** The dispatch of a view, in terms of its map. *)
Lemma dispatch_map hint (view : FlatView block) accesses :
  view_ok 0 (2 ^ 64) view -> 1 + 5 * zlen view <= 1024 ->
  Forall (fun '(addr, plen) => 0 <= addr < 2 ^ 64 /\ 0 <= plen < 2 ^ 64) accesses ->
  exists d results,
    dispatch_of hint view = Some d /\
    translate_all memory_region_is_ram d accesses = Some results /\
    Forall2 (fun '(addr, _) '(s, xlat, _) =>
      match map_at (map range_of view) addr with
      | Some (b, off) => mrs_mr s = region b /\ xlat = off
      | None => mrs_mr s = io_mem_unassigned
      end) accesses results.
Proof.
  intros Hok Hz Hall. destruct (dispatch_of_serves hint view Hok Hz) as (d & pg & Hd & Hsv).
  destruct (translate_all_correct memory_region_is_ram pg _ accesses d Hsv Hall) as (results & Hr & Hf).
  exists d, results. split; [exact Hd|]. split; [exact Hr|].
  eapply Forall2_impl; [exact Hf|]. intros [addr plen] [[s xlat] plen'] [H _].
  rewrite <- view_at_map. simpl in H |- *.
  destruct (view_at view addr) as [h|]; simpl; [by destruct H as (?&?&_)|by subst s].
Qed.

Lemma cpu_view_small : 1 + 5 * zlen cpu_view <= 1024.
Proof. vm_compute. discriminate. Qed.

(** The radix tree that the accesses of the CPU go through is built without a
    failed assertion, and every sequence of accesses finds the blocks and offsets
    of the memory map. *)
Theorem cpu_dispatch_correct (hint : Z) (accesses : list (Z * Z)) :
  Forall (fun '(addr, plen) => 0 <= addr < 2 ^ 64 /\ 0 <= plen < 2 ^ 64) accesses ->
  exists d results,
    dispatch_of hint cpu_view = Some d /\
    translate_all memory_region_is_ram d accesses = Some results /\
    Forall2 (fun '(addr, _) '(s, xlat, _) =>
      match region_at addr with
      | Some (b, off) => mrs_mr s = region b /\ xlat = off
      | None => mrs_mr s = io_mem_unassigned
      end) accesses results.
Proof.
  intros Hall.
  destruct (dispatch_map hint cpu_view accesses cpu_view_ok cpu_view_small Hall) as (d & results & Hd & Hr & Hf).
  exists d, results. split; [exact Hd|]. split; [exact Hr|].
  eapply Forall2_impl; [exact Hf|]. intros [addr plen] [[s xlat] plen'] H.
  rewrite region_at_map, <- cpu_view_map. exact H.
Qed.

Lemma cpu_dispatch_correct_witness :
  exists d results,
    dispatch_of 16 cpu_view = Some d /\
    translate_all memory_region_is_ram d [(0xF0000010, 4); (0x40328004, 4); (0x500000, 4)] = Some results /\
    length results = 3%nat.
Proof.
  destruct (cpu_dispatch_correct 16 [(0xF0000010, 4); (0x40328004, 4); (0x500000, 4)])
    as (d & results & Hd & Hr & Hf);
    [repeat (apply List.Forall_cons; [lia|]); apply List.Forall_nil|].
  exists d, results. split; [exact Hd|]. split; [exact Hr|]. symmetry. exact (Forall2_length _ _ _ Hf).
Defined.

(** ** Accesses of the CPU *)
Section CpuAccess.
Context `{OS : OpenSSL, LY : Layout}.

Lemma tpm2_mmio_ops_word : word_device tpm2_mmio_ops.
Proof using. by split. Qed.
Lemma nxp_uart_ops_word : word_device nxp_uart_ops.
Proof using. by split. Qed.

(** The windows of the devices are aligned. *)
Lemma device_window addr b offset :
  region_at addr = Some (b, offset) -> b = TPM \/ b = UART ->
  0 <= offset < UART_SIZE /\ exists k, 0 <= k < 2 ^ 29 /\ addr = 8 * k + offset.
Proof using.
  rewrite region_at_map. unfold memory_map, UART_SIZE. cbn [map_at]. intros H Hb.
  repeat match type of H with
  | (if ?c then _ else _) = _ =>
      destruct c eqn:?; [injection H as <- <-; destruct Hb; try discriminate|]
  end; try discriminate; rewrite u64_small by lia.
  - split; [lia|]. exists 0x8065000. lia.
  - split; [lia|]. exists 0x1e000000. lia.
Qed.

(** The word behind an aligned pair of words is in the same window. *)
Lemma device_next addr b offset :
  region_at addr = Some (b, offset) -> b = TPM \/ b = UART -> offset mod 8 = 0 ->
  region_at (addr + 4) = Some (b, offset + 4).
Proof using.
  rewrite !region_at_map. unfold memory_map. cbn [map_at]. intros H Hb Ho.
  pose proof (Z.div_mod offset 8 ltac:(done)) as Hd. rewrite Ho in Hd. clear Ho.
  repeat match type of H with
  | (if ?c then _ else _) = _ =>
      destruct c eqn:?; [injection H as <- <-; destruct Hb; try discriminate|]
  end; try discriminate; rewrite u64_small in Hd by lia;
  repeat match goal with
  | |- (if ?c then _ else _) = _ =>
      first [replace c with false by lia | replace c with true by lia]; cbv iota
  end; rewrite !u64_small by lia; do 2 f_equal; lia.
Qed.

(** The handlers of a device, called by the core, are the accesses of the bus model. *)
Lemma device_handlers addr b offset ops :
  region_at addr = Some (b, offset) -> device_ops b = Some ops ->
  (forall m, op_read ops m offset 4 = machine_read m addr) /\
  (forall m v, op_write ops m offset v 4 = machine_write m addr v).
Proof using.
  unfold machine_read, machine_write. intros -> Hd.
  destruct b; try discriminate Hd; injection Hd as <-; split; intros; reflexivity.
Qed.

Lemma device_word b ops : device_ops b = Some ops -> word_device ops.
Proof using.
  intros Hd. destruct b; try discriminate Hd; injection Hd as <-;
    first [apply nxp_uart_ops_word|apply tpm2_mmio_ops_word].
Qed.

(** C13: an access of the CPU to the window of a device.  An aligned access of 1, 2
    or 4 bytes is exactly one access of the bus model to the same address, with
    all 32 bits of the register; an aligned access of 8 bytes is exactly two, to
    the address and to the one four bytes on, low word first; an access that is
    not aligned changes nothing and is reported to the CPU; an address without a
    region is reported too. *)
Theorem cpu_access_correct (m : Machine) (addr size data : Z) :
  is_size size ->
  match region_at addr with
  | Some (b, _) =>
      b = TPM \/ b = UART ->
      if addr mod size =? 0 then
        cpu_read m addr size =
          (let? (v, m1) := machine_read m addr else None in
           if size =? 8 then
             let? (w, m2) := machine_read m1 (addr + 4) else None in
             Some (MEMTX_OK, u32 v + 2 ^ 32 * u32 w, m2)
           else Some (MEMTX_OK, u32 v, m1)) /\
        cpu_write m addr data size =
          (let? m1 := machine_write m addr (u32 data) else None in
           if size =? 8 then
             let? m2 := machine_write m1 (addr + 4) (u32 (data / 2 ^ 32)) else None in
             Some (MEMTX_OK, m2)
           else Some (MEMTX_OK, m1))
      else
        cpu_read m addr size = Some (MEMTX_DECODE_ERROR, 0, m) /\
        cpu_write m addr data size = Some (MEMTX_DECODE_ERROR, m)
  | None =>
      cpu_read m addr size = Some (MEMTX_DECODE_ERROR, 0, m) /\
      cpu_write m addr data size = Some (MEMTX_DECODE_ERROR, m)
  end.
Proof using.
  intros Hs. unfold cpu_read, cpu_write.
  destruct (region_at addr) as [[b off]|] eqn:E; [|by split]. intros Hb.
  destruct (device_window addr b off E Hb) as (Ho & k & _ & Hk). unfold UART_SIZE in Ho.
  assert (Hmod : addr mod size = off mod size).
  { rewrite Hk. destruct Hs as [->|[->|[->| ->]]]; [by rewrite !Z.mod_1_r|..].
    - replace (8 * k + off) with (off + 4 * k * 2) by lia. by apply Z.mod_add.
    - replace (8 * k + off) with (off + 2 * k * 4) by lia. by apply Z.mod_add.
    - replace (8 * k + off) with (off + k * 8) by lia. by apply Z.mod_add. }
  destruct (device_ops b) as [ops|] eqn:Ed; [|destruct Hb as [-> | ->]; discriminate Ed].
  destruct (word_access_correct ops (device_word b ops Ed) m off size data Hs) as [-> ->]; [lia|lia|].
  destruct (device_handlers addr b off ops E Ed) as [Hr Hw].
  unfold word_read, word_write. rewrite Hmod, Hr, Hw.
  destruct (Z.eqb_spec (off mod size) 0) as [Ha|_]; cbn [negb]; [|by split].
  destruct (Z.eqb_spec size 8) as [->|_]; [|by split].
  destruct (device_handlers (addr + 4) b (off + 4) ops (device_next addr b off E Hb Ha) Ed) as [Hr' Hw'].
  by split; [destruct (machine_read m addr) as [[v m1]|]; [rewrite Hr'|]
            |destruct (machine_write m addr _) as [m1|]; [rewrite Hw'|]].
Qed.
End CpuAccess.

Lemma find_region_at addr : mrs_mr <$> memory_region_find cpu_view addr 1 = fst <$> region_at addr.
Proof. unfold region_at. by destruct (memory_region_find cpu_view addr 1). Qed.

(** Proofs about the machine use the lemmas on [region_at], not its definition. *)
#[global] Opaque region_at.
