(* ===== verification/BoardIO.v ===== *)
(** * Transfers on the board

    The functions of [physmem.c] on the address space of the CPU, with the blocks
    of [nxps32k3x8evb_mcu.c]: what a debugger, a loader or a device that is a bus
    master does.  The memories keep what is written, and an aligned transfer to the
    window of a device is an access of the CPU. *)
From stdpp Require Import base list numbers functions.
From S2P Require Import Prelude Constants State OpenSSL Crypto Device Uart Bus Memory MemoryView Access PhysMap PhysTree PhysMapSpec PhysIO PhysIOSpec Board.

Section BoardIO.
Context `{OS : OpenSSL, LY : Layout}.
(** The private peripherals of the core: the interrupt controller, the timer and
    the rest of the bus. *)
Variable core_ops : block -> MemoryRegionOps Machine.

(** What realization made of each block. *)
Definition block_kind (b : block) : region_kind Machine :=
  match b with
  | ITCM _ | SRAM _ => KRam
  | PFLASH _ | DFLASH => KRom
  | TPM => KIo tpm2_mmio_ops
  | UART => KIo nxp_uart_ops
  | b => KIo (core_ops b)
  end.
Definition block_size (b : block) : Z :=
  match b with
  | ITCM _ => ITCM_BLOCK_SIZE
  | SRAM _ => SRAM_BLOCK_SIZE
  | PFLASH _ => PFLASH_BLOCK_SIZE
  | DFLASH => DFLASH_SIZE
  | _ => 0
  end.

(** ** Memory *)
Definition writable (b : block) (w : bool) : bool :=
  match b with ITCM _ | SRAM _ => true | PFLASH _ | DFLASH => negb w | _ => false end.

Lemma direct_writable b w : memory_access_is_direct block_kind (region b) w = writable b w.
Proof using. by destruct b. Qed.

Lemma cpu_in_memory w a :
  in_memory block_kind cpu_view w a = match region_at a with Some (b, _) => writable b w | None => false end.
Proof using.
  rewrite region_at_map, <- cpu_view_map, <- view_at_map. unfold in_memory.
  generalize (view_at cpu_view a). intros [h|]; simpl fmap; [apply direct_writable|reflexivity].
Qed.

Lemma cpu_memory_once : NoDup (map fr_mr (List.filter (fun fr => writable (fr_mr fr) false) cpu_view)).
Proof using. apply (bool_decide_unpack _). vm_compute. exact I. Qed.

Lemma cpu_memory_fits :
  forallb (fun fr => (0 <=? fr_offset_in_region fr) && implb (writable (fr_mr fr) false)
    (fr_offset_in_region fr + ar_size (fr_addr fr) <=? block_size (fr_mr fr))) cpu_view = true.
Proof using. vm_compute. reflexivity. Qed.

Lemma block_size_small b : block_size b < 2 ^ 64.
Proof using. by destruct b. Qed.

Lemma view_backed (view : FlatView block) (ram : block -> list Z) :
  NoDup (map fr_mr (List.filter (fun fr => writable (fr_mr fr) false) view)) ->
  forallb (fun fr => (0 <=? fr_offset_in_region fr) && implb (writable (fr_mr fr) false)
    (fr_offset_in_region fr + ar_size (fr_addr fr) <=? block_size (fr_mr fr))) view = true ->
  (forall b, zlen (ram b) = block_size b) -> backed block_kind view ram.
Proof using.
  intros H1 H2 Hs. split.
  - erewrite List.filter_ext; [exact H1|]. intros fr. apply direct_writable.
  - apply List.Forall_forall. intros fr Hin. rewrite direct_writable. intros Hw.
    rewrite forallb_forall in H2. apply H2 in Hin. rewrite Hw in Hin. simpl in Hin.
    rewrite Hs. pose proof (block_size_small (fr_mr fr)). lia.
Qed.

(** The ranges of memory; the last three are flash. *)
Definition memories : list (Z * Z * bool) :=
  [(0x00000000, 64 * 1024, true); (0x20400000, 768 * 1024, true);
   (0x00400000, 2048 * 1024, false); (0x00800000, 2048 * 1024, false); (0x10000000, 256 * 1024, false)].

Definition inside (t : transfer) : bool :=
  let '(a, len, w) := target t in
  (0 <=? len) &&
  existsb (fun '(base, size, ram) => (base <=? a) && (a + len <=? base + size) && (negb w || ram)) memories.

Lemma memories_at base size ram x :
  In (base, size, ram) memories -> base <= x < base + size ->
  exists b off, region_at x = Some (b, off) /\ writable b ram = true /\ writable b false = true.
Proof using.
  unfold memories. intros Hin Hx. simpl in Hin.
  destruct Hin as [[= <- <- <-]|[[= <- <- <-]|[[= <- <- <-]|[[= <- <- <-]|[[= <- <- <-]|[]]]]]].
  - exists (ITCM 0), x. split; [locate|by split].
  - pose proof (region_sram (x - 0x20400000) ltac:(lia)) as E.
    replace (0x20400000 + (x - 0x20400000)) with x in E by lia. eexists _, _. split; [exact E|by split].
  - exists (PFLASH 0), (x - 0x00400000). split; [locate|by split].
  - exists (PFLASH 1), (x - 0x00800000). split; [locate|by split].
  - exists DFLASH, (x - 0x10000000). split; [locate|by split].
Qed.

Lemma memories_bound base size ram : In (base, size, ram) memories -> 0 <= base /\ base + size < 2 ^ 32.
Proof using.
  intros Hin. unfold memories in Hin. repeat (destruct Hin as [[= <- <- <-]|Hin]; [lia|]). destruct Hin.
Qed.

Lemma inside_ok t : inside t = true -> transfer_ok block_kind cpu_view t.
Proof using.
  unfold inside, transfer_ok. destruct (target t) as [[a len] w].
  intros [Hl Hin]%andb_prop. apply existsb_exists in Hin as ([[base size] ram] & Hin & Hr).
  assert (0 <= base /\ base + size < 2 ^ 32) by exact (memories_bound _ _ _ Hin).
  split_and!; [lia..|]. intros x Hx. rewrite cpu_in_memory.
  destruct (memories_at base size ram x Hin ltac:(lia)) as (b & off & -> & Hw & Hw').
  destruct w; [|done]. by destruct ram; [|lia].
Qed.

(** ** Devices *)

Lemma land_mod a b k : 0 <= k -> Z.land a b mod 2 ^ k = Z.land b (a mod 2 ^ k).
Proof using. intros Hk. rewrite <- !Z.land_ones by lia. by rewrite (Z.land_comm a), <- Z.land_assoc. Qed.

(** A multiple of a power of two has no lower bit. *)
Lemma low_bit_multiple a b k : 0 <= k -> a mod 2 ^ k = 0 -> Z.land a b mod 2 ^ k = 0.
Proof using. intros Hk Ha. by rewrite land_mod, Ha, Z.land_0_r. Qed.

Lemma word_access_size (ops : MemoryRegionOps Machine) off size :
  word_device ops -> impl_unaligned ops = false -> 0 <= off < 2 ^ 32 ->
  size = 1 \/ size = 2 \/ size = 4 -> off mod size = 0 -> memory_access_size ops size off = size.
Proof using.
  intros Hw Hu Ho Hs Hal. unfold memory_access_size. rewrite (wd_valid_max _ Hw), Hu. cbn [negb Z.eqb].
  assert (Hlow : 0 <= Z.land off (u64 (- off))) by (apply Z.land_nonneg; lia).
  unfold u32. rewrite land_mod, (Z.mod_small off), Z.land_comm, (Z.mod_small size) by lia.
  assert (Hmod : Z.land off (u64 (- off)) mod size = 0).
  { destruct Hs as [->|[->| ->]]; [apply Z.mod_1_r|apply (low_bit_multiple _ _ 1)|apply (low_bit_multiple _ _ 2)]; done. }
  set (low := Z.land off (u64 (- off))) in *.
  assert (Hge : low = 0 \/ size <= low).
  { destruct (decide (low < size)); [left|lia]. rewrite Z.mod_small in Hmod; lia. }
  assert (Hmax : size <= if negb (low =? 0) && (low <? 4) then low else 4) by (case_match; lia).
  replace (_ <? size) with false by lia. unfold pow2floor. by destruct Hs as [->|[->| ->]].
Qed.

Lemma device_kind b ops : device_ops b = Some ops ->
  block_kind b = KIo ops /\ word_device ops /\ impl_unaligned ops = false /\ (b = TPM \/ b = UART).
Proof using.
  destruct b; simpl; intros [= <-]; (split; [done|split; [|split; [done|]]]);
    [apply tpm2_mmio_ops_word|by left|apply nxp_uart_ops_word|by right].
Qed.

(** A device of the board, found by its address. *)
Lemma device_at addr size b off ops :
  region_at addr = Some (b, off) -> device_ops b = Some ops ->
  size = 1 \/ size = 2 \/ size = 4 -> addr mod size = 0 ->
  exists h, view_at cpu_view addr = Some h /\ h_offset h = off /\ block_kind (h_mr h) = KIo ops /\
    0 <= addr < 2 ^ 33 /\ memory_access_size ops size off = size /\ host_size size = true.
Proof using.
  intros Hr Hd Hs Hal. destruct (device_kind b ops Hd) as (Hk & Hw & Hu & Hb).
  destruct (device_window addr b off Hr Hb) as (Ho & k & Hk8 & Hak).
  rewrite region_at_map, <- cpu_view_map, <- view_at_map in Hr.
  destruct (view_at cpu_view addr) as [h|]; [|discriminate Hr]. injection Hr as Hmr Hoff.
  exists h. rewrite Hmr. unfold UART_SIZE in Ho.
  assert (Hmod : off mod size = 0).
  { destruct Hs as [->|[->| ->]]; [apply Z.mod_1_r| |].
    - replace off with (addr + (- 4 * k) * 2) by lia. by rewrite Z.mod_add.
    - replace off with (addr + (- 2 * k) * 4) by lia. by rewrite Z.mod_add. }
  split_and!; [done|done|done|lia|lia|apply word_access_size; [done|done|lia|done|done]|].
  by destruct Hs as [->|[->| ->]].
Qed.

(** C37: the address space of the CPU as a loader, a debugger or a bus master uses
    it.  The dispatch is built.  Any sequence of transfers within the memories,
    where the 768 KiB of SRAM count as one and flash can be read and loaded but not
    written, behaves as on one array of bytes and leaves the devices alone.  An
    aligned transfer of 1, 2 or 4 bytes to the window of the TPM or the UART is
    exactly the access of the CPU to that address. *)
Theorem board_transfers_correct (hint : Z) (ram : block -> list Z) (m : Machine) :
  (forall b, zlen (ram b) = block_size b) ->
  exists d,
    dispatch_of hint cpu_view = Some d /\
    (forall ts, forallb inside ts = true ->
       exists st', run_transfers block_kind (mk_AddressSpace d ram m) ts =
           Some (flat_transfers (content (view_at cpu_view) ram) ts, st') /\
         as_dev st' = m) /\
    (forall addr size b off ops buf,
       region_at addr = Some (b, off) -> device_ops b = Some ops ->
       size = 1 \/ size = 2 \/ size = 4 -> addr mod size = 0 -> zlen buf = size ->
       exists d1 d2,
         address_space_read_full block_kind (mk_AddressSpace d ram m) addr size =
           (let? (r, v, m') := cpu_read m addr size else None in
            Some (r, le_bytes (Z.to_nat size) v, mk_AddressSpace d1 ram m')) /\
         address_space_write block_kind (mk_AddressSpace d ram m) addr buf =
           (let? (r, m') := cpu_write m addr (le_value buf) size else None in
            Some (r, mk_AddressSpace d2 ram m'))).
Proof using.
  intros Hram. destruct (dispatch_of_serves hint cpu_view cpu_view_ok cpu_view_small) as (d & pg & Hd & Hsv).
  exists d. split; [exact Hd|]. split.
  - intros ts Hts. apply (transfers_correct block_kind cpu_view pg m).
    + apply holds_initial; [exact Hsv|]. exact (view_backed _ _ cpu_memory_once cpu_memory_fits Hram).
    + rewrite forallb_forall in Hts. apply List.Forall_forall. intros t Ht. apply inside_ok, Hts, Ht.
  - intros addr size b off ops buf Hr Ho Hs Hal Hz.
    destruct (device_at addr size b off ops Hr Ho Hs Hal) as (h & Hv & Hoff & Hk & Ha & Hsize & Hhost).
    unfold cpu_read, cpu_write. rewrite Hr, Ho. rewrite <- Hoff in *.
    destruct (io_read block_kind (view_at cpu_view) pg (mk_AddressSpace d ram m) addr size h ops) as (d1 & _ & E1);
      [exact Hsv|exact Hv|exact Hk|lia|lia|lia|exact Hsize|exact Hhost|].
    rewrite <- Hz in Hsize, Hhost |- *.
    destruct (io_write block_kind (view_at cpu_view) pg (mk_AddressSpace d ram m) addr buf h ops) as (d2 & _ & E2);
      [exact Hsv|exact Hv|exact Hk|lia|lia|lia|exact Hsize|exact Hhost|].
    exists d1, d2. split; [|exact E2]. rewrite Hz. exact E1.
Qed.
End BoardIO.
