(* ===== verification/Startup.v ===== *)
(** * Start of the firmware

    The vector table of [src/firmware/startup.s], the memory areas and sections of
    [src/firmware/linker.ld], and the reset of the CPU that reads them
    ([arm_cpu_reset_hold] of [src/qemu/target/arm/cpu.c], for the M profile without
    the security extension); from the ELF file to the first instruction. *)
From stdpp Require Import base list numbers functions sorting.
From S2P Require Import Prelude Constants State OpenSSL Crypto Device Memory MemoryView Access PhysMap PhysTree PhysMapSpec PhysIO PhysIOSpec Loader LoaderSpec Board BoardIO.

(** ** linker.ld *)
Record MemoryArea := mk_MemoryArea { ORIGIN : Z; LENGTH : Z }.
Definition ITCM_AREA : MemoryArea := {| ORIGIN := 0x00000000; LENGTH := 64 * 1024 |}.
Definition SRAM_AREA : MemoryArea := {| ORIGIN := 0x20400000; LENGTH := 768 * 1024 |}.
Definition stack_top : Z := ORIGIN SRAM_AREA + LENGTH SRAM_AREA.

(** ** startup.s: the table and, behind it, [_start], a Thumb function *)
Definition _start : Z := ORIGIN ITCM_AREA + 8.
Definition vector_table : list Z := le_bytes 4 stack_top ++ le_bytes 4 (Z.lor _start 1).

(** The contents of the sections; the code of [_start] and of the C files is what the
    tools make of it, and so is the space between the data and the variables. *)
Record image := mk_image { im_text : list Z; im_data : list Z; im_bss : Z; im_bss_size : Z }.

(** The linker refuses sections that do not fit their area. *)
Definition link (code data : list Z) (gap bss_size : Z) : option image :=
  let text := vector_table ++ code in
  if (LENGTH ITCM_AREA <? zlen text) || (LENGTH SRAM_AREA <? zlen data + gap + bss_size) then None
  else Some {| im_text := text; im_data := data; im_bss := ORIGIN SRAM_AREA + zlen data + gap;
               im_bss_size := bss_size |}.

(** ** Reset: stack pointer, program counter and Thumb state *)
Definition ldl_p (rom : list Z) (p : Z) : option Z := le_value <$> load rom p 4.

(** The vector table is at 0.  It is read from an image that may not be in memory
    yet, or from memory if no image is there. *)
Definition arm_cpu_reset_hold {R S : Type} `{!EqDecision R} (kind : R -> region_kind S) (rs : Roms)
    (view : FlatView R) (st : AddressSpace (R := R) (S := S)) (len_unused : Z)
  : option (Z * Z * bool * AddressSpace (R := R) (S := S)) :=
  let? (rom, d) := rom_ptr_for_as kind rs view (as_dispatch st) len_unused 0 8 else None in
  let st := mk_AddressSpace d (as_ram st) (as_dev st) in
  let? (initial_msp, initial_pc, st) :=
    match rom with
    | Some rom =>
        let? initial_msp := ldl_p rom 0 else None in
        let? initial_pc := ldl_p rom 4 else None in
        Some (initial_msp, initial_pc, st)
    | None =>
        let? (initial_msp, st) := address_space_ldl kind st 0 else None in
        let? (initial_pc, st) := address_space_ldl kind st 4 else None in
        Some (initial_msp, initial_pc, st)
    end else None in
  Some (Z.land initial_msp 0xFFFFFFFC, Z.land initial_pc (Z.lnot 1), negb (Z.land initial_pc 1 =? 0), st).

Lemma vector_table_load code :
  ldl_p (vector_table ++ code) 0 = Some stack_top /\ ldl_p (vector_table ++ code) 4 = Some 9.
Proof.
  unfold ldl_p, load. rewrite zlen_app. change (zlen vector_table) with 8. pose proof (zlen_nonneg code).
  rewrite !(proj2 (Z.leb_le (_ + 4) _)) by lia. split; reflexivity.
Qed.

(** ** The image fits the memory that is there *)
Record fits (img : image) : Prop := {
  ft_text : 8 <= zlen (im_text img) <= LENGTH ITCM_AREA;
  ft_data : ORIGIN SRAM_AREA + zlen (im_data img) <= im_bss img;
  ft_bss : im_bss img <= im_bss img + im_bss_size img <= stack_top
}.

Lemma link_fits code data gap bss_size img :
  link code data gap bss_size = Some img -> 0 <= gap -> 0 <= bss_size ->
  fits img /\ im_text img = vector_table ++ code.
Proof.
  unfold link. set (text := vector_table ++ code). intros E Hgap Hbss.
  assert (Ht : zlen text = 8 + zlen code) by (unfold text; by rewrite zlen_app).
  pose proof (zlen_nonneg code). pose proof (zlen_nonneg data).
  destruct (_ || _) eqn:Eo; [done|]. injection E as <-. apply orb_false_iff in Eo as [Et Ed].
  split; [|done].
  split; cbn [im_text im_data im_bss im_bss_size ORIGIN LENGTH ITCM_AREA SRAM_AREA] in *;
    change stack_top with 0x204C0000; lia.
Qed.

Lemma link_sections code data gap bss_size img :
  link code data gap bss_size = Some img -> im_data img = data /\ im_bss_size img = bss_size.
Proof. unfold link. case_match; [done|]. by intros [= <-]. Qed.

(** A word at the start of a longer array. *)
Lemma load_inner bs n text q k :
  load bs 0 n = Some text -> 0 <= q -> 0 <= k -> q + k <= n -> load bs q k = load text q k.
Proof.
  intros Hl Hq Hk Hn. pose proof (load_zlen _ _ _ _ Hl) as Hz. apply load_Some in Hl as (_ & _ & Hb & ->).
  rewrite drop_0 in *. rewrite !load_in by lia. f_equal.
  rewrite skipn_firstn_comm, firstn_firstn. f_equal. lia.
Qed.

(** ** The ELF file *)

(** A little-endian file for the ARM.  Its first segment is the code with the
    constants; a second one, the data with the space for the variables behind them, is
    there unless the program has neither, as is the case for [main.elf]. *)
Record elf_image (file : list Z) (img : image) (h : elfhdr) (t : elf_phdr) (d : option elf_phdr) : Prop := {
  ei_ident : exists ident, load file 0 16 = Some ident /\ take 4 ident = [0x7f; 0x45; 0x4c; 0x46] /\
    ident !! 4%nat = Some 1 /\ ident !! 5%nat = Some ELFDATA2LSB;
  ei_ehdr : read_ehdr false file = Some h;
  ei_machine : e_machine h = EM_ARM;
  ei_phdrs : read_phdrs false file (e_phoff h) (Z.to_nat (e_phnum h)) = Some (t :: option_list d);
  ei_text : p_type t = PT_LOAD /\ p_paddr t = ORIGIN ITCM_AREA /\ p_filesz t = zlen (im_text img) /\ p_memsz t = zlen (im_text img) /\
    load file (p_offset t) (p_filesz t) = Some (im_text img);
  ei_data :
    match d with
    | Some d =>
        p_type d = PT_LOAD /\ p_paddr d = ORIGIN SRAM_AREA /\ p_filesz d = zlen (im_data img) /\
        p_memsz d = im_bss img + im_bss_size img - ORIGIN SRAM_AREA /\
        load file (p_offset d) (p_filesz d) = Some (im_data img)
    | None => im_data img = [] /\ im_bss_size img = 0
    end;
  ei_size : zlen file < 2 ^ 32
}.

Section Image.
Variables (file : list Z) (img : image) (h : elfhdr) (t : elf_phdr) (d : option elf_phdr) (as_ : Z).
Hypothesis Hfits : fits img.
Hypothesis Helf : elf_image file img h t d.
Hypothesis Has : as_ <> 0.

Definition text_rom : Rom :=
  mk_Rom (zlen (im_text img)) (zlen (im_text img)) (Some (drop (Z.to_nat (p_offset t)) file)) as_ false false
    (ORIGIN ITCM_AREA).
Definition data_size : Z := from_option p_memsz 0 d.
Definition data_offset : Z := from_option p_offset 0 d.
Definition data_rom : Rom :=
  mk_Rom data_size (zlen (im_data img))
    (if 0 <? zlen (im_data img) then Some (drop (Z.to_nat data_offset) file) else None) as_ false false
    (ORIGIN SRAM_AREA).
Definition image_roms : list Rom := text_rom :: if data_size =? 0 then [] else [data_rom].

Lemma text_size phs : segment_size false phs 0 t = p_memsz t.
Proof using Helf.
  destruct (ei_text _ _ _ _ _ Helf) as (_ & _ & Hf & Hm & _). unfold segment_size.
  by rewrite Hf, Hm, Z.ltb_irrefl.
Qed.

(** The data segment keeps its size, since the code is not behind it. *)
Lemma segment_sizes d' : d = Some d' -> segment_size false [t; d'] 1 d' = p_memsz d'.
Proof using Hfits Helf.
  intros ->. destruct Helf as [_ _ _ _ (Ht & Ha & Hf & Hm & Hl) (Hd & Ha' & Hf' & Hm' & Hl') _].
  destruct Hfits as [F1 F2 F3]. pose proof (zlen_nonneg (im_data img)).
  cbn [ORIGIN LENGTH ITCM_AREA SRAM_AREA] in *. change stack_top with 0x204C0000 in F3.
  unfold segment_size. case_match; [|done]. simpl existsb. rewrite Ht. unfold elf_word, u32.
  rewrite Ha, Ha', Hm, Hf', Hm', !Z.mod_small by lia.
  replace (_ <=? 541065216 + zlen (im_data img)) with true by lia. rewrite orb_true_r. done.
Qed.

Lemma segment_data ph bs : load file (p_offset ph) (p_filesz ph) = Some bs ->
  elf_word false (p_filesz ph + p_offset ph) <= zlen file /\ zlen bs = p_filesz ph /\
  load (drop (Z.to_nat (p_offset ph)) file) 0 (p_filesz ph) = Some bs.
Proof using Helf.
  intros Hl. pose proof (load_zlen _ _ _ _ Hl) as Hz. pose proof (ei_size _ _ _ _ _ Helf).
  apply load_Some in Hl as (H1 & H2 & H3 & ->). split_and!; [|done|].
  - unfold elf_word, u32. rewrite Z.mod_small; lia.
  - apply load_Some. split_and!; [lia|lia| |done]. unfold zlen in *. rewrite length_drop. lia.
Qed.

(** A segment whose data are in the file becomes an image. *)
Lemma load_segment asm phs i ph bs todo total entry rs :
  p_type ph = PT_LOAD -> load file (p_offset ph) (p_filesz ph) = Some bs ->
  0 <= total -> total + segment_size false phs i ph < 2 ^ 63 ->
  load_segments false asm as_ h phs file ((i, ph) :: todo) total entry rs =
    (let? rs := (if segment_size false phs i ph =? 0 then Some rs else
                 rom_add_elf_program asm
                   (if 0 <? p_filesz ph then Some (drop (Z.to_nat (p_offset ph)) file) else None)
                   (p_filesz ph) (segment_size false phs i ph) (p_paddr ph) as_ rs) else None in
     load_segments false asm as_ h phs file todo (total + segment_size false phs i ph)
       (adjust_entry false h ph entry) rs).
Proof using Helf.
  intros Hty Hl Ht Hs. destruct (segment_data ph bs Hl) as (H1 & _ & _). cbn [load_segments]. rewrite Hty.
  change (negb (PT_LOAD =? PT_LOAD)) with false. cbv iota.
  replace ((0 <? p_filesz ph) && (zlen file <? elf_word false (p_filesz ph + p_offset ph))) with false by lia.
  replace (SSIZE_MAX - total <? segment_size false phs i ph) with false by lia.
  by destruct (segment_size false phs i ph =? 0).
Qed.

Lemma data_facts :
  zlen (im_data img) <= data_size <= im_bss img + im_bss_size img - ORIGIN SRAM_AREA /\
  (0 < zlen (im_data img) -> data_size = im_bss img + im_bss_size img - ORIGIN SRAM_AREA) /\
  load (drop (Z.to_nat data_offset) file) 0 (zlen (im_data img)) = Some (im_data img).
Proof using Hfits Helf.
  pose proof (ei_data _ _ _ _ _ Helf) as Hd. pose proof segment_data as Hsd. destruct Hfits as [_ F2 F3]. unfold data_size, data_offset.
  cbn [ORIGIN SRAM_AREA] in *. destruct d as [d'|]; cbn [from_option].
  - destruct Hd as (_ & _ & Df & Dm & Dl). destruct (Hsd d' _ Dl) as (_ & _ & D1). rewrite Df in D1.
    split_and!; [lia..|done].
  - destruct Hd as [Hn Hz]. rewrite Hn in *. change (zlen []) with 0 in *. split_and!; [lia..|]. rewrite load_in; [done|lia..|].
    apply zlen_nonneg.
Qed.

Lemma load_kernel_roms asm base size :
  armv7m_load_kernel asm as_ file base size (mk_Roms [] false) = Some (mk_Roms image_roms false).
Proof using Hfits Helf Has.
  pose proof (text_size (t :: option_list d)) as S1. pose proof segment_sizes as S2. pose proof data_facts as (Hds & _).
  pose proof load_segment as Hseg.
  destruct Helf as [(ident & I1 & I2 & I3 & I4) Hh Hm Hp (Ht & Ta & Tf & Tm & Tl) Hd Hz].
  destruct Hfits as [F1 F2 F3]. change stack_top with 0x204C0000 in F3.
  cbn [ORIGIN LENGTH ITCM_AREA SRAM_AREA] in *. pose proof (zlen_nonneg (im_data img)).
  unfold armv7m_load_kernel, load_elf_ram_sym. rewrite I1, I2, I3, I4. cbn [negb Z.eqb Pos.eqb].
  rewrite bool_decide_eq_true_2 by done. cbn [negb]. unfold load_elf_sz. rewrite Hh, Hm.
  change (machine_accepts _ EM_ARM) with true. cbn [negb].
  destruct (e_phnum h =? 0) eqn:E0; [apply Z.eqb_eq in E0; by rewrite E0 in Hp|]. rewrite Hp.
  replace (imap pair (t :: option_list d)) with ((0%nat, t) :: option_list (pair 1%nat <$> d)) by by destruct d.
  rewrite (Hseg asm _ 0%nat t _ _ _ _ _ Ht Tl) by (rewrite ?S1; lia). rewrite S1, Tm, Ta, Tf.
  replace (zlen (im_text img) =? 0) with false by lia. replace (0 <? zlen (im_text img)) with true by lia.
  unfold rom_add_elf_program at 1, rom_insert at 1. cbn [roms roms_loaded rom_as].
  replace (as_ =? 0) with false by lia.
  assert (Hpos : (0 + zlen (im_text img) + data_size <? 0) = false) by lia.
  unfold image_roms, data_rom, data_size, data_offset, option_list in *. destruct d as [d'|]; cbn [option_rect from_option fmap option_fmap option_map] in *.
  2: { rewrite Z.add_0_r in Hpos. cbn [load_segments]. rewrite Hpos. cbv iota beta. rewrite Hpos. reflexivity. }
  destruct Hd as (Hd & Da & Df & Dm & Dl). specialize (S2 d' eq_refl).
  rewrite (Hseg asm _ 1%nat d' _ _ _ _ _ Hd Dl) by (rewrite ?S2, ?Dm; lia). rewrite S2, Da, Df.
  destruct (p_memsz d' =? 0) eqn:Ed; cbn [load_segments].
  - rewrite Hpos. cbv iota beta. rewrite Hpos. reflexivity.
  - unfold rom_add_elf_program, rom_insert. cbn [roms roms_loaded rom_as].
    replace (as_ =? 0) with false by lia. cbn [load_segments]. rewrite Hpos. cbv iota beta. rewrite Hpos.
    cbn [insert_ordered rom_order_compare rom_as rom_addr romsize datasize rom_data isrom].
    unfold rom_order_compare. cbn [rom_as rom_addr]. rewrite Z.eqb_refl, orb_true_r. reflexivity.
Qed.

(** ** On the board *)
Section Board.
Context `{OS : OpenSSL, LY : Layout}.
Variable core_ops : block -> MemoryRegionOps Machine.
Abbreviation kind := (block_kind core_ops).

Lemma itcm_memory w x : 0 <= x < 64 * 1024 -> in_memory kind cpu_view w x = true.
Proof using.
  intros Hx. rewrite cpu_in_memory. assert (E : region_at x = Some (ITCM 0, x)) by locate. by rewrite E.
Qed.
Lemma sram_memory w x : 0x20400000 <= x < 0x204C0000 -> in_memory kind cpu_view w x = true.
Proof using.
  intros Hx. rewrite cpu_in_memory. pose proof (region_sram (x - 0x20400000) ltac:(lia)) as E.
  replace (0x20400000 + (x - 0x20400000)) with x in E by lia. by rewrite E.
Qed.

Lemma image_loadable : Forall (loadable kind cpu_view as_) image_roms.
Proof using Hfits Helf.
  pose proof data_facts as (Hds & _ & D1).
  destruct Helf as [_ _ _ _ (_ & Ta & Tf & Tm & Tl) _ _]. destruct (segment_data t _ Tl) as (_ & Tz & T1).
  apply load_Some in T1 as (_ & _ & T1 & _), D1 as (_ & _ & D1 & _).
  destruct Hfits as [F1 F2 F3]. change stack_top with 0x204C0000 in F3.
  cbn [ORIGIN LENGTH ITCM_AREA SRAM_AREA] in *. pose proof (zlen_nonneg (im_data img)).
  apply List.Forall_cons.
  - split; cbn [text_rom rom_as rom_addr romsize datasize rom_data]; [done|unfold rom_ok; simpl; lia| |].
    + intros data [= <-]. lia.
    + intros x Hx. apply itcm_memory. cbn in Hx. lia.
  - destruct (data_size =? 0); [apply List.Forall_nil|]. apply List.Forall_cons; [|apply List.Forall_nil].
    split; cbn [data_rom rom_as rom_addr romsize datasize rom_data]; [done|unfold rom_ok; simpl; lia| |].
    + intros data. case_match; intros [= <-]. lia.
    + intros x Hx. apply sram_memory. cbn in Hx. lia.
Qed.

(** None of the places is read-only, so that the images are written at every reset. *)
Lemma find_not_rom addr b off : region_at addr = Some (b, off) -> writable b true = true ->
  match memory_region_find cpu_view addr 1 with
  | Some s => memory_region_is_rom kind (mrs_mr s)
  | None => false
  end = false.
Proof using.
  intros E Hw. pose proof (find_region_at addr) as H. rewrite E in H.
  destruct (memory_region_find cpu_view addr 1) as [s|]; [|discriminate H]. injection H as ->.
  unfold memory_region_is_rom. by destruct b.
Qed.

Lemma image_checked :
  rom_check_and_register_reset kind cpu_view (mk_Roms image_roms false) = (0, mk_Roms image_roms true).
Proof using Hfits.
  destruct Hfits as [F1 F2 F3]. cbn [LENGTH ITCM_AREA] in F1.
  assert (E1 := find_not_rom 0 (ITCM 0) 0 ltac:(locate) eq_refl).
  assert (E2 := find_not_rom 0x20400000 (SRAM 0) 0 (region_sram 0 ltac:(lia)) eq_refl).
  unfold rom_check_and_register_reset, image_roms. cbn [roms].
  destruct (data_size =? 0); cbn [check_loop text_rom data_rom rom_addr ORIGIN ITCM_AREA SRAM_AREA]; rewrite E1, ?E2;
    [reflexivity|].
  unfold roms_overlap. cbn [rom_as rom_addr romsize text_rom data_rom ORIGIN ITCM_AREA SRAM_AREA].
  rewrite u64_small by lia. replace (541065216 <? 0 + zlen (im_text img)) with false by lia.
  rewrite andb_false_r. reflexivity.
Qed.

(** The guest memory that the resets meet: the dispatch shows the map of the CPU,
    and the blocks have their sizes. *)
Record guest_ok (g : Guest (R := block) (S := Machine)) : Prop := {
  gu_serves : exists pg, serves (g_spaces g as_) pg (view_at cpu_view);
  gu_size b : zlen (g_ram g b) = block_size b
}.
Definition byte_at (g : Guest (R := block) (S := Machine)) (x : Z) : option Z :=
  content (view_at cpu_view) (g_ram g) x.

Lemma image_reset g : guest_ok g ->
  exists g', rom_reset kind false (mk_Roms image_roms true) g = Some (mk_Roms image_roms true, g') /\
    guest_ok g' /\ g_dev g' = g_dev g /\
    forall x, in_memory kind cpu_view false x = true -> byte_at g' x = flat_roms (byte_at g) image_roms x.
Proof using Hfits Helf.
  intros [[pg Hs] Hz].
  assert (H : holds kind cpu_view pg (g_dev g) (space g as_) (byte_at g)).
  { apply holds_initial; [exact Hs|]. exact (view_backed _ _ _ cpu_memory_once cpu_memory_fits Hz). }
  destruct (reset_loop_correct kind cpu_view pg (g_dev g) as_ image_roms g _ image_loadable H)
    as (g' & Hg & H' & Hsz).
  assert (Hkeep : map reset_rom image_roms = image_roms).
  { unfold image_roms, data_rom, reset_rom. by destruct (data_size =? 0), (0 <? zlen (im_data img)). }
  exists g'. unfold rom_reset. cbn [roms roms_loaded]. rewrite Hg, Hkeep. split; [reflexivity|].
  split; [split; [exists pg; apply H'|intros b; by rewrite Hsz]|]. split; [apply H'|apply H'].
Qed.

Lemma image_apart : StronglySorted apart image_roms.
Proof using Hfits.
  destruct Hfits as [F1 _ _]. unfold image_roms.
  destruct (data_size =? 0); repeat constructor. intros _. cbn in *. lia.
Qed.

Lemma text_bytes : rom_image text_rom = im_text img.
Proof using Helf.
  destruct (ei_text _ _ _ _ _ Helf) as (_ & _ & Tf & _ & Tl). destruct (segment_data t _ Tl) as (_ & _ & T1).
  rewrite Tf in T1. apply load_Some in T1 as (_ & _ & _ & T1). unfold rom_image, text_rom.
  cbn [rom_data datasize romsize]. rewrite Z.sub_diag, app_nil_r. symmetry. exact T1.
Qed.

Lemma data_bytes : 0 < zlen (im_data img) ->
  rom_image data_rom = im_data img ++ replicate (Z.to_nat (data_size - zlen (im_data img))) 0.
Proof using Hfits Helf.
  intros H. destruct data_facts as (_ & _ & D1). apply load_Some in D1 as (_ & _ & _ & D1). unfold rom_image, data_rom.
  cbn [rom_data datasize romsize]. replace (0 <? zlen (im_data img)) with true by lia. f_equal. symmetry. exact D1.
Qed.

(** What the images make of any memory: the variables are cleared only if there are
    data in front of them. *)
Lemma image_contents (mem : Z -> option Z) :
  (forall i, 0 <= i < zlen (im_text img) -> flat_roms mem image_roms i = im_text img !! Z.to_nat i) /\
  (forall i, 0 <= i < zlen (im_data img) ->
     flat_roms mem image_roms (ORIGIN SRAM_AREA + i) = im_data img !! Z.to_nat i) /\
  (forall x, ORIGIN SRAM_AREA + zlen (im_data img) <= x < stack_top ->
     flat_roms mem image_roms x =
       if (0 <? zlen (im_data img)) && (x <? im_bss img + im_bss_size img) then Some 0 else mem x).
Proof using Hfits Helf core_ops OS LY.
  pose proof image_loadable as Hl. pose proof image_apart as Hap.
  pose proof data_facts as (Hds & Dm & _). destruct Hfits as [F1 F2 F3].
  change stack_top with 0x204C0000 in *. cbn [ORIGIN LENGTH ITCM_AREA SRAM_AREA] in *. pose proof (zlen_nonneg (im_data img)).
  assert (Hd : 0 < zlen (im_data img) -> In data_rom image_roms).
  { intros H0. unfold image_roms. replace (data_size =? 0) with false by lia. right. by left. }
  assert (Hc : forall x, 0 < zlen (im_data img) -> 0x20400000 <= x < 0x20400000 + data_size -> covers data_rom x).
  { intros x H0 Hx. unfold covers, data_rom. simpl. by replace (0 <? zlen (im_data img)) with true by lia. }
  split_and!.
  - intros i Hi. rewrite (flat_roms_inside _ _ _ _ _ text_rom _ Hl Hap);
      [by rewrite text_bytes, Z.sub_0_r|by left|by split; [|simpl; lia]].
  - intros i Hi. rewrite (flat_roms_inside _ _ _ _ _ data_rom _ Hl Hap); [|apply Hd; lia|apply Hc; lia].
    cbn [data_rom rom_addr ORIGIN SRAM_AREA]. rewrite data_bytes, lookup_app_l by (unfold zlen in *; lia). f_equal. lia.
  - intros x Hx. destruct (_ && _) eqn:E.
    + rewrite (flat_roms_inside _ _ _ _ _ data_rom _ Hl Hap); [|apply Hd; lia|apply Hc; lia].
      cbn [data_rom rom_addr ORIGIN SRAM_AREA]. rewrite data_bytes, lookup_app_r by (unfold zlen in *; lia).
      apply lookup_replicate_2. unfold zlen in *. lia.
    + eapply flat_roms_outside; [exact Hl|]. intros rom [<-|Hin] [Hn Hr]; [simpl in Hr; lia|].
      destruct (data_size =? 0); [done|]. destruct Hin as [<-|[]]. simpl in Hn, Hr.
      destruct (0 <? zlen (im_data img)); [lia|done].
Qed.

(** The CPU finds the table in the image of the code. *)
Lemma image_vectors code g len_unused : im_text img = vector_table ++ code ->
  arm_cpu_reset_hold kind (mk_Roms image_roms true) cpu_view (space g as_) len_unused =
    Some (stack_top, _start, true, space g as_).
Proof using Hfits Helf.
  intros Hv. destruct (ei_text _ _ _ _ _ Helf) as (_ & _ & Tf & _ & Tl). destruct (segment_data t _ Tl) as (_ & Tz & T1).
  destruct (vector_table_load code) as [V1 V2]. rewrite <- Hv in V1, V2.
  unfold arm_cpu_reset_hold, rom_ptr_for_as, rom_ptr. cbn [roms].
  rewrite (find_rom_correct kind cpu_view as_ _ text_rom 0 8 image_loadable image_apart);
    [|by left|lia|simpl; lia|destruct Hfits; simpl; lia].
  cbn [text_rom rom_data rom_addr ORIGIN ITCM_AREA mbind option_bind]. rewrite Z.sub_0_r, drop_0.
  assert (Hp : forall p, 0 <= p <= 4 -> ldl_p (drop (Z.to_nat (p_offset t)) file) p = ldl_p (im_text img) p).
  { intros p Hp. unfold ldl_p. f_equal. eapply load_inner; [exact T1|lia..|]. destruct Hfits. lia. }
  rewrite !Hp, V1, V2 by lia. reflexivity.
Qed.
End Board.
End Image.

(** C9: from the file to the first instruction.  An image that links, in an ELF
    file whose segments are the code and, if the program has data or variables,
    those, is accepted by the loader and by the check for overlaps.  At every reset,
    whatever the guest has made of its memory, the code and the data are in memory as
    linked.  The variables behind the data are cleared only if there are data: the
    loader gives a segment without bytes in the file no data, and the reset passes
    over an image without data, so that the variables of a program without
    initialised ones are as the guest left them.  Nothing else between the data and
    the end of the SRAM and no device has changed.  The CPU is at [_start], in Thumb
    state, with the stack pointer at the end of the SRAM area, whose last word is the
    last one of the last block. *)
Theorem startup_correct `{OS : OpenSSL, LY : Layout} (core_ops : block -> MemoryRegionOps Machine)
    (code data : list Z) (gap bss_size : Z) (img : image) (file : list Z) (h : elfhdr) (t : elf_phdr)
    (d : option elf_phdr) (as_ asm base size : Z) :
  link code data gap bss_size = Some img -> 0 <= gap -> 0 <= bss_size ->
  elf_image file img h t d -> as_ <> 0 ->
  exists rs0 rs,
    armv7m_load_kernel asm as_ file base size (mk_Roms [] false) = Some rs0 /\
    rom_check_and_register_reset (block_kind core_ops) cpu_view rs0 = (0, rs) /\
    (forall g len_unused, guest_ok as_ g ->
       exists g', rom_reset (block_kind core_ops) false rs g = Some (rs, g') /\
         guest_ok as_ g' /\ g_dev g' = g_dev g /\
         (forall i, 0 <= i < zlen (im_text img) -> byte_at g' i = im_text img !! Z.to_nat i) /\
         (forall i, 0 <= i < zlen data -> byte_at g' (ORIGIN SRAM_AREA + i) = data !! Z.to_nat i) /\
         (forall x, ORIGIN SRAM_AREA + zlen data <= x < stack_top ->
            byte_at g' x = if (0 <? zlen data) && (x <? im_bss img + bss_size) then Some 0 else byte_at g x) /\
         arm_cpu_reset_hold (block_kind core_ops) rs cpu_view (space g' as_) len_unused =
           Some (stack_top, _start, true, space g' as_)) /\
    im_bss img + bss_size <= stack_top /\
    (forall i, 0 <= i < 4 -> region_at (stack_top - 4 + i) = Some (SRAM 2, SRAM_BLOCK_SIZE - 4 + i)) /\
    region_at stack_top = None.
Proof.
  intros Hlink Hgap Hbss Helf Has.
  destruct (link_fits _ _ _ _ _ Hlink Hgap Hbss) as [Hf Hv]. destruct (link_sections _ _ _ _ _ Hlink) as [Ed Eb].
  exists (mk_Roms (image_roms file img t d as_) false), (mk_Roms (image_roms file img t d as_) true).
  split; [exact (load_kernel_roms file img h t d as_ Hf Helf Has asm base size)|].
  split; [exact (image_checked file img t d as_ Hf core_ops)|].
  split; [|split; [|split]].
  - intros g len_unused Hg.
    destruct (image_reset file img h t d as_ Hf Helf core_ops g Hg) as (g' & Hr & Hg' & Hdev & Hb).
    destruct (image_contents file img h t d as_ Hf Helf core_ops (byte_at g)) as (C1 & C2 & C3).
    pose proof Hf as [F1 F2 F3]. rewrite Ed in C2, C3, F2. rewrite Eb in C3, F3. change stack_top with 0x204C0000 in *.
    cbn [ORIGIN LENGTH ITCM_AREA SRAM_AREA] in *. pose proof (zlen_nonneg data).
    exists g'. split; [exact Hr|]. split; [exact Hg'|]. split; [exact Hdev|]. split; [|split; [|split]].
    + intros i Hi. rewrite Hb by (apply itcm_memory; lia). apply C1, Hi.
    + intros i Hi. rewrite Hb by (apply sram_memory; lia). apply C2, Hi.
    + intros x Hx. rewrite Hb by (apply sram_memory; lia). apply C3, Hx.
    + apply (image_vectors file img h t d as_ Hf Helf core_ops code g' len_unused Hv).
  - rewrite <- Eb. apply Hf.
  - intros i Hi. change stack_top with 0x204C0000. unfold SRAM_BLOCK_SIZE. locate.
  - change stack_top with 0x204C0000. rewrite region_at_map. reflexivity.
Qed.

(** ** Example *)
Module StartupExample.
(** [BL main], [B .] and a [main] that returns; four bytes of data, 256 of variables. *)
Definition code : list Z := [0; 0xf0; 1; 0xf8; 0xfe; 0xe7; 0x70; 0x47].
Definition img : image :=
  {| im_text := vector_table ++ code; im_data := [1; 2; 3; 4]; im_bss := 0x20400004; im_bss_size := 256 |}.
Definition text_phdr : elf_phdr := mk_elf_phdr PT_LOAD 5 116 0 0 16 16.
Definition data_phdr : elf_phdr := mk_elf_phdr PT_LOAD 6 132 0x20400000 0x20400000 4 260.
Definition phdr_bytes (ph : elf_phdr) : list Z :=
  flat_map (le_bytes 4)
    [p_type ph; p_offset ph; p_vaddr ph; p_paddr ph; p_filesz ph; p_memsz ph; p_flags ph; 4].
Definition ehdr_bytes (phnum : Z) : list Z :=
  [0x7f; 0x45; 0x4c; 0x46; 1; 1; 1] ++ replicate 9 0 ++
  le_bytes 2 2 ++ le_bytes 2 EM_ARM ++ flat_map (le_bytes 4) [1; 9; 52; 0; 0x5000200] ++
  flat_map (le_bytes 2) [52; 32; phnum; 40; 0; 0].
Definition file : list Z :=
  ehdr_bytes 2 ++
  phdr_bytes text_phdr ++ phdr_bytes data_phdr ++ im_text img ++ im_data img.

Lemma file_image : elf_image file img (mk_elfhdr EM_ARM 9 52 2) text_phdr (Some data_phdr).
Proof.
  split; [eexists; split_and!; reflexivity|reflexivity..|by split_and!|by split_and!|reflexivity].
Qed.

(** The same code without data and variables, in one segment. *)
Definition plain_img : image :=
  {| im_text := vector_table ++ code; im_data := []; im_bss := 0x20400000; im_bss_size := 0 |}.
Definition plain_phdr : elf_phdr := mk_elf_phdr PT_LOAD 5 84 0 0 16 16.
Definition plain_file : list Z := ehdr_bytes 1 ++ phdr_bytes plain_phdr ++ im_text plain_img.

Lemma plain_file_image : elf_image plain_file plain_img (mk_elfhdr EM_ARM 9 52 1) plain_phdr None.
Proof.
  split; [eexists; split_and!; reflexivity|reflexivity..|by split_and!|by split|reflexivity].
Qed.
End StartupExample.
