(* ===== verification/Migration.v ===== *)
(** * Saving and restoring the two devices

    A migration copies the fields that the VMState description of a device lists
    into the device of the destination and runs its post-load hook.  The stream
    is given by the state it was taken from; nothing is assumed of it but the
    widths of its fields, so that it may also come from a corrupted file. *)
From stdpp Require Import base gmap list numbers.
From S2P Require Import Prelude State OpenSSL Crypto Nv NvRefine Device DeviceInv DeviceSteps Uart UartInv.

(** ** Operations *)
Definition vmstate_nxp_uart (saved s : NXP_UART_STATE) : NXP_UART_STATE :=
  s <| flags := flags saved |> <| lcr := lcr saved |> <| rsr := rsr saved |>
    <| cr := cr saved |> <| dmacr := dmacr saved |> <| int_enabled := int_enabled saved |>
    <| int_level := int_level saved |> <| read_fifo := read_fifo saved |>
    <| ilpr := ilpr saved |> <| ibrd := ibrd saved |> <| fbrd := fbrd saved |>
    <| ifl := ifl saved |> <| read_pos := read_pos saved |> <| read_count := read_count saved |>
    <| read_trigger := read_trigger saved |>.

(** [None]: the hook refuses the stream. *)
Definition nxp_uart_load (saved s : NXP_UART_STATE) : option NXP_UART_STATE :=
  nxp_uart_post_load (vmstate_nxp_uart saved s).

(** The TPM has no hook. *)
Definition vmstate_tpm2 (saved s : TPM2State) : TPM2State :=
  s <| ctrl := ctrl saved |> <| status := status saved |>
    <| key_generated := key_generated saved |>.

(** ** The UART *)

(** What a stream can hold: 16 words of FIFO and two [int]s. *)
Record uart_stream (s : NXP_UART_STATE) : Prop := {
  st_fifo : length (read_fifo s) = 16%nat;
  st_pos : - 2 ^ 31 <= read_pos s < 2 ^ 31;
  st_count : - 2 ^ 31 <= read_count s < 2 ^ 31
}.

(** What of a saved UART has to be the same after it was loaded. *)
Record uart_restored (saved s : NXP_UART_STATE) : Prop := {
  ur_flags : flags s = flags saved;
  ur_lcr : lcr s = lcr saved;
  ur_rsr : rsr s = rsr saved;
  ur_cr : cr s = cr saved;
  ur_dmacr : dmacr s = dmacr saved;
  ur_int_enabled : int_enabled s = int_enabled saved;
  ur_int_level : int_level s = int_level saved;
  ur_ilpr : ilpr s = ilpr saved;
  ur_ibrd : ibrd s = Z.land (ibrd saved) IBRD_MASK;
  ur_fbrd : fbrd s = Z.land (fbrd saved) FBRD_MASK;
  ur_ifl : ifl s = ifl saved;
  ur_count : read_count s = read_count saved;
  ur_trigger : read_trigger s = read_trigger saved
}.

(** The saved cursor and count are positions of the FIFO. *)
Definition stream_accepted (s : NXP_UART_STATE) : bool :=
  (0 <=? read_pos s) && (read_pos s <? 16) && (0 <=? read_count s) && (read_count s <=? 16).

Lemma u64_offset z n : - 2 ^ 31 <= z < 2 ^ 31 -> 0 < n < 2 ^ 31 ->
  (n <=? u64 z) = negb ((0 <=? z) && (z <? n)).
Proof.
  intros Hz Hn. unfold u64. destruct (Z.leb_spec 0 z) as [H|H]; simpl.
  - rewrite Z.mod_small by lia. destruct (Z.ltb_spec z n), (Z.leb_spec n z); simpl; lia.
  - apply Z.leb_le. replace z with (z + 2 ^ 64 + (-1) * 2 ^ 64) by lia.
    rewrite Z.mod_add, Z.mod_small by lia. lia.
Qed.

Lemma stream_check s : uart_stream s ->
  ((16 <=? u64 (read_pos s)) || (16 <? u64 (read_count s))) = negb (stream_accepted s).
Proof.
  intros []. unfold stream_accepted.
  replace (16 <? u64 (read_count s)) with (17 <=? u64 (read_count s))
    by (destruct (Z.ltb_spec 16 (u64 (read_count s))), (Z.leb_spec 17 (u64 (read_count s))); lia).
  rewrite !u64_offset by lia.
  replace (read_count s <? 17) with (read_count s <=? 16)
    by (destruct (Z.ltb_spec (read_count s) 17), (Z.leb_spec (read_count s) 16); lia).
  by rewrite <- negb_andb, !andb_assoc.
Qed.

Lemma load_refused saved s : uart_stream saved ->
  stream_accepted saved = false -> nxp_uart_load saved s = None.
Proof.
  intros Hst E. unfold nxp_uart_load, nxp_uart_post_load, vmstate_nxp_uart. fields.
  by rewrite stream_check, E.
Qed.

(** An accepted stream: the state loaded, with the cursor at 0 when the FIFO is
    disabled and holds something. *)
Lemma load_total saved s : uart_stream saved -> stream_accepted saved = true ->
  exists s', nxp_uart_load saved s = Some s' /\ uart_restored saved s' /\
    irq s' = irq s /\ chr_out s' = chr_out s /\
    if (depth saved =? 1) && (0 <? read_count saved) && (0 <? read_pos saved)
    then read_pos s' = 0 /\
         read_fifo s' = <[0%nat := default 0 (read_fifo saved !! Z.to_nat (read_pos saved))]>
                          (read_fifo saved)
    else read_pos s' = read_pos saved /\ read_fifo s' = read_fifo saved.
Proof.
  intros Hst Ha. unfold nxp_uart_load, nxp_uart_post_load.
  assert (Hen : nxp_uart_is_fifo_enabled (vmstate_nxp_uart saved s) =
                nxp_uart_is_fifo_enabled saved)
    by (unfold nxp_uart_is_fifo_enabled, vmstate_nxp_uart; by fields).
  assert (Hd : (depth saved =? 1) = negb (nxp_uart_is_fifo_enabled saved))
    by (unfold depth, nxp_uart_get_fifo_depth; by destruct (nxp_uart_is_fifo_enabled saved)).
  rewrite Hen, Hd. unfold vmstate_nxp_uart. fields. rewrite stream_check, Ha by done. simpl.
  eexists. split; [reflexivity|].
  destruct (negb _ && _ && _); (split; [split; by fields|fields; split_and!; done]).
Qed.

Lemma stream_of_ok s : uart_ok s -> uart_stream s /\ stream_accepted s = true.
Proof.
  intros []. destruct (depth_cases s); split; [split; [done|lia..]| |split; [done|lia..]|];
    unfold stream_accepted; lia.
Qed.

Lemma restored_ok saved s : uart_restored saved s -> uart_ok saved ->
  read_pos s = read_pos saved -> read_fifo s = read_fifo saved ->
  uart_ok s /\ rx_queue s = rx_queue saved.
Proof.
  intros [] [] Hp Hf. assert (Hd : depth s = depth saved) by by apply depth_lcr.
  rewrite !rx_queue_ring. rewrite Hd, Hf, Hp, ur_count0. split; [|done].
  split; by rewrite ?Hd, ?Hf, ?Hp, ?ur_count0, ?ur_trigger0, ?ur_flags0.
Qed.

(** C35: loading a saved UART.  A stream is accepted exactly when its cursor and
    its count fit the FIFO, whatever it contains otherwise; the registers are
    then those of the stream, the cursor is inside of its array, and with the
    FIFO disabled the next character is in the first slot.  A UART saved in a
    good state is restored: same registers, same queue of characters. *)
Theorem UART_load_correct (saved s : NXP_UART_STATE) :
  uart_stream saved ->
  match nxp_uart_load saved s with
  | None => stream_accepted saved = false
  | Some s' =>
      stream_accepted saved = true /\ uart_restored saved s' /\ uart_safe s' /\
      irq s' = irq s /\ chr_out s' = chr_out s /\
      (depth saved = 1 -> 0 < read_count saved ->
         read_pos s' = 0 /\ read_fifo s' !! 0%nat = read_fifo saved !! Z.to_nat (read_pos saved))
  end /\
  (uart_ok saved -> exists s', nxp_uart_load saved s = Some s' /\ uart_ok s' /\
     rx_queue s' = rx_queue saved).
Proof.
  intros Hst. split.
  - destruct (stream_accepted saved) eqn:Ha; [|by rewrite load_refused].
    destruct (load_total saved s Hst Ha) as (s' & -> & Hr & Hi & Hc & Hp).
    unfold stream_accepted in Ha. destruct Hst.
    do 2 (split; [done|]). split; [|do 2 (split; [done|])].
    + destruct ((depth saved =? 1) && _ && _); destruct Hp as [Hp Hf];
        (split; [by rewrite Hf, ?length_insert|lia]).
    + intros Hd Hn. rewrite Hd in Hp. destruct (Z.ltb_spec 0 (read_pos saved)) as [H0|H0].
      * destruct (Z.ltb_spec 0 (read_count saved)); [|lia]. destruct Hp as [Hp ->].
        split; [done|]. rewrite list_lookup_insert_eq by lia.
        destruct (lookup_lt_is_Some_2 (read_fifo saved) (Z.to_nat (read_pos saved))) as [c ->];
          [lia|done].
      * rewrite andb_false_r in Hp. destruct Hp as [-> ->]. split; [lia|].
        by replace (read_pos saved) with 0 by lia.
  - intros Hok. destruct (stream_of_ok saved Hok) as [_ Ha].
    destruct (load_total saved s Hst Ha) as (s' & E & Hr & _ & _ & Hp).
    exists s'. split; [done|].
    assert (H0 : (depth saved =? 1) && (0 <? read_count saved) && (0 <? read_pos saved) = false)
      by (destruct Hok, (depth_cases saved); lia).
    rewrite H0 in Hp. destruct Hp. by apply restored_ok.
Qed.

(** ** The TPM *)
Section Tpm.
Context `{OS : OpenSSL, !OpenSSLLaws OS, LY : Layout}.

(** Only three registers are migrated: the destination, realized as every device
    is, keeps its own storage, key and protocol state.  An index defined on the
    source is not defined there, and a command in transfer is gone. *)
Lemma TPM2_load_forgets (saved s : TPM2State) :
  tpm2_realize true TPM2State_zero = Some (true, s) ->
  status (vmstate_tpm2 saved s) = status saved /\
  state (vmstate_tpm2 saved s) = TPM_STATE_IDLE /\
  nv_key (vmstate_tpm2 saved s) = Some test_key /\
  forall i, i <> 0x1500016 -> nv_abs (vmstate_tpm2 saved s) !! i = None.
Proof using All.
  intros E. destruct (Z.le_gt_cases 34 (zlen self_test_frame)) as [Hr|Hr];
    [|by destruct (realize_overrun _ _ _ Hr E)].
  destruct (realize_ok Hr) as (s' & E' & _ & Hs & Hk & Ha & _).
  rewrite E in E'. injection E' as <-.
  assert (Hn : nv_abs (vmstate_tpm2 saved s) = nv_abs s)
    by (unfold nv_abs, vmstate_tpm2; by fields).
  assert (Hk' : nv_key (vmstate_tpm2 saved s) = nv_key s)
    by (unfold nv_key, vmstate_tpm2; by fields).
  rewrite Hn, Ha, Hk'. unfold vmstate_tpm2. fields.
  split; [done|]. split; [done|]. split; [done|].
  intros i Hi. by apply lookup_singleton_ne.
Qed.
End Tpm.

Module MigrationExample.
(** A UART that has received one character, saved and loaded into a fresh one. *)
Lemma UART_load_correct_witness :
  exists s', nxp_uart_load UartExample.full UartExample.uart0 = Some s' /\ rx_queue s' = [0x41].
Proof.
  destruct (UART_load_correct UartExample.full UartExample.uart0
    (proj1 (stream_of_ok _ UartExample.full_ok))) as [_ H].
  destruct (H UartExample.full_ok) as (s' & E & _ & Hq).
  exists s'. split; [exact E|]. rewrite Hq. vm_compute. reflexivity.
Defined.
End MigrationExample.
