(* ===== verification/Platform.v ===== *)
(** * The firmware on the board

    The machine of [Board] implements the interface that the firmware is
    verified against: outside of the loopback mode, which the firmware never
    enters, the console accepts every character and hands over the typed ones in
    order, and the TPM window reaches the device. *)
From stdpp Require Import base list numbers gmap strings.
From Stdlib Require Import Ascii.
From S2P Require Import Prelude Constants State Codec Header Unmarshal OpenSSL Crypto Nv NvRefine Device DeviceInv DeviceSteps Uart UartInv Bus FwUart FwUartSpec FwTpm FwTpmSpec Transact EndToEnd Menu Memory MemoryView Access PhysMap PhysMapSpec PhysIO PhysIOSpec Loader Board BoardIO Startup.

(** ** The UART as a console *)
Record console_ok (u : NXP_UART_STATE) : Prop := {
  co_ok : uart_ok u;
  co_irq : irq_ok u;
  co_loopback : nxp_uart_loopback_enabled u = false;
  co_room : Z.testbit (flags u) 5 = false
}.

Lemma loopback_cr u u' : cr u' = cr u -> nxp_uart_loopback_enabled u' = nxp_uart_loopback_enabled u.
Proof. unfold nxp_uart_loopback_enabled. by intros ->. Qed.

Lemma console_write u c :
  console_ok u ->
  exists u', nxp_uart_write u 0 c = Some u' /\ console_ok u' /\ rx_queue u' = rx_queue u /\
    chr_out u' = chr_out u ++ [u8 c].
Proof.
  intros []. destruct (uart_write_queue u 0 c co_ok0 co_loopback0) as (u' & E & Hok & Hq).
  destruct (uart_write_safe u 0 c (uart_ok_safe u co_ok0)) as (u2 & E2 & _ & Hk & Ho).
  pose proof (lines_kept_irq u u2 Hk co_irq0) as Hi.
  assert (u2 = u') as -> by congruence. exists u'. split; [done|]. split; [|done].
  change (nxp_uart_write u 0 c) with (nxp_uart_write_txdata u (u8 c)) in E.
  unfold nxp_uart_write_txdata, nxp_uart_loopback_tx in E. cbv zeta in E.
  replace (nxp_uart_loopback_enabled (u <| chr_out := chr_out u ++ [u8 c] |>)) with false in E.
  simpl negb in E. cbv iota in E. unfold nxp_uart_update in E. cbv zeta in E. injection E as E.
  split; [done|done|..]; rewrite <- E.
  - rewrite <- co_loopback0. apply loopback_cr. by fields.
  - by fields.
Qed.

(** The receive operations do not touch the transmit flag. *)
Lemma put_flag5 u v u' :
  nxp_uart_fifo_rx_put u v = Some u' -> Z.testbit (flags u') 5 = Z.testbit (flags u) 5.
Proof.
  intros E. destruct (put_spec _ _ _ E) as (_ & _ & _ & _ & -> & _). cbv zeta.
  destruct (_ =? _); rewrite ?set_bits_spec, clear_bits_spec by lia; simpl;
    by rewrite ?orb_false_r, andb_true_r.
Qed.

Lemma put_all_flag5 buf : forall u u',
  nxp_uart_rx_put_all u buf = Some u' -> Z.testbit (flags u') 5 = Z.testbit (flags u) 5.
Proof.
  induction buf as [|b buf IH]; intros u u' E; simpl in E; [by simplify_eq|].
  destruct (nxp_uart_fifo_rx_put u b) as [u1|] eqn:E1; [|done].
  by rewrite (IH _ _ E), (put_flag5 _ _ _ E1).
Qed.

Lemma console_receive u buf :
  console_ok u -> zlen buf <= nxp_uart_can_receive u ->
  exists u', nxp_uart_receive u buf = Some u' /\ console_ok u' /\ chr_out u' = chr_out u /\
    rx_queue u' = rx_queue u ++ buf.
Proof.
  intros [] Hl. rewrite can_receive_room in Hl by done. unfold nxp_uart_receive. rewrite co_loopback0.
  destruct (put_all_queue u buf co_ok0 Hl) as (u' & E & Hok & [] & Hq).
  destruct (put_all_safe u buf (uart_ok_safe u co_ok0)) as (u2 & E2 & _ & Hk).
  pose proof (lines_kept_irq u u2 Hk co_irq0) as Hi.
  assert (u2 = u') as -> by congruence. exists u'. split_and!; try done. split; try done.
  - by rewrite (loopback_cr u).
  - by rewrite (put_all_flag5 _ _ _ E).
Qed.

Lemma console_getc u c q :
  console_ok u -> rx_queue u = c :: q ->
  exists u', nxp_uart_read u 0 = Some (c, u') /\ console_ok u' /\ chr_out u' = chr_out u /\
    rx_queue u' = q /\ 0 < nxp_uart_can_receive u'.
Proof.
  intros [] Hq. change (nxp_uart_read u 0) with (nxp_uart_read_rxdata u).
  destruct (rxdata_queue u co_ok0) as (c' & u' & E & Hok & Hf & Hm). rewrite Hq in Hm.
  destruct Hm as [-> Hq']. pose proof Hf as [].
  destruct (rxdata_spec u (uart_ok_safe u co_ok0)) as (u2 & E2 & _ & Hi & _ & _ & _ & Hfl).
  assert (u2 = u') as -> by congruence. exists u'. split; [done|]. split; [split; try done|].
  - by rewrite (loopback_cr u).
  - rewrite Hfl. cbv zeta. destruct (_ =? 0); rewrite ?set_bits_spec, clear_bits_spec, co_room0 by lia; done.
  - split_and!; [done|done|]. rewrite can_receive_room by done.
    assert (Hlen : Z.of_nat (length (rx_queue u')) = read_count u').
    { rewrite rx_queue_ring, ring_length. destruct Hok. lia. }
    assert (Hlen0 : Z.of_nat (length (rx_queue u)) = read_count u).
    { rewrite rx_queue_ring, ring_length. destruct co_ok0. lia. }
    rewrite Hq, Hq' in *. simpl in Hlen0. rewrite (depth_lcr u u') by done. destruct co_ok0. lia.
Qed.

(** ** The machine implements the interface *)

(** The backend holds characters back only while the FIFO is not empty. *)
Record machine_ok (m : Machine) : Prop := {
  mo_console : console_ok (m_uart m);
  mo_waiting : rx_queue (m_uart m) = [] -> m_backend m = []
}.

(** The characters still to be read. *)
Definition machine_inp (m : Machine) : list Z := rx_queue (m_uart m) ++ m_backend m.
Definition machine_out (m : Machine) : list Z := chr_out (m_uart m).

Section Machine.
Context `{OS : OpenSSL, LY : Layout}.

Lemma tpm_access_read m off :
  0 <= off < 0x20 ->
  mem_read m (TPM2_BASE + off) =
    match tpm2_mmio_read (m_tpm m) off with
    | Some (v, t) => Some (v, mk_Machine t (m_uart m) (m_backend m))
    | None => None
    end.
Proof using. intros Ho. simpl. unfold machine_read. by rewrite region_tpm by (unfold TPM_SIZE; lia). Qed.

Lemma tpm_access_write m off v :
  0 <= off < 0x20 ->
  mem_write m (TPM2_BASE + off) v =
    match tpm2_mmio_write (m_tpm m) off v with
    | Some t => Some (mk_Machine t (m_uart m) (m_backend m))
    | None => None
    end.
Proof using. intros Ho. simpl. unfold machine_write. by rewrite region_tpm by (unfold TPM_SIZE; lia). Qed.

Lemma uart_access_write m off v :
  0 <= off < UART_SIZE ->
  mem_write m (UART0_ADDRESS + off) v =
    match nxp_uart_write (m_uart m) off v with
    | Some u => Some (mk_Machine (m_tpm m) u (m_backend m))
    | None => None
    end.
Proof using. intros Ho. simpl. unfold machine_write. by rewrite region_uart. Qed.

Lemma uart_flags m : mem_read m UART0_FLAGREG = Some (flags (m_uart m), m).
Proof using.
  change UART0_FLAGREG with (LPUART_BASE_ADDRESS + 0x18). simpl. unfold machine_read.
  rewrite region_uart by done. by destruct m.
Qed.

#[export] Instance machine_console :
  Console machine_ok machine_out (fun m => (m_tpm m, machine_inp m)).
Proof using.
  split.
  - intros m c [Hc Hb]. destruct (console_write (m_uart m) c Hc) as (u & E & Hu & Hq & Ho).
    change UART0_DATA with (UART0_ADDRESS + 0). rewrite uart_access_write, E by done.
    eexists. split; [reflexivity|]. unfold machine_inp, machine_out. simpl. rewrite Hq, Ho.
    split_and!; try done. split; simpl; [done|by rewrite Hq].
  - intros m [[] _]. exists (flags (m_uart m)). split; [apply uart_flags|done].
Qed.

#[export] Instance machine_port : TpmPort machine_ok machine_out machine_inp m_tpm.
Proof using.
  split.
  - apply _.
  - intros m off v t [] Ho E. rewrite tpm_access_read, E by done.
    eexists. split; [reflexivity|]. by split_and!.
  - intros m off v t [] Ho E. rewrite tpm_access_write, E by done.
    eexists. split; [reflexivity|]. by split_and!.
  - intros m c q [[Hok _ _ _] Hb] Hi. exists (flags (m_uart m)). split; [apply uart_flags|].
    destruct Hok. rewrite uo_empty. apply bool_decide_eq_false_2. intros Hz.
    assert (Hq : rx_queue (m_uart m) = []).
    { apply length_zero_iff_nil. rewrite rx_queue_ring, ring_length. lia. }
    unfold machine_inp in Hi. rewrite Hq, (Hb Hq) in Hi. done.
  - intros m c q [Hc Hb] Hi. unfold machine_inp in Hi.
    destruct (rx_queue (m_uart m)) as [|c' q'] eqn:Hq; [rewrite (Hb eq_refl) in Hi; done|].
    injection Hi as -> <-.
    destruct (console_getc (m_uart m) c q' Hc Hq) as (u & E & Hu & Ho & Hq' & Hroom).
    change UART0_DATA with (LPUART_BASE_ADDRESS + 0). simpl mem_read. unfold machine_read.
    rewrite region_uart by done. rewrite E. change (Z.shiftr 0 2 =? 0) with true. cbv iota.
    unfold accept_input. cbn [m_uart m_backend m_tpm].
    set (n := Z.to_nat (nxp_uart_can_receive u)).
    destruct (console_receive u (take n (m_backend m)) Hu) as (u2 & E2 & Hu2 & Ho2 & Hq2).
    { unfold zlen, n. rewrite length_take. lia. }
    rewrite E2. eexists. split; [reflexivity|]. unfold machine_inp, machine_out. simpl.
    rewrite Hq2, Hq', Ho2, Ho, <- app_assoc, take_drop. split_and!; try done. split; simpl; [done|].
    rewrite Hq2. intros [_ Ht]%app_eq_nil. apply drop_ge.
    apply (f_equal length) in Ht. rewrite length_take in Ht. simpl in Ht. unfold n in *. lia.
Qed.
End Machine.

(** ** Power on *)
Section PowerOn.
Context `{OS : OpenSSL, !OpenSSLLaws OS, LY : Layout, !NameRoom LY}.

(** The machine after the realization of the TPM, on a host that has memory for its
    bank, and the reset of both devices, with [typed] waiting at the console.  QEMU
    ends when the realization fails. *)
Definition power_on (typed : list Z) : option Machine :=
  let? (realized, t) := tpm2_realize true TPM2State_zero else None in
  if negb realized then None
  else accept_input (mk_Machine (tpm2_reset t) (nxp_uart_reset NXP_UART_zero) typed).

Lemma reset_console : console_ok (nxp_uart_reset NXP_UART_zero).
Proof using. destruct uart_reset_ok as [H1 H2]. by split. Qed.

Lemma power_on_ok typed :
  exists m, power_on typed = Some m /\ machine_ok m /\ dev_wf (m_tpm m) /\
    machine_inp m = typed /\ machine_out m = [] /\ nv_key (m_tpm m) = Some test_key /\
    nv_abs (m_tpm m) = {[0x1500016 := fresh_cell test_pub]} /\
    nv_count (m_tpm m) = 1 /\ nv_alloc_offset (m_tpm m) = 48.
Proof using All.
  unfold power_on. destruct (realize_ok self_test_room) as (t & -> & Hw & _ & Hk & Ha & Hc & Hof).
  cbn [negb]. unfold accept_input.
  assert (Hview : nv_key (tpm2_reset t) = Some test_key /\
    nv_abs (tpm2_reset t) = {[0x1500016 := fresh_cell test_pub]} /\
    nv_count (tpm2_reset t) = 1 /\ nv_alloc_offset (tpm2_reset t) = 48).
  { assert (Hsame : same_nv t (tpm2_reset t)) by (unfold tpm2_reset, same_nv; by fields).
    rewrite (nv_key_same t) by (unfold tpm2_reset; by fields).
    rewrite (same_nv_abs _ _ Hsame). destruct Hsame as (_ & _ & _ & -> & ->). done. }
  pose proof (reset_wf t Hw) as Hw'. clear Hw.
  cbn [m_uart m_backend m_tpm]. change (nxp_uart_can_receive (nxp_uart_reset NXP_UART_zero)) with 1.
  destruct (console_receive _ (take (Z.to_nat 1) typed) reset_console) as (u & -> & Hu & Ho & Hq).
  { change (nxp_uart_can_receive (nxp_uart_reset NXP_UART_zero)) with 1.
    unfold zlen. rewrite length_take. lia. }
  eexists. split; [reflexivity|]. unfold machine_inp, machine_out. simpl.
  change (rx_queue (nxp_uart_reset NXP_UART_zero)) with (@nil Z) in Hq.
  rewrite Hq, Ho. split; [|split; [done|split; [|done]]].
  - split; simpl; [done|]. rewrite Hq. by destruct typed.
  - apply take_drop.
Qed.

(** The two registers that [UART_init] writes do not exist in this UART. *)
Lemma UART_init_noop (m : Machine) : UART_init m = Ret tt m.
Proof using.
  unfold UART_init, mbind, fw_bind, write32.
  change UART0_BAUDDIV with (UART0_ADDRESS + 16). change UART0_CTRL with (UART0_ADDRESS + 8).
  rewrite uart_access_write by done. change (nxp_uart_write (m_uart m) 16 16) with (Some (m_uart m)).
  cbv beta iota. rewrite uart_access_write by done. cbn [m_uart m_tpm m_backend].
  change (nxp_uart_write (m_uart m) 8 1) with (Some (m_uart m)). by destruct m.
Qed.

Lemma main_starts rounds fuel resp m :
  machine_ok m -> exists m' txt, main rounds fuel resp m = main_loop rounds fuel resp m' /\
    machine_ok m' /\ m_tpm m' = m_tpm m /\ machine_inp m' = machine_inp m /\
    machine_out m' = machine_out m ++ txt.
Proof using All.
  intros Hm. destruct (runs_printf MSG_START [] 34 m Hm eq_refl ltac:(done))
    as (m' & x & E & H1 & H2 & H3 & H4).
  exists m', x. split; [|exact (conj H1 (conj H2 (conj H3 H4)))].
  unfold main. rewrite (fw_bind_Ret _ _ _ _ _ (UART_init_noop m)).
  exact (fw_bind_Ret _ _ _ _ _ E).
Qed.
End PowerOn.

(** ** Theorems *)

(** C4: given that the compiler left room for the name of a key behind the two-byte
    objects of the two functions that create one ([NameRoom]; their overrun is the
    one that the commands of the menu and the self test cause), the firmware,
    started on the board after power on with [typed] coming in at the console,
    starts and serves all of it: neither its code nor a device leaves an array, no
    busy-wait is endless, and the TPM ends well formed. *)
Theorem firmware_boot_total `{OS : OpenSSL, !OpenSSLLaws OS, LY : Layout, !NameRoom LY} (fuel : nat)
    (typed resp : list Z) :
  (0 < fuel)%nat -> zlen resp = RESPONSE_SIZE -> bytes resp ->
  exists m resp' m', power_on typed = Some m /\
    main (length typed) fuel resp m = Ret resp' m' /\ machine_inp m' = [] /\
    dev_wf (m_tpm m') /\ console_ok (m_uart m').
Proof.
  intros Hf Hl Hb. destruct (power_on_ok typed) as (m & E & Hm & Hw & Hi & _).
  destruct (main_starts (length typed) fuel resp m Hm) as (m1 & x & E1 & Hm1 & Ht1 & Hi1 & _).
  rewrite <- Ht1 in Hw. rewrite Hi in Hi1.
  destruct (main_loop_serves fuel [] Hf typed resp m1 Hm1 Hw) as (r & m2 & y & E2 & [H1 _] & H2 & H3 & _);
    [by rewrite app_nil_r|exact (conj Hl Hb)|].
  exists m, r, m2. split; [exact E|]. split; [exact (eq_trans E1 E2)|]. split; [exact H3|].
  split; [exact H2|exact H1].
Qed.

(** C3: options 3, 4 and 5 typed after power on: the firmware defines the index,
    writes the four characters and reads them back; the response buffer holds a
    success with the text, which went through the registers, the parsers, the
    encrypted storage and back.  As above, the self test of the realization needs
    the room for its name. *)
Theorem firmware_boot_readback `{OS : OpenSSL, !OpenSSLLaws OS, LY : Layout, !NameRoom LY} (fuel : nat)
    (more resp : list Z) :
  (0 < fuel)%nat -> zlen resp = RESPONSE_SIZE -> bytes resp ->
  exists m resp' m', power_on (str "345" ++ more) = Some m /\
    main 3 fuel resp m = Ret resp' m' /\ machine_inp m' = more /\ dev_wf (m_tpm m') /\
    has_reply resp' TPM_RC_SUCCESS ([0; 4] ++ str "TEST").
Proof.
  intros Hf Hl Hb.
  destruct (power_on_ok (str "345" ++ more)) as (m & E & Hm & Hw & Hi & _ & Hk & Ha & Hc & Ho).
  destruct (main_starts 3 fuel resp m Hm) as (m1 & x & E1 & Hm1 & Ht1 & Hi1 & _).
  rewrite <- Ht1 in Hw, Hk, Ha, Hc, Ho. rewrite Hi in Hi1.
  destruct (menu_345 fuel resp m1 more test_key Hf Hm1 Hw (conj Hl Hb) Hi1 Hk)
    as (r & m2 & E2 & _ & Hw2 & Hi2 & Hrep).
  - rewrite Ha. by apply lookup_singleton_ne.
  - by rewrite Hc.
  - by rewrite Ho.
  - exists m, r, m2. split; [exact E|]. split; [exact (eq_trans E1 E2)|]. split; [exact Hi2|].
    split; [exact Hw2|exact Hrep].
Qed.

(** ** Witnesses: the machine after power on, under the toy primitives *)
Module PlatformExample.
#[local] Existing Instances Toy.openssl Toy.laws DeviceExample.toy_layout DeviceExample.toy_room.

Definition m0 : Machine :=
  default (mk_Machine TPM2State_zero NXP_UART_zero []) (power_on (str "345")).

Lemma m0_ok :
  machine_ok m0 /\ dev_wf (m_tpm m0) /\ nv_key (m_tpm m0) = Some test_key /\
  nv_abs (m_tpm m0) = {[0x1500016 := fresh_cell test_pub]} /\
  nv_count (m_tpm m0) = 1 /\ nv_alloc_offset (m_tpm m0) = 48.
Proof.
  unfold m0. destruct (power_on_ok (str "345")) as (m & -> & H1 & H2 & _ & _ & H3). done.
Qed.

Definition resp0 : list Z := replicate 1024 0.
Lemma resp0_ok : zlen resp0 = RESPONSE_SIZE /\ bytes resp0.
Proof. split; [reflexivity|apply bytes_zero]. Qed.

(** A 16-bit read at an odd address of the UART, and the eight bytes of two registers
    of the TPM. *)
Lemma cpu_access_correct_witness :
  exists m, cpu_read m (LPUART_BASE_ADDRESS + 1) 2 = Some (MEMTX_DECODE_ERROR, 0, m) /\
    cpu_read m (TPM_BASE_ADDRESS + 0x10) 8 =
      (let? (v, m1) := machine_read m (TPM_BASE_ADDRESS + 0x10) else None in
       let? (w, m2) := machine_read m1 (TPM_BASE_ADDRESS + 0x10 + 4) else None in
       Some (MEMTX_OK, u32 v + 2 ^ 32 * u32 w, m2)).
Proof.
  assert (E : region_at (LPUART_BASE_ADDRESS + 1) = Some (UART, 1)) by (apply region_uart; done).
  assert (E' : region_at (TPM_BASE_ADDRESS + 0x10) = Some (TPM, 0x10)) by (apply region_tpm; done).
  exists m0. generalize m0. intros m. split.
  - pose proof (cpu_access_correct m (LPUART_BASE_ADDRESS + 1) 2 0 (or_intror (or_introl eq_refl))) as H.
    rewrite E in H. change ((LPUART_BASE_ADDRESS + 1) mod 2 =? 0) with false in H. cbv iota in H.
    destruct (H (or_intror eq_refl)) as [H' _]. exact H'.
  - pose proof (cpu_access_correct m (TPM_BASE_ADDRESS + 0x10) 8 0
      (or_intror (or_intror (or_intror eq_refl)))) as H.
    rewrite E' in H. change ((TPM_BASE_ADDRESS + 0x10) mod 8 =? 0) with true in H.
    change (8 =? 8) with true in H. cbv iota in H. destruct (H (or_introl eq_refl)) as [H' _]. exact H'.
Defined.

(** A write across the border of two SRAM blocks. *)
Lemma board_transfers_correct_witness :
  exists d st',
    dispatch_of 16 cpu_view = Some d /\
    run_transfers (block_kind (fun _ => unassigned_mem_ops))
      (mk_AddressSpace d (fun b => replicate (Z.to_nat (block_size b)) 0) m0)
      [TWrite 0x2043fffe [1; 2; 3; 4]; TRead 0x2043ffff 2] =
    Some ([(MEMTX_OK, []); (MEMTX_OK, [2; 3])], st').
Proof.
  generalize m0. intros m.
  destruct (board_transfers_correct (fun _ => unassigned_mem_ops) 16
    (fun b => replicate (Z.to_nat (block_size b)) 0) m) as (d & Hd & Hmem & _);
    [intros b; apply zlen_replicate; by destruct b|].
  destruct (Hmem [TWrite 0x2043fffe [1; 2; 3; 4]; TRead 0x2043ffff 2] eq_refl) as (st' & Hr & _).
  exists d, st'. split; [exact Hd|]. rewrite Hr. vm_compute. reflexivity.
Defined.

(** The small images, in a guest whose memory is all ones: the code and the data are
    there after a reset, the variables behind the data are cleared, and without data
    the SRAM is as before. *)
Lemma startup_correct_witness :
  exists d, dispatch_of 16 cpu_view = Some d /\
    let g := mk_Guest (fun _ => d) (fun b => replicate (Z.to_nat (block_size b)) 255) m0 in
    (exists rs g', rom_reset (block_kind (fun _ => unassigned_mem_ops)) false rs g = Some (rs, g') /\
      byte_at g' 0x20400002 = Some 3 /\ byte_at g' 0x20400005 = Some 0) /\
    (exists rs g', rom_reset (block_kind (fun _ => unassigned_mem_ops)) false rs g = Some (rs, g') /\
      byte_at g' 4 = Some 9 /\ byte_at g' 0x20400005 = byte_at g 0x20400005).
Proof.
  destruct (dispatch_of_serves 16 cpu_view cpu_view_ok cpu_view_small) as (d & pg & Hd & Hsv).
  exists d. split; [exact Hd|]. generalize m0. intros m. cbv zeta.
  assert (Hg : guest_ok 2 (mk_Guest (fun _ => d) (fun b => replicate (Z.to_nat (block_size b)) 255) m)).
  { split; [exists pg; exact Hsv|]. intros b. apply zlen_replicate. by destruct b. }
  split.
  - destruct (startup_correct (fun _ => unassigned_mem_ops) StartupExample.code [1; 2; 3; 4] 0 256
      StartupExample.img StartupExample.file _ _ _ 2 1 0 0 eq_refl ltac:(lia) ltac:(lia)
      StartupExample.file_image ltac:(lia)) as (rs0 & rs & _ & _ & Hreset & _).
    destruct (Hreset _ 0 Hg) as (g' & Hr & _ & _ & _ & Hdata & Hbss & _). exists rs, g'.
    split; [exact Hr|]. split; [exact (Hdata 2 ltac:(split; reflexivity || done))|].
    exact (Hbss 0x20400005 ltac:(split; reflexivity || done)).
  - destruct (startup_correct (fun _ => unassigned_mem_ops) StartupExample.code [] 0 0
      StartupExample.plain_img StartupExample.plain_file _ _ _ 2 1 0 0 eq_refl ltac:(lia) ltac:(lia)
      StartupExample.plain_file_image ltac:(lia)) as (rs0 & rs & _ & _ & Hreset & _).
    destruct (Hreset _ 0 Hg) as (g' & Hr & _ & _ & Htext & _ & Hbss & _). exists rs, g'.
    split; [exact Hr|]. split; [exact (Htext 4 ltac:(split; reflexivity || done))|].
    exact (Hbss 0x20400005 ltac:(split; reflexivity || done)).
Defined.

Lemma UART_printf_bounded_witness :
  exists m' txt, UART_printf MSG_SENDING [AInt 28; AInt 28] m0 = Ret tt m' /\
    machine_out m' = machine_out m0 ++ txt.
Proof.
  destruct (UART_printf_bounded machine_ok machine_out (fun m => (m_tpm m, machine_inp m))
    MSG_SENDING [AInt 28; AInt 28] 61 m0 machine_console (proj1 m0_ok)) as (m' & txt & H1 & _ & _ & H2);
    [vm_compute; reflexivity|lia|].
  exists m', txt. split; [exact H1|exact H2].
Defined.

Lemma UART_print_hex_roundtrip_witness :
  exists m' txt, UART_print_hex 1 [0x80; 0x01; 0xFF] 3 m0 = Ret tt m' /\
    machine_out m' = machine_out m0 ++ txt /\ unhex txt = [0x80; 0x01; 0xFF].
Proof.
  destruct (UART_print_hex_roundtrip machine_ok machine_out (fun m => (m_tpm m, machine_inp m))
    1 [0x80; 0x01; 0xFF] 3 m0 machine_console (proj1 m0_ok)) as (m' & txt & H1 & _ & _ & H2 & H3);
    [lia|vm_compute; split; discriminate|apply (bool_decide_unpack _); by vm_compute|].
  exists m', txt. split; [exact H1|]. split; [exact H2|exact H3].
Defined.

(** TPM2_GetRandom is never undefined. *)
Lemma get_random_defined : ~ execute_undefined (loaded (m_tpm m0) CMD_GET_RANDOM).
Proof.
  destruct m0_ok as (_ & Hw & _).
  destruct (select_served (m_tpm m0) Hw (chr "1") CMD_GET_RANDOM eq_refl) as (Hb & Hl & t' & E).
  pose proof (execute_outcome _ (loaded_wf _ _ Hw Hb Hl) eq_refl) as H. rewrite E in H. apply H.
Qed.

Lemma run_command_correct_witness :
  exists resp' m', run_command 1 CMD_GET_RANDOM resp0 m0 = Ret resp' m' /\
    state (m_tpm m') = TPM_STATE_IDLE.
Proof.
  destruct (run_command_correct machine_ok machine_out machine_inp m_tpm 1 CMD_GET_RANDOM resp0 m0
    machine_port (proj1 m0_ok) (proj1 (proj2 m0_ok))) as (t' & rc & body & r & m' & x & d & _ & _ & H1 & _ & _ & _ & _ & H2 & _);
    [lia|apply (bool_decide_unpack _); by vm_compute|vm_compute; discriminate|
     exact (proj1 resp0_ok)|exact (proj2 resp0_ok)|exact get_random_defined|].
  exists r, m'. split; [exact H1|exact H2].
Defined.

(** A write to the index of the self test. *)
Definition text_params : NV_Write_Params :=
  mk_NV_Write_Params 0x40000001 0x1500016 (mk_TPM2B 4 (str "TEST")) 8.
Lemma text_params_ok : ok_NV_Write text_params.
Proof.
  unfold ok_NV_Write, text_params. cbn [wp_authHandle wp_nvIndex wp_data wp_offset].
  refine (conj _ (conj _ (conj _ _))); [unfold is_u32; lia..| |unfold is_u16; lia].
  exact (proj1 (proj2 (proj2 write_params_ok))).
Qed.

Lemma firmware_nv_roundtrip_witness :
  exists resp' m',
    (r ← run_command 1 (command TPM_CC_NV_Write (enc_NV_Write text_params)) resp0;
     run_command 1 (command TPM_CC_NV_Read (enc_NV_Read
       (mk_NV_Read_Params 0x40000001 0x1500016 3 8))) r) m0 = Ret resp' m' /\
    has_reply resp' TPM_RC_SUCCESS ([0; 3] ++ str "TES").
Proof.
  destruct m0_ok as (Hm & Hw & Hk & Ha & _).
  destruct (firmware_nv_roundtrip machine_ok machine_out machine_inp m_tpm 1 text_params 0x40000001 3
    resp0 m0 (fresh_cell test_pub) test_key machine_port Hm Hw)
    as (r & m' & x & d & H1 & _ & _ & _ & H2 & _);
    [lia|exact (proj1 resp0_ok)|exact (proj2 resp0_ok)|exact text_params_ok|vm_compute; discriminate|
     unfold is_u32; lia|rewrite Ha; apply lookup_singleton_eq|exact Hk|eexists; reflexivity| |
     cbn [text_params wp_data b_size]; lia|].
  - unfold write_allowed. split_and!; vm_compute; try done; intuition discriminate.
  - exists r, m'. split; [exact H1|exact H2].
Defined.



Lemma firmware_boot_total_witness :
  exists m resp' m', power_on (str "12x") = Some m /\ main 3 1 resp0 m = Ret resp' m'.
Proof.
  destruct (firmware_boot_total 1 (str "12x") resp0 ltac:(lia) (proj1 resp0_ok) (proj2 resp0_ok))
    as (m & r & m' & H1 & H2 & _).
  exists m, r, m'. split; [exact H1|exact H2].
Defined.

Lemma firmware_boot_readback_witness :
  exists m resp' m', power_on (str "345") = Some m /\ main 3 1 resp0 m = Ret resp' m' /\
    has_reply resp' TPM_RC_SUCCESS ([0; 4] ++ str "TEST").
Proof.
  destruct (firmware_boot_readback 1 [] resp0 ltac:(lia) (proj1 resp0_ok) (proj2 resp0_ok))
    as (m & r & m' & H1 & H2 & _ & _ & H3).
  exists m, r, m'. split; [exact H1|]. split; [exact H2|exact H3].
Defined.
End PlatformExample.
